(** * TransPose / TransActionH: a shallow embedding and its verified properties

    The development follows the two source files of the repository:
    - [lib/models/transaction_h.py]: the limb-vector routine
      [get_pose_vectors], the residual blocks, the transformer encoder, the
      multi-branch [HighResolutionModule] and the [TransActionH] network;
    - [lib/core/function.py]: [accuracy_classification] and [AverageMeter].

    Python exceptions are results of an error monad.  Tensors are followed at
    two levels: a generic one, where the sub-modules of the network are
    functions on an arbitrary tensor type (data flow), and the level of shapes
    ([torch.Size] as a list of naturals), where every layer is interpreted by
    the shape rule of the corresponding torch operator.  The mode of the
    network ([model.train()] or [model.eval()]) is an argument of the
    shape-level forward pass: batch normalisation refuses, in training mode,
    an input with one value per channel.  Real-valued data (confidences,
    coordinates, meter values) are idealised as exact reals or rationals. *)

From Stdlib Require Import ZArith QArith Qabs Reals Lia Lra Ascii String.
From stdpp Require Import base list strings gmap pretty.

Local Open Scope nat_scope.
Set Warnings "-register-all".

(** ** Exceptions and the result monad *)

Inductive exn : Type :=
| ValueError (msg : string)
| IndexError
| KeyError
| RuntimeError
| AssertionError
| UnboundLocalError
| ZeroDivisionError
| TypeError.

Inductive res (A : Type) : Type :=
| Ok (a : A)
| Raise (e : exn).
Arguments Ok {A} a.
Arguments Raise {A} e.

#[global] Instance res_ret : MRet res := fun A a => Ok a.
#[global] Instance res_bind : MBind res := fun A B f m =>
  match m with
  | Ok a => f a
  | Raise e => Raise e
  end.
#[global] Instance res_fmap : FMap res := fun A B f m =>
  match m with
  | Ok a => Ok (f a)
  | Raise e => Raise e
  end.

Definition is_Ok {A} (r : res A) : bool :=
  match r with Ok _ => true | Raise _ => false end.

Definition raises_ValueError {A} (r : res A) : bool :=
  match r with Raise (ValueError _) => true | _ => false end.

(** [l[i]] on a Python list, a [ModuleList] or an array axis: [IndexError]
    out of range. *)
Definition getitem {A} (l : list A) (i : nat) : res A :=
  match l !! i with
  | Some a => Ok a
  | None => Raise IndexError
  end.

(** [l[-1]]. *)
Definition getlast {A} (l : list A) : res A :=
  match last l with
  | Some a => Ok a
  | None => Raise IndexError
  end.

(** [l[i] = v] on a Python list or an array axis. *)
Definition setitem {A} (l : list A) (i : nat) (v : A) : res (list A) :=
  if decide (i < length l) then Ok (<[i := v]> l) else Raise IndexError.

(** A [for] loop whose body may raise, threading the loop state. *)
Fixpoint foldM {A S} (body : S -> A -> res S) (s : S) (l : list A) : res S :=
  match l with
  | [] => Ok s
  | a :: l' => s' ← body s a; foldM body s' l'
  end.

(** A list comprehension whose element expression may raise. *)
Fixpoint mapM {A B} (f : A -> res B) (l : list A) : res (list B) :=
  match l with
  | [] => Ok []
  | a :: l' => b ← f a; bs ← mapM f l'; Ok (b :: bs)
  end.

(** [range(n)] for a Python integer [n]; [enumerate(l)]. *)
Definition range (n : Z) : list nat := seq 0 (Z.to_nat n).
Definition range_from (a : nat) (n : Z) : list nat := seq a (Z.to_nat n - a).
Definition enumerate {A} (l : list A) : list (nat * A) := zip (seq 0 (length l)) l.
Definition len {A} (l : list A) : Z := Z.of_nat (length l).

(** ** Shapes and the shape rules of the torch operators used *)

Definition Shape : Type := list nat.

(** Broadcasting of two shapes, aligned from the right. *)
Fixpoint broadcast_rev (a b : list nat) : res (list nat) :=
  match a, b with
  | [], _ => Ok b
  | _, [] => Ok a
  | x :: a', y :: b' =>
      r ← broadcast_rev a' b';
      if x =? y then Ok (x :: r)
      else if x =? 1 then Ok (y :: r)
      else if y =? 1 then Ok (x :: r)
      else Raise RuntimeError
  end.

Definition broadcast (a b : Shape) : res Shape :=
  r ← broadcast_rev (rev a) (rev b); Ok (rev r).

(** [a + b], [a / b]: the broadcast shape. *)
Definition shape_add (a b : Shape) : res Shape := broadcast a b.

(** [a += b]: [b] must broadcast to the shape of [a]. *)
Definition shape_iadd (a b : Shape) : res Shape :=
  r ← broadcast a b;
  if decide (r = a) then Ok a else Raise RuntimeError.

Definition conv_out (size kernel_size stride padding : nat) : nat :=
  (size + 2 * padding - kernel_size) / stride + 1.

(** [nn.Conv2d] on a batched input [N, C, H, W]; a kernel of size 0 is
    refused when the layer is applied. *)
Definition conv2d_forward (in_channels out_channels kernel_size stride padding : nat)
  (x : Shape) : res Shape :=
  match x with
  | [n; c; h; w] =>
      if negb (c =? in_channels) then Raise RuntimeError
      else if (stride =? 0) || (kernel_size =? 0) then Raise RuntimeError
      else if (h + 2 * padding <? kernel_size) || (w + 2 * padding <? kernel_size)
      then Raise RuntimeError
      else Ok [n; out_channels;
               conv_out h kernel_size stride padding;
               conv_out w kernel_size stride padding]
  | _ => Raise RuntimeError
  end.

(** [nn.BatchNorm2d(num_features)] on a 4D input; [training] is the flag
    [self.training] of the module: [True] after construction and after
    [model.train()], [False] after [model.eval()].  In training mode
    [F.batch_norm] first refuses an input with one value per channel
    ([_verify_batch_size]). *)
Definition batchnorm2d_forward (training : bool) (num_features : nat) (x : Shape)
  : res Shape :=
  match x with
  | [n; c; h; w] =>
      if training && (n * h * w =? 1)
      then Raise (ValueError "Expected more than 1 value per channel when training")
      else if c =? num_features then Ok x else Raise RuntimeError
  | _ => Raise (ValueError "expected 4D input")
  end.

(** [nn.MaxPool2d] with [ceil_mode=False]. *)
Definition maxpool2d_forward (kernel_size stride padding : nat) (x : Shape) : res Shape :=
  match x with
  | [n; c; h; w] =>
      if (stride =? 0) || (kernel_size / 2 <? padding) then Raise RuntimeError
      else if (h + 2 * padding <? kernel_size) || (w + 2 * padding <? kernel_size)
      then Raise RuntimeError
      else Ok [n; c; conv_out h kernel_size stride padding;
               conv_out w kernel_size stride padding]
  | _ => Raise RuntimeError
  end.

Definition adaptive_avg_pool2d_forward (oh ow : nat) (x : Shape) : res Shape :=
  match x with
  | [n; c; h; w] => Ok [n; c; oh; ow]
  | _ => Raise RuntimeError
  end.

(** [nn.Upsample(scale_factor=s, mode='nearest')]. *)
Definition upsample_forward (scale_factor : nat) (x : Shape) : res Shape :=
  match x with
  | [n; c; h; w] => Ok [n; c; h * scale_factor; w * scale_factor]
  | _ => Raise RuntimeError
  end.

(** [nn.Linear]: acts on the last axis. *)
Definition linear_forward (in_features out_features : nat) (x : Shape) : res Shape :=
  match rev x with
  | d :: ds => if d =? in_features then Ok (rev (out_features :: ds)) else Raise RuntimeError
  | [] => Raise RuntimeError
  end.

(** [nn.LayerNorm(d)]: the last axis has size [d]. *)
Definition layernorm_forward (d : nat) (x : Shape) : res Shape :=
  match rev x with
  | d' :: _ => if d' =? d then Ok x else Raise RuntimeError
  | [] => Raise RuntimeError
  end.

(** [x.flatten(start)] and [torch.flatten(x, start)]: the axes from [start]
    on are merged. *)
Definition shape_flatten (start : nat) (x : Shape) : res Shape :=
  if decide (start < length x)
  then Ok (take start x ++ [foldr Nat.mul 1 (drop start x)])
  else Raise IndexError.

Definition is_permutation (dims : list nat) (n : nat) : bool :=
  bool_decide (length dims = n) && forallb (fun i => bool_decide (i ∈ dims)) (seq 0 n).

(** [x.permute(dims)]. *)
Definition shape_permute (dims : list nat) (x : Shape) : res Shape :=
  if is_permutation dims (length x)
  then mapM (getitem x) dims
  else Raise RuntimeError.

Definition numel (x : Shape) : nat := foldr Nat.mul 1 x.

(** [x.contiguous().view(shape)]. *)
Definition shape_view (shape : list nat) (x : Shape) : res Shape :=
  if numel shape =? numel x then Ok shape else Raise RuntimeError.

(** [torch.cat((a, b), dim)]. *)
Definition shape_cat (a b : Shape) (dim : nat) : res Shape :=
  da ← getitem a dim;
  db ← getitem b dim;
  if decide (<[dim := 0]> a = <[dim := 0]> b)
  then Ok (<[dim := da + db]> a)
  else Raise RuntimeError.

(** [torch.stack((a, b), dim)]. *)
Definition shape_stack (a b : Shape) (dim : nat) : res Shape :=
  if decide (a = b) then
    if decide (dim <= length a) then Ok (take dim a ++ 2 :: drop dim a)
    else Raise IndexError
  else Raise RuntimeError.

(** ** Layers, as the constructors describe them *)

(** The two residual block classes of [blocks_dict]. *)
Inductive Block : Type := BasicBlock | Bottleneck.

Definition expansion (block : Block) : nat :=
  match block with
  | BasicBlock => 1
  | Bottleneck => 4
  end.

Definition blocks_dict (key : string) : res Block :=
  if String.eqb key "BASIC" then Ok BasicBlock
  else if String.eqb key "BOTTLENECK" then Ok Bottleneck
  else Raise KeyError.

(** A module of the network: the torch layers that the constructors
    instantiate, a residual block [block(inplanes, planes, stride, downsample)]
    and [nn.Sequential]. *)
Inductive Layer : Type :=
| Conv2d (in_channels out_channels kernel_size stride padding : nat)
| BatchNorm2d (num_features : nat)
| ReLU
| MaxPool2d (kernel_size stride padding : nat)
| AdaptiveAvgPool2d (output_h output_w : nat)
| Upsample (scale_factor : nat)
| Linear (in_features out_features : nat)
| Dropout
| ResBlock (block : Block) (inplanes planes stride : nat) (downsample : option Layer)
| Sequential (layers : list Layer).

(** [conv3x3(in_planes, out_planes, stride)]: 3x3 convolution with padding. *)
Definition conv3x3 (in_planes out_planes stride : nat) : Layer :=
  Conv2d in_planes out_planes 3 stride 1.

(** The forward pass of a layer on shapes.  For a residual block this is
    [BasicBlock.forward] / [Bottleneck.forward]: the convolutions of the
    block, the optional [downsample] of the input, and the in-place
    [out += residual].  [training] is the mode of the network:
    [model.train()] and [model.eval()] set [self.training] on every
    sub-module alike, and the batch normalisations read it. *)
Fixpoint Layer_forward (training : bool) (l : Layer) (x : Shape) {struct l} : res Shape :=
  match l with
  | Conv2d cin cout k s p => conv2d_forward cin cout k s p x
  | BatchNorm2d c => batchnorm2d_forward training c x
  | ReLU => Ok x
  | MaxPool2d k s p => maxpool2d_forward k s p x
  | AdaptiveAvgPool2d oh ow => adaptive_avg_pool2d_forward oh ow x
  | Upsample s => upsample_forward s x
  | Linear i o => linear_forward i o x
  | Dropout => Ok x
  | ResBlock BasicBlock inplanes planes stride downsample =>
      out ← conv2d_forward inplanes planes 3 stride 1 x;
      out ← batchnorm2d_forward training planes out;
      out ← conv2d_forward planes planes 3 1 1 out;
      out ← batchnorm2d_forward training planes out;
      residual ← match downsample with
                 | Some d => Layer_forward training d x
                 | None => Ok x
                 end;
      shape_iadd out residual
  | ResBlock Bottleneck inplanes planes stride downsample =>
      out ← conv2d_forward inplanes planes 1 1 0 x;
      out ← batchnorm2d_forward training planes out;
      out ← conv2d_forward planes planes 3 stride 1 out;
      out ← batchnorm2d_forward training planes out;
      out ← conv2d_forward planes (planes * 4) 1 1 0 out;
      out ← batchnorm2d_forward training (planes * 4) out;
      residual ← match downsample with
                 | Some d => Layer_forward training d x
                 | None => Ok x
                 end;
      shape_iadd out residual
  | Sequential layers =>
      (fix run (ls : list Layer) (x : Shape) {struct ls} : res Shape :=
         match ls with
         | [] => Ok x
         | l' :: ls' => y ← Layer_forward training l' x; run ls' y
         end) layers x
  end.


(** ** [HighResolutionModule] *)

Record HighResolutionModule : Type := {
  num_inchannels : list nat;
  fuse_method : string;
  num_branches : Z;
  multi_scale_output : bool;
  fusion : bool;
  branches : list Layer;
  fuse_layers : option (list (list (option Layer)))
}.

Definition NUM_BRANCHES_msg (what : string) (num_branches n : Z) : string :=
  "NUM_BRANCHES(" +:+ pretty num_branches +:+ ") <> " +:+ what +:+ "(" +:+ pretty n +:+ ")".

(** [HighResolutionModule._check_branches] *)
Definition _check_branches (num_branches : Z) (blocks : Block)
  (num_blocks num_inchannels num_channels : list nat) : res unit :=
  if negb (num_branches =? len num_blocks)%Z then
    Raise (ValueError (NUM_BRANCHES_msg "NUM_BLOCKS" num_branches (len num_blocks)))
  else if negb (num_branches =? len num_channels)%Z then
    Raise (ValueError (NUM_BRANCHES_msg "NUM_CHANNELS" num_branches (len num_channels)))
  else if negb (num_branches =? len num_inchannels)%Z then
    Raise (ValueError (NUM_BRANCHES_msg "NUM_INCHANNELS" num_branches (len num_inchannels)))
  else Ok tt.

(** [HighResolutionModule._make_one_branch]; [self.num_inchannels] is
    threaded explicitly. *)
Definition _make_one_branch (self_num_inchannels : list nat) (branch_index : nat)
  (block : Block) (num_blocks num_channels : list nat) (stride : nat)
  : res (Layer * list nat) :=
  inch ← getitem self_num_inchannels branch_index;
  ch ← getitem num_channels branch_index;
  let downsample :=
    if negb (stride =? 1) || negb (inch =? ch * expansion block)
    then Some (Sequential [Conv2d inch (ch * expansion block) 1 stride 0;
                           BatchNorm2d (ch * expansion block)])
    else None in
  let first := ResBlock block inch ch stride downsample in
  self_num_inchannels ← setitem self_num_inchannels branch_index (ch * expansion block);
  nb ← getitem num_blocks branch_index;
  let rest := map (fun _ => ResBlock block (ch * expansion block) ch 1 None) (seq 1 (nb - 1)) in
  Ok (Sequential (first :: rest), self_num_inchannels).

(** [HighResolutionModule._make_branches] *)
Definition _make_branches (self_num_inchannels : list nat) (num_branches : Z)
  (block : Block) (num_blocks num_channels : list nat) : res (list Layer * list nat) :=
  foldM (fun '(branches, inch) i =>
           '(b, inch) ← _make_one_branch inch i block num_blocks num_channels 1;
           Ok (branches ++ [b], inch))
        ([], self_num_inchannels) (range num_branches).

(** One entry [fuse_layer[j]] of row [i] in [_make_fuse_layers]. *)
Definition make_fuse_entry (num_inchannels : list nat) (i j : nat) : res (option Layer) :=
  if i <? j then
    cj ← getitem num_inchannels j;
    ci ← getitem num_inchannels i;
    Ok (Some (Sequential [Conv2d cj ci 1 1 0; BatchNorm2d ci; Upsample (2 ^ (j - i))]))
  else if j =? i then Ok None
  else
    conv3x3s ← mapM (fun k =>
      if k =? i - j - 1 then
        num_outchannels_conv3x3 ← getitem num_inchannels i;
        cj ← getitem num_inchannels j;
        Ok (Sequential [Conv2d cj num_outchannels_conv3x3 3 2 1;
                        BatchNorm2d num_outchannels_conv3x3])
      else
        num_outchannels_conv3x3 ← getitem num_inchannels j;
        Ok (Sequential [Conv2d num_outchannels_conv3x3 num_outchannels_conv3x3 3 2 1;
                        BatchNorm2d num_outchannels_conv3x3;
                        ReLU])) (seq 0 (i - j));
    Ok (Some (Sequential conv3x3s)).

(** The closing loop of [_make_fuse_layers]: without fusion every entry of
    the rows [i >= 1] is overwritten with [None]. *)
Definition clear_unfused (fuse_layers : list (list (option Layer))) : list (list (option Layer)) :=
  imap (fun i row => if i =? 0 then row else map (fun _ => None) row) fuse_layers.

(** [HighResolutionModule._make_fuse_layers] *)
Definition _make_fuse_layers (num_branches : Z) (num_inchannels : list nat)
  (multi_scale_output fusion : bool) : res (option (list (list (option Layer)))) :=
  if (num_branches =? 1)%Z then Ok None
  else
    fuse_layers ← mapM (fun i => mapM (fun j => make_fuse_entry num_inchannels i j)
                                      (range num_branches))
                       (range (if multi_scale_output then num_branches else 1));
    Ok (Some (if negb fusion then clear_unfused fuse_layers else fuse_layers)).

(** [HighResolutionModule.__init__] *)
Definition HighResolutionModule_init (num_branches : Z) (blocks : Block)
  (num_blocks num_inchannels num_channels : list nat) (fuse_method : string)
  (multi_scale_output fusion : bool) : res HighResolutionModule :=
  _ ← _check_branches num_branches blocks num_blocks num_inchannels num_channels;
  '(branches, num_inchannels) ← _make_branches num_inchannels num_branches blocks num_blocks num_channels;
  fuse_layers ← _make_fuse_layers num_branches num_inchannels multi_scale_output fusion;
  Ok {| num_inchannels := num_inchannels;
        fuse_method := fuse_method;
        num_branches := num_branches;
        multi_scale_output := multi_scale_output;
        fusion := fusion;
        branches := branches;
        fuse_layers := fuse_layers |}.

Definition get_num_inchannels (self : HighResolutionModule) : list nat :=
  num_inchannels self.

(** [HighResolutionModule.forward], for any tensor type [T] on which layers
    can be applied and tensors added. *)
Section HighResolutionModule_forward.
Context {T : Type}.
Variable apply : Layer -> T -> res T.
Variable add : T -> T -> res T.

Definition call_entry (entry : option Layer) (x : T) : res T :=
  match entry with
  | Some l => apply l x
  | None => Raise TypeError
  end.

(** The body shared by both arms of [forward]: the fused output of row [i]. *)
Definition fuse_row (self : HighResolutionModule) (fuse_layers : list (list (option Layer)))
  (x : list T) (i : nat) : res T :=
  y ← (if i =? 0 then getitem x 0
       else row ← getitem fuse_layers i; f ← getitem row 0; x0 ← getitem x 0;
            call_entry f x0);
  y ← foldM (fun y j =>
               if i =? j then xj ← getitem x j; add y xj
               else row ← getitem fuse_layers i; f ← getitem row j; xj ← getitem x j;
                    fx ← call_entry f xj; add y fx)
            y (range_from 1 (num_branches self));
  apply ReLU y.

Definition HighResolutionModule_forward (self : HighResolutionModule) (x : list T)
  : res (list T) :=
  if (num_branches self =? 1)%Z then
    b ← getitem (branches self) 0; x0 ← getitem x 0; y ← apply b x0; Ok [y]
  else
    x ← foldM (fun x i => b ← getitem (branches self) i; xi ← getitem x i;
                          y ← apply b xi; setitem x i y)
              x (range (num_branches self));
    match fuse_layers self with
    | None => Raise TypeError
    | Some fuse_layers =>
        if fusion self then
          mapM (fun i => fuse_row self fuse_layers x i) (seq 0 (length fuse_layers))
        else
          mapM (fun i => if i =? 0 then fuse_row self fuse_layers x i else getitem x i)
               (seq 0 (length fuse_layers))
    end.

End HighResolutionModule_forward.

(** *** The fuse layers in closed form *)

(** What the claim describes for [j > i]: a 1x1 convolution to the channels
    of branch [i] and an upsampling by [2 ^ (j - i)]. *)
Definition upsample_path (c_j c_i i j : nat) : Layer :=
  Sequential [Conv2d c_j c_i 1 1 0; BatchNorm2d c_i; Upsample (2 ^ (j - i))].

(** What the claim describes for [j < i]: [i - j] convolutions of stride 2,
    the last one to the channels of branch [i]. *)
Definition downsample_path (c_j c_i i j : nat) : Layer :=
  Sequential (replicate (i - j - 1) (Sequential [Conv2d c_j c_j 3 2 1; BatchNorm2d c_j; ReLU])
              ++ [Sequential [Conv2d c_j c_i 3 2 1; BatchNorm2d c_i]]).

(** The entry [fuse_layers[i][j]] of a module: nothing on the diagonal and,
    without fusion, nothing in the rows [i >= 1]. *)
Definition expected_fuse_entry (fusion : bool) (c_i c_j i j : nat) : option Layer :=
  if negb fusion && negb (i =? 0) then None
  else if i <? j then Some (upsample_path c_j c_i i j)
  else if j =? i then None
  else Some (downsample_path c_j c_i i j).

(** [size / 2 ^ k], rounded up. *)
Definition ceil_div_pow2 (size k : nat) : nat := (size + 2 ^ k - 1) / 2 ^ k.

(** ** [get_pose_vectors]: limb vectors and their pairwise cosines

    [preds] has shape (bs, J, 2) and [maxvals] shape (bs, J, 1); coordinates
    and confidences are idealised as reals. *)

Abbreviation vec := (R * R)%type (only parsing).

Definition vsub (a b : vec) : vec := ((a.1 - b.1)%R, (a.2 - b.2)%R).
Definition vdiv (a : vec) (c : R) : vec := ((a.1 / c)%R, (a.2 / c)%R).
(** [np.linalg.norm] of a 2-vector and [np.inner] of two. *)
Definition norm (a : vec) : R := sqrt (a.1 * a.1 + a.2 * a.2).
Definition inner (a b : vec) : R := (a.1 * b.1 + a.2 * b.2)%R.

Definition Rgeb (x y : R) : bool := if Rge_dec x y then true else false.
Definition Reqb (x y : R) : bool := if Req_dec_T x y then true else false.

Definition joints_of_limbs : list nat := [0; 5; 6; 7; 8; 9; 10; 11; 12; 13; 14; 15; 16].

(** The body of the innermost loop that fills [vectors[batch]]: [n], [i] come
    from [enumerate(joints_of_limbs[:-1])] and [j] from
    [joints_of_limbs[(n + 1):]].  The confidence test reads [maxvals[batch][n]]
    and [maxvals[batch][j]]. *)
Definition limb_step (preds_b : list vec) (maxvals_b : list R) (n i j : nat)
  (st : Z * list vec) : res (Z * list vec) :=
  let idx := (st.1 + 1)%Z in
  let vectors := st.2 in
  mn ← getitem maxvals_b n;
  if Rgeb mn 0.4 then
    mj ← getitem maxvals_b j;
    if Rgeb mj 0.4 then
      p_i ← getitem preds_b i;
      p_j ← getitem preds_b j;
      if negb (Reqb (norm (vsub p_i p_j)) 0) then
        vectors ← setitem vectors (Z.to_nat idx) (vdiv (vsub p_i p_j) (norm (vsub p_i p_j)));
        Ok (idx, vectors)
      else Ok (idx, vectors)
    else Ok (idx, vectors)
  else Ok (idx, vectors).

(** The first pair of nested loops of one batch element, on the zero-filled
    [vectors[batch]] of shape (13 * 6, 2). *)
Definition limb_vectors (preds_b : list vec) (maxvals_b : list R) : res (list vec) :=
  st ← foldM (fun st '(n, i) =>
                foldM (fun st '(m, j) => limb_step preds_b maxvals_b n i j st)
                      st (enumerate (drop (n + 1) joints_of_limbs)))
             ((-1)%Z, replicate (13 * 6) (0%R, 0%R))
             (enumerate (removelast joints_of_limbs));
  Ok st.2.

(** The second pair of nested loops: [angles[batch]], of length
    [int(78 * 77 / 2)]. *)
Definition limb_angles (vectors_b : list vec) : res (list R) :=
  st ← foldM (fun st '(n, v1) =>
                foldM (fun (st : Z * list R) '(m, v2) =>
                         let idx := (st.1 + 1)%Z in
                         angles ← setitem st.2 (Z.to_nat idx) (inner v1 v2);
                         Ok (idx, angles))
                      st (enumerate (drop (n + 1) vectors_b)))
             ((-1)%Z, replicate (78 * 77 / 2) 0%R)
             (enumerate (removelast vectors_b));
  Ok st.2.

(** [get_pose_vectors(preds, maxvals)]; the result is the array [angles]
    (before its conversion to a tensor).  [maxvals[batch]] is read at the first
    iteration of the inner loop, that is before anything else of the batch
    element. *)
Definition get_pose_vectors (preds : list (list vec)) (maxvals : list (list R))
  : res (list (list R)) :=
  mapM (fun batch =>
          preds_b ← getitem preds batch;
          maxvals_b ← getitem maxvals batch;
          vectors_b ← limb_vectors preds_b maxvals_b;
          limb_angles vectors_b)
       (seq 0 (length preds)).

(** The position of the pair ([n], [m]) of the nested enumeration in
    [vectors[batch]], and the joints it stands for. *)
Definition limb_pairs : list (nat * nat * nat) :=
  flat_map (fun '(n, i) => map (fun '(m, j) => (n, i, j))
                               (enumerate (drop (n + 1) joints_of_limbs)))
           (enumerate (removelast joints_of_limbs)).

(** What the claim expects at a pair of joints [i], [j]: the unit vector
    between the two predicted positions when both confidences reach 0.4 and
    the positions differ, the zero vector otherwise. *)
Definition expected_limb_vector (p_i p_j : vec) (c_i c_j : R) : vec :=
  if Rgeb c_i 0.4 && Rgeb c_j 0.4 && negb (Reqb (norm (vsub p_i p_j)) 0)
  then vdiv (vsub p_i p_j) (norm (vsub p_i p_j))
  else (0%R, 0%R).

(** The nested loops of [limb_vectors] as one loop over [limb_pairs]. *)
Definition run_pairs (preds_b : list vec) (maxvals_b : list R)
  (pairs : list (nat * nat * nat)) (st : Z * list vec) : res (Z * list vec) :=
  foldM (fun st '(n, i, j) => limb_step preds_b maxvals_b n i j st) st pairs.

(** What one iteration leaves at its position: the unit vector when the
    tests on [maxvals[n]], [maxvals[j]] and on the distance pass, the old
    entry otherwise. *)
Definition stored_vector (p_i p_j : vec) (c_n c_j : R) (old : vec) : vec :=
  if Rgeb c_n 0.4 && Rgeb c_j 0.4 && negb (Reqb (norm (vsub p_i p_j)) 0)
  then vdiv (vsub p_i p_j) (norm (vsub p_i p_j))
  else old.

(** An input on which the test on [maxvals[n]] and the confidence of joint
    [i] disagree: all 17 joints are confident except the left eye (joint 1,
    not a limb joint); the right shoulder (joint 6) is at (3, 4), every other
    joint at the origin. *)
Definition bug_preds : list vec :=
  <[6 := (3%R, 4%R)]> (replicate 17 (0%R, 0%R)).
Definition bug_maxvals : list R :=
  <[1 := 0%R]> (replicate 17 1%R).

(** ** The transformer encoder, for any tensor type *)

Section Transformer.
Context {T : Type}.
(** Tensor addition ([tensor + pos], [src + dropout(src2)]). *)
Variable add : T -> T -> res T.

(** What a layer returns: the tensor [src], or the pair [(src, att_map)] when
    [return_atten_map] is set. *)
Inductive LayerOut : Type :=
| Out (src : T)
| OutMap (src att_map : T).

(** A [TransformerEncoderLayer] with its sub-modules as functions.
    [self_attn query key value attn_mask key_padding_mask] is
    [nn.MultiheadAttention.forward] and returns the attended values and the
    attention weights. *)
Record TransformerEncoderLayer : Type := {
  self_attn : T -> T -> T -> option T -> option T -> res (T * T);
  linear1 : T -> res T;
  dropout : T -> res T;
  linear2 : T -> res T;
  norm1 : T -> res T;
  norm2 : T -> res T;
  dropout1 : T -> res T;
  dropout2 : T -> res T;
  activation : T -> res T;
  normalize_before : bool;
  return_atten_map : bool
}.

(** [TransformerEncoderLayer.with_pos_embed] *)
Definition with_pos_embed (tensor : T) (pos : option T) : res T :=
  match pos with
  | None => Ok tensor
  | Some pos => add tensor pos
  end.

(** [TransformerEncoderLayer.forward_post] *)
Definition forward_post (self : TransformerEncoderLayer) (src : T)
  (src_mask src_key_padding_mask pos : option T) : res LayerOut :=
  q ← with_pos_embed src pos;
  let k := q in
  '(src2, att_map) ← self_attn self q k src src_mask src_key_padding_mask;
  d ← dropout1 self src2;
  src ← add src d;
  src ← norm1 self src;
  a ← linear1 self src;
  a ← activation self a;
  a ← dropout self a;
  src2 ← linear2 self a;
  d ← dropout2 self src2;
  src ← add src d;
  src ← norm2 self src;
  if return_atten_map self then Ok (OutMap src att_map) else Ok (Out src).

(** [TransformerEncoderLayer.forward_pre] *)
Definition forward_pre (self : TransformerEncoderLayer) (src : T)
  (src_mask src_key_padding_mask pos : option T) : res LayerOut :=
  src2 ← norm1 self src;
  q ← with_pos_embed src2 pos;
  let k := q in
  '(src2, att_map) ← self_attn self q k src src_mask src_key_padding_mask;
  d ← dropout1 self src2;
  src ← add src d;
  src2 ← norm2 self src;
  a ← linear1 self src2;
  a ← activation self a;
  a ← dropout self a;
  src2 ← linear2 self a;
  d ← dropout2 self src2;
  src ← add src d;
  if return_atten_map self then Ok (OutMap src att_map) else Ok (Out src).

(** [TransformerEncoderLayer.forward] *)
Definition TransformerEncoderLayer_forward (self : TransformerEncoderLayer) (src : T)
  (src_mask src_key_padding_mask pos : option T) : res LayerOut :=
  if normalize_before self
  then forward_pre self src src_mask src_key_padding_mask pos
  else forward_post self src src_mask src_key_padding_mask pos.

Record TransformerEncoder : Type := {
  layers : list TransformerEncoderLayer;
  num_layers : nat;
  encoder_norm : option (T -> res T);
  pe_only_at_begin : bool;
  encoder_return_atten_map : bool
}.

(** One iteration of the loop of [TransformerEncoder.forward]; the state is
    [(output, atten_maps_list, pos)].  A layer and an encoder that disagree
    on [return_atten_map] make Python unpack a tensor or hand a tuple to the
    next layer; neither constructor call of the network sets the flag, and the
    disagreement is a [TypeError] here. *)
Definition encoder_step (self : TransformerEncoder) (mask src_key_padding_mask : option T)
  (st : T * list T * option T) (layer : TransformerEncoderLayer)
  : res (T * list T * option T) :=
  let '(output, atten_maps_list, pos) := st in
  r ← TransformerEncoderLayer_forward layer output mask src_key_padding_mask pos;
  let pos := if pe_only_at_begin self then None else pos in
  match r, encoder_return_atten_map self with
  | OutMap output att_map, true => Ok (output, atten_maps_list ++ [att_map], pos)
  | Out output, false => Ok (output, atten_maps_list, pos)
  | _, _ => Raise TypeError
  end.

(** [TransformerEncoder.forward]; with [return_atten_map] the second
    component is the list that [torch.stack] receives, which must not be
    empty. *)
Definition TransformerEncoder_forward (self : TransformerEncoder) (src : T)
  (mask src_key_padding_mask pos : option T) : res (T * option (list T)) :=
  '(output, atten_maps_list, _) ←
    foldM (encoder_step self mask src_key_padding_mask) (src, [], pos) (layers self);
  output ← match encoder_norm self with
           | Some norm => norm output
           | None => Ok output
           end;
  if encoder_return_atten_map self
  then match atten_maps_list with
       | [] => Raise RuntimeError
       | _ :: _ => Ok (output, Some atten_maps_list)
       end
  else Ok (output, None).

(** What the claim describes for one layer: the position embedding is added
    to the input of the layer, the sum is the query and the key of the
    self-attention (the value is the input itself), and the residual and
    feed-forward steps follow. *)
Definition attend_with_pos (layer : TransformerEncoderLayer) (pos src : T) : res T :=
  q ← add src pos;
  attended ← self_attn layer q q src None None;
  d ← dropout1 layer attended.1;
  src ← add src d;
  src ← norm1 layer src;
  a ← linear1 layer src;
  a ← activation layer a;
  a ← dropout layer a;
  src2 ← linear2 layer a;
  d ← dropout2 layer src2;
  src ← add src d;
  norm2 layer src.

End Transformer.

Arguments LayerOut T : clear implicits.
Arguments TransformerEncoderLayer T : clear implicits.
Arguments TransformerEncoder T : clear implicits.

(** [_get_clones(module, N)]: [N] deep copies. *)
Definition _get_clones {M} (module : M) (N : nat) : list M := replicate N module.

(** ** The transformer encoder on shapes *)

(** [nn.MultiheadAttention(embed_dim, ...)] on [query] (L, N, E), [key] and
    [value] (S, N, E): the output (L, N, E) and the head-averaged weights
    (N, L, S). *)
Definition multihead_attention_forward (embed_dim : nat) (query key value : Shape)
  (attn_mask key_padding_mask : option Shape) : res (Shape * Shape) :=
  match query, key, value with
  | [lq; nq; eq], [sk; nk; ek], [sv; nv; ev] =>
      if (eq =? embed_dim) && (ek =? embed_dim) && (ev =? embed_dim)
         && (nk =? nq) && (nv =? nq) && (sv =? sk)
      then Ok ([lq; nq; eq], [nq; lq; sk])
      else Raise AssertionError
  | _, _, _ => Raise AssertionError
  end.

(** [TransformerEncoderLayer.__init__] with [activation="relu"]; the
    constructor of [nn.MultiheadAttention] requires positive [d_model] and
    [nhead] (a [ValueError] in current torch; older versions divide by
    [nhead] without the check) and [d_model] to be divisible by [nhead]. *)
Definition TransformerEncoderLayer_init (d_model nhead dim_feedforward : nat)
  (normalize_before return_atten_map : bool) : res (TransformerEncoderLayer Shape) :=
  if (d_model =? 0) || (nhead =? 0)
  then Raise (ValueError "embed_dim and num_heads must be greater than 0")
  else if negb (d_model mod nhead =? 0) then Raise AssertionError
  else Ok {| self_attn := multihead_attention_forward d_model;
             linear1 := linear_forward d_model dim_feedforward;
             dropout := Ok;
             linear2 := linear_forward dim_feedforward d_model;
             norm1 := layernorm_forward d_model;
             norm2 := layernorm_forward d_model;
             dropout1 := Ok;
             dropout2 := Ok;
             activation := Ok;
             normalize_before := normalize_before;
             return_atten_map := return_atten_map |}.

(** [TransformerEncoder.__init__] *)
Definition TransformerEncoder_init {T} (encoder_layer : TransformerEncoderLayer T)
  (num_layers : nat) (norm : option (T -> res T))
  (pe_only_at_begin return_atten_map : bool) : TransformerEncoder T :=
  {| layers := _get_clones encoder_layer num_layers;
     num_layers := num_layers;
     encoder_norm := norm;
     pe_only_at_begin := pe_only_at_begin;
     encoder_return_atten_map := return_atten_map |}.

(** ** The position embedding, on shapes *)

(** [x[..., -1:, ...]] on axis [axis]. *)
Definition shape_slice_last (axis : nat) (x : Shape) : res Shape :=
  d ← getitem x axis; Ok (<[axis := Nat.min d 1]> x).

(** [x[..., start::2]] on axis [axis]. *)
Definition shape_slice_step2 (axis start : nat) (x : Shape) : res Shape :=
  d ← getitem x axis; Ok (<[axis := (d + 1 - start) / 2]> x).

(** [TransActionH._make_sine_position_embedding], with [h = self.pe_h] and
    [w = self.pe_w]. *)
Definition _make_sine_position_embedding (pe_h pe_w d_model : nat) : res Shape :=
  let h := pe_h in
  let w := pe_w in
  let area : Shape := [1; h; w] in
  let y_embed := area in
  let x_embed := area in
  let one_direction_feats := d_model / 2 in
  y_last ← shape_slice_last 1 y_embed;
  y_embed ← shape_add y_embed y_last;
  x_last ← shape_slice_last 2 x_embed;
  x_embed ← shape_add x_embed x_last;
  let dim_t : Shape := [one_direction_feats] in
  pos_x ← shape_add (x_embed ++ [1]) dim_t;
  pos_y ← shape_add (y_embed ++ [1]) dim_t;
  pos_x_sin ← shape_slice_step2 3 0 pos_x;
  pos_x_cos ← shape_slice_step2 3 1 pos_x;
  pos_x ← shape_stack pos_x_sin pos_x_cos 4;
  pos_x ← shape_flatten 3 pos_x;
  pos_y_sin ← shape_slice_step2 3 0 pos_y;
  pos_y_cos ← shape_slice_step2 3 1 pos_y;
  pos_y ← shape_stack pos_y_sin pos_y_cos 4;
  pos_y ← shape_flatten 3 pos_y;
  pos ← shape_cat pos_y pos_x 3;
  pos ← shape_permute [0; 3; 1; 2] pos;
  pos ← shape_flatten 2 pos;
  shape_permute [2; 0; 1] pos.

(** [TransActionH._make_position_embedding]: the value of
    [self.pos_embedding]. *)
Definition _make_position_embedding (w h d_model : nat) (pe_type : string)
  : res (option Shape) :=
  if negb (bool_decide (pe_type ∈ ["none"; "learnable"; "sine"])) then Raise AssertionError
  else if String.eqb pe_type "none" then Ok None
  else
    let pe_h := h / 4 in
    let pe_w := w / 4 in
    let length := pe_h * pe_w in
    if String.eqb pe_type "learnable" then Ok (Some [length; 1; d_model])
    else pos ← _make_sine_position_embedding pe_h pe_w d_model; Ok (Some pos).

(** ** Configuration *)

(** [cfg.MODEL.EXTRA.STAGE2] / [STAGE3] *)
Record StageCfg : Type := {
  NUM_MODULES : nat;
  NUM_BRANCHES : Z;
  BLOCK : string;
  NUM_BLOCKS : list nat;
  NUM_CHANNELS : list nat;
  FUSE_METHOD : string
}.

(** The fields of [cfg] that the model reads. *)
Record Cfg : Type := {
  LOSS_A1 : Q;
  LOSS_A2 : Q;
  LOSS_A3 : Q;
  STAGE2 : StageCfg;
  STAGE3 : StageCfg;
  FINAL_CONV_KERNEL : nat;
  PRETRAINED_LAYERS : list string;
  DIM_MODEL : nat;
  DIM_FEEDFORWARD : nat;
  ENCODER_LAYERS : nat;
  N_HEAD : nat;
  POS_EMBEDDING : string;
  IMAGE_SIZE : nat * nat;
  DIM_MODEL_ACTION : nat;
  DIM_FEEDFORWARD_ACTION : nat;
  ENCODER_LAYERS_ACTION : nat;
  N_HEAD_ACTION : nat;
  POS_EMBEDDING_ACTION : string;
  NUM_JOINTS : nat;
  NUM_CLASSES : nat
}.

(** ** The constructors of [TransActionH] *)

(** [TransActionH._make_transition_layer] *)
Definition _make_transition_layer (num_channels_pre_layer num_channels_cur_layer : list nat)
  : res (list (option Layer)) :=
  let num_branches_cur := length num_channels_cur_layer in
  let num_branches_pre := length num_channels_pre_layer in
  mapM (fun i =>
          if i <? num_branches_pre then
            cur ← getitem num_channels_cur_layer i;
            pre ← getitem num_channels_pre_layer i;
            if negb (cur =? pre)
            then Ok (Some (Sequential [Conv2d pre cur 3 1 1; BatchNorm2d cur; ReLU]))
            else Ok None
          else
            conv3x3s ← mapM (fun j =>
                inchannels ← getlast num_channels_pre_layer;
                outchannels ← (if j =? i - num_branches_pre
                               then getitem num_channels_cur_layer i
                               else Ok inchannels);
                Ok (Sequential [Conv2d inchannels outchannels 3 2 1;
                                BatchNorm2d outchannels; ReLU]))
              (seq 0 (i + 1 - num_branches_pre));
            Ok (Some (Sequential conv3x3s)))
       (seq 0 num_branches_cur).

(** [TransActionH._make_layer]; returns the layer and the new
    [self.inplanes]. *)
Definition _make_layer (self_inplanes : nat) (block : Block) (planes blocks stride : nat)
  : Layer * nat :=
  let downsample :=
    if negb (stride =? 1) || negb (self_inplanes =? planes * expansion block)
    then Some (Sequential [Conv2d self_inplanes (planes * expansion block) 1 stride 0;
                           BatchNorm2d (planes * expansion block)])
    else None in
  let first := ResBlock block self_inplanes planes stride downsample in
  let self_inplanes := planes * expansion block in
  let rest := map (fun _ => ResBlock block self_inplanes planes 1 None) (seq 1 (blocks - 1)) in
  (Sequential (first :: rest), self_inplanes).

(** [TransActionH._make_stage]: [reset_multi_scale_output] is bound only
    when [multi_scale_output] is true. *)
Definition _make_stage (layer_config : StageCfg) (num_inchannels : list nat)
  (multi_scale_output fusion : bool) : res (list HighResolutionModule * list nat) :=
  let num_modules := NUM_MODULES layer_config in
  let num_branches := NUM_BRANCHES layer_config in
  let num_blocks := NUM_BLOCKS layer_config in
  let num_channels := NUM_CHANNELS layer_config in
  block ← blocks_dict (BLOCK layer_config);
  let fuse_method := FUSE_METHOD layer_config in
  foldM (fun '(modules, num_inchannels) i =>
           let reset_fusion := if negb fusion && (i =? num_modules - 1) then false else true in
           reset_multi_scale_output ←
             (if multi_scale_output then Ok true else Raise UnboundLocalError);
           m ← HighResolutionModule_init num_branches block num_blocks num_inchannels
                 num_channels fuse_method reset_multi_scale_output reset_fusion;
           Ok (modules ++ [m], get_num_inchannels m))
        ([], num_inchannels) (seq 0 num_modules).

(** ** [TransActionH], for any tensor type

    The sub-modules are the callables that [forward] applies.  [P] is what
    [get_max_preds] returns for the heatmaps (the predicted positions and
    their confidences). *)
Section TransActionH.
Context {T : Type}.

Record TransActionH : Type := {
  a1 : Q;
  a2 : Q;
  a3 : Q;
  conv1 : T -> res T;
  bn1 : T -> res T;
  conv2 : T -> res T;
  bn2 : T -> res T;
  relu : T -> res T;
  layer1 : T -> res T;
  stage2_cfg : StageCfg;
  transition1 : list (option (T -> res T));
  stage2 : list T -> res (list T);
  stage3_cfg : StageCfg;
  transition2 : list (option (T -> res T));
  stage3 : list T -> res (list T);
  reduce : T -> res T;
  pos_embedding : option T;
  global_encoder : T -> option T -> res T;
  global_encoder_action : T -> option T -> res T;
  final_layer : T -> res T;
  action_encoder_branch_part1 : T -> res T;
  action_encoder_branch_part2 : T -> res T;
  action_hrnet_features_branch_96 : T -> res T;
  action_hrnet_features_branch_192 : T -> res T;
  action_hrnet_features_branch_concat : T -> res T;
  action_skeleton_branch : T -> res T;
  pretrained_layers : list string
}.

(** The tensor operations that [forward] uses directly. *)
Record TensorOps : Type := {
  (** [x.shape] *)
  shape : T -> list nat;
  (** [x.flatten(start)], [torch.flatten(x, start)] *)
  flatten : nat -> T -> res T;
  (** [x.permute(dims)] *)
  permute : list nat -> T -> res T;
  (** [x.contiguous().view(shape)] *)
  view : list nat -> T -> res T;
  (** [torch.cat((a, b), dim)] *)
  cat : T -> T -> nat -> res T;
  (** [get_max_preds(y.detach().cpu().numpy())], of [core.inference] *)
  get_max_preds : T -> res (list (list vec) * list (list R));
  (** [torch.from_numpy(angles.astype(np.float32)).cuda()] *)
  from_numpy : list (list R) -> T
}.

Variable ops : TensorOps.

(** The loop that builds [x_list] before stage 2: every branch starts from
    the output [x] of [layer1]. *)
Definition transition1_forward (self : TransActionH) (x : T) : res (list T) :=
  mapM (fun i =>
          t ← getitem (transition1 self) i;
          match t with
          | Some f => f x
          | None => Ok x
          end)
       (range (NUM_BRANCHES (stage2_cfg self))).

(** The loop that builds [x_list] before stage 3. *)
Definition transition2_forward (self : TransActionH) (y_list : list T) : res (list T) :=
  mapM (fun i =>
          t ← getitem (transition2 self) i;
          match t with
          | Some f => y ← getlast y_list; f y
          | None => getitem y_list i
          end)
       (range (NUM_BRANCHES (stage3_cfg self))).

(** [bs, c, h, w = x.shape] *)
Definition unpack4 (s : list nat) : res (nat * nat * nat * nat) :=
  match s with
  | [bs; c; h; w] => Ok (bs, c, h, w)
  | _ => Raise (ValueError "not enough values to unpack")
  end.

(** [TransActionH.forward]: returns [(y, concat)]. *)
Definition TransActionH_forward (self : TransActionH) (x : T) : res (T * T) :=
  x ← conv1 self x;
  x ← bn1 self x;
  x ← relu self x;
  x ← conv2 self x;
  x ← bn2 self x;
  x ← relu self x;
  x ← layer1 self x;
  x_list ← transition1_forward self x;
  y_list ← stage2 self x_list;
  x_list ← transition2_forward self y_list;
  y_list ← stage3 self x_list;
  y0 ← getitem y_list 0;
  x ← reduce self y0;
  '(bs, c, h, w) ← unpack4 (shape ops x);
  x ← flatten ops 2 x;
  x ← permute ops [2; 0; 1] x;
  (* pose *)
  y ← global_encoder self x (pos_embedding self);
  y ← permute ops [1; 2; 0] y;
  y ← view ops [bs; c; h; w] y;
  y ← final_layer self y;
  (* skeleton *)
  '(preds, maxvals) ← get_max_preds ops y;
  angles ← get_pose_vectors preds maxvals;
  let skeleton_vecs := from_numpy ops angles in
  (* action *)
  r ← global_encoder_action self x (pos_embedding self);
  r ← permute ops [1; 2; 0] r;
  r ← view ops [bs; c; h; w] r;
  r ← action_encoder_branch_part1 self r;
  r ← flatten ops 1 r;
  r ← action_encoder_branch_part2 self r;
  y1 ← getitem y_list 1;
  z ← action_hrnet_features_branch_96 self y1;
  z ← flatten ops 1 z;
  y2 ← getitem y_list 2;
  t ← action_hrnet_features_branch_192 self y2;
  t ← flatten ops 1 t;
  concat ← cat ops z t 1;
  concat ← action_hrnet_features_branch_concat self concat;
  q ← action_skeleton_branch self skeleton_vecs;
  Ok (y, concat).

(** The two returned values written as the claim describes them: the pose
    heatmap from [global_encoder] and [final_layer], the action output from
    the two pooled CNN branches and the concat head.  Neither [a1], [a2],
    [a3] nor the transformer action branch nor the skeleton branch occurs. *)
Definition backbone (self : TransActionH) (x : T) : res (list T) :=
  x ← conv1 self x;
  x ← bn1 self x;
  x ← relu self x;
  x ← conv2 self x;
  x ← bn2 self x;
  x ← relu self x;
  x ← layer1 self x;
  x_list ← transition1_forward self x;
  y_list ← stage2 self x_list;
  x_list ← transition2_forward self y_list;
  stage3 self x_list.

(** The flattened, projected highest-resolution feature map, with the
    unpacked shape of the projection. *)
Definition encoder_input (self : TransActionH) (y_list : list T)
  : res (T * (nat * nat * nat * nat)) :=
  y0 ← getitem y_list 0;
  x ← reduce self y0;
  s ← unpack4 (shape ops x);
  x ← flatten ops 2 x;
  x ← permute ops [2; 0; 1] x;
  Ok (x, s).

Definition unflatten (s : nat * nat * nat * nat) (y : T) : res T :=
  let '(bs, c, h, w) := s in
  y ← permute ops [1; 2; 0] y;
  view ops [bs; c; h; w] y.

Definition pose_head (self : TransActionH) (x : T) (s : nat * nat * nat * nat) : res T :=
  y ← global_encoder self x (pos_embedding self);
  y ← unflatten s y;
  final_layer self y.

Definition concat_head (self : TransActionH) (y_list : list T) : res T :=
  y1 ← getitem y_list 1;
  z ← action_hrnet_features_branch_96 self y1;
  z ← flatten ops 1 z;
  y2 ← getitem y_list 2;
  t ← action_hrnet_features_branch_192 self y2;
  t ← flatten ops 1 t;
  concat ← cat ops z t 1;
  action_hrnet_features_branch_concat self concat.

Definition transformer_action_head (self : TransActionH) (x : T)
  (s : nat * nat * nat * nat) : res T :=
  r ← global_encoder_action self x (pos_embedding self);
  r ← unflatten s r;
  r ← action_encoder_branch_part1 self r;
  r ← flatten ops 1 r;
  action_encoder_branch_part2 self r.

Definition skeleton_head (self : TransActionH) (y : T) : res T :=
  '(preds, maxvals) ← get_max_preds ops y;
  angles ← get_pose_vectors preds maxvals;
  action_skeleton_branch self (from_numpy ops angles).

(** A model that differs from [self] at most in the loss weights, the
    transformer action branch and the skeleton branch. *)
Definition replace_side_branches (self : TransActionH) (a1' a2' a3' : Q)
  (global_encoder_action' : T -> option T -> res T)
  (action_encoder_branch_part1' action_encoder_branch_part2' action_skeleton_branch'
     : T -> res T) : TransActionH :=
  {| a1 := a1';
     a2 := a2';
     a3 := a3';
     conv1 := conv1 self;
     bn1 := bn1 self;
     conv2 := conv2 self;
     bn2 := bn2 self;
     relu := relu self;
     layer1 := layer1 self;
     stage2_cfg := stage2_cfg self;
     transition1 := transition1 self;
     stage2 := stage2 self;
     stage3_cfg := stage3_cfg self;
     transition2 := transition2 self;
     stage3 := stage3 self;
     reduce := reduce self;
     pos_embedding := pos_embedding self;
     global_encoder := global_encoder self;
     global_encoder_action := global_encoder_action';
     final_layer := final_layer self;
     action_encoder_branch_part1 := action_encoder_branch_part1';
     action_encoder_branch_part2 := action_encoder_branch_part2';
     action_hrnet_features_branch_96 := action_hrnet_features_branch_96 self;
     action_hrnet_features_branch_192 := action_hrnet_features_branch_192 self;
     action_hrnet_features_branch_concat := action_hrnet_features_branch_concat self;
     action_skeleton_branch := action_skeleton_branch';
     pretrained_layers := pretrained_layers self |}.

End TransActionH.

Arguments TransActionH T : clear implicits.
Arguments TensorOps T : clear implicits.

(** A small model on numbers, to run [forward] on: every module is an
    arithmetic function, three branches, no detected person. *)
Definition toy_ops : TensorOps Z :=
  {| shape := fun _ => [1; 1; 1; 1];
     flatten := fun _ x => Ok x;
     permute := fun _ x => Ok x;
     view := fun _ x => Ok x;
     cat := fun a b _ => Ok (a + b)%Z;
     get_max_preds := fun _ => Ok ([], []);
     from_numpy := fun _ => 0%Z |}.

Definition toy_stage : StageCfg :=
  {| NUM_MODULES := 1; NUM_BRANCHES := 3; BLOCK := "BASIC";
     NUM_BLOCKS := [1; 1; 1]; NUM_CHANNELS := [1; 1; 1]; FUSE_METHOD := "SUM" |}.

Definition toy_model : TransActionH Z :=
  {| a1 := 1; a2 := 2; a3 := 3;
     conv1 := fun x => Ok (x + 1)%Z;
     bn1 := Ok;
     conv2 := fun x => Ok (2 * x)%Z;
     bn2 := Ok;
     relu := fun x => Ok (Z.max 0 x);
     layer1 := Ok;
     stage2_cfg := toy_stage;
     transition1 := [None; Some (fun x => Ok (x + 10)%Z); Some (fun x => Ok (x + 20)%Z)];
     stage2 := Ok;
     stage3_cfg := toy_stage;
     transition2 := [None; None; None];
     stage3 := Ok;
     reduce := fun x => Ok (3 * x)%Z;
     pos_embedding := Some 1%Z;
     global_encoder := fun x pos => Ok (x + default 0 pos)%Z;
     global_encoder_action := fun x pos => Ok (x - default 0 pos)%Z;
     final_layer := fun x => Ok (x + 100)%Z;
     action_encoder_branch_part1 := Ok;
     action_encoder_branch_part2 := Ok;
     action_hrnet_features_branch_96 := fun x => Ok (5 * x)%Z;
     action_hrnet_features_branch_192 := fun x => Ok (7 * x)%Z;
     action_hrnet_features_branch_concat := fun x => Ok (x + 1000)%Z;
     action_skeleton_branch := Ok;
     pretrained_layers := ["*"] |}.

(** ** [TransActionH] on shapes *)

(** A stage is an [nn.Sequential] of [HighResolutionModule]s. *)
Definition stage_forward (training : bool) (modules : list HighResolutionModule)
  (x : list Shape) : res (list Shape) :=
  foldM (fun x m => HighResolutionModule_forward (Layer_forward training) shape_add m x)
        x modules.

(** A [TransformerEncoder] called as [encoder(x, pos=pos)]; the network
    builds its encoders without [return_atten_map], so the call returns the
    output tensor. *)
Definition encoder_call {T} (add : T -> T -> res T) (encoder : TransformerEncoder T)
  (x : T) (pos : option T) : res T :=
  r ← TransformerEncoder_forward add encoder x None None pos; Ok r.1.

(** The tensor operations on shapes.  [get_max_preds] belongs to
    [core.inference] and is a parameter; [angles] has shape
    (bs, int(78 * 77 / 2)). *)
Definition shape_ops (get_max_preds : Shape -> res (list (list vec) * list (list R)))
  : TensorOps Shape :=
  {| shape := fun x => x;
     flatten := shape_flatten;
     permute := shape_permute;
     view := shape_view;
     cat := shape_cat;
     get_max_preds := get_max_preds;
     from_numpy := fun angles => [length angles; 78 * 77 / 2] |}.

(** [TransActionH.__init__]: the sub-modules that the constructor builds,
    as callables on shapes when the network is in the mode [training]
    ([True] after construction and after [model.train()], [False] after
    [model.eval()]). *)
Definition TransActionH_init (training : bool) (cfg : Cfg) : res (TransActionH Shape) :=
  let inplanes := 64 in
  let extra_STAGE2 := STAGE2 cfg in
  let extra_STAGE3 := STAGE3 cfg in
  let '(layer1, inplanes) := _make_layer inplanes Bottleneck 64 4 1 in
  (* stage 2 *)
  block ← blocks_dict (BLOCK extra_STAGE2);
  let num_channels := map (fun c => c * expansion block) (NUM_CHANNELS extra_STAGE2) in
  transition1 ← _make_transition_layer [256] num_channels;
  '(stage2, pre_stage_channels) ← _make_stage extra_STAGE2 num_channels true true;
  (* stage 3 *)
  block ← blocks_dict (BLOCK extra_STAGE3);
  let num_channels := map (fun c => c * expansion block) (NUM_CHANNELS extra_STAGE3) in
  transition2 ← _make_transition_layer pre_stage_channels num_channels;
  '(stage3, pre_stage_channels) ← _make_stage extra_STAGE3 num_channels true false;
  let d_model := DIM_MODEL cfg in
  let dim_feedforward := DIM_FEEDFORWARD cfg in
  let encoder_layers_num := ENCODER_LAYERS cfg in
  let n_head := N_HEAD cfg in
  let pos_embedding_type := POS_EMBEDDING cfg in
  let '(w, h) := IMAGE_SIZE cfg in
  let d_model_4_action := DIM_MODEL_ACTION cfg in
  let dim_feedforward_4_action := DIM_FEEDFORWARD_ACTION cfg in
  let encoder_layers_num_4_action := ENCODER_LAYERS_ACTION cfg in
  let n_head_4_action := N_HEAD_ACTION cfg in
  c0 ← getitem pre_stage_channels 0;
  let reduce := Conv2d c0 d_model 1 1 0 in
  pos_embedding ← _make_position_embedding w h d_model pos_embedding_type;
  encoder_layer ← TransformerEncoderLayer_init d_model n_head dim_feedforward false false;
  encoder_layer_action ←
    TransformerEncoderLayer_init d_model_4_action n_head_4_action dim_feedforward_4_action
      false false;
  let global_encoder := TransformerEncoder_init encoder_layer encoder_layers_num None false false in
  let global_encoder_action :=
    TransformerEncoder_init encoder_layer_action encoder_layers_num_4_action None false false in
  let final_layer :=
    Conv2d d_model (NUM_JOINTS cfg) (FINAL_CONV_KERNEL cfg) 1
           (if FINAL_CONV_KERNEL cfg =? 3 then 1 else 0) in
  let action_encoder_branch_part1 :=
    Sequential [Conv2d d_model (d_model * 2) 1 1 0; BatchNorm2d 192; ReLU;
                MaxPool2d 3 2 1; AdaptiveAvgPool2d 1 1] in
  let action_encoder_branch_part2 :=
    Sequential [Dropout; Linear (d_model * 2) (NUM_CLASSES cfg)] in
  let action_hrnet_features_branch_96 :=
    Sequential [Conv2d 96 192 1 1 0; BatchNorm2d 192; ReLU;
                MaxPool2d 3 2 1; AdaptiveAvgPool2d 1 1] in
  let action_hrnet_features_branch_192 :=
    Sequential [Conv2d 192 192 3 2 1; BatchNorm2d 192; ReLU;
                MaxPool2d 3 2 1; AdaptiveAvgPool2d 1 1] in
  let action_hrnet_features_branch_concat :=
    Sequential [Linear (d_model * 4) 200; Dropout; Linear 200 (NUM_CLASSES cfg)] in
  let action_skeleton_branch := Sequential [Linear 3003 (NUM_CLASSES cfg)] in
  Ok {| a1 := LOSS_A1 cfg;
        a2 := LOSS_A2 cfg;
        a3 := LOSS_A3 cfg;
        conv1 := Layer_forward training (Conv2d 3 64 3 2 1);
        bn1 := Layer_forward training (BatchNorm2d 64);
        conv2 := Layer_forward training (Conv2d 64 64 3 2 1);
        bn2 := Layer_forward training (BatchNorm2d 64);
        relu := Layer_forward training ReLU;
        layer1 := Layer_forward training layer1;
        stage2_cfg := extra_STAGE2;
        transition1 := map (option_map (Layer_forward training)) transition1;
        stage2 := stage_forward training stage2;
        stage3_cfg := extra_STAGE3;
        transition2 := map (option_map (Layer_forward training)) transition2;
        stage3 := stage_forward training stage3;
        reduce := Layer_forward training reduce;
        pos_embedding := pos_embedding;
        global_encoder := encoder_call shape_add global_encoder;
        global_encoder_action := encoder_call shape_add global_encoder_action;
        final_layer := Layer_forward training final_layer;
        action_encoder_branch_part1 :=
          Layer_forward training action_encoder_branch_part1;
        action_encoder_branch_part2 :=
          Layer_forward training action_encoder_branch_part2;
        action_hrnet_features_branch_96 :=
          Layer_forward training action_hrnet_features_branch_96;
        action_hrnet_features_branch_192 :=
          Layer_forward training action_hrnet_features_branch_192;
        action_hrnet_features_branch_concat :=
          Layer_forward training action_hrnet_features_branch_concat;
        action_skeleton_branch := Layer_forward training action_skeleton_branch;
        pretrained_layers := PRETRAINED_LAYERS cfg |}.

(** The model built from [cfg], run in the mode [training] on an input of
    shape [x]. *)
Definition model_forward (training : bool)
  (get_max_preds : Shape -> res (list (list vec) * list (list R)))
  (cfg : Cfg) (x : Shape) : res (Shape * Shape) :=
  model ← TransActionH_init training cfg;
  TransActionH_forward (shape_ops get_max_preds) model x.

(** A configuration in the style of the repository's TransPose-H
    experiments: two then three branches of basic blocks with 48, 96 and 192
    channels, and 96-dimensional encoders. *)
Definition example_cfg (image_size : nat * nat) (pos_embedding : string)
  (final_conv_kernel : nat) : Cfg :=
  {| LOSS_A1 := 1; LOSS_A2 := 1; LOSS_A3 := 1;
     STAGE2 := {| NUM_MODULES := 1; NUM_BRANCHES := 2; BLOCK := "BASIC";
                  NUM_BLOCKS := [4; 4]; NUM_CHANNELS := [48; 96];
                  FUSE_METHOD := "SUM" |};
     STAGE3 := {| NUM_MODULES := 4; NUM_BRANCHES := 3; BLOCK := "BASIC";
                  NUM_BLOCKS := [4; 4; 4]; NUM_CHANNELS := [48; 96; 192];
                  FUSE_METHOD := "SUM" |};
     FINAL_CONV_KERNEL := final_conv_kernel;
     PRETRAINED_LAYERS := ["*"];
     DIM_MODEL := 96;
     DIM_FEEDFORWARD := 192;
     ENCODER_LAYERS := 4;
     N_HEAD := 1;
     POS_EMBEDDING := pos_embedding;
     IMAGE_SIZE := image_size;
     DIM_MODEL_ACTION := 96;
     DIM_FEEDFORWARD_ACTION := 192;
     ENCODER_LAYERS_ACTION := 4;
     N_HEAD_ACTION := 1;
     POS_EMBEDDING_ACTION := pos_embedding;
     NUM_JOINTS := 17;
     NUM_CLASSES := 40 |}.

(** A stand-in for [get_max_preds] on heatmaps of shape (bs, J, h, w): [J]
    positions and confidences per batch element. *)
Definition example_get_max_preds (y : Shape) : res (list (list vec) * list (list R)) :=
  match y with
  | [bs; J; h; w] =>
      Ok (replicate bs (replicate J (0%R, 0%R)), replicate bs (replicate J 0%R))
  | _ => Raise (ValueError "batch_images should be 4-ndim")
  end.

(** ** [TransActionH.init_weights]

    The file system maps the path of every regular file to the checkpoint
    that [torch.load] reads from it (an ordered dictionary from parameter
    names to tensors); [W] is the type of parameter tensors, which have a
    shape.  The state of the model is its [state_dict()]. *)

(** [w.shape] of a parameter tensor. *)
Class TensorShape (W : Type) : Type := tensor_shape : W -> list nat.

Section InitWeights.
Context {W : Type} {W_shape : TensorShape W}.

Record Model : Type := {
  model_pretrained_layers : list string;
  model_state_dict : gmap string W
}.

(** [os.path.isfile(path)] and [torch.load(path)] *)
Definition isfile (fs : gmap string (list (string * W))) (path : string) : bool :=
  negb (String.eqb path EmptyString) && bool_decide (is_Some (fs !! path)).

(** [name.split('.')[0]] *)
Fixpoint split_head (name : string) : string :=
  match name with
  | EmptyString => EmptyString
  | String c rest => if Ascii.eqb c "."%char then EmptyString else String c (split_head rest)
  end.

(** The condition of the loop over the checkpoint,
    [name.split('.')[0] in self.pretrained_layers and name in self.state_dict()
     or self.pretrained_layers[0] is '*'];
    the right operand of [or] is evaluated when the left one is false.
    ([is] on a one-character string is read as equality: CPython interns
    these strings.) *)
Definition is_pretrained_layer (self : Model) (name : string) : res bool :=
  if bool_decide (split_head name ∈ model_pretrained_layers self)
     && bool_decide (is_Some (model_state_dict self !! name))
  then Ok true
  else first ← getitem (model_pretrained_layers self) 0; Ok (String.eqb first "*").

(** [self.load_state_dict(existing_state_dict, strict=False)]: the
    parameters named in the dictionary are replaced.  Without [strict] the
    names that the model does not have are ignored, but a tensor whose shape
    differs from the shape of the parameter is a [RuntimeError] ("size
    mismatch"). *)
Definition load_state_dict (self : Model) (existing_state_dict : gmap string W)
  : res Model :=
  if forallb (fun '(name, w) =>
                match existing_state_dict !! name with
                | Some input_param => bool_decide (tensor_shape input_param = tensor_shape w)
                | None => true
                end)
             (map_to_list (model_state_dict self))
  then Ok {| model_pretrained_layers := model_pretrained_layers self;
             model_state_dict :=
               map_imap (fun name w => Some (default w (existing_state_dict !! name)))
                        (model_state_dict self) |}
  else Raise RuntimeError.

(** [init_weights(self, pretrained)]; [init] is the random initialisation of
    the first loop. *)
Definition init_weights (fs : gmap string (list (string * W)))
  (init : gmap string W -> gmap string W) (self : Model) (pretrained : string) : res Model :=
  let self := {| model_pretrained_layers := model_pretrained_layers self;
                 model_state_dict := init (model_state_dict self) |} in
  if isfile fs pretrained then
    let pretrained_state_dict := default [] (fs !! pretrained) in
    existing_state_dict ←
      foldM (fun (existing_state_dict : gmap string W) '(name, m) =>
               keep ← is_pretrained_layer self name;
               Ok (if keep : bool then <[name := m]> existing_state_dict else existing_state_dict))
            (∅ : gmap string W) pretrained_state_dict;
    load_state_dict self existing_state_dict
  else if negb (String.eqb pretrained EmptyString) then
    Raise (ValueError (pretrained +:+ " is not exist!"))
  else Ok self.

(** The model after the random initialisation of [init_weights] alone. *)
Definition initialised (init : gmap string W -> gmap string W) (self : Model) : Model :=
  {| model_pretrained_layers := model_pretrained_layers self;
     model_state_dict := init (model_state_dict self) |}.

(** The call of [get_pose_net]: [model.init_weights(pretrained='')] when
    training with [INIT_WEIGHTS]. *)
Definition get_pose_net_init (fs : gmap string (list (string * W)))
  (init : gmap string W -> gmap string W) (model : Model) (is_train INIT_WEIGHTS : bool)
  : res Model :=
  if is_train && INIT_WEIGHTS then init_weights fs init model EmptyString else Ok model.

End InitWeights.

Arguments Model W : clear implicits.

(** Parameters as numbers (tensors of one shape), and parameters that are
    followed by their shape alone. *)
#[global] Instance scalar_shape : TensorShape nat := fun _ => [].
#[global] Instance shape_shape : TensorShape Shape := fun s => s.

(** ** [AverageMeter] (lib/core/function.py), on rationals *)

Record AverageMeter : Type := {
  val : Q;
  avg : Q;
  sum : Q;
  count : Q
}.

(** [AverageMeter.reset] *)
Definition reset (self : AverageMeter) : AverageMeter :=
  {| val := 0; avg := 0; sum := 0; count := 0 |}.

(** Python's [a / b] on numbers. *)
Definition truediv (a b : Q) : res Q :=
  if Qeq_bool b 0 then Raise ZeroDivisionError else Ok (a / b)%Q.

(** [AverageMeter.update(val, n)] *)
Definition update (self : AverageMeter) (v : Q) (n : Q) : res AverageMeter :=
  let val' := v in
  let sum' := (sum self + v * n)%Q in
  let count' := (count self + n)%Q in
  avg' ← (if negb (Qeq_bool count' 0) then truediv sum' count' else Ok 0%Q);
  Ok {| val := val'; avg := avg'; sum := sum'; count := count' |}.

(** A sequence of [update(val_k, n_k)] calls. *)
Definition updates (self : AverageMeter) (calls : list (Q * Q)) : res AverageMeter :=
  foldM (fun self '(v, n) => update self v n) self calls.

Definition Qsum (l : list Q) : Q := foldr Qplus 0%Q l.

(** ** [accuracy_classification] (lib/core/function.py) *)

(** A two-dimensional array of shape ([length rows], [ncols]). *)
Record ndarray2 : Type := {
  ncols : nat;
  rows : list (list Q)
}.

Definition well_formed (a : ndarray2) : Prop :=
  Forall (fun row => length row = ncols a) (rows a).

(** The result of numpy's scalar division: a finite value or, for 0 / 0,
    nan (with a warning, not an exception). *)
Inductive np_float : Type :=
| finite (q : Q)
| inf
| nan.

Definition np_true_divide (a : Z) (b : Z) : np_float :=
  if (b =? 0)%Z then (if (a =? 0)%Z then nan else inf)
  else finite (inject_Z a / inject_Z b)%Q.

(** The index of the first maximum of a non-empty row. *)
Fixpoint argmax_from (best_i : nat) (best : Q) (i : nat) (row : list Q) : nat :=
  match row with
  | [] => best_i
  | x :: row' =>
      if Qlt_le_dec best x
      then argmax_from i x (S i) row'
      else argmax_from best_i best (S i) row'
  end.

Definition argmax_row (row : list Q) : nat :=
  match row with
  | [] => 0
  | x :: row' => argmax_from 0 x 1 row'
  end.

(** [np.argmax(output, axis=1)]: a reduction over an empty axis raises
    [ValueError]. *)
Definition np_argmax_axis1 (output : ndarray2) : res (list nat) :=
  if ncols output =? 0
  then Raise (ValueError "attempt to get argmax of an empty sequence")
  else Ok (map argmax_row (rows output)).

(** [(pred == target).sum()] for two one-dimensional arrays of one length. *)
Definition count_equal (pred : list nat) (target : list Z) : Z :=
  Z.of_nat (length (filter (fun pt => Z.of_nat pt.1 = pt.2) (zip pred target))).

(** [accuracy_classification(output, target)] *)
Definition accuracy_classification (output : ndarray2) (target : list Z) : res np_float :=
  let num_batch := length (rows output) in
  if negb (num_batch =? length target) then Raise (ValueError EmptyString)
  else
    pred ← np_argmax_axis1 output;
    let true_ := count_equal pred target in
    Ok (np_true_divide true_ (Z.of_nat num_batch)).

(** [i] is the index that [np.argmax] returns for [row]: the first position
    of a maximal element. *)
Definition first_argmax (row : list Q) (i : nat) : Prop :=
  exists x, row !! i = Some x
            /\ (forall j y, row !! j = Some y -> (y <= x)%Q)
            /\ (forall j y, j < i -> row !! j = Some y -> (y < x)%Q).

(** The rows whose argmax is the label, as the claim counts them. *)
Definition correct_rows (output : ndarray2) (target : list Z) : nat :=
  length (filter (fun rt => Z.of_nat (argmax_row rt.1) = rt.2) (zip (rows output) target)).

(** A file system with one checkpoint, and a model whose
    [PRETRAINED_LAYERS] is the empty list. *)
Definition example_fs : gmap string (list (string * nat)) :=
  {[ "w.pth" := [("conv1.weight", 1)] ]}.

Definition example_model (pretrained_layers : list string) : Model nat :=
  {| model_pretrained_layers := pretrained_layers;
     model_state_dict := {[ "conv1.weight" := 0 ]} |}.

(** ** Classes of layers and of feature lists, for the shape invariants *)

(** Layers without [Linear]: they map a 4D input (N, C, H, W) to a 4D output
    with the same N.  (A residual block returns the shape of its main path.) *)
Fixpoint conv_net (l : Layer) : bool :=
  match l with
  | Linear _ _ => false
  | Sequential layers => forallb conv_net layers
  | _ => true
  end.

(** Layers that keep N, H and W: convolutions of stride 1 with
    [kernel_size = 2 * padding + 1], normalisation, activation, residual
    blocks of stride 1, and their compositions. *)
Fixpoint keeps_size (l : Layer) : bool :=
  match l with
  | Conv2d _ _ k s p => (s =? 1) && (k =? 2 * p + 1)
  | BatchNorm2d _ | ReLU | Dropout => true
  | ResBlock _ _ _ stride _ => stride =? 1
  | Sequential layers => forallb keeps_size layers
  | _ => false
  end.

Definition batch4 (bs : nat) (s : Shape) : Prop :=
  exists c h w, s = [bs; c; h; w].

(** The feature maps of the branches: all 4D with batch size [bs], the first
    (highest-resolution) one of spatial size ([H], [W]). *)
Definition branch_features (bs H W : nat) (xs : list Shape) : Prop :=
  Forall (batch4 bs) xs /\ (forall s, xs !! 0 = Some s -> exists c, s = [bs; c; H; W]).

(** A module as the constructor builds it: branches that keep the size, fuse
    layers made of convolutions, normalisation, activation and upsampling. *)
Definition hrm_built (m : HighResolutionModule) : Prop :=
  Forall (fun b => keeps_size b = true) (branches m)
  /\ (forall rows, fuse_layers m = Some rows ->
        Forall (Forall (fun e => forall l, e = Some l -> conv_net l = true)) rows).

(** Induction on layers, through [Sequential]. *)
Section Layer_induction.
Variable P : Layer -> Prop.
Hypothesis HConv2d : forall a b c d e, P (Conv2d a b c d e).
Hypothesis HBatchNorm2d : forall a, P (BatchNorm2d a).
Hypothesis HReLU : P ReLU.
Hypothesis HMaxPool2d : forall a b c, P (MaxPool2d a b c).
Hypothesis HAdaptiveAvgPool2d : forall a b, P (AdaptiveAvgPool2d a b).
Hypothesis HUpsample : forall a, P (Upsample a).
Hypothesis HLinear : forall a b, P (Linear a b).
Hypothesis HDropout : P Dropout.
Hypothesis HResBlock : forall b i p s d, P (ResBlock b i p s d).
Hypothesis HSequential : forall ls, Forall P ls -> P (Sequential ls).

Fixpoint Layer_seq_ind (l : Layer) : P l :=
  match l with
  | Conv2d a b c d e => HConv2d a b c d e
  | BatchNorm2d a => HBatchNorm2d a
  | ReLU => HReLU
  | MaxPool2d a b c => HMaxPool2d a b c
  | AdaptiveAvgPool2d a b => HAdaptiveAvgPool2d a b
  | Upsample a => HUpsample a
  | Linear a b => HLinear a b
  | Dropout => HDropout
  | ResBlock b i p s d => HResBlock b i p s d
  | Sequential ls =>
      HSequential ls
        ((fix go (ls : list Layer) : Forall P ls :=
            match ls with
            | [] => @List.Forall_nil _ P
            | l' :: ls' => @List.Forall_cons _ P l' ls' (Layer_seq_ind l') (go ls')
            end) ls)
  end.
End Layer_induction.

(** ** The resolution pyramid of the high-resolution network *)

(** The spatial size of branch [i] among [nb] branches whose coarsest branch
    has size [a]. *)
Definition level (nb i a : nat) : nat := 2 ^ (nb - 1 - i) * a.

(** Feature maps of [length chans] branches, halving the resolution from one
    branch to the next; the last one is [a] x [b]. *)
Definition pyramid (n : nat) (chans : list nat) (a b : nat) : list Shape :=
  imap (fun i c => [n; c; level (length chans) i a; level (length chans) i b]) chans.

(** The batches on which no batch normalisation of the network refuses its
    input: any batch in evaluation mode, at least two images in training
    mode (no feature map has one value per channel then). *)
Definition batch_ok (training : bool) (n : nat) : Prop := training = false \/ 2 <= n.

(** A layer that maps every (N, [c_in], H, W) to (N, [c_out], H, W). *)
Definition branch_ok (training : bool) (l : Layer) (c_in c_out : nat) : Prop :=
  forall n h w, batch_ok training n -> 1 <= h -> 1 <= w ->
    Layer_forward training l [n; c_in; h; w] = Ok [n; c_out; h; w].

(** The fuse layers of a module whose branches have the channels [chans]. *)
Definition expected_fuse_layers (fusion : bool) (chans : list nat)
  : list (list (option Layer)) :=
  imap (fun i c_i => imap (fun j c_j => expected_fuse_entry fusion c_i c_j i j) chans) chans.

(** A module that takes a pyramid of channels [cin] to a pyramid of channels
    [cs]: its branches keep the size and map the channels of [cin] to those
    of [cs], and its fuse layers are the ones that the constructor builds
    for [cs]. *)
Definition pyramid_module (training : bool) (m : HighResolutionModule)
  (cin cs : list nat) : Prop :=
  num_branches m = len cs
  /\ length cs <> 1
  /\ length cin = length cs
  /\ (forall i c_in, cin !! i = Some c_in ->
        exists l c_out, branches m !! i = Some l /\ cs !! i = Some c_out
                        /\ branch_ok training l c_in c_out)
  /\ fuse_layers m = Some (expected_fuse_layers (fusion m) cs).

(** The module that [HighResolutionModule(len(chans), BasicBlock, [4, ...],
    chans, chans, 'SUM', True, fusion)] builds. *)
Definition basic_module (chans : list nat) (fusion : bool) : HighResolutionModule :=
  {| num_inchannels := chans;
     fuse_method := "SUM";
     num_branches := len chans;
     multi_scale_output := true;
     fusion := fusion;
     branches := map (fun c => Sequential (replicate 4 (ResBlock BasicBlock c c 1 None))) chans;
     fuse_layers := Some (expected_fuse_layers fusion chans) |}.

(** ** The network of the example configuration

    What [TransActionH.__init__] builds from [example_cfg]: the only parts
    that depend on the image size, the kind of position embedding and the
    kernel of the final convolution are [pos_embedding] and [final_layer]. *)
Definition example_encoder_layer : TransformerEncoderLayer Shape :=
  {| self_attn := multihead_attention_forward 96;
     linear1 := linear_forward 96 192;
     dropout := Ok;
     linear2 := linear_forward 192 96;
     norm1 := layernorm_forward 96;
     norm2 := layernorm_forward 96;
     dropout1 := Ok;
     dropout2 := Ok;
     activation := Ok;
     normalize_before := false;
     return_atten_map := false |}.

Definition example_pooled_head (conv : Layer) : Layer :=
  Sequential [conv; BatchNorm2d 192; ReLU; MaxPool2d 3 2 1; AdaptiveAvgPool2d 1 1].

Definition example_network (training : bool) (image_size : nat * nat)
  (pos_embedding_type : string) (pos_embedding : option Shape) (final_conv_kernel : nat)
  : TransActionH Shape :=
  {| a1 := 1; a2 := 1; a3 := 1;
     conv1 := Layer_forward training (Conv2d 3 64 3 2 1);
     bn1 := Layer_forward training (BatchNorm2d 64);
     conv2 := Layer_forward training (Conv2d 64 64 3 2 1);
     bn2 := Layer_forward training (BatchNorm2d 64);
     relu := Layer_forward training ReLU;
     layer1 := Layer_forward training (_make_layer 64 Bottleneck 64 4 1).1;
     stage2_cfg := STAGE2 (example_cfg image_size pos_embedding_type final_conv_kernel);
     transition1 :=
       map (option_map (Layer_forward training))
           [Some (Sequential [Conv2d 256 48 3 1 1; BatchNorm2d 48; ReLU]);
            Some (Sequential [Sequential [Conv2d 256 96 3 2 1; BatchNorm2d 96; ReLU]])];
     stage2 := stage_forward training [basic_module [48; 96] true];
     stage3_cfg := STAGE3 (example_cfg image_size pos_embedding_type final_conv_kernel);
     transition2 :=
       map (option_map (Layer_forward training))
           [None; None;
            Some (Sequential [Sequential [Conv2d 96 192 3 2 1; BatchNorm2d 192; ReLU]])];
     stage3 := stage_forward training (replicate 3 (basic_module [48; 96; 192] true)
                                       ++ [basic_module [48; 96; 192] false]);
     reduce := Layer_forward training (Conv2d 48 96 1 1 0);
     pos_embedding := pos_embedding;
     global_encoder :=
       encoder_call shape_add (TransformerEncoder_init example_encoder_layer 4 None false false);
     global_encoder_action :=
       encoder_call shape_add (TransformerEncoder_init example_encoder_layer 4 None false false);
     final_layer :=
       Layer_forward training (Conv2d 96 17 final_conv_kernel 1
                                      (if final_conv_kernel =? 3 then 1 else 0));
     action_encoder_branch_part1 :=
       Layer_forward training (example_pooled_head (Conv2d 96 192 1 1 0));
     action_encoder_branch_part2 :=
       Layer_forward training (Sequential [Dropout; Linear 192 40]);
     action_hrnet_features_branch_96 :=
       Layer_forward training (example_pooled_head (Conv2d 96 192 1 1 0));
     action_hrnet_features_branch_192 :=
       Layer_forward training (example_pooled_head (Conv2d 192 192 3 2 1));
     action_hrnet_features_branch_concat :=
       Layer_forward training (Sequential [Linear 384 200; Dropout; Linear 200 40]);
     action_skeleton_branch := Layer_forward training (Sequential [Linear 3003 40]);
     pretrained_layers := ["*"] |}.

(** The value of [self.pos_embedding] for a model dimension of 96. *)
Definition example_pos_embedding (image_size : nat * nat) (pos_embedding_type : string)
  : option Shape :=
  if String.eqb pos_embedding_type "none" then None
  else Some [(image_size.2 / 4) * (image_size.1 / 4); 1; 96].

(** ** Further parts of the source *)

(** [block = blocks_dict[layer_config['BLOCK']]] and
    [num_channels = [num_channels[i] * block.expansion for i in
    range(len(num_channels))]], as [TransActionH.__init__] computes them for
    a stage. *)
Definition stage_channels (layer_config : StageCfg) : res (list nat) :=
  block ← blocks_dict (BLOCK layer_config);
  Ok (map (fun c => c * expansion block) (NUM_CHANNELS layer_config)).

(** A position embedding that fits a sequence of shape (L, N, E): none, one
    vector per position, or one per position and batch element. *)
Definition pos_fits (L n d : nat) (pos : option Shape) : Prop :=
  pos = None \/ pos = Some [L; 1; d] \/ pos = Some [L; n; d].

(** A configuration unlike the repository's: bottleneck blocks in stage 2,
    four branches in stage 3, a learnable position embedding, no layer in
    the action encoder. *)
Definition four_branch_cfg : Cfg :=
  {| LOSS_A1 := 1; LOSS_A2 := 1; LOSS_A3 := 1;
     STAGE2 := {| NUM_MODULES := 1; NUM_BRANCHES := 2; BLOCK := "BOTTLENECK";
                  NUM_BLOCKS := [2; 2]; NUM_CHANNELS := [8; 16];
                  FUSE_METHOD := "SUM" |};
     STAGE3 := {| NUM_MODULES := 2; NUM_BRANCHES := 4; BLOCK := "BASIC";
                  NUM_BLOCKS := [1; 2; 1; 2]; NUM_CHANNELS := [32; 96; 192; 384];
                  FUSE_METHOD := "SUM" |};
     FINAL_CONV_KERNEL := 3;
     PRETRAINED_LAYERS := ["*"];
     DIM_MODEL := 96;
     DIM_FEEDFORWARD := 128;
     ENCODER_LAYERS := 2;
     N_HEAD := 8;
     POS_EMBEDDING := "learnable";
     IMAGE_SIZE := (192, 256);
     DIM_MODEL_ACTION := 64;
     DIM_FEEDFORWARD_ACTION := 128;
     ENCODER_LAYERS_ACTION := 0;
     N_HEAD_ACTION := 4;
     POS_EMBEDDING_ACTION := "learnable";
     NUM_JOINTS := 17;
     NUM_CLASSES := 11 |}.

(** ** The evaluation and training loops (lib/core/function.py)

    What the environment produces in one iteration of a data loader is data
    of the iteration: the batch size, the class scores that the model
    returns (a tensor, or a list of tensors), the labels, and the readings of
    [time.time()].  [criterion] is a function to the value of
    [loss.item()]. *)

Inductive ModelOutput : Type :=
| OutputTensor (scores : ndarray2)
| OutputList (outputs : list ndarray2).

Record Batch : Type := {
  (** [input.size(0)] *)
  input_size0 : nat;
  (** the class scores of [model(input)] *)
  model_output : ModelOutput;
  (** [meta['target']] *)
  target : list Z;
  (** [time.time()] in [data_time.update(time.time() - end)] (training) *)
  t_data : Q;
  (** [time.time()] in [batch_time.update(time.time() - end)] *)
  t_batch : Q;
  (** [time.time()] in [end = time.time()] *)
  t_end : Q
}.

(** [AverageMeter] for the values that [accuracy_classification] returns:
    numpy floats, weighted by batch sizes.  [inf] is the positive
    infinity. *)
Record AccuracyMeter : Type := {
  acc_val : np_float;
  acc_avg : np_float;
  acc_sum : np_float;
  acc_count : nat
}.

Definition acc_reset : AccuracyMeter :=
  {| acc_val := finite 0; acc_avg := finite 0; acc_sum := finite 0; acc_count := 0 |}.

(** [val * n], [sum + x] and [sum / count] ([count] positive) on numpy floats. *)
Definition np_times (v : np_float) (n : nat) : np_float :=
  match v with
  | finite q => finite (q * inject_Z (Z.of_nat n))
  | inf => if n =? 0 then nan else inf
  | nan => nan
  end.

Definition np_plus (a b : np_float) : np_float :=
  match a, b with
  | nan, _ | _, nan => nan
  | inf, _ | _, inf => inf
  | finite x, finite y => finite (x + y)
  end.

Definition np_over (s : np_float) (count : nat) : np_float :=
  match s with
  | finite q => finite (q / inject_Z (Z.of_nat count))
  | inf => inf
  | nan => nan
  end.

(** [AverageMeter.update(val, n)] *)
Definition acc_update (self : AccuracyMeter) (v : np_float) (n : nat) : AccuracyMeter :=
  let sum' := np_plus (acc_sum self) (np_times v n) in
  let count' := acc_count self + n in
  {| acc_val := v;
     acc_avg := if negb (count' =? 0) then np_over sum' count' else finite 0;
     acc_sum := sum';
     acc_count := count' |}.

(** [writer_dict]: the scalars that [writer.add_scalar(tag, value, step)]
    has received, and the two step counters. *)
Record WriterDict : Type := {
  writer : list (string * np_float * Z);
  train_global_steps : Z;
  valid_global_steps : Z
}.

(** Python's [a % b] on integers. *)
Definition py_mod (a b : Z) : res Z :=
  if (b =? 0)%Z then Raise ZeroDivisionError else Ok (a mod b)%Z.

(** The local variables of a loop that later iterations read, and what the
    loop has logged: for every [logger.info(msg)] the index of the batch and
    the meters that the message formats. *)
Record LoopState : Type := {
  batch_time : AverageMeter;
  data_time : AverageMeter;
  losses : AverageMeter;
  acc1 : AccuracyMeter;
  (** [output1], unbound before its first assignment *)
  output1 : option ndarray2;
  end_ : Q;
  idx : nat;
  info : list (nat * AverageMeter * AverageMeter * AccuracyMeter)
}.

Definition loop_start (start : Q) : LoopState :=
  {| batch_time := reset {| val := 0; avg := 0; sum := 0; count := 0 |};
     data_time := reset {| val := 0; avg := 0; sum := 0; count := 0 |};
     losses := reset {| val := 0; avg := 0; sum := 0; count := 0 |};
     acc1 := acc_reset;
     output1 := None;
     end_ := start;
     idx := 0;
     info := [] |}.

(** Reading a local variable. *)
Definition read_local {A} (x : option A) : res A :=
  match x with
  | Some a => Ok a
  | None => Raise UnboundLocalError
  end.

(** The body of the loop of [validate_transaction]. *)
Definition validate_transaction_step (PRINT_FREQ : Z) (criterion : ndarray2 -> list Z -> Q)
  (st : LoopState) (ib : nat * Batch) : res LoopState :=
  let '(i, b) := ib in
  output1 ← match model_output b with
            | OutputList outputs => output ← getlast outputs; Ok (output1 st)
            | OutputTensor scores => Ok (Some scores)
            end;
  out ← read_local output1;
  let loss := criterion out (target b) in
  let num_images := input_size0 b in
  losses ← update (losses st) loss (inject_Z (Z.of_nat num_images));
  accuracy_1 ← accuracy_classification out (target b);
  let acc1 := acc_update (acc1 st) accuracy_1 num_images in
  batch_time ← update (batch_time st) (t_batch b - end_ st) 1;
  let end_ := t_end b in
  let idx := idx st + num_images in
  r ← py_mod (Z.of_nat i) PRINT_FREQ;
  Ok {| batch_time := batch_time;
        data_time := data_time st;
        losses := losses;
        acc1 := acc1;
        output1 := output1;
        end_ := end_;
        idx := idx;
        info := if (r =? 0)%Z then info st ++ [(i, batch_time, losses, acc1)]
                else info st |}.

(** The end of the validation functions: the scalars for the writer, when
    there is a [writer_dict]. *)
Definition write_validation (loss_tag acc_tag : string) (st : LoopState)
  (writer_dict : option WriterDict) : option WriterDict :=
  match writer_dict with
  | Some wd =>
      let global_steps := valid_global_steps wd in
      Some {| writer := writer wd
                        ++ [(loss_tag, finite (avg (losses st)), global_steps);
                            (acc_tag, acc_avg (acc1 st), global_steps)];
              train_global_steps := train_global_steps wd;
              valid_global_steps := (global_steps + 1)%Z |}
  | None => None
  end.

(** [validate_transaction]: returns [acc1.avg]; the final [writer_dict] and
    the logged lines are its effects. *)
Definition validate_transaction (PRINT_FREQ : Z) (criterion : ndarray2 -> list Z -> Q)
  (val_loader : list Batch) (writer_dict : option WriterDict) (start : Q)
  : res (np_float * option WriterDict * list (nat * AverageMeter * AverageMeter * AccuracyMeter)) :=
  st ← foldM (validate_transaction_step PRINT_FREQ criterion) (loop_start start)
             (enumerate val_loader);
  Ok (acc_avg (acc1 st),
      write_validation "valid_loss" "valid_acc_first_branch" st writer_dict,
      info st).

(** [output = outputs[-1]] for a list, [output = outputs] otherwise. *)
Definition final_output (outputs : ModelOutput) : res ndarray2 :=
  match outputs with
  | OutputList outputs => getlast outputs
  | OutputTensor scores => Ok scores
  end.

(** The body of the loop of [validate_resnet]: [output] is assigned in both
    arms. *)
Definition validate_resnet_step (PRINT_FREQ : Z) (criterion : ndarray2 -> list Z -> Q)
  (st : LoopState) (ib : nat * Batch) : res LoopState :=
  let '(i, b) := ib in
  output ← final_output (model_output b);
  let loss := criterion output (target b) in
  let num_images := input_size0 b in
  losses ← update (losses st) loss (inject_Z (Z.of_nat num_images));
  accuracy ← accuracy_classification output (target b);
  let acc := acc_update (acc1 st) accuracy num_images in
  batch_time ← update (batch_time st) (t_batch b - end_ st) 1;
  let end_ := t_end b in
  let idx := idx st + num_images in
  r ← py_mod (Z.of_nat i) PRINT_FREQ;
  Ok {| batch_time := batch_time;
        data_time := data_time st;
        losses := losses;
        acc1 := acc;
        output1 := Some output;
        end_ := end_;
        idx := idx;
        info := if (r =? 0)%Z then info st ++ [(i, batch_time, losses, acc)]
                else info st |}.

Definition validate_resnet (PRINT_FREQ : Z) (criterion : ndarray2 -> list Z -> Q)
  (val_loader : list Batch) (writer_dict : option WriterDict) (start : Q)
  : res (np_float * option WriterDict * list (nat * AverageMeter * AverageMeter * AccuracyMeter)) :=
  st ← foldM (validate_resnet_step PRINT_FREQ criterion) (loop_start start)
             (enumerate val_loader);
  Ok (acc_avg (acc1 st), write_validation "valid_loss" "valid_acc" st writer_dict, info st).

(** A batch on which the loops compute an accuracy: the scores [scores] that
    the loop evaluates have a class column and one row per image and label
    of a non-empty batch. *)
Definition classified (b : Batch) (scores : ndarray2) : Prop :=
  final_output (model_output b) = Ok scores
  /\ 0 < ncols scores
  /\ length (rows scores) = input_size0 b
  /\ length (target b) = input_size0 b
  /\ 0 < input_size0 b.



(** The batches at which a loop logs: [i % PRINT_FREQ == 0]. *)
Definition logged_batches (PRINT_FREQ : Z) (num_batches : nat) : list nat :=
  filter (fun i => (Z.of_nat i mod PRINT_FREQ = 0)%Z) (seq 0 num_batches).

(** A loader of two batches of three images and three classes; the model
    returns a tensor in the first batch and [last] (after another tensor) in
    the second. *)
Definition example_scores : ndarray2 :=
  {| ncols := 3; rows := [[1; 5; 2]; [3 # 2; 1; 0]; [0; 0; 0]]%Q |}.

Definition example_batch (outputs : ModelOutput) (labels : list Z) (t : Q) : Batch :=
  {| input_size0 := 3; model_output := outputs; target := labels;
     t_data := t; t_batch := t + 1; t_end := t + 1 |}.

Definition example_loader (last : ModelOutput) : list Batch :=
  [example_batch (OutputTensor example_scores) [1; 2; 0]%Z 0;
   example_batch last [1; 0; 0]%Z 1].

Definition example_writer_dict : WriterDict :=
  {| writer := []; train_global_steps := 4; valid_global_steps := 7 |}.

(** The state of a training loop: the local variables, [writer_dict], and
    the number of calls of [optimizer.step()]. *)
Record TrainState : Type := {
  locals : LoopState;
  train_writer : WriterDict;
  optimizer_steps : nat
}.

(** The body of the loop of [train_transaction]. *)
Definition train_transaction_step (PRINT_FREQ : Z) (criterion : ndarray2 -> list Z -> Q)
  (ts : TrainState) (ib : nat * Batch) : res TrainState :=
  let '(i, b) := ib in
  let st := locals ts in
  data_time ← update (data_time st) (t_data b - end_ st) 1;
  '(loss, output1) ←
    match model_output b with
    | OutputList outputs =>
        first ← getitem outputs 0;
        Ok (fold_left (fun loss output => (loss + criterion output (target b))%Q)
                      (drop 1 outputs) (criterion first (target b)),
            output1 st)
    | OutputTensor scores => Ok (criterion scores (target b), Some scores)
    end;
  (* optimizer.zero_grad(); loss.backward(); optimizer.step() *)
  let optimizer_steps := optimizer_steps ts + 1 in
  losses ← update (losses st) loss (inject_Z (Z.of_nat (input_size0 b)));
  out ← read_local output1;
  avg_acc1 ← accuracy_classification out (target b);
  let num_imgs := input_size0 b in
  let acc1 := acc_update (acc1 st) avg_acc1 num_imgs in
  batch_time ← update (batch_time st) (t_batch b - end_ st) 1;
  let end_ := t_end b in
  r ← py_mod (Z.of_nat i) PRINT_FREQ;
  if (r =? 0)%Z then
    speed ← truediv (inject_Z (Z.of_nat (input_size0 b))) (val batch_time);
    let wd := train_writer ts in
    let global_steps := train_global_steps wd in
    Ok {| locals := {| batch_time := batch_time;
                       data_time := data_time;
                       losses := losses;
                       acc1 := acc1;
                       output1 := output1;
                       end_ := end_;
                       idx := idx st;
                       info := info st ++ [(i, batch_time, losses, acc1)] |};
          train_writer := {| writer := writer wd
                                       ++ [("train_loss", finite (val losses), global_steps);
                                           ("train_acc_first_branch", acc_val acc1,
                                            global_steps)];
                             train_global_steps := (global_steps + 1)%Z;
                             valid_global_steps := valid_global_steps wd |};
          optimizer_steps := optimizer_steps |}
  else
    Ok {| locals := {| batch_time := batch_time;
                       data_time := data_time;
                       losses := losses;
                       acc1 := acc1;
                       output1 := output1;
                       end_ := end_;
                       idx := idx st;
                       info := info st |};
          train_writer := train_writer ts;
          optimizer_steps := optimizer_steps |}.

(** [train_transaction]: returns nothing; its effects are the final
    [writer_dict], the calls of [optimizer.step()] and the logged lines. *)
Definition train_transaction (PRINT_FREQ : Z) (criterion : ndarray2 -> list Z -> Q)
  (train_loader : list Batch) (writer_dict : WriterDict) (start : Q) : res TrainState :=
  foldM (train_transaction_step PRINT_FREQ criterion)
        {| locals := loop_start start; train_writer := writer_dict; optimizer_steps := 0 |}
        (enumerate train_loader).

(** The clock has advanced whenever [batch_time.update(time.time() - end)]
    reads it: [e] is the value of [end] before the first batch. *)
Fixpoint clock_advances (e : Q) (loader : list Batch) : Prop :=
  match loader with
  | [] => True
  | b :: loader' => ~ (t_batch b - e == 0)%Q /\ clock_advances (t_end b) loader'
  end.

(** ** [_print_name_value] (lib/core/function.py) *)

(** [s * n] on a string. *)
Fixpoint str_repeat (s : string) (n : nat) : string :=
  match n with
  | 0 => EmptyString
  | S n' => s +:+ str_repeat s n'
  end.

(** [_print_name_value(name_value, full_arch_name)]: the three lines that it
    logs.  [name_value] is the dictionary as the list of its items (with
    strings as keys) and [format_value] is ['{:.3f}'.format]. *)
Definition _print_name_value {V} (format_value : V -> string)
  (name_value : list (string * V)) (full_arch_name : string) : list string :=
  let names := name_value.*1 in
  let values := name_value.*2 in
  let num_values := length name_value in
  let header :=
    "| Arch " +:+ String.concat " " (map (fun name => "| " +:+ name) names) +:+ " |" in
  let rule := str_repeat "|---" (num_values + 1) +:+ "|" in
  let full_arch_name :=
    if 15 <? String.length full_arch_name
    then substring 0 8 full_arch_name +:+ "..."
    else full_arch_name in
  let row :=
    "| " +:+ full_arch_name +:+ " "
    +:+ String.concat " " (map (fun value => "| " +:+ format_value value) values) +:+ " |" in
  [header; rule; row].

(** The number of occurrences of a character in a string. *)
Fixpoint count_char (c : ascii) (s : string) : nat :=
  match s with
  | EmptyString => 0
  | String c' s' => (if Ascii.eqb c' c then 1 else 0) + count_char c s'
  end.

(** A function on scores that keeps their order, as a positive scaling or
    the exponential does. *)
Definition order_preserving (f : Q -> Q) : Prop :=
  forall x y, (x < y)%Q <-> (f x < f y)%Q.

(** * Properties *)

(** ** The result monad, loops and comprehensions *)

Lemma bind_Ok {A B} (m : res A) (f : A -> res B) (b : B) :
  m ≫= f = Ok b <-> exists a, m = Ok a /\ f a = Ok b.
Proof.
  destruct m as [a|e]; simpl; split.
  - intros H. exists a. auto.
  - intros (a' & Ha & H). congruence.
  - discriminate.
  - intros (a' & Ha & _). discriminate.
Qed.

Lemma bind_assoc {A B C} (m : res A) (f : A -> res B) (g : B -> res C) :
  (m ≫= f) ≫= g = m ≫= (fun a => f a ≫= g).
Proof. destruct m; reflexivity. Qed.

Lemma bind_ext {A B} (m : res A) (f g : A -> res B) :
  (forall a, f a = g a) -> m ≫= f = m ≫= g.
Proof. intros H. destruct m; simpl; auto. Qed.

Ltac inv_bind H :=
  let a := fresh "r" in
  let Ha := fresh "Hr" in
  apply bind_Ok in H; destruct H as (a & Ha & H).

Lemma getitem_Ok {A} (l : list A) (i : nat) (a : A) :
  getitem l i = Ok a <-> l !! i = Some a.
Proof.
  unfold getitem. destruct (l !! i); split; intros H; congruence.
Qed.

Lemma getitem_lt {A} (l : list A) (i : nat) :
  i < length l -> exists a, getitem l i = Ok a /\ l !! i = Some a.
Proof.
  intros H. destruct (lookup_lt_is_Some_2 l i H) as [a Ha].
  exists a. split; [by apply getitem_Ok | done].
Qed.

Lemma setitem_Ok {A} (l : list A) (i : nat) (v : A) (l' : list A) :
  setitem l i v = Ok l' <-> i < length l /\ l' = <[i := v]> l.
Proof.
  unfold setitem. destruct (decide (i < length l)); split.
  - intros H. split; [done | congruence].
  - intros [_ ->]. done.
  - discriminate.
  - intros [? _]. lia.
Qed.

Lemma foldM_app {A S} (f : S -> A -> res S) (s : S) (l1 l2 : list A) :
  foldM f s (l1 ++ l2) = foldM f s l1 ≫= (fun s' => foldM f s' l2).
Proof.
  revert s. induction l1 as [|a l1 IH]; intros s; simpl; [done|].
  destruct (f s a); simpl; auto.
Qed.

Lemma foldM_ext {A S} (f g : S -> A -> res S) (s : S) (l : list A) :
  (forall s a, a ∈ l -> f s a = g s a) -> foldM f s l = foldM g s l.
Proof.
  revert s. induction l as [|a l IH]; intros s H; simpl; [done|].
  rewrite H by left. destruct (g s a); simpl; [|done].
  apply IH. intros s' a' Ha'. apply H. by right.
Qed.

Lemma foldM_map {A B S} (f : S -> B -> res S) (h : A -> B) (s : S) (l : list A) :
  foldM f s (map h l) = foldM (fun s a => f s (h a)) s l.
Proof.
  revert s. induction l as [|a l IH]; intros s; simpl; [done|].
  destruct (f s (h a)); simpl; auto.
Qed.

Lemma foldM_flat_map {A B S} (f : S -> B -> res S) (g : A -> list B) (s : S) (l : list A) :
  foldM f s (flat_map g l) = foldM (fun s a => foldM f s (g a)) s l.
Proof.
  revert s. induction l as [|a l IH]; intros s; simpl; [done|].
  rewrite foldM_app. destruct (foldM f s (g a)); simpl; auto.
Qed.

(** An invariant that every iteration re-establishes holds after a loop that
    completes, and the loop completes when every iteration does. *)
Lemma foldM_invariant {A S} (P : S -> Prop) (f : S -> A -> res S) (l : list A) (s : S) :
  P s ->
  (forall s a, a ∈ l -> P s -> exists s', f s a = Ok s' /\ P s') ->
  exists s', foldM f s l = Ok s' /\ P s'.
Proof.
  revert s. induction l as [|a l IH]; intros s Hs Hstep; simpl.
  - eauto.
  - destruct (Hstep s a) as (s1 & -> & Hs1); [left | done |]. simpl.
    apply IH; [done|]. intros s2 a2 Ha2. apply Hstep. by right.
Qed.

Lemma foldM_preserves {A S} (P : S -> Prop) (f : S -> A -> res S) (l : list A) (s s' : S) :
  P s ->
  (forall s a s', a ∈ l -> P s -> f s a = Ok s' -> P s') ->
  foldM f s l = Ok s' -> P s'.
Proof.
  revert s. induction l as [|a l IH]; intros s Hs Hstep; simpl.
  - intros [= <-]. done.
  - intros H. inv_bind H. eapply IH; [| |exact H].
    + eapply Hstep; [left | exact Hs | exact Hr].
    + intros s2 a2 s3 Ha2. apply Hstep. by right.
Qed.

Lemma mapM_length {A B} (f : A -> res B) (l : list A) (bs : list B) :
  mapM f l = Ok bs -> length bs = length l.
Proof.
  revert bs. induction l as [|a l IH]; intros bs; simpl.
  - intros [= <-]. done.
  - intros H. inv_bind H. inv_bind H. injection H as <-. simpl. f_equal. by apply IH.
Qed.

Lemma mapM_lookup {A B} (f : A -> res B) (l : list A) (bs : list B) (i : nat) (a : A) :
  mapM f l = Ok bs -> l !! i = Some a -> exists b, f a = Ok b /\ bs !! i = Some b.
Proof.
  revert bs i. induction l as [|a' l IH]; intros bs i; simpl; [done|].
  intros H Hi. inv_bind H. inv_bind H. injection H as <-.
  destruct i as [|i]; simpl in *.
  - injection Hi as ->. eauto.
  - eapply IH; eauto.
Qed.

Lemma mapM_total {A B} (f : A -> res B) (l : list A) :
  (forall a, a ∈ l -> exists b, f a = Ok b) -> exists bs, mapM f l = Ok bs.
Proof.
  induction l as [|a l IH]; intros H; simpl; [eauto|].
  destruct (H a) as [b ->]; [left|]. simpl.
  destruct IH as [bs ->]; [intros a' Ha'; apply H; by right|]. simpl. eauto.
Qed.

Lemma mapM_ext {A B} (f g : A -> res B) (l : list A) :
  (forall a, a ∈ l -> f a = g a) -> mapM f l = mapM g l.
Proof.
  induction l as [|a l IH]; intros H; simpl; [done|].
  rewrite H by left. rewrite IH; [done|]. intros a' Ha'. apply H. by right.
Qed.

Lemma elem_of_range (n : Z) (i : nat) : i ∈ range n <-> (Z.of_nat i < n)%Z.
Proof. unfold range. rewrite elem_of_seq. lia. Qed.


Lemma range_len {A} (l : list A) : range (len l) = seq 0 (length l).
Proof. unfold range, len. by rewrite Nat2Z.id. Qed.

(** [map] of the standard library against stdpp's lookup. *)
Lemma map_fmap {A B} (f : A -> B) (l : list A) : map f l = f <$> l.
Proof. reflexivity. Qed.

Lemma lookup_map {A B} (f : A -> B) (l : list A) (i : nat) :
  map f l !! i = f <$> l !! i.
Proof. rewrite map_fmap. apply list_lookup_fmap. Qed.

Lemma bind_Ok_l {A B} (a : A) (f : A -> res B) : Ok a ≫= f = f a.
Proof. reflexivity. Qed.

(** ** Shape rules on inputs that fit *)

Lemma conv2d_forward_fits (c_in c_out k s p n h w : nat) :
  s <> 0 -> k <> 0 -> k <= h + 2 * p -> k <= w + 2 * p ->
  conv2d_forward c_in c_out k s p [n; c_in; h; w]
  = Ok [n; c_out; conv_out h k s p; conv_out w k s p].
Proof.
  intros Hs Hk Hh Hw. unfold conv2d_forward. rewrite Nat.eqb_refl. simpl negb. cbv iota.
  destruct (Nat.eqb_spec s 0); [done|].
  destruct (Nat.eqb_spec k 0); [done|]. cbn [orb].
  destruct (Nat.ltb_spec (h + 2 * p) k); [lia|].
  destruct (Nat.ltb_spec (w + 2 * p) k); [lia|]. reflexivity.
Qed.

Lemma batch_ok_eval (n : nat) : batch_ok false n.
Proof. by left. Qed.

Lemma batch_ok_values (training : bool) (n h w : nat) :
  batch_ok training n -> training && (n * h * w =? 1) = false.
Proof.
  intros [-> | Hn]; [done|]. apply andb_false_intro2, Nat.eqb_neq.
  intros H. apply Nat.mul_eq_1 in H as [H _]. apply Nat.mul_eq_1 in H as [H _]. lia.
Qed.

Lemma batchnorm2d_forward_fits (training : bool) (c n h w : nat) :
  batch_ok training n ->
  batchnorm2d_forward training c [n; c; h; w] = Ok [n; c; h; w].
Proof.
  intros Hn. unfold batchnorm2d_forward.
  by rewrite (batch_ok_values _ _ _ _ Hn), Nat.eqb_refl.
Qed.

Lemma mapM_Forall {A B} (P : B -> Prop) (f : A -> res B) (l : list A) (bs : list B) :
  (forall a b, a ∈ l -> f a = Ok b -> P b) -> mapM f l = Ok bs -> Forall P bs.
Proof.
  revert bs. induction l as [|a l IH]; intros bs Hf; simpl.
  - intros [= <-]. constructor.
  - intros H. inv_bind H. inv_bind H. injection H as <-. constructor.
    + eapply Hf; [left | done].
    + apply IH; [|done]. intros a' b' Ha'. apply Hf. by right.
Qed.

Lemma mapM_lookup_inv {A B} (f : A -> res B) (l : list A) (bs : list B) (i : nat) (b : B) :
  mapM f l = Ok bs -> bs !! i = Some b -> exists a, l !! i = Some a /\ f a = Ok b.
Proof.
  revert bs i. induction l as [|a' l IH]; intros bs i; simpl.
  - intros [= <-]. done.
  - intros H Hi. inv_bind H. inv_bind H. injection H as <-.
    destruct i as [|i]; simpl in *.
    + injection Hi as ->. eauto.
    + eapply IH; eauto.
Qed.

Lemma getlast_elem_of {A} (l : list A) (a : A) : getlast l = Ok a -> a ∈ l.
Proof.
  unfold getlast. destruct (last l) as [a'|] eqn:E; [|discriminate].
  intros [= <-]. rewrite last_lookup in E. by eapply list_elem_of_lookup_2.
Qed.

Lemma foldM_cons {A S} (f : S -> A -> res S) (s : S) (a : A) (l : list A) :
  foldM f s (a :: l) = f s a ≫= (fun s' => foldM f s' l).
Proof. reflexivity. Qed.

(** ** [HighResolutionModule]: the branch checks of the constructor *)

Lemma _check_branches_Ok num_branches blocks num_blocks num_inchannels num_channels :
  _check_branches num_branches blocks num_blocks num_inchannels num_channels = Ok tt
  <-> num_branches = len num_blocks /\ num_branches = len num_channels
      /\ num_branches = len num_inchannels.
Proof.
  unfold _check_branches.
  destruct (Z.eqb_spec num_branches (len num_blocks)); simpl; [|split; [done | tauto]].
  destruct (Z.eqb_spec num_branches (len num_channels)); simpl; [|split; [done | tauto]].
  destruct (Z.eqb_spec num_branches (len num_inchannels)); simpl; [|split; [done | tauto]].
  tauto.
Qed.

Lemma _check_branches_cases num_branches blocks num_blocks num_inchannels num_channels :
  _check_branches num_branches blocks num_blocks num_inchannels num_channels = Ok tt
  \/ exists msg,
       _check_branches num_branches blocks num_blocks num_inchannels num_channels
       = Raise (ValueError msg).
Proof.
  unfold _check_branches.
  repeat (match goal with |- context [negb ?b] => destruct b; simpl end); eauto.
Qed.

Lemma _make_one_branch_total inch i block num_blocks num_channels stride :
  i < length inch -> i < length num_blocks -> i < length num_channels ->
  exists b inch', _make_one_branch inch i block num_blocks num_channels stride = Ok (b, inch')
                  /\ length inch' = length inch.
Proof.
  intros Hi Hb Hc. unfold _make_one_branch.
  destruct (getitem_lt inch i Hi) as (ci & -> & _). simpl.
  destruct (getitem_lt num_channels i Hc) as (c & -> & _). simpl.
  unfold setitem. destruct (decide (i < length inch)); [|lia]. simpl.
  destruct (getitem_lt num_blocks i Hb) as (nb & -> & _). simpl.
  eexists _, _. split; [reflexivity|]. by rewrite length_insert.
Qed.

Lemma _make_branches_total inch num_branches block num_blocks num_channels :
  num_branches = len inch -> num_branches = len num_blocks -> num_branches = len num_channels ->
  exists bs inch', _make_branches inch num_branches block num_blocks num_channels = Ok (bs, inch')
                   /\ length inch' = length inch.
Proof.
  intros Hi Hb Hc. unfold _make_branches.
  destruct (foldM_invariant (fun st : list Layer * list nat => length st.2 = length inch)
              (fun '(branches, inch) i =>
                 '(b, inch) ← _make_one_branch inch i block num_blocks num_channels 1;
                 Ok (branches ++ [b], inch))
              (range num_branches) ([], inch)) as ([bs inch'] & H & Hlen).
  - done.
  - intros [bs0 inch0] i Hin Hlen. simpl in Hlen.
    apply elem_of_range in Hin. unfold len in *.
    destruct (_make_one_branch_total inch0 i block num_blocks num_channels 1)
      as (b & inch1 & -> & Hlen1); [lia..|].
    simpl. eexists. split; [reflexivity|]. simpl. lia.
  - exists bs, inch'. split; [exact H | exact Hlen].
Qed.

Lemma make_fuse_entry_total num_inchannels i j :
  i < length num_inchannels -> j < length num_inchannels ->
  exists e, make_fuse_entry num_inchannels i j = Ok e.
Proof.
  intros Hi Hj. unfold make_fuse_entry.
  destruct (getitem_lt num_inchannels i Hi) as (ci & Hci & _).
  destruct (getitem_lt num_inchannels j Hj) as (cj & Hcj & _).
  rewrite Hci, Hcj. simpl.
  destruct (i <? j); [eauto|]. destruct (j =? i); [eauto|].
  match goal with |- context [mapM ?f ?l] => destruct (mapM_total f l) as [cs ->] end.
  - intros k _. destruct (k =? i - j - 1); eauto.
  - simpl. eauto.
Qed.

Lemma _make_fuse_layers_total num_branches num_inchannels multi_scale_output fusion :
  num_branches = len num_inchannels ->
  exists fl, _make_fuse_layers num_branches num_inchannels multi_scale_output fusion = Ok fl.
Proof.
  intros Hn. unfold _make_fuse_layers.
  destruct (num_branches =? 1)%Z eqn:E1; [eauto|].
  match goal with |- context [mapM ?f ?l] => destruct (mapM_total f l) as [rows ->] end.
  - intros i Hi. apply mapM_total. intros j Hj.
    apply elem_of_range in Hj.
    assert (Z.of_nat i < num_branches)%Z.
    { destruct multi_scale_output; apply elem_of_range in Hi; [done|].
      unfold len in *. lia. }
    unfold len in *. apply make_fuse_entry_total; lia.
  - simpl. eauto.
Qed.

Lemma HighResolutionModule_init_total num_branches blocks num_blocks num_inchannels
  num_channels fuse_method multi_scale_output fusion :
  num_branches = len num_blocks -> num_branches = len num_channels ->
  num_branches = len num_inchannels ->
  exists m, HighResolutionModule_init num_branches blocks num_blocks num_inchannels
              num_channels fuse_method multi_scale_output fusion = Ok m.
Proof.
  intros Hb Hc Hi. unfold HighResolutionModule_init.
  rewrite (proj2 (_check_branches_Ok _ _ _ _ _)) by done. simpl.
  destruct (_make_branches_total num_inchannels num_branches blocks num_blocks num_channels)
    as (bs & inch' & -> & Hlen); [done..|]. simpl.
  destruct (_make_fuse_layers_total num_branches inch' multi_scale_output fusion)
    as (fl & ->); [unfold len in *; lia|]. simpl. eauto.
Qed.

(** C2.  Constructing a [HighResolutionModule] raises a [ValueError] exactly
    when [num_branches] differs from the length of [num_blocks], of
    [num_channels] or of [num_inchannels]; the check is passed, and the
    construction completes, exactly when the three lengths all equal
    [num_branches]. *)
Theorem HighResolutionModule_init_checks_branches :
  forall num_branches blocks num_blocks num_inchannels num_channels fuse_method
         multi_scale_output fusion,
    let mismatch := num_branches <> len num_blocks \/ num_branches <> len num_channels
                    \/ num_branches <> len num_inchannels in
    let construct := HighResolutionModule_init num_branches blocks num_blocks num_inchannels
                       num_channels fuse_method multi_scale_output fusion in
    (raises_ValueError construct = true <-> mismatch)
    /\ (_check_branches num_branches blocks num_blocks num_inchannels num_channels = Ok tt
        <-> ~ mismatch)
    /\ (is_Ok construct = true <-> ~ mismatch).
Proof.
  intros nb blocks nbl ninch nch fm mso fus mismatch construct.
  assert (Hdec : mismatch \/ (nb = len nbl /\ nb = len nch /\ nb = len ninch)).
  { unfold mismatch.
    destruct (decide (nb = len nbl)), (decide (nb = len nch)), (decide (nb = len ninch)); tauto. }
  assert (Hno : mismatch -> ~ (nb = len nbl /\ nb = len nch /\ nb = len ninch)).
  { unfold mismatch. tauto. }
  assert (Hbad : mismatch -> raises_ValueError construct = true /\ is_Ok construct = false).
  { intros Hm. unfold construct, HighResolutionModule_init.
    destruct (_check_branches_cases nb blocks nbl ninch nch) as [Hok | [msg ->]].
    - apply _check_branches_Ok in Hok. tauto.
    - done. }
  assert (Hgood : nb = len nbl /\ nb = len nch /\ nb = len ninch ->
                  raises_ValueError construct = false /\ is_Ok construct = true).
  { intros (H1 & H2 & H3).
    destruct (HighResolutionModule_init_total nb blocks nbl ninch nch fm mso fus) as [m Hm];
      [done..|].
    unfold construct. rewrite Hm. done. }
  split; [|split].
  - split; [|by intros Hm; apply Hbad].
    intros Hr. destruct Hdec as [Hm | Hg]; [done|].
    apply Hgood in Hg. destruct Hg as [Hg _]. congruence.
  - rewrite _check_branches_Ok. split; [intros Hg Hm; by apply Hno in Hm | ].
    intros Hn. destruct Hdec; tauto.
  - split.
    + intros Hok Hm. apply Hbad in Hm. destruct Hm as [_ Hm]. congruence.
    + intros Hn. destruct Hdec as [Hm | Hg]; [tauto|]. apply Hgood in Hg. tauto.
Qed.

(** ** [init_weights] *)

Section InitWeightsFacts.
Context {W : Type} {W_shape : TensorShape W}.
Implicit Types (fs : gmap string (list (string * W))) (self : Model W).

(** A non-empty path that names no file: [ValueError]. *)
Lemma init_weights_missing_file fs init self pretrained :
  pretrained <> EmptyString -> isfile fs pretrained = false ->
  init_weights fs init self pretrained = Raise (ValueError (pretrained +:+ " is not exist!")).
Proof.
  intros Hne Hf. unfold init_weights. rewrite Hf.
  destruct (String.eqb_spec pretrained EmptyString); [done|]. done.
Qed.

(** The empty path: no error, the model is only initialised. *)
Lemma init_weights_empty_path fs init self :
  init_weights fs init self EmptyString = Ok (initialised init self).
Proof. reflexivity. Qed.

Lemma is_pretrained_layer_total self name :
  model_pretrained_layers self <> [] -> exists b, is_pretrained_layer self name = Ok b.
Proof.
  intros Hne. unfold is_pretrained_layer.
  destruct (_ && _); [eauto|].
  destruct (model_pretrained_layers self) as [|l ls]; [done|]. simpl. eauto.
Qed.

(** [load_state_dict] accepts a dictionary whose tensors have the shapes of
    the parameters they name, and no other. *)
Lemma load_state_dict_fits self (existing_state_dict : gmap string W) :
  (forall name input_param param,
     existing_state_dict !! name = Some input_param ->
     model_state_dict self !! name = Some param ->
     tensor_shape input_param = tensor_shape param) ->
  load_state_dict self existing_state_dict
  = Ok {| model_pretrained_layers := model_pretrained_layers self;
          model_state_dict :=
            map_imap (fun name w => Some (default w (existing_state_dict !! name)))
                     (model_state_dict self) |}.
Proof.
  intros Hfits. unfold load_state_dict.
  match goal with |- (if ?c then _ else _) = _ => assert (c = true) as -> end; [|done].
  apply forallb_forall. intros [name param] Hin.
  apply list_elem_of_In, elem_of_map_to_list in Hin.
  destruct (existing_state_dict !! name) as [input_param|] eqn:He; [|done].
  apply bool_decide_eq_true. by eapply Hfits.
Qed.


(** An existing file is loaded without error when [pretrained_layers] is not
    empty and the tensors of the file have the shapes of the parameters that
    they name. *)
Lemma init_weights_existing_file fs init self pretrained :
  isfile fs pretrained = true -> model_pretrained_layers self <> [] ->
  (forall name input_param param,
     (name, input_param) ∈ default [] (fs !! pretrained) ->
     init (model_state_dict self) !! name = Some param ->
     tensor_shape input_param = tensor_shape param) ->
  exists m, init_weights fs init self pretrained = Ok m.
Proof.
  intros Hf Hne Hfits. unfold init_weights. rewrite Hf.
  match goal with |- context [foldM ?f ?s ?l] =>
    destruct (foldM_invariant
                (fun e : gmap string W =>
                   forall name w, e !! name = Some w -> (name, w) ∈ l) f l s)
      as (e & -> & He) end.
  - intros name w Hw. by rewrite lookup_empty in Hw.
  - intros e [name m] Hin He.
    destruct (is_pretrained_layer_total (initialised init self) name) as [b Hb]; [done|].
    unfold initialised in Hb. rewrite Hb. simpl. eexists. split; [reflexivity|].
    intros name' w Hw. destruct b; [|by apply He].
    destruct (decide (name' = name)) as [->|Hneq].
    + rewrite lookup_insert_eq in Hw. by injection Hw as <-.
    + rewrite lookup_insert_ne in Hw by done. by apply He.
  - rewrite bind_Ok_l, load_state_dict_fits; [eauto|].
    intros name input_param param Hin Hp. eapply Hfits; [by apply He | exact Hp].
Qed.

(** [get_pose_net] never fails in [init_weights]. *)
Lemma get_pose_net_init_Ok fs init self is_train INIT_WEIGHTS :
  is_Ok (get_pose_net_init fs init self is_train INIT_WEIGHTS) = true.
Proof. unfold get_pose_net_init. destruct (_ && _); reflexivity. Qed.

End InitWeightsFacts.

(** C3 (code defect).  With an existing checkpoint file that holds a
    parameter and an empty [PRETRAINED_LAYERS], [init_weights] does not load
    the weights: evaluating [self.pretrained_layers[0]] raises [IndexError]. *)
Theorem init_weights_empty_pretrained_layers :
  isfile example_fs "w.pth" = true
  /\ init_weights example_fs (fun state => state) (example_model []) "w.pth" = Raise IndexError.
Proof. split; vm_compute; reflexivity. Qed.

(** The same call with [PRETRAINED_LAYERS = ['*']] loads the checkpoint. *)
Lemma init_weights_wildcard :
  (fun m => model_state_dict m !! "conv1.weight")
    <$> init_weights example_fs (fun state => state) (example_model ["*"]) "w.pth"
  = Ok (Some 1).
Proof. vm_compute. reflexivity. Qed.

Lemma init_weights_missing_file_witness :
  init_weights example_fs (fun state => state) (example_model ["*"]) "missing.pth"
  = Raise (ValueError "missing.pth is not exist!").
Proof.
  apply (init_weights_missing_file example_fs (fun state => state) (example_model ["*"])
           "missing.pth"); [discriminate | reflexivity].
Defined.

Lemma init_weights_existing_file_witness :
  isfile example_fs "w.pth" = true
  /\ exists m, init_weights example_fs (fun state => state) (example_model ["*"]) "w.pth" = Ok m.
Proof.
  split; [reflexivity|].
  apply (init_weights_existing_file example_fs (fun state => state) (example_model ["*"])
           "w.pth"); [reflexivity | discriminate | reflexivity].
Defined.

(** ** [AverageMeter] *)

Lemma Qsum_snoc (l : list Q) (x : Q) : (Qsum (l ++ [x]) == Qsum l + x)%Q.
Proof.
  unfold Qsum. induction l as [|y l IH]; simpl.
  - ring.
  - rewrite IH. ring.
Qed.

Lemma update_Ok (self : AverageMeter) (v n : Q) :
  exists m, update self v n = Ok m
            /\ val m = v
            /\ sum m = (sum self + v * n)%Q
            /\ count m = (count self + n)%Q
            /\ ((count m == 0)%Q -> avg m = 0%Q)
            /\ (~ (count m == 0)%Q -> avg m = (sum m / count m)%Q).
Proof.
  unfold update, truediv.
  destruct (Qeq_bool (count self + n) 0) eqn:E; simpl.
  - eexists. split; [reflexivity|]. simpl. repeat split; try done.
    intros Hne. apply Qeq_bool_iff in E. done.
  - eexists. split; [reflexivity|]. simpl. repeat split; try done.
    intros He. apply Qeq_bool_iff in He. congruence.
Qed.

Lemma updates_snoc (self : AverageMeter) (calls : list (Q * Q)) (v n : Q) :
  updates self (calls ++ [(v, n)]) = updates self calls ≫= (fun m => update m v n).
Proof.
  unfold updates. rewrite foldM_app. apply bind_ext. intros m. simpl.
  destruct (update m v n); reflexivity.
Qed.

(** C9.  After [reset] and any sequence of [update(val_k, n_k)] calls (none
    of which raises, so no division by zero occurs), [count] is the sum of
    the [n_k], [sum] the sum of the [val_k * n_k], [val] the last [val_k] (0
    when there is none), and [avg] is [sum / count] when [count] is not zero
    and 0 when it is. *)
Theorem AverageMeter_invariant :
  forall (self : AverageMeter) (calls : list (Q * Q)),
  exists m,
    updates (reset self) calls = Ok m
    /\ (count m == Qsum (map snd calls))%Q
    /\ (sum m == Qsum (map (fun c => c.1 * c.2) calls))%Q
    /\ val m = default 0%Q (last (map fst calls))
    /\ (~ (count m == 0)%Q -> (avg m == sum m / count m)%Q)
    /\ ((count m == 0)%Q -> (avg m == 0)%Q).
Proof.
  intros self calls. induction calls as [|[v n] calls IH] using rev_ind.
  - exists (reset self). simpl. repeat split; reflexivity.
  - destruct IH as (m & Hm & Hcount & Hsum & Hval & _).
    rewrite updates_snoc, Hm. simpl.
    destruct (update_Ok m v n) as (m' & -> & Hv & Hs & Hc & Hz & Hnz).
    exists m'. split; [reflexivity|].
    rewrite !map_app. simpl. rewrite !Qsum_snoc, last_snoc. simpl.
    split; [by rewrite Hc, Hcount|].
    split; [by rewrite Hs, Hsum|].
    split; [done|].
    split.
    + intros Hne. by rewrite (Hnz Hne).
    + intros He. by rewrite (Hz He).
Qed.

(** ** [accuracy_classification] *)

Lemma argmax_from_spec (row : list Q) (best_i i : nat) (best : Q) (pre : list Q) :
  length pre = i -> pre !! best_i = Some best ->
  (forall j y, pre !! j = Some y -> (y <= best)%Q) ->
  (forall j y, j < best_i -> pre !! j = Some y -> (y < best)%Q) ->
  first_argmax (pre ++ row) (argmax_from best_i best i row).
Proof.
  revert best_i i best pre. induction row as [|x row IH]; intros best_i i best pre Hlen Hb Hle Hlt.
  - simpl. rewrite app_nil_r. exists best. auto.
  - simpl. replace (pre ++ x :: row) with ((pre ++ [x]) ++ row) by by rewrite <- app_assoc.
    destruct (Qlt_le_dec best x) as [Hlt' | Hle'].
    + apply IH.
      * rewrite length_app. simpl. lia.
      * rewrite lookup_app_r by lia. replace (i - length pre) with 0 by lia. done.
      * intros j y Hj. apply lookup_app_Some in Hj as [Hj | [_ Hj]].
        -- apply Qlt_le_weak. eapply Qle_lt_trans; [eapply Hle; exact Hj | exact Hlt'].
        -- destruct (j - length pre); simpl in Hj; [|done].
           injection Hj as <-. apply Qle_refl.
      * intros j y Hji Hj. rewrite lookup_app_l in Hj by lia.
        eapply Qle_lt_trans; [eapply Hle; exact Hj | exact Hlt'].
    + apply IH.
      * rewrite length_app. simpl. lia.
      * apply lookup_app_l_Some. done.
      * intros j y Hj. apply lookup_app_Some in Hj as [Hj | [_ Hj]].
        -- eapply Hle; exact Hj.
        -- destruct (j - length pre); simpl in Hj; [|done].
           injection Hj as <-. done.
      * intros j y Hji Hj. apply lookup_lt_Some in Hb.
        rewrite lookup_app_l in Hj by lia. eapply Hlt; eauto.
Qed.

(** The model of [np.argmax] on a row returns the first position of a
    maximum. *)
Lemma argmax_row_spec (row : list Q) :
  0 < length row -> first_argmax row (argmax_row row).
Proof.
  destruct row as [|x row]; simpl; [lia|]. intros _.
  apply (argmax_from_spec row 0 1 x [x]); try done.
  - intros [|j] y; simpl; [|done]. intros [= <-]. apply Qle_refl.
  - intros j y Hj. lia.
Qed.

Lemma count_equal_argmax (rs : list (list Q)) (target : list Z) :
  filter (fun pt : nat * Z => Z.of_nat pt.1 = pt.2) (zip (map argmax_row rs) target)
  = map (fun rt : list Q * Z => (argmax_row rt.1, rt.2))
        (filter (fun rt : list Q * Z => Z.of_nat (argmax_row rt.1) = rt.2) (zip rs target)).
Proof.
  revert target. induction rs as [|r rs IH]; intros [|t target]; simpl; try done.
  rewrite !filter_cons. simpl. rewrite IH.
  destruct (decide (Z.of_nat (argmax_row r) = t)); done.
Qed.

Lemma count_equal_correct_rows (output : ndarray2) (target : list Z) :
  count_equal (map argmax_row (rows output)) target = Z.of_nat (correct_rows output target).
Proof.
  unfold count_equal, correct_rows. by rewrite count_equal_argmax, length_map.
Qed.

Lemma correct_rows_le (output : ndarray2) (target : list Z) :
  correct_rows output target <= length (rows output).
Proof.
  unfold correct_rows.
  etransitivity; [apply length_filter|]. rewrite length_zip. lia.
Qed.

Lemma fraction_bounds (c n : nat) :
  c <= n -> 0 < n ->
  (0 <= inject_Z (Z.of_nat c) / inject_Z (Z.of_nat n) <= 1)%Q.
Proof.
  intros Hc Hn.
  assert (Hpos : (0 < inject_Z (Z.of_nat n))%Q).
  { change 0%Q with (inject_Z 0). rewrite <- Zlt_Qlt. lia. }
  split.
  - apply Qle_shift_div_l; [done|]. rewrite Qmult_0_l.
    change 0%Q with (inject_Z 0). rewrite <- Zle_Qle. lia.
  - apply Qle_shift_div_r; [done|]. rewrite Qmult_1_l. rewrite <- Zle_Qle. lia.
Qed.

(** C10, as stated, fails on an empty batch: the batch sizes agree, no
    [ValueError] is raised, and the value returned is nan (0 / 0), which is
    not a fraction between 0 and 1. *)
Lemma accuracy_classification_empty_batch :
  let output := {| ncols := 2; rows := [] |} in
  let target : list Z := [] in
  length (rows output) = length target
  /\ accuracy_classification output target = Ok nan.
Proof. split; reflexivity. Qed.

(** C10, amended.  For an output with at least one row and one class column,
    [accuracy_classification] raises a [ValueError] exactly when the batch
    sizes differ; otherwise it returns the number of rows whose argmax (the
    first position of a maximum of the row) equals the label, divided by the
    batch size, a rational between 0 and 1. *)
Theorem accuracy_classification_spec (output : ndarray2) (target : list Z) :
  0 < ncols output -> 0 < length (rows output) ->
  (raises_ValueError (accuracy_classification output target) = true
   <-> length (rows output) <> length target)
  /\ (length (rows output) = length target ->
      accuracy_classification output target
      = Ok (finite (inject_Z (Z.of_nat (correct_rows output target))
                    / inject_Z (Z.of_nat (length (rows output)))))
      /\ (0 <= inject_Z (Z.of_nat (correct_rows output target))
               / inject_Z (Z.of_nat (length (rows output))) <= 1)%Q)
  /\ (well_formed output -> Forall (fun row => first_argmax row (argmax_row row)) (rows output)).
Proof.
  intros Hc Hr.
  assert (Heq : length (rows output) = length target ->
                accuracy_classification output target
                = Ok (finite (inject_Z (Z.of_nat (correct_rows output target))
                              / inject_Z (Z.of_nat (length (rows output)))))).
  { intros Hlen. unfold accuracy_classification, np_argmax_axis1.
    rewrite Hlen, Nat.eqb_refl. simpl.
    destruct (Nat.eqb_spec (ncols output) 0) as [|_]; [lia|]. simpl.
    rewrite count_equal_correct_rows. unfold np_true_divide.
    destruct (Z.eqb_spec (Z.of_nat (length target)) 0) as [|_]; [lia|]. done. }
  split; [|split].
  - split.
    + intros Hv Hlen. rewrite (Heq Hlen) in Hv. discriminate.
    + intros Hne. unfold accuracy_classification.
      destruct (Nat.eqb_spec (length (rows output)) (length target)); [done|]. done.
  - intros Hlen. split; [by apply Heq|].
    apply fraction_bounds; [apply correct_rows_le | done].
  - intros Hwf. unfold well_formed in Hwf.
    eapply Forall_impl; [exact Hwf|]. intros row Hrow. apply argmax_row_spec. simpl in Hrow. lia.
Qed.

Lemma accuracy_classification_spec_witness :
  let output := {| ncols := 3; rows := [[1; 5; 2]; [3 # 2; 1; 0]; [0; 0; 0]]%Q |} in
  let target := [1; 2; 0]%Z in
  accuracy_classification output target = Ok (finite (2 # 3))
  /\ (raises_ValueError (accuracy_classification output target) = true
      <-> length (rows output) <> length target).
Proof.
  intros output target. split; [reflexivity|].
  apply (accuracy_classification_spec output target); simpl; lia.
Defined.

(** ** [get_pose_vectors]: which confidences gate a limb vector *)

Lemma limb_vectors_run_pairs (preds_b : list vec) (maxvals_b : list R) :
  limb_vectors preds_b maxvals_b
  = run_pairs preds_b maxvals_b limb_pairs ((-1)%Z, replicate (13 * 6) (0%R, 0%R))
    ≫= (fun st => Ok st.2).
Proof.
  unfold limb_vectors, run_pairs, limb_pairs.
  rewrite foldM_flat_map.
  match goal with |- ?a ≫= _ = ?b ≫= _ => assert (Heq : a = b); [|by rewrite Heq] end.
  apply foldM_ext. intros st [n i] _.
  rewrite foldM_map. apply foldM_ext. intros st' [m j] _. reflexivity.
Qed.

Lemma limb_step_in_range (preds_b : list vec) (maxvals_b : list R) (n i j a : nat)
  (vectors : list vec) (p_i p_j : vec) (c_n c_j : R) (old : vec) :
  preds_b !! i = Some p_i -> preds_b !! j = Some p_j ->
  maxvals_b !! n = Some c_n -> maxvals_b !! j = Some c_j ->
  vectors !! a = Some old ->
  limb_step preds_b maxvals_b n i j ((Z.of_nat a - 1)%Z, vectors)
  = Ok (Z.of_nat a, <[a := stored_vector p_i p_j c_n c_j old]> vectors).
Proof.
  intros Hi Hj Hn Hcj Ha. unfold limb_step, stored_vector. simpl.
  replace (Z.of_nat a - 1 + 1)%Z with (Z.of_nat a) by lia.
  rewrite (proj2 (getitem_Ok _ _ _) Hn). simpl.
  destruct (Rgeb c_n 0.4); simpl; [|by rewrite list_insert_id].
  rewrite (proj2 (getitem_Ok _ _ _) Hcj). simpl.
  destruct (Rgeb c_j 0.4); simpl; [|by rewrite list_insert_id].
  rewrite (proj2 (getitem_Ok _ _ _) Hi), (proj2 (getitem_Ok _ _ _) Hj). simpl.
  destruct (Reqb (norm (vsub p_i p_j)) 0); simpl; [by rewrite list_insert_id|].
  unfold setitem. rewrite Nat2Z.id.
  destruct (decide (a < length vectors)) as [_|Hge]; [done|].
  apply lookup_lt_Some in Ha. lia.
Qed.

(** The loop over a list of pairs writes the consecutive positions from [a]
    on and leaves the rest of [vectors] as it was. *)
Lemma run_pairs_spec (preds_b : list vec) (maxvals_b : list R) (pairs : list (nat * nat * nat)) :
  Forall (fun '(n, i, j) => i < length preds_b /\ j < length preds_b
                            /\ n < length maxvals_b /\ j < length maxvals_b) pairs ->
  forall (a : nat) (vectors : list vec),
    a + length pairs <= length vectors ->
    exists vectors',
      run_pairs preds_b maxvals_b pairs ((Z.of_nat a - 1)%Z, vectors)
      = Ok ((Z.of_nat (a + length pairs) - 1)%Z, vectors')
      /\ length vectors' = length vectors
      /\ (forall p, p < a -> vectors' !! p = vectors !! p)
      /\ (forall t n i j, pairs !! t = Some (n, i, j) ->
            exists p_i p_j c_n c_j old,
              preds_b !! i = Some p_i /\ preds_b !! j = Some p_j
              /\ maxvals_b !! n = Some c_n /\ maxvals_b !! j = Some c_j
              /\ vectors !! (a + t) = Some old
              /\ vectors' !! (a + t) = Some (stored_vector p_i p_j c_n c_j old)).
Proof.
  induction 1 as [|[[n i] j] pairs (Hi & Hj & Hn & Hcj) _ IH]; intros a vectors Hlen.
  - exists vectors. simpl. rewrite Nat.add_0_r. repeat split; done.
  - simpl in Hlen.
    destruct (lookup_lt_is_Some_2 preds_b i Hi) as [p_i Hpi].
    destruct (lookup_lt_is_Some_2 preds_b j Hj) as [p_j Hpj].
    destruct (lookup_lt_is_Some_2 maxvals_b n Hn) as [c_n Hcn].
    destruct (lookup_lt_is_Some_2 maxvals_b j Hcj) as [c_j Hcj'].
    destruct (lookup_lt_is_Some_2 vectors a) as [old Hold]; [lia|].
    unfold run_pairs. simpl. fold (run_pairs preds_b maxvals_b pairs).
    rewrite (limb_step_in_range _ _ _ _ _ _ _ _ _ _ _ _ Hpi Hpj Hcn Hcj' Hold). simpl.
    set (vectors1 := <[a := stored_vector p_i p_j c_n c_j old]> vectors).
    destruct (IH (S a) vectors1) as (vectors' & Hrun & Hlen' & Hpre & Hpost).
    { unfold vectors1. rewrite length_insert. lia. }
    replace (Z.of_nat a) with (Z.of_nat (S a) - 1)%Z by lia.
    exists vectors'. split; [|split; [|split]].
    + rewrite Hrun. do 3 f_equal. simpl. lia.
    + rewrite Hlen'. unfold vectors1. by rewrite length_insert.
    + intros p Hp. rewrite Hpre by lia. unfold vectors1.
      apply list_lookup_insert_ne. lia.
    + intros [|t] n' i' j' Ht; simpl in Ht.
      * injection Ht as <- <- <-. exists p_i, p_j, c_n, c_j, old.
        rewrite Nat.add_0_r. repeat split; try done.
        rewrite Hpre by lia. unfold vectors1.
        apply list_lookup_insert_eq. by apply lookup_lt_Some in Hold.
      * destruct (Hpost t n' i' j' Ht) as (q_i & q_j & d_n & d_j & old' & ? & ? & ? & ? & Ho & Hv).
        exists q_i, q_j, d_n, d_j, old'.
        replace (a + S t) with (S a + t) by lia. repeat split; try done.
        unfold vectors1 in Ho. rewrite list_lookup_insert_ne in Ho by lia. done.
Qed.

Lemma limb_pairs_in_range :
  Forall (fun '(n, i, j) => i < 17 /\ j < 17 /\ n < 17 /\ j < 17) limb_pairs.
Proof. vm_compute. repeat (constructor; [lia|]). constructor. Qed.

(** What [get_pose_vectors] stores, for arrays of at least 17 joints: at the
    position of the pair ([n], [m]) the vector between the joints [i] and
    [j], gated by the confidences at index [n] and at joint [j]. *)
Lemma limb_vectors_spec (preds_b : list vec) (maxvals_b : list R) :
  17 <= length preds_b -> 17 <= length maxvals_b ->
  exists vectors,
    limb_vectors preds_b maxvals_b = Ok vectors
    /\ length vectors = 78
    /\ forall t n i j, limb_pairs !! t = Some (n, i, j) ->
         exists p_i p_j c_n c_j,
           preds_b !! i = Some p_i /\ preds_b !! j = Some p_j
           /\ maxvals_b !! n = Some c_n /\ maxvals_b !! j = Some c_j
           /\ vectors !! t = Some (expected_limb_vector p_i p_j c_n c_j).
Proof.
  intros Hp Hm.
  destruct (run_pairs_spec preds_b maxvals_b limb_pairs) with (a := 0)
    (vectors := replicate (13 * 6) (0%R, 0%R)) as (vectors & Hrun & Hlen & _ & Hpost).
  - eapply Forall_impl; [apply limb_pairs_in_range|]. intros [[n i] j]. lia.
  - rewrite length_replicate. vm_compute. lia.
  - exists vectors. split; [|split].
    + rewrite limb_vectors_run_pairs.
      etransitivity; [apply (f_equal (fun m => m ≫= _)); exact Hrun | reflexivity].
    + by rewrite Hlen, length_replicate.
    + intros t n i j Ht.
      destruct (Hpost t n i j Ht) as (p_i & p_j & c_n & c_j & old & ? & ? & ? & ? & Ho & Hv).
      exists p_i, p_j, c_n, c_j. repeat split; try done.
      rewrite Nat.add_0_l in Ho, Hv. apply lookup_replicate in Ho as [-> _]. exact Hv.
Qed.

Lemma Rgeb_true (x y : R) : (x >= y)%R -> Rgeb x y = true.
Proof. intros H. unfold Rgeb. destruct (Rge_dec x y); done. Qed.

Lemma Rgeb_false (x y : R) : (x < y)%R -> Rgeb x y = false.
Proof. intros H. unfold Rgeb. destruct (Rge_dec x y); [lra | done]. Qed.

Lemma Reqb_false (x y : R) : x <> y -> Reqb x y = false.
Proof. intros H. unfold Reqb. destruct (Req_dec_T x y); done. Qed.

Lemma norm_3_4 : norm (vsub (0%R, 0%R) (3%R, 4%R)) = 5%R.
Proof.
  unfold norm, vsub. simpl.
  replace ((0 - 3) * (0 - 3) + (0 - 4) * (0 - 4))%R with (5 * 5)%R by lra.
  apply sqrt_square. lra.
Qed.

(** C1 (code defect).  On [bug_preds], [bug_maxvals] the pair at position 12
    is (left shoulder 5, right shoulder 6); both joints have confidence 1 and
    their positions differ, so the claim expects the unit vector
    (-3/5, -4/5).  The code tests [maxvals[batch][1]] (the list position [n]
    of joint 5, here the unconfident left eye) and stores the zero vector. *)
Theorem get_pose_vectors_gates_on_list_position :
  exists vectors,
    limb_vectors bug_preds bug_maxvals = Ok vectors
    /\ limb_pairs !! 12 = Some (1, 5, 6)
    /\ bug_maxvals !! 5 = Some 1%R /\ bug_maxvals !! 6 = Some 1%R
    /\ bug_preds !! 5 = Some (0%R, 0%R) /\ bug_preds !! 6 = Some (3%R, 4%R)
    /\ expected_limb_vector (0%R, 0%R) (3%R, 4%R) 1 1 = ((-3 / 5)%R, (-4 / 5)%R)
    /\ vectors !! 12 = Some (0%R, 0%R).
Proof.
  destruct (limb_vectors_spec bug_preds bug_maxvals) as (vectors & Hv & _ & Hat);
    [vm_compute; lia..|].
  exists vectors. split; [exact Hv|].
  repeat (split; [reflexivity|]).
  split.
  - unfold expected_limb_vector. rewrite Rgeb_true by lra. simpl.
    rewrite norm_3_4. rewrite Reqb_false by lra. simpl.
    unfold vdiv, vsub. simpl. f_equal; lra.
  - destruct (Hat 12 1 5 6 eq_refl) as (p_i & p_j & c_n & c_j & Hi & Hj & Hn & Hcj & Hvec).
    rewrite Hvec. f_equal.
    injection Hn as <-. unfold expected_limb_vector.
    rewrite (Rgeb_false 0) by lra. reflexivity.
Qed.

(** ** [get_pose_vectors] returns on arrays of at least 17 joints *)

Lemma length_enumerate {A} (l : list A) : length (enumerate l) = length l.
Proof. unfold enumerate. rewrite length_zip_with, length_seq. lia. Qed.

Lemma fst_enumerate {A} (l : list A) : (enumerate l).*1 = seq 0 (length l).
Proof. unfold enumerate. apply fst_zip. by rewrite length_seq. Qed.

(** The inner loop of [limb_angles] writes the positions from [a] on. *)
Lemma angle_inner_loop (v1 : vec) (l : list (nat * vec)) (a : nat) (angles : list R) :
  a + length l <= length angles ->
  exists angles',
    foldM (fun (st : Z * list R) '(m, v2) =>
             let idx := (st.1 + 1)%Z in
             angles ← setitem st.2 (Z.to_nat idx) (inner v1 v2);
             Ok (idx, angles))
          ((Z.of_nat a - 1)%Z, angles) l
    = Ok ((Z.of_nat (a + length l) - 1)%Z, angles')
    /\ length angles' = length angles.
Proof.
  revert a angles. induction l as [|[m v2] l IH]; intros a angles Hlen; simpl in *.
  - exists angles. by rewrite Nat.add_0_r.
  - replace (Z.to_nat (Z.of_nat a - 1 + 1)) with a by lia.
    unfold setitem. destruct (decide (a < length angles)); [|lia]. simpl.
    destruct (IH (S a) (<[a := inner v1 v2]> angles)) as (angles' & Hrun & Hlen').
    { rewrite length_insert. lia. }
    exists angles'. split.
    + replace (Z.of_nat a - 1 + 1)%Z with (Z.of_nat (S a) - 1)%Z by lia.
      etransitivity; [exact Hrun|]. do 3 f_equal. lia.
    + by rewrite Hlen', length_insert.
Qed.

Lemma angle_outer_loop (vectors_b : list vec) (ol : list (nat * vec)) (a : nat)
  (angles : list R) :
  a + list_sum (map (fun n => length vectors_b - (n + 1)) (ol.*1)) <= length angles ->
  exists st',
    foldM (fun st '(n, v1) =>
             foldM (fun (st : Z * list R) '(m, v2) =>
                      let idx := (st.1 + 1)%Z in
                      angles ← setitem st.2 (Z.to_nat idx) (inner v1 v2);
                      Ok (idx, angles))
                   st (enumerate (drop (n + 1) vectors_b)))
          ((Z.of_nat a - 1)%Z, angles) ol
    = Ok st'
    /\ length st'.2 = length angles.
Proof.
  revert a angles. induction ol as [|[n v1] ol IH]; intros a angles Hlen.
  - simpl. eauto.
  - change (a + (length vectors_b - (n + 1)
                 + list_sum (map (fun n => length vectors_b - (n + 1)) (ol.*1)))
            <= length angles) in Hlen.
    destruct (angle_inner_loop v1 (enumerate (drop (n + 1) vectors_b)) a angles)
      as (angles1 & Hin & Hlen1).
    { rewrite length_enumerate, length_drop. lia. }
    rewrite length_enumerate, length_drop in Hin.
    destruct (IH (a + (length vectors_b - (n + 1))) angles1) as (st' & Hrun & Hlen').
    { rewrite Hlen1. lia. }
    exists st'. split; [|by rewrite Hlen', Hlen1].
    rewrite foldM_cons.
    etransitivity; [apply (f_equal (fun m => m ≫= _)); exact Hin|]. exact Hrun.
Qed.

Lemma limb_angles_total (vectors_b : list vec) :
  length vectors_b = 78 ->
  exists angles, limb_angles vectors_b = Ok angles /\ length angles = 3003.
Proof.
  intros Hlen. unfold limb_angles.
  destruct (angle_outer_loop vectors_b (enumerate (removelast vectors_b)) 0
              (replicate (78 * 77 / 2) 0%R)) as (st' & Hrun & Hlen').
  - rewrite fst_enumerate, length_replicate, Hlen.
    assert (length (removelast vectors_b) = 77) as ->.
    { destruct vectors_b as [|v vs] using rev_ind; [done|].
      rewrite removelast_last. rewrite length_app in Hlen. simpl in Hlen. lia. }
    vm_compute. lia.
  - exists st'.2. split; [|by rewrite Hlen', length_replicate].
    etransitivity; [apply (f_equal (fun m => m ≫= _)); exact Hrun|]. reflexivity.
Qed.

(** [get_pose_vectors] returns one row of 3003 cosines per batch element. *)
Lemma get_pose_vectors_total (preds : list (list vec)) (maxvals : list (list R)) :
  length preds <= length maxvals ->
  Forall (fun preds_b => 17 <= length preds_b) preds ->
  Forall (fun maxvals_b => 17 <= length maxvals_b) maxvals ->
  exists angles,
    get_pose_vectors preds maxvals = Ok angles
    /\ length angles = length preds
    /\ Forall (fun angles_b => length angles_b = 3003) angles.
Proof.
  intros Hlen Hp Hm. unfold get_pose_vectors.
  rewrite Forall_lookup in Hp. rewrite Forall_lookup in Hm.
  assert (Hstep : forall batch, batch ∈ seq 0 (length preds) ->
            exists angles_b,
              (preds_b ← getitem preds batch;
               maxvals_b ← getitem maxvals batch;
               vectors_b ← limb_vectors preds_b maxvals_b;
               limb_angles vectors_b) = Ok angles_b
              /\ length angles_b = 3003).
  { intros batch Hb. apply elem_of_seq in Hb.
    destruct (getitem_lt preds batch) as (preds_b & -> & Hpb); [lia|].
    destruct (getitem_lt maxvals batch) as (maxvals_b & -> & Hmb); [lia|]. simpl.
    destruct (limb_vectors_spec preds_b maxvals_b) as (vectors_b & -> & Hv & _);
      [by eapply Hp | by eapply Hm |]. simpl.
    by apply limb_angles_total. }
  destruct (mapM_total (fun batch =>
                          preds_b ← getitem preds batch;
                          maxvals_b ← getitem maxvals batch;
                          vectors_b ← limb_vectors preds_b maxvals_b;
                          limb_angles vectors_b)
                       (seq 0 (length preds))) as [angles Hangles].
  { intros batch Hb. destruct (Hstep batch Hb) as (angles_b & Ha & _). eauto. }
  exists angles. split; [exact Hangles|]. split.
  - apply mapM_length in Hangles. by rewrite Hangles, length_seq.
  - eapply mapM_Forall; [|exact Hangles]. intros batch angles_b Hb Ha.
    destruct (Hstep batch Hb) as (angles_b' & Ha' & Hl). cbv beta in Ha. congruence.
Qed.

(** ** When the stored limb vectors are the ones of the joints' confidences *)

Lemma limb_pairs_positions :
  Forall (fun '(n, i, j) => joints_of_limbs !! n = Some i) limb_pairs.
Proof. vm_compute. repeat (constructor; [reflexivity|]). constructor. Qed.

(** On inputs where the confidence at the list position [n] of a limb joint
    passes the threshold exactly when the confidence of the joint itself
    does (all joints confident, for instance), the vector stored for a pair
    of limb joints ([i], [j]) is the unit vector between the two predicted
    positions when both joints' confidences reach 0.4 and the positions
    differ, and the zero vector otherwise. *)
Theorem limb_vectors_of_joint_confidences (preds_b : list vec) (maxvals_b : list R) :
  17 <= length preds_b -> 17 <= length maxvals_b ->
  (forall n i c_n c_i,
     joints_of_limbs !! n = Some i ->
     maxvals_b !! n = Some c_n -> maxvals_b !! i = Some c_i ->
     Rgeb c_n 0.4 = Rgeb c_i 0.4) ->
  exists vectors,
    limb_vectors preds_b maxvals_b = Ok vectors
    /\ forall t n i j, limb_pairs !! t = Some (n, i, j) ->
         exists p_i p_j c_i c_j,
           preds_b !! i = Some p_i /\ preds_b !! j = Some p_j
           /\ maxvals_b !! i = Some c_i /\ maxvals_b !! j = Some c_j
           /\ vectors !! t = Some (expected_limb_vector p_i p_j c_i c_j).
Proof.
  intros Hp Hm Hsame.
  destruct (limb_vectors_spec preds_b maxvals_b Hp Hm) as (vectors & Hv & _ & Hat).
  exists vectors. split; [exact Hv|].
  intros t n i j Ht.
  destruct (Hat t n i j Ht) as (p_i & p_j & c_n & c_j & Hi & Hj & Hn & Hcj & Hvec).
  pose proof limb_pairs_positions as Hpos. rewrite Forall_lookup in Hpos.
  specialize (Hpos t (n, i, j) Ht). simpl in Hpos.
  destruct (lookup_lt_is_Some_2 maxvals_b i) as [c_i Hci].
  { apply lookup_lt_Some in Hi.
    pose proof limb_pairs_in_range as Hr. rewrite Forall_lookup in Hr.
    specialize (Hr t (n, i, j) Ht). simpl in Hr. lia. }
  exists p_i, p_j, c_i, c_j. repeat split; try done.
  rewrite Hvec. unfold expected_limb_vector.
  by rewrite (Hsame n i c_n c_i Hpos Hn Hci).
Qed.

Lemma limb_vectors_of_joint_confidences_witness :
  exists vectors,
    limb_vectors bug_preds (replicate 17 1%R) = Ok vectors
    /\ vectors !! 12 = Some (expected_limb_vector (0%R, 0%R) (3%R, 4%R) 1 1).
Proof.
  destruct (limb_vectors_of_joint_confidences bug_preds (replicate 17 1%R))
    as (vectors & Hv & Hat).
  - vm_compute. lia.
  - vm_compute. lia.
  - intros n i c_n c_i _ Hn Hi.
    apply lookup_replicate in Hn as [-> _]. apply lookup_replicate in Hi as [-> _].
    reflexivity.
  - exists vectors. split; [exact Hv|].
    destruct (Hat 12 1 5 6 eq_refl) as (p_i & p_j & c_i & c_j & Hpi & Hpj & Hci & Hcj & Hvec).
    injection Hpi as <-. injection Hpj as <-.
    apply lookup_replicate in Hci as [-> _]. apply lookup_replicate in Hcj as [-> _].
    exact Hvec.
Defined.

(** ** The fuse layers of a [HighResolutionModule] *)

Lemma mapM_Ok_map {A B} (f : A -> res B) (g : A -> B) (l : list A) :
  (forall a, a ∈ l -> f a = Ok (g a)) -> mapM f l = Ok (map g l).
Proof.
  induction l as [|a l IH]; intros H; simpl; [done|].
  rewrite H by left. simpl. rewrite IH; [done|]. intros a' Ha'. apply H. by right.
Qed.

Lemma Layer_forward_Sequential_cons {training : bool} (l : Layer) (ls : list Layer)
  (x : Shape) :
  Layer_forward training (Sequential (l :: ls)) x
  = Layer_forward training l x ≫= Layer_forward training (Sequential ls).
Proof. reflexivity. Qed.

Lemma Layer_forward_Sequential_app {training : bool} (l1 l2 : list Layer) (x : Shape) :
  Layer_forward training (Sequential (l1 ++ l2)) x
  = Layer_forward training (Sequential l1) x ≫= Layer_forward training (Sequential l2).
Proof.
  revert x. induction l1 as [|l l1 IH]; intros x; [done|].
  rewrite <- app_comm_cons, !Layer_forward_Sequential_cons.
  destruct (Layer_forward training l x) as [y|]; simpl; [apply IH | done].
Qed.

Lemma make_fuse_entry_spec (num_inchannels : list nat) (i j c_i c_j : nat) :
  num_inchannels !! i = Some c_i -> num_inchannels !! j = Some c_j ->
  make_fuse_entry num_inchannels i j = Ok (expected_fuse_entry true c_i c_j i j).
Proof.
  intros Hi Hj. unfold make_fuse_entry, expected_fuse_entry. simpl.
  rewrite (proj2 (getitem_Ok _ _ _) Hi), (proj2 (getitem_Ok _ _ _) Hj). simpl.
  destruct (Nat.ltb_spec i j); [done|].
  destruct (Nat.eqb_spec j i); [done|].
  rewrite (mapM_Ok_map _
             (fun k => if k =? i - j - 1
                       then Sequential [Conv2d c_j c_i 3 2 1; BatchNorm2d c_i]
                       else Sequential [Conv2d c_j c_j 3 2 1; BatchNorm2d c_j; ReLU])).
  2:{ intros k _. destruct (k =? i - j - 1); reflexivity. }
  simpl. do 3 f_equal. unfold downsample_path.
  remember (i - j - 1) as m eqn:Hm.
  assert (i - j = S m) as -> by lia.
  rewrite seq_S, map_app. simpl. rewrite Nat.eqb_refl. do 2 f_equal.
  apply list_eq. intros t. rewrite lookup_map.
  destruct (decide (t < m)) as [Ht | Ht].
  - rewrite lookup_seq_lt by done. simpl.
    destruct (Nat.eqb_spec t m); [lia|].
    symmetry. by apply lookup_replicate.
  - rewrite lookup_ge_None_2 by (rewrite length_seq; lia). simpl.
    symmetry. apply lookup_ge_None_2. rewrite length_replicate. lia.
Qed.

(** The upsampling path multiplies both spatial sizes by [2 ^ (j - i)]. *)
Lemma upsample_path_forward {training : bool} (c_j c_i i j n h w : nat) :
  batch_ok training n -> 0 < h -> 0 < w ->
  Layer_forward training (upsample_path c_j c_i i j) [n; c_j; h; w]
  = Ok [n; c_i; h * 2 ^ (j - i); w * 2 ^ (j - i)].
Proof.
  intros Hn Hh Hw. unfold upsample_path. rewrite Layer_forward_Sequential_cons.
  change (Layer_forward training (Conv2d c_j c_i 1 1 0)) with (conv2d_forward c_j c_i 1 1 0).
  rewrite conv2d_forward_fits, bind_Ok_l by lia.
  rewrite Layer_forward_Sequential_cons.
  change (Layer_forward training (BatchNorm2d c_i)) with (batchnorm2d_forward training c_i).
  rewrite batchnorm2d_forward_fits, bind_Ok_l by done.
  unfold conv_out. rewrite !Nat.div_1_r.
  replace (h + 2 * 0 - 1 + 1) with h by lia. replace (w + 2 * 0 - 1 + 1) with w by lia.
  reflexivity.
Qed.

Lemma conv_out_3_2_1 (size : nat) : 0 < size -> conv_out size 3 2 1 = (size + 1) / 2.
Proof.
  intros H. unfold conv_out.
  replace (size + 2 * 1 - 3) with (size - 1) by lia.
  replace (size + 1) with (size - 1 + 1 * 2) by lia.
  by rewrite Nat.div_add.
Qed.

Lemma ceil_div_pow2_pos (size k : nat) : 0 < size -> 0 < ceil_div_pow2 size k.
Proof.
  intros H. unfold ceil_div_pow2.
  assert (0 < 2 ^ k) by (apply Nat.neq_0_lt_0, Nat.pow_nonzero; lia).
  apply Nat.div_str_pos. lia.
Qed.

Lemma ceil_div_pow2_0 (size : nat) : ceil_div_pow2 size 0 = size.
Proof. unfold ceil_div_pow2. rewrite Nat.pow_0_r, Nat.div_1_r. lia. Qed.

Lemma ceil_div_pow2_S (size k : nat) :
  ceil_div_pow2 size (S k) = (ceil_div_pow2 size k + 1) / 2.
Proof.
  unfold ceil_div_pow2.
  assert (0 < 2 ^ k) by (apply Nat.neq_0_lt_0, Nat.pow_nonzero; lia).
  replace ((size + 2 ^ k - 1) / 2 ^ k + 1) with ((size + 2 ^ k - 1 + 1 * 2 ^ k) / 2 ^ k)
    by (rewrite Nat.div_add; lia).
  rewrite Nat.Div0.div_div. rewrite Nat.pow_succ_r'.
  f_equal; lia.
Qed.

Lemma stride2_block_forward {training : bool} (c_in c_out n h w : nat)
  (tail : list Layer) :
  batch_ok training n -> 0 < h -> 0 < w -> (tail = [] \/ tail = [ReLU]) ->
  Layer_forward training (Sequential (Conv2d c_in c_out 3 2 1 :: BatchNorm2d c_out :: tail))
    [n; c_in; h; w]
  = Ok [n; c_out; (h + 1) / 2; (w + 1) / 2].
Proof.
  intros Hn Hh Hw Ht. rewrite Layer_forward_Sequential_cons.
  change (Layer_forward training (Conv2d c_in c_out 3 2 1)) with (conv2d_forward c_in c_out 3 2 1).
  rewrite conv2d_forward_fits, bind_Ok_l by lia.
  rewrite Layer_forward_Sequential_cons.
  change (Layer_forward training (BatchNorm2d c_out)) with (batchnorm2d_forward training c_out).
  rewrite batchnorm2d_forward_fits, bind_Ok_l, !conv_out_3_2_1 by done.
  destruct Ht as [-> | ->]; reflexivity.
Qed.

Lemma stride2_chain_forward {training : bool} (c n k h w : nat) :
  batch_ok training n -> 0 < h -> 0 < w ->
  Layer_forward training
    (Sequential (replicate k (Sequential [Conv2d c c 3 2 1; BatchNorm2d c; ReLU]))) [n; c; h; w]
  = Ok [n; c; ceil_div_pow2 h k; ceil_div_pow2 w k].
Proof.
  intros Hn. revert h w. induction k as [|k IH]; intros h w Hh Hw.
  - simpl. by rewrite !ceil_div_pow2_0.
  - rewrite replicate_S_end, Layer_forward_Sequential_app, IH, bind_Ok_l by done.
    rewrite Layer_forward_Sequential_cons, stride2_block_forward;
      [|done|by apply ceil_div_pow2_pos..|by right].
    rewrite bind_Ok_l, !ceil_div_pow2_S. reflexivity.
Qed.

(** The downsampling path divides both spatial sizes by [2 ^ (i - j)],
    rounding up. *)
Lemma downsample_path_forward {training : bool} (c_j c_i i j n h w : nat) :
  batch_ok training n -> j < i -> 0 < h -> 0 < w ->
  Layer_forward training (downsample_path c_j c_i i j) [n; c_j; h; w]
  = Ok [n; c_i; ceil_div_pow2 h (i - j); ceil_div_pow2 w (i - j)].
Proof.
  intros Hn Hji Hh Hw. unfold downsample_path.
  rewrite Layer_forward_Sequential_app, stride2_chain_forward, bind_Ok_l by done.
  rewrite Layer_forward_Sequential_cons, stride2_block_forward;
    [|done|by apply ceil_div_pow2_pos..|by left].
  rewrite bind_Ok_l, <- !ceil_div_pow2_S.
  replace (S (i - j - 1)) with (i - j) by lia. reflexivity.
Qed.




(** ** [TransActionH.forward]: which branches reach the returned values *)

Section ForwardDataFlow.
Context {T : Type} (ops : TensorOps T).
Implicit Types (self : TransActionH T) (x y : T).

(** C8.  [forward] sends one tensor, the flattened 1x1-convolution
    ([reduce]) of the highest-resolution feature map [y_list[0]], through two
    encoders with the same position embedding: [global_encoder], whose output
    goes to [final_layer] (the pose heatmap), and [global_encoder_action],
    whose output goes to the action head [action_encoder_branch_part1/2].
    The equation holds with the exceptions in the order in which [forward]
    raises them. *)
Theorem TransActionH_forward_two_encoders self x :
  TransActionH_forward ops self x
  = (y_list ← backbone self x;
     y0 ← getitem y_list 0;
     projected ← reduce self y0;
     s ← unpack4 (shape ops projected);
     flat ← flatten ops 2 projected;
     flat ← permute ops [2; 0; 1] flat;
     (* pose: global_encoder, then final_layer *)
     y ← global_encoder self flat (pos_embedding self);
     y ← unflatten ops s y;
     y ← final_layer self y;
     q ← (pm ← get_max_preds ops y; get_pose_vectors pm.1 pm.2);
     (* action: global_encoder_action, then the action head *)
     r ← global_encoder_action self flat (pos_embedding self);
     r ← unflatten ops s r;
     r ← action_encoder_branch_part1 self r;
     r ← flatten ops 1 r;
     r ← action_encoder_branch_part2 self r;
     concat ← concat_head ops self y_list;
     q ← action_skeleton_branch self (from_numpy ops q);
     Ok (y, concat)).
Proof.
  unfold TransActionH_forward, backbone, unflatten, concat_head.
  repeat (rewrite ?bind_assoc; apply bind_ext; intros ?).
  repeat match goal with
         | p : (_ * _)%type |- _ => destruct p
         end; simpl.
  repeat (rewrite ?bind_assoc; apply bind_ext; intros ?).
  repeat match goal with
         | p : (_ * _)%type |- _ => destruct p
         end; simpl.
  repeat (rewrite ?bind_assoc; apply bind_ext; intros ?).
  reflexivity.
Qed.

Ltac chain_Ok :=
  repeat match goal with
         | H : ?m = Ok _ |- context [?m ≫= _] => rewrite H, bind_Ok_l
         end;
  first [reflexivity | eassumption].

Lemma forward_Ok self x y c :
  TransActionH_forward ops self x = Ok (y, c) <->
  exists y_list flat s angles r q,
    backbone self x = Ok y_list
    /\ encoder_input ops self y_list = Ok (flat, s)
    /\ pose_head ops self flat s = Ok y
    /\ (pm ← get_max_preds ops y; get_pose_vectors pm.1 pm.2) = Ok angles
    /\ transformer_action_head ops self flat s = Ok r
    /\ concat_head ops self y_list = Ok c
    /\ action_skeleton_branch self (from_numpy ops angles) = Ok q.
Proof.
  rewrite TransActionH_forward_two_encoders.
  unfold encoder_input, pose_head, transformer_action_head.
  split.
  - intros H. repeat inv_bind H. injection H as <- <-.
    eexists _, _, _, _, _, _.
    split; [eassumption|]. split; [chain_Ok|]. split; [chain_Ok|].
    split; [eassumption|]. split; [chain_Ok|]. split; eassumption.
  - intros (y_list & flat & s & angles & r & q & H1 & H2 & H3 & H4 & H5 & H6 & H7).
    repeat inv_bind H2. injection H2 as <- <-.
    repeat inv_bind H3. repeat inv_bind H5.
    rewrite H1, bind_Ok_l. chain_Ok.
Qed.

(** C7.  Whatever the loss weights [a1], [a2], [a3], the transformer action
    branch and the skeleton branch are, the values that [forward] returns are
    the same: the pose heatmap of [pose_head] and, as action output, the
    output of the pooled-CNN concat branch [concat_head] alone. *)
Theorem forward_ignores_side_branches self x a1' a2' a3' global_encoder_action'
  action_encoder_branch_part1' action_encoder_branch_part2' action_skeleton_branch'
  y c y' c' :
  TransActionH_forward ops self x = Ok (y, c) ->
  TransActionH_forward ops
    (replace_side_branches self a1' a2' a3' global_encoder_action'
       action_encoder_branch_part1' action_encoder_branch_part2' action_skeleton_branch') x
  = Ok (y', c') ->
  (y', c') = (y, c)
  /\ exists y_list flat s,
       backbone self x = Ok y_list
       /\ encoder_input ops self y_list = Ok (flat, s)
       /\ pose_head ops self flat s = Ok y
       /\ concat_head ops self y_list = Ok c.
Proof.
  intros H H'.
  apply forward_Ok in H as (y_list & flat & s & angles & r & q & H1 & H2 & H3 & _ & _ & H6 & _).
  apply forward_Ok in H' as (y_list' & flat' & s' & ? & ? & ? & H1' & H2' & H3' & _ & _ & H6' & _).
  change (backbone self x = Ok y_list') in H1'.
  change (encoder_input ops self y_list' = Ok (flat', s')) in H2'.
  change (pose_head ops self flat' s' = Ok y') in H3'.
  change (concat_head ops self y_list' = Ok c') in H6'.
  assert (y_list' = y_list) as -> by congruence.
  assert ((flat', s') = (flat, s)) as [= -> ->] by congruence.
  split; [congruence|]. eauto 10.
Qed.

End ForwardDataFlow.

Lemma forward_ignores_side_branches_witness :
  let other :=
    replace_side_branches toy_model 0 0 0 (fun _ _ => Ok 0%Z) Ok Ok (fun _ => Ok 5%Z) in
  TransActionH_forward toy_ops toy_model 1%Z = Ok (113, 1238)%Z
  /\ TransActionH_forward toy_ops other 1%Z = Ok (113, 1238)%Z
  /\ exists y_list flat s,
       backbone toy_model 1%Z = Ok y_list
       /\ encoder_input toy_ops toy_model y_list = Ok (flat, s)
       /\ pose_head toy_ops toy_model flat s = Ok 113%Z
       /\ concat_head toy_ops toy_model y_list = Ok 1238%Z.
Proof.
  intros other.
  split; [reflexivity|]. split; [reflexivity|].
  apply (forward_ignores_side_branches toy_ops toy_model 1%Z 0 0 0 (fun _ _ => Ok 0%Z)
           Ok Ok (fun _ => Ok 5%Z) 113%Z 1238%Z 113%Z 1238%Z); reflexivity.
Defined.

(** ** The position embedding *)

Lemma _make_position_embedding_learnable (w h d_model : nat) :
  _make_position_embedding w h d_model "learnable"
  = Ok (Some [(h / 4) * (w / 4); 1; d_model]).
Proof. reflexivity. Qed.

Lemma broadcast_rev_refl (a : list nat) : broadcast_rev a a = Ok a.
Proof.
  induction a as [|x a IH]; simpl; [done|].
  rewrite IH. simpl. by rewrite Nat.eqb_refl.
Qed.

Lemma broadcast_min1 (x : nat) (a : list nat) :
  broadcast_rev (x :: a) (Nat.min x 1 :: a) = Ok (x :: a).
Proof.
  simpl. rewrite broadcast_rev_refl. simpl.
  destruct (Nat.eqb_spec x (Nat.min x 1)); [done|].
  destruct (Nat.eqb_spec x 1); [lia|].
  destruct (Nat.eqb_spec (Nat.min x 1) 1); [done | lia].
Qed.

Lemma broadcast_rev_cons_same (x : nat) (a b : list nat) :
  broadcast_rev (x :: a) (x :: b) = broadcast_rev a b ≫= (fun r => Ok (x :: r)).
Proof. simpl. by rewrite Nat.eqb_refl. Qed.

Lemma shape_add_last_rows (h w : nat) :
  shape_add [1; h; w] [1; Nat.min h 1; w] = Ok [1; h; w].
Proof.
  unfold shape_add, broadcast.
  change (rev [1; h; w]) with [w; h; 1].
  change (rev [1; Nat.min h 1; w]) with [w; Nat.min h 1; 1].
  rewrite broadcast_rev_cons_same, broadcast_min1. reflexivity.
Qed.

Lemma shape_add_last_cols (h w : nat) :
  shape_add [1; h; w] [1; h; Nat.min w 1] = Ok [1; h; w].
Proof.
  unfold shape_add, broadcast.
  change (rev [1; h; w]) with [w; h; 1].
  change (rev [1; h; Nat.min w 1]) with [Nat.min w 1; h; 1].
  rewrite broadcast_min1. reflexivity.
Qed.

Lemma shape_add_dim_t (h w n : nat) :
  shape_add [1; h; w; 1] [n] = Ok [1; h; w; n].
Proof.
  unfold shape_add, broadcast. cbn -[Nat.eqb].
  destruct (Nat.eqb_spec 1 n) as [<-|]; reflexivity.
Qed.

(** The sine embedding for a model dimension that is a multiple of 4. *)
Ltac step_Ok :=
  repeat match goal with
         | |- context [Ok ?a ≫= ?f] => change (Ok a ≫= f) with (f a); cbv beta
         end.

(** The sine and cosine halves of one direction: [k] features each, stacked
    and flattened to [2 * k]. *)
Lemma sin_cos_features (h w k : nat) :
  (pos_sin ← shape_slice_step2 3 0 [1; h; w; 2 * k];
   pos_cos ← shape_slice_step2 3 1 [1; h; w; 2 * k];
   pos ← shape_stack pos_sin pos_cos 4;
   shape_flatten 3 pos) = Ok [1; h; w; 2 * k].
Proof.
  change (shape_slice_step2 3 0 [1; h; w; 2 * k]) with (Ok [1; h; w; (2 * k + 1 - 0) / 2]).
  change (shape_slice_step2 3 1 [1; h; w; 2 * k]) with (Ok [1; h; w; (2 * k + 1 - 1) / 2]).
  replace ((2 * k + 1 - 0) / 2) with k by (apply (Nat.div_unique _ _ _ 1); lia).
  replace ((2 * k + 1 - 1) / 2) with k by (apply Nat.div_unique_exact; lia).
  step_Ok.
  unfold shape_stack. rewrite decide_True by done.
  change (length [1; h; w; k]) with 4. rewrite decide_True by lia.
  step_Ok.
  change (shape_flatten 3 (take 4 [1; h; w; k] ++ 2 :: drop 4 [1; h; w; k]))
    with (Ok [1; h; w; k * (2 * 1)]).
  replace (k * (2 * 1)) with (2 * k) by lia. reflexivity.
Qed.

Lemma _make_sine_position_embedding_mod4 (pe_h pe_w k : nat) :
  _make_sine_position_embedding pe_h pe_w (4 * k) = Ok [pe_h * pe_w; 1; 4 * k].
Proof.
  unfold _make_sine_position_embedding.
  replace (4 * k / 2) with (2 * k) by (apply Nat.div_unique_exact; lia).
  change (shape_slice_last 1 [1; pe_h; pe_w]) with (Ok [1; Nat.min pe_h 1; pe_w]).
  step_Ok. rewrite shape_add_last_rows. step_Ok.
  change (shape_slice_last 2 [1; pe_h; pe_w]) with (Ok [1; pe_h; Nat.min pe_w 1]).
  step_Ok. rewrite shape_add_last_cols. step_Ok.
  change ([1; pe_h; pe_w] ++ [1]) with [1; pe_h; pe_w; 1].
  rewrite shape_add_dim_t. step_Ok.
  pose proof (sin_cos_features pe_h pe_w k) as Hf.
  apply bind_Ok in Hf as (s1 & Hs1 & Hf). apply bind_Ok in Hf as (c1 & Hc1 & Hf).
  apply bind_Ok in Hf as (p1 & Hp1 & Hf).
  rewrite Hs1. step_Ok. rewrite Hc1. step_Ok. rewrite Hp1. step_Ok. rewrite Hf. step_Ok.
  rewrite Hp1. step_Ok. rewrite Hf. step_Ok.
  unfold shape_cat. change (getitem [1; pe_h; pe_w; 2 * k] 3) with (Ok (2 * k)).
  step_Ok. rewrite decide_True by done. step_Ok.
  change (shape_permute [0; 3; 1; 2] (<[3:=2 * k + 2 * k]> [1; pe_h; pe_w; 2 * k]))
    with (Ok [1; 2 * k + 2 * k; pe_h; pe_w]).
  step_Ok.
  change (shape_flatten 2 [1; 2 * k + 2 * k; pe_h; pe_w])
    with (Ok [1; 2 * k + 2 * k; pe_h * (pe_w * 1)]).
  step_Ok.
  change (shape_permute [2; 0; 1] [1; 2 * k + 2 * k; pe_h * (pe_w * 1)])
    with (Ok [pe_h * (pe_w * 1); 1; 2 * k + 2 * k]).
  replace (pe_h * (pe_w * 1)) with (pe_h * pe_w) by lia.
  replace (2 * k + 2 * k) with (4 * k) by lia.
  reflexivity.
Qed.

Lemma _make_position_embedding_sine (w h d_model : nat) :
  d_model mod 4 = 0 ->
  _make_position_embedding w h d_model "sine"
  = Ok (Some [(h / 4) * (w / 4); 1; d_model]).
Proof.
  intros Hd. apply Nat.Div0.div_exact in Hd. rewrite Hd.
  unfold _make_position_embedding. simpl negb. cbv iota.
  change (String.eqb "sine" "none") with false. change (String.eqb "sine" "learnable") with false.
  cbv iota zeta.
  rewrite _make_sine_position_embedding_mod4. reflexivity.
Qed.

(** C5 (code defect in the shape, for a model dimension that is not a
    multiple of 4).  With [DIM_MODEL = 5] the sine embedding has a last axis
    of size 4, not 5, and with [DIM_MODEL = 6] [torch.stack] raises; the
    learnable embedding has the size [d_model] in both cases. *)
Theorem sine_position_embedding_dim_5 :
  _make_position_embedding 16 16 5 "sine" = Ok (Some [16; 1; 4])
  /\ _make_position_embedding 16 16 6 "sine" = Raise RuntimeError
  /\ _make_position_embedding 16 16 5 "learnable" = Ok (Some [16; 1; 5]).
Proof. repeat split; reflexivity. Qed.

(** ** The position embedding in the encoder layers *)

Section EncoderPos.
Context {T : Type} (add : T -> T -> res T).

Lemma forward_post_attend (layer : TransformerEncoderLayer T) (src pos : T) :
  return_atten_map layer = false ->
  forward_post add layer src None None (Some pos)
  = attend_with_pos add layer pos src ≫= (fun out => Ok (Out out)).
Proof.
  intros Hr. unfold forward_post, attend_with_pos. simpl. rewrite Hr.
  repeat (rewrite ?bind_assoc; apply bind_ext; intros ?).
  repeat match goal with p : (_ * _)%type |- _ => destruct p end. simpl.
  repeat (rewrite ?bind_assoc; apply bind_ext; intros ?).
  reflexivity.
Qed.

Lemma encoder_loop_attend (self : TransformerEncoder T) (pos : T)
  (ls : list (TransformerEncoderLayer T)) (src : T) :
  pe_only_at_begin self = false -> encoder_return_atten_map self = false ->
  Forall (fun layer => normalize_before layer = false /\ return_atten_map layer = false) ls ->
  foldM (encoder_step add self None None) (src, [], Some pos) ls
  = foldM (fun out layer => attend_with_pos add layer pos out) src ls
    ≫= (fun out => Ok (out, [], Some pos)).
Proof.
  intros Hpe Hre Hls. revert src. induction Hls as [|layer ls [Hn Hr] _ IH]; intros src.
  - reflexivity.
  - simpl. unfold TransformerEncoderLayer_forward. rewrite Hn, forward_post_attend by done.
    rewrite !bind_assoc.
    destruct (attend_with_pos add layer pos src) as [out|]; [|done].
    rewrite !bind_Ok_l, Hre, Hpe. simpl. apply IH.
Qed.

(** With the flags as the network sets them, every layer of an encoder
    called with a position embedding computes [attend_with_pos]: the
    embedding is added to the input of each layer before its
    self-attention. *)
Theorem encoder_adds_pos_in_every_layer (layer : TransformerEncoderLayer T)
  (num_layers : nat) (src pos : T) :
  normalize_before layer = false -> return_atten_map layer = false ->
  encoder_call add (TransformerEncoder_init layer num_layers None false false) src (Some pos)
  = foldM (fun out layer => attend_with_pos add layer pos out) src
          (replicate num_layers layer).
Proof.
  intros Hn Hr. unfold encoder_call, TransformerEncoder_forward. simpl.
  rewrite encoder_loop_attend; try done.
  - unfold _get_clones.
    destruct (foldM _ src (replicate num_layers layer)); reflexivity.
  - unfold _get_clones. apply Forall_replicate. done.
Qed.

End EncoderPos.

Lemma _make_position_embedding_sine_witness :
  96 mod 4 = 0 /\ _make_position_embedding 192 256 96 "sine" = Ok (Some [3072; 1; 96]).
Proof. split; [reflexivity | apply (_make_position_embedding_sine 192 256 96); reflexivity]. Defined.

Lemma encoder_adds_pos_in_every_layer_witness :
  exists layer,
    TransformerEncoderLayer_init 96 1 192 false false = Ok layer
    /\ encoder_call shape_add (TransformerEncoder_init layer 4 None false false)
         [3072; 2; 96] (Some [3072; 1; 96])
       = foldM (fun out layer => attend_with_pos shape_add layer [3072; 1; 96] out)
               [3072; 2; 96] (replicate 4 layer)
    /\ foldM (fun out layer => attend_with_pos shape_add layer [3072; 1; 96] out)
             [3072; 2; 96] (replicate 4 layer)
       = Ok [3072; 2; 96].
Proof.
  eexists. split; [reflexivity|]. split; [|reflexivity].
  apply (encoder_adds_pos_in_every_layer shape_add); reflexivity.
Defined.

(** ** Shapes through the layers *)


Lemma Layer_forward_Conv2d {training : bool} (a b c d e : nat) (x : Shape) :
  Layer_forward training (Conv2d a b c d e) x = conv2d_forward a b c d e x.
Proof. reflexivity. Qed.

Lemma Layer_forward_BatchNorm2d {training : bool} (a : nat) (x : Shape) :
  Layer_forward training (BatchNorm2d a) x = batchnorm2d_forward training a x.
Proof. reflexivity. Qed.

Lemma conv2d_forward_Ok (c_in c_out k s p : nat) (x y : Shape) :
  conv2d_forward c_in c_out k s p x = Ok y ->
  exists n h w, x = [n; c_in; h; w] /\ s <> 0 /\ k <= h + 2 * p /\ k <= w + 2 * p
                /\ y = [n; c_out; conv_out h k s p; conv_out w k s p].
Proof.
  unfold conv2d_forward.
  destruct x as [|n [|c [|h [|w [|? ?]]]]]; try discriminate.
  destruct (Nat.eqb_spec c c_in) as [->|]; cbn -[Nat.mul Nat.ltb Nat.eqb]; [|discriminate].
  destruct (Nat.eqb_spec s 0); [discriminate|].
  destruct (Nat.eqb_spec k 0); [discriminate|]. cbn [orb].
  destruct (Nat.ltb_spec (h + 2 * p) k); cbn -[Nat.mul Nat.ltb]; [discriminate|].
  destruct (Nat.ltb_spec (w + 2 * p) k); cbn -[Nat.mul]; [discriminate|].
  intros [= <-]. exists n, h, w. done.
Qed.

Lemma batchnorm2d_forward_Ok {training : bool} (c : nat) (x y : Shape) :
  batchnorm2d_forward training c x = Ok y -> y = x /\ exists n h w, x = [n; c; h; w].
Proof.
  unfold batchnorm2d_forward.
  destruct x as [|n [|c' [|h [|w [|? ?]]]]]; try discriminate.
  destruct (training && _); [discriminate|].
  destruct (Nat.eqb_spec c' c) as [->|]; [|discriminate].
  intros [= <-]. eauto 6.
Qed.

Lemma conv_out_same (size k p : nat) :
  k = 2 * p + 1 -> k <= size + 2 * p -> conv_out size k 1 p = size.
Proof. intros -> H. unfold conv_out. rewrite Nat.div_1_r. lia. Qed.

(** Shapes that broadcast, for two 4D shapes of one batch size: the result
    is 4D with that batch size, and keeps a spatial size of the left operand
    that is at least 2. *)
Lemma broadcast_batch4 (n c h w c' h' w' : nat) (r : Shape) :
  broadcast [n; c; h; w] [n; c'; h'; w'] = Ok r ->
  exists c'' h'' w'', r = [n; c''; h''; w'']
                      /\ (2 <= h -> h'' = h) /\ (2 <= w -> w'' = w).
Proof.
  unfold broadcast. cbn -[Nat.eqb]. rewrite Nat.eqb_refl.
  destruct (Nat.eqb_spec c c'), (Nat.eqb_spec c 1), (Nat.eqb_spec c' 1);
    destruct (Nat.eqb_spec h h'), (Nat.eqb_spec h 1), (Nat.eqb_spec h' 1);
    destruct (Nat.eqb_spec w w'), (Nat.eqb_spec w 1), (Nat.eqb_spec w' 1);
    cbn; try discriminate; intros [= <-]; eexists _, _, _;
    (split; [reflexivity|]); split; intros; lia.
Qed.

Lemma shape_iadd_Ok (a b r : Shape) : shape_iadd a b = Ok r -> r = a.
Proof.
  unfold shape_iadd. destruct (broadcast a b); simpl; [|discriminate].
  destruct (decide _); [|discriminate]. by intros [= <-].
Qed.

Lemma ResBlock_forward_Ok {training : bool} (block : Block) (inplanes planes stride : nat)
  (downsample : option Layer) (x y : Shape) :
  Layer_forward training (ResBlock block inplanes planes stride downsample) x = Ok y ->
  exists n h w, x = [n; inplanes; h; w]
                /\ 1 <= h /\ 1 <= w
                /\ y = [n; planes * expansion block;
                        conv_out h 3 stride 1; conv_out w 3 stride 1].
Proof.
  destruct block; simpl; intros H.
  - inv_bind H. apply conv2d_forward_Ok in Hr as (n & h & w & -> & _ & Hh & Hw & ->).
    inv_bind H. apply batchnorm2d_forward_Ok in Hr as [-> _].
    inv_bind H. apply conv2d_forward_Ok in Hr as (? & ? & ? & [= <- <- <-] & _ & ? & ? & ->).
    inv_bind H. apply batchnorm2d_forward_Ok in Hr as [-> _].
    inv_bind H. apply shape_iadd_Ok in H as ->.
    exists n, h, w. rewrite !(conv_out_same _ 3 1) by done.
    rewrite Nat.mul_1_r. repeat split; try done; lia.
  - inv_bind H. apply conv2d_forward_Ok in Hr as (n & h & w & -> & _ & Hh & Hw & ->).
    inv_bind H. apply batchnorm2d_forward_Ok in Hr as [-> _].
    inv_bind H. apply conv2d_forward_Ok in Hr as (? & ? & ? & [= <- <- <-] & _ & ? & ? & ->).
    inv_bind H. apply batchnorm2d_forward_Ok in Hr as [-> _].
    inv_bind H. apply conv2d_forward_Ok in Hr as (? & ? & ? & [= <- <- <-] & _ & ? & ? & ->).
    inv_bind H. apply batchnorm2d_forward_Ok in Hr as [-> _].
    inv_bind H. apply shape_iadd_Ok in H as ->.
    exists n, h, w.
    rewrite !(conv_out_same (conv_out _ 3 stride 1) 1 0) by (done || lia).
    rewrite !(conv_out_same _ 1 0) by (done || lia).
    repeat split; try done; lia.
Qed.

Lemma Layer_forward_Sequential_Ok {training : bool} (P : Shape -> Prop) (ls : list Layer)
  (x y : Shape) :
  Forall (fun l => forall x y, P x -> Layer_forward training l x = Ok y -> P y) ls ->
  P x -> Layer_forward training (Sequential ls) x = Ok y -> P y.
Proof.
  intros Hls. revert x. induction Hls as [|l ls Hl _ IH]; intros x Hx.
  - simpl. by intros [= <-].
  - rewrite Layer_forward_Sequential_cons. intros H. inv_bind H.
    eapply IH; [|exact H]. eapply Hl; eauto.
Qed.

(** A layer without [Linear] maps a 4D input to a 4D output of the same
    batch size. *)
Lemma conv_net_batch4 {training : bool} (l : Layer) :
  conv_net l = true ->
  forall bs x y, batch4 bs x -> Layer_forward training l x = Ok y -> batch4 bs y.
Proof.
  induction l using Layer_seq_ind; intros Hc bs x y (cx & hx & wx & ->); try discriminate.
  - rewrite Layer_forward_Conv2d. intros H.
    apply conv2d_forward_Ok in H as (? & ? & ? & [= <- <- <- <-] & _ & _ & _ & ->).
    by eexists _, _, _.
  - rewrite Layer_forward_BatchNorm2d. intros H.
    apply batchnorm2d_forward_Ok in H as [-> _]. by eexists _, _, _.
  - intros [= <-]. by eexists _, _, _.
  - simpl. unfold maxpool2d_forward.
    destruct (_ || _); [discriminate|]. destruct (_ || _); [discriminate|].
    intros [= <-]. by eexists _, _, _.
  - intros [= <-]. by eexists _, _, _.
  - intros [= <-]. by eexists _, _, _.
  - intros [= <-]. by eexists _, _, _.
  - intros H. apply ResBlock_forward_Ok in H as (? & ? & ? & [= <- <- <- <-] & _ & _ & ->).
    by eexists _, _, _.
  - simpl in Hc. rewrite forallb_forall in Hc.
    intros Hf.
    eapply (Layer_forward_Sequential_Ok (batch4 bs) ls); [|by eexists _, _, _|exact Hf].
    rewrite Forall_forall in H |- *. intros l Hl x' y' Hx'.
    apply (H l Hl); [apply Hc; by apply list_elem_of_In | done].
Qed.

(** A size-keeping layer maps (N, C, H, W) to (N, C', H, W). *)
Lemma keeps_size_Ok {training : bool} (l : Layer) :
  keeps_size l = true ->
  forall n h w x y, (exists c, x = [n; c; h; w]) -> Layer_forward training l x = Ok y ->
                    exists c', y = [n; c'; h; w].
Proof.
  induction l using Layer_seq_ind; intros Hk n h w x y [cx ->]; try discriminate.
  - simpl in Hk. apply andb_true_iff in Hk as [Hs Hkp].
    apply Nat.eqb_eq in Hs as ->. apply Nat.eqb_eq in Hkp.
    rewrite Layer_forward_Conv2d. intros H.
    apply conv2d_forward_Ok in H as (? & ? & ? & [= <- <- <- <-] & _ & ? & ? & ->).
    rewrite !conv_out_same by done. eauto.
  - rewrite Layer_forward_BatchNorm2d. intros H.
    apply batchnorm2d_forward_Ok in H as [-> _]. eauto.
  - intros [= <-]. eauto.
  - intros [= <-]. eauto.
  - simpl in Hk. apply Nat.eqb_eq in Hk as ->.
    intros H. apply ResBlock_forward_Ok in H as (? & ? & ? & [= <- <- <- <-] & ? & ? & ->).
    rewrite !(conv_out_same _ 3 1) by (done || lia). eauto.
  - simpl in Hk. rewrite forallb_forall in Hk.
    intros Hf.
    eapply (Layer_forward_Sequential_Ok (fun s => exists c', s = [n; c'; h; w]) ls);
      [|by eexists|exact Hf].
    rewrite Forall_forall in H |- *. intros l Hl x' y' Hx'.
    apply (H l Hl); [apply Hk; by apply list_elem_of_In | done].
Qed.

(** ** Modules as the constructors build them *)

Lemma forallb_map_const {A} (p : Layer -> bool) (l : Layer) (xs : list A) :
  p l = true -> forallb p (map (fun _ => l) xs) = true.
Proof. intros H. induction xs; simpl; [done|]. by rewrite H. Qed.

Lemma _make_one_branch_keeps_size inch i block num_blocks num_channels b inch' :
  _make_one_branch inch i block num_blocks num_channels 1 = Ok (b, inch') ->
  keeps_size b = true.
Proof.
  unfold _make_one_branch. intros H. repeat inv_bind H. injection H as <- <-.
  simpl. by apply forallb_map_const.
Qed.

Lemma _make_branches_keep_size inch num_branches block num_blocks num_channels bs inch' :
  _make_branches inch num_branches block num_blocks num_channels = Ok (bs, inch') ->
  Forall (fun b => keeps_size b = true) bs.
Proof.
  unfold _make_branches. intros H.
  apply (foldM_preserves (fun st : list Layer * list nat =>
                            Forall (fun b => keeps_size b = true) st.1)) in H; [done|done|].
  intros [bs0 inch0] i [bs1 inch1] _ Hbs Hstep. simpl in *.
  inv_bind Hstep. destruct r as [b inch2]. injection Hstep as <- <-.
  apply Forall_app. split; [done|]. constructor; [|constructor].
  by eapply _make_one_branch_keeps_size.
Qed.

Lemma downsample_block_conv_net (k last : nat) (num_inchannels : list nat) (i j : nat) l :
  (if k =? last then
     num_outchannels_conv3x3 ← getitem num_inchannels i;
     cj ← getitem num_inchannels j;
     Ok (Sequential [Conv2d cj num_outchannels_conv3x3 3 2 1;
                     BatchNorm2d num_outchannels_conv3x3])
   else
     num_outchannels_conv3x3 ← getitem num_inchannels j;
     Ok (Sequential [Conv2d num_outchannels_conv3x3 num_outchannels_conv3x3 3 2 1;
                     BatchNorm2d num_outchannels_conv3x3; ReLU])) = Ok l ->
  conv_net l = true.
Proof.
  destruct (k =? last); intros H; repeat inv_bind H; by injection H as <-.
Qed.

Lemma make_fuse_entry_conv_net (num_inchannels : list nat) (i j : nat) e l :
  make_fuse_entry num_inchannels i j = Ok e -> e = Some l -> conv_net l = true.
Proof.
  unfold make_fuse_entry. destruct (i <? j).
  - intros H. repeat inv_bind H. injection H as <-. by intros [= <-].
  - destruct (j =? i); [by intros [= <-]|].
    intros H. inv_bind H. injection H as <-. intros [= <-]. simpl.
    apply forallb_forall. intros c Hc. apply list_elem_of_In in Hc.
    apply (mapM_Forall (fun c => conv_net c = true)) in Hr;
      [rewrite Forall_forall in Hr; by apply Hr|].
    intros k c' _. apply downsample_block_conv_net.
Qed.

Lemma _make_fuse_layers_conv_net num_branches num_inchannels multi_scale_output fusion rows :
  _make_fuse_layers num_branches num_inchannels multi_scale_output fusion = Ok (Some rows) ->
  Forall (Forall (fun e => forall l, e = Some l -> conv_net l = true)) rows.
Proof.
  unfold _make_fuse_layers. destruct (num_branches =? 1)%Z; [discriminate|].
  intros H. inv_bind H. injection H as <-.
  assert (Hr0 : Forall (Forall (fun e => forall l, e = Some l -> conv_net l = true)) r).
  { eapply mapM_Forall; [|exact Hr]. intros i row _ Hrow.
    eapply mapM_Forall; [|exact Hrow]. intros j e _ He l Hl.
    eapply make_fuse_entry_conv_net; eauto. }
  destruct fusion; simpl; [done|].
  unfold clear_unfused. apply Forall_lookup. intros i row.
  rewrite list_lookup_imap. destruct (r !! i) as [row0|] eqn:Ei; [|done].
  simpl. intros [= <-]. destruct (i =? 0).
  - rewrite Forall_lookup in Hr0. by eapply Hr0.
  - apply Forall_forall. intros e He. rewrite map_fmap in He.
    apply list_elem_of_fmap in He as (? & -> & _). done.
Qed.

Lemma HighResolutionModule_init_built num_branches blocks num_blocks num_inchannels
  num_channels fuse_method multi_scale_output fusion m :
  HighResolutionModule_init num_branches blocks num_blocks num_inchannels num_channels
    fuse_method multi_scale_output fusion = Ok m ->
  hrm_built m.
Proof.
  unfold HighResolutionModule_init. intros H.
  inv_bind H. inv_bind H. destruct r0 as [bs inch]. inv_bind H. injection H as <-.
  split; simpl.
  - by eapply _make_branches_keep_size.
  - intros rows ->. by eapply _make_fuse_layers_conv_net.
Qed.

Lemma _make_stage_built layer_config num_inchannels multi_scale_output fusion modules pre :
  _make_stage layer_config num_inchannels multi_scale_output fusion = Ok (modules, pre) ->
  Forall hrm_built modules.
Proof.
  unfold _make_stage. intros H. inv_bind H.
  apply (foldM_preserves (fun st : list HighResolutionModule * list nat =>
                            Forall hrm_built st.1)) in H; [done|done|].
  intros [ms inch] i [ms' inch'] _ Hms Hstep. simpl in *.
  inv_bind Hstep. inv_bind Hstep. injection Hstep as <- <-.
  apply Forall_app. split; [done|]. constructor; [|constructor].
  by eapply HighResolutionModule_init_built.
Qed.

(** The transition layers: convolutions, the first one (when there is one)
    of stride 1. *)
Lemma _make_transition_layer_built pre cur ts :
  _make_transition_layer pre cur = Ok ts ->
  Forall (fun t => forall l, t = Some l -> conv_net l = true) ts
  /\ (forall l, ts !! 0 = Some (Some l) -> keeps_size l = true).
Proof.
  unfold _make_transition_layer. intros H. split.
  - eapply mapM_Forall; [|exact H]. intros i t _ Ht l ->.
    destruct (i <? length pre).
    + repeat inv_bind Ht. destruct (negb _); [|done]. by injection Ht as <-.
    + inv_bind Ht. injection Ht as <-. simpl.
      apply forallb_forall. intros c Hc. apply list_elem_of_In in Hc.
      apply (mapM_Forall (fun c => conv_net c = true)) in Hr;
        [rewrite Forall_forall in Hr; by apply Hr|].
      intros j c' _ Hc'. repeat inv_bind Hc'. by injection Hc' as <-.
  - intros l Hl.
    destruct (seq 0 (length cur)) as [|i0 is0] eqn:Es.
    { simpl in H. injection H as <-. done. }
    assert (i0 = 0) as ->.
    { destruct cur; simpl in Es; [done|]. by injection Es as <-. }
    simpl in H. inv_bind H. inv_bind H. injection H as <-. simpl in Hl.
    injection Hl as ->.
    destruct (Nat.ltb_spec 0 (length pre)) as [Hp|Hp].
    + repeat inv_bind Hr. destruct (negb _); [|done]. by injection Hr as <-.
    + destruct pre; [|simpl in Hp; lia]. simpl in Hr.
      repeat inv_bind Hr. discriminate.
Qed.

(** ** Shapes through a [HighResolutionModule], a stage and the transitions *)

Section BranchFeatures.
Variables bs H W : nat.
Hypothesis HH : 2 <= H.
Hypothesis HW : 2 <= W.

Lemma call_entry_batch4 {training : bool} (e : option Layer) (x y : Shape) :
  (forall l, e = Some l -> conv_net l = true) -> batch4 bs x ->
  call_entry (Layer_forward training) e x = Ok y -> batch4 bs y.
Proof.
  intros He Hx. destruct e as [l|]; simpl; [|discriminate].
  apply conv_net_batch4; auto.
Qed.

Lemma shape_add_features (y x r : Shape) :
  batch4 bs y -> batch4 bs x -> shape_add y x = Ok r ->
  batch4 bs r /\ ((exists c, y = [bs; c; H; W]) -> exists c, r = [bs; c; H; W]).
Proof.
  intros (cy & hy & wy & ->) (cx & hx & wx & ->) Hr.
  apply broadcast_batch4 in Hr as (c & h & w & -> & Hh & Hw).
  split; [by eexists _, _, _|].
  intros [c' [= -> -> ->]]. rewrite Hh, Hw by done. eauto.
Qed.

Lemma fuse_row_features {training : bool} (m : HighResolutionModule) (rows : list (list (option Layer)))
  (xs : list Shape) (i : nat) (y : Shape) :
  Forall (Forall (fun e => forall l, e = Some l -> conv_net l = true)) rows ->
  branch_features bs H W xs ->
  fuse_row (Layer_forward training) shape_add m rows xs i = Ok y ->
  batch4 bs y /\ (i = 0 -> exists c, y = [bs; c; H; W]).
Proof.
  intros Hrows [Hall H0] Hy. unfold fuse_row in Hy.
  rewrite Forall_lookup in Hall.
  assert (Hentry : forall i j row f, rows !! i = Some row -> row !! j = Some f ->
                                     forall l, f = Some l -> conv_net l = true).
  { intros i' j row f Hi Hj. rewrite Forall_lookup in Hrows.
    specialize (Hrows i' row Hi). rewrite Forall_lookup in Hrows. by eapply Hrows. }
  inv_bind Hy. inv_bind Hy. simpl in Hy. injection Hy as <-.
  eapply (foldM_preserves (fun y => batch4 bs y /\ (i = 0 -> exists c, y = [bs; c; H; W])));
    [| |exact Hr0].
  - destruct (Nat.eqb_spec i 0) as [->|Hi].
    + apply getitem_Ok in Hr. split; [by eapply Hall | intros _; by apply H0].
    + do 3 inv_bind Hr. apply getitem_Ok in Hr1, Hr2, Hr3.
      split; [|done]. eapply call_entry_batch4; [by eapply Hentry | by eapply Hall | done].
  - intros y0 j y1 _ [Hy0 Hy0'] Hstep.
    destruct (i =? j).
    + inv_bind Hstep. apply getitem_Ok in Hr1.
      destruct (shape_add_features y0 r1 y1) as [? Hsz]; [done | by eapply Hall | done |].
      split; [done | intros Hi; by apply Hsz, Hy0'].
    + do 4 inv_bind Hstep. apply getitem_Ok in Hr1, Hr2, Hr3.
      destruct (shape_add_features y0 r4 y1) as [? Hsz]; [done | | exact Hstep |].
      { eapply call_entry_batch4; [by eapply Hentry | by eapply Hall | exact Hr4]. }
      split; [done | intros Hi; by apply Hsz, Hy0'].
Qed.

(** A module maps branch features to branch features: the first output
    keeps the spatial size of the first input. *)
Lemma HighResolutionModule_forward_features {training : bool} (m : HighResolutionModule) (xs ys : list Shape) :
  hrm_built m -> branch_features bs H W xs ->
  HighResolutionModule_forward (Layer_forward training) shape_add m xs = Ok ys ->
  branch_features bs H W ys.
Proof.
  intros [Hbr Hfuse] Hxs. unfold HighResolutionModule_forward.
  rewrite Forall_lookup in Hbr.
  destruct (num_branches m =? 1)%Z.
  - intros Hy. repeat inv_bind Hy. injection Hy as <-.
    apply getitem_Ok in Hr, Hr0. destruct Hxs as [_ H0].
    destruct (keeps_size_Ok r (Hbr 0 r Hr) bs H W r0 r1 (H0 r0 Hr0) Hr1) as [c ->].
    split.
    + repeat constructor. by eexists _, _, _.
    + intros s [= <-]. eauto.
  - intros Hy. inv_bind Hy.
    assert (Hx' : branch_features bs H W r).
    { eapply (foldM_preserves (branch_features bs H W)); [exact Hxs| |exact Hr].
      intros x i x' _ [Hall H0] Hstep. repeat inv_bind Hstep.
      apply getitem_Ok in Hr0, Hr1. apply setitem_Ok in Hstep as [Hi ->].
      rewrite Forall_lookup in Hall.
      destruct (Hall i r1 Hr1) as (c & h & w & ->).
      destruct (keeps_size_Ok r0 (Hbr i r0 Hr0) bs h w _ r2 (ex_intro _ c eq_refl) Hr2)
        as [c' ->].
      split.
      - apply Forall_insert; [by apply Forall_lookup | by eexists _, _, _].
      - intros s Hs. destruct (decide (i = 0)) as [->|Hne].
        + rewrite list_lookup_insert_eq in Hs by done. injection Hs as <-.
          destruct (H0 _ Hr1) as [c0 [= -> -> ->]]. eauto.
        + rewrite list_lookup_insert_ne in Hs by done. by apply H0. }
    destruct (fuse_layers m) as [rows|]; [|discriminate].
    specialize (Hfuse rows eq_refl).
    assert (Hrow : forall i y, fuse_row (Layer_forward training) shape_add m rows r i = Ok y ->
                               batch4 bs y /\ (i = 0 -> exists c, y = [bs; c; H; W])).
    { intros i y. by apply fuse_row_features. }
    destruct Hx' as [Hall H0]. rewrite Forall_lookup in Hall.
    destruct (fusion m).
    + split.
      * eapply mapM_Forall; [|exact Hy]. intros i y _ Hi. by apply (Hrow i y).
      * intros s Hs. destruct (mapM_lookup_inv _ _ _ _ _ Hy Hs) as (i & Hi & Hfi).
        apply lookup_seq in Hi as [-> _]. by apply (Hrow 0 s).
    + split.
      * eapply mapM_Forall; [|exact Hy]. intros i y _ Hi. cbv beta in Hi.
        destruct (i =? 0); [by apply (Hrow i y)|].
        apply getitem_Ok in Hi. by eapply Hall.
      * intros s Hs. destruct (mapM_lookup_inv _ _ _ _ _ Hy Hs) as (i & Hi & Hfi).
        apply lookup_seq in Hi as [-> _]. by apply (Hrow 0 s).
Qed.

Lemma stage_forward_features {training : bool} (modules : list HighResolutionModule) (xs ys : list Shape) :
  Forall hrm_built modules -> branch_features bs H W xs ->
  stage_forward training modules xs = Ok ys -> branch_features bs H W ys.
Proof.
  intros Hm Hxs Hy. unfold stage_forward in Hy.
  eapply (foldM_preserves (branch_features bs H W)); [exact Hxs| |exact Hy].
  intros x m x' Hin Hx Hstep. rewrite Forall_forall in Hm.
  eapply HighResolutionModule_forward_features; [by apply Hm | exact Hx | exact Hstep].
Qed.

End BranchFeatures.

(** ** The backbone of [TransActionH] and the shape of the heatmap *)

Lemma transition_entry {training : bool} (ts : list (option Layer)) (i : nat)
  (t : option (Shape -> res Shape)) :
  getitem (map (option_map (Layer_forward training)) ts) i = Ok t ->
  exists t0, ts !! i = Some t0 /\ t = option_map (Layer_forward training) t0.
Proof.
  intros H. apply getitem_Ok in H. rewrite lookup_map in H.
  destruct (ts !! i) as [t0|]; [|done]. injection H as <-. eauto.
Qed.

Lemma range_lookup_0 (n : Z) (i : nat) : range n !! 0 = Some i -> i = 0.
Proof. unfold range. intros H. by apply lookup_seq in H as [-> _]. Qed.

Lemma transition1_forward_features {training : bool} (model : TransActionH Shape)
  (ts : list (option Layer)) (bs c H W : nat) (xs : list Shape) :
  transition1 model = map (option_map (Layer_forward training)) ts ->
  Forall (fun t => forall l, t = Some l -> conv_net l = true) ts ->
  (forall l, ts !! 0 = Some (Some l) -> keeps_size l = true) ->
  transition1_forward model [bs; c; H; W] = Ok xs ->
  branch_features bs H W xs.
Proof.
  intros Ht Hconv Hfirst Hx. unfold transition1_forward in Hx. rewrite Ht in Hx.
  rewrite Forall_lookup in Hconv. split.
  - eapply mapM_Forall; [|exact Hx]. intros i y _ Hi. cbv beta in Hi.
    inv_bind Hi. apply transition_entry in Hr as (t0 & Ht0 & ->).
    destruct t0 as [l|]; simpl in Hi.
    + eapply conv_net_batch4; [by eapply Hconv | | exact Hi]. by eexists _, _, _.
    + injection Hi as <-. by eexists _, _, _.
  - intros s Hs. destruct (mapM_lookup_inv _ _ _ _ _ Hx Hs) as (i & Hi & Hfi).
    apply range_lookup_0 in Hi as ->.
    inv_bind Hfi. apply transition_entry in Hr as (t0 & Ht0 & ->).
    destruct t0 as [l|]; simpl in Hfi.
    + eapply keeps_size_Ok; [by apply Hfirst | | exact Hfi]. eauto.
    + injection Hfi as <-. eauto.
Qed.

Lemma transition2_forward_features {training : bool} (model : TransActionH Shape)
  (ts : list (option Layer)) (bs H W : nat) (ys xs : list Shape) :
  transition2 model = map (option_map (Layer_forward training)) ts ->
  Forall (fun t => forall l, t = Some l -> conv_net l = true) ts ->
  transition2 model !! 0 = Some None ->
  branch_features bs H W ys ->
  transition2_forward model ys = Ok xs ->
  branch_features bs H W xs.
Proof.
  intros Ht Hconv Hfirst [Hall H0] Hx. unfold transition2_forward in Hx.
  rewrite Forall_lookup in Hconv. rewrite Forall_forall in Hall. split.
  - eapply mapM_Forall; [|exact Hx]. intros i y _ Hi. cbv beta in Hi.
    inv_bind Hi. rewrite Ht in Hr. apply transition_entry in Hr as (t0 & Ht0 & ->).
    destruct t0 as [l|]; simpl in Hi.
    + inv_bind Hi. apply getlast_elem_of in Hr.
      eapply conv_net_batch4; [by eapply Hconv | by apply Hall | exact Hi].
    + apply getitem_Ok in Hi. apply Hall. by eapply list_elem_of_lookup_2.
  - intros s Hs. destruct (mapM_lookup_inv _ _ _ _ _ Hx Hs) as (i & Hi & Hfi).
    apply range_lookup_0 in Hi as ->.
    inv_bind Hfi. apply getitem_Ok in Hr. rewrite Hfirst in Hr. injection Hr as <-.
    apply getitem_Ok in Hfi. by apply H0.
Qed.

(** What the constructor stores in the fields that the backbone and the
    pose head use. *)
Lemma TransActionH_init_Ok {training : bool} (cfg : Cfg) (model : TransActionH Shape) :
  TransActionH_init training cfg = Ok model ->
  exists l1 ts1 st2 ts2 st3 c0,
    conv1 model = Layer_forward training (Conv2d 3 64 3 2 1)
    /\ bn1 model = Layer_forward training (BatchNorm2d 64)
    /\ conv2 model = Layer_forward training (Conv2d 64 64 3 2 1)
    /\ bn2 model = Layer_forward training (BatchNorm2d 64)
    /\ relu model = Layer_forward training ReLU
    /\ (layer1 model = Layer_forward training l1 /\ keeps_size l1 = true)
    /\ (transition1 model = map (option_map (Layer_forward training)) ts1
        /\ Forall (fun t => forall l, t = Some l -> conv_net l = true) ts1
        /\ (forall l, ts1 !! 0 = Some (Some l) -> keeps_size l = true))
    /\ (stage2 model = stage_forward training st2 /\ Forall hrm_built st2)
    /\ (transition2 model = map (option_map (Layer_forward training)) ts2
        /\ Forall (fun t => forall l, t = Some l -> conv_net l = true) ts2)
    /\ (stage3 model = stage_forward training st3 /\ Forall hrm_built st3)
    /\ reduce model = Layer_forward training (Conv2d c0 (DIM_MODEL cfg) 1 1 0)
    /\ final_layer model
       = Layer_forward training
           (Conv2d (DIM_MODEL cfg) (NUM_JOINTS cfg) (FINAL_CONV_KERNEL cfg) 1
                   (if FINAL_CONV_KERNEL cfg =? 3 then 1 else 0)).
Proof.
  unfold TransActionH_init. intros H.
  destruct (_make_layer 64 Bottleneck 64 4 1) as [l1 inpl] eqn:El1.
  apply bind_Ok in H as (block2 & _ & H).
  apply bind_Ok in H as (ts1 & Hts1 & H).
  apply bind_Ok in H as ([st2 pre2] & Hst2 & H).
  apply bind_Ok in H as (block3 & _ & H).
  apply bind_Ok in H as (ts2 & Hts2 & H).
  apply bind_Ok in H as ([st3 pre3] & Hst3 & H).
  destruct (IMAGE_SIZE cfg) as [w h].
  apply bind_Ok in H as (c0 & _ & H).
  apply bind_Ok in H as (pos & _ & H).
  apply bind_Ok in H as (enc & _ & H).
  apply bind_Ok in H as (enc_action & _ & H).
  injection H as <-.
  apply _make_transition_layer_built in Hts1 as [Hc1 Hk1].
  apply _make_transition_layer_built in Hts2 as [Hc2 _].
  apply _make_stage_built in Hst2, Hst3.
  exists l1, ts1, st2, ts2, st3, c0. simpl.
  repeat (split; [done|]).
  split; [|done]. split; [done|].
  vm_compute in El1. by injection El1 as <- <-.
Qed.

Lemma ceil_div_pow2_stem (size : nat) :
  0 < size -> conv_out (conv_out size 3 2 1) 3 2 1 = ceil_div_pow2 size 2.
Proof.
  intros H. rewrite (conv_out_3_2_1 size) by done.
  assert (0 < (size + 1) / 2) by (apply Nat.div_str_pos; lia).
  rewrite conv_out_3_2_1 by done.
  by rewrite !ceil_div_pow2_S, ceil_div_pow2_0.
Qed.

Lemma ceil_div_pow2_ge_2 (size : nat) : 4 < size -> 2 <= ceil_div_pow2 size 2.
Proof.
  intros H. unfold ceil_div_pow2. change (2 ^ 2) with 4.
  apply Nat.div_le_lower_bound; lia.
Qed.

(** The feature maps that leave stage 3: the highest-resolution one has a
    quarter of the input size, rounded up. *)
Lemma backbone_features {training : bool} (cfg : Cfg) (model : TransActionH Shape)
  (bs h w : nat) (y_list : list Shape) :
  TransActionH_init training cfg = Ok model ->
  transition2 model !! 0 = Some None ->
  4 < h -> 4 < w ->
  backbone model [bs; 3; h; w] = Ok y_list ->
  branch_features bs (ceil_div_pow2 h 2) (ceil_div_pow2 w 2) y_list.
Proof.
  intros Hinit Hfirst Hh Hw Hy.
  destruct (TransActionH_init_Ok cfg model Hinit)
    as (l1 & ts1 & st2 & ts2 & st3 & c0 & Hconv1 & Hbn1 & Hconv2 & Hbn2 & Hrelu
        & [Hlayer1 Hk1] & (Ht1 & Hc1 & Hf1) & [Hs2 Hb2] & [Ht2 Hc2] & [Hs3 Hb3] & _).
  pose proof (ceil_div_pow2_ge_2 h Hh) as HH.
  pose proof (ceil_div_pow2_ge_2 w Hw) as HW.
  unfold backbone in Hy.
  rewrite Hconv1, Hbn1, Hconv2, Hbn2, Hrelu, Hlayer1, Hs2, Hs3 in Hy.
  apply bind_Ok in Hy as (x1 & Hx1 & Hy). rewrite Layer_forward_Conv2d in Hx1.
  apply conv2d_forward_Ok in Hx1 as (? & ? & ? & [= <- <- <-] & _ & _ & _ & ->).
  apply bind_Ok in Hy as (x2 & Hx2 & Hy). rewrite Layer_forward_BatchNorm2d in Hx2.
  apply batchnorm2d_forward_Ok in Hx2 as [-> _].
  apply bind_Ok in Hy as (x3 & Hx3 & Hy). simpl in Hx3. injection Hx3 as <-.
  apply bind_Ok in Hy as (x4 & Hx4 & Hy). rewrite Layer_forward_Conv2d in Hx4.
  apply conv2d_forward_Ok in Hx4 as (? & ? & ? & [= <- <- <-] & _ & _ & _ & ->).
  apply bind_Ok in Hy as (x5 & Hx5 & Hy). rewrite Layer_forward_BatchNorm2d in Hx5.
  apply batchnorm2d_forward_Ok in Hx5 as [-> _].
  apply bind_Ok in Hy as (x6 & Hx6 & Hy). simpl in Hx6. injection Hx6 as <-.
  rewrite !ceil_div_pow2_stem in Hy by lia.
  apply bind_Ok in Hy as (x7 & Hx7 & Hy).
  destruct (keeps_size_Ok l1 Hk1 _ _ _ _ x7 (ex_intro _ _ eq_refl) Hx7) as [c7 ->].
  apply bind_Ok in Hy as (xs1 & Hxs1 & Hy).
  eapply transition1_forward_features in Hxs1; [|exact Ht1|exact Hc1|exact Hf1].
  apply bind_Ok in Hy as (ys1 & Hys1 & Hy).
  eapply stage_forward_features in Hys1; [|exact HH|exact HW|exact Hb2|exact Hxs1].
  apply bind_Ok in Hy as (xs2 & Hxs2 & Hy).
  eapply transition2_forward_features in Hxs2; [|exact Ht2|exact Hc2|exact Hfirst|exact Hys1].
  eapply stage_forward_features; [exact HH|exact HW|exact Hb3|exact Hxs2|exact Hy].
Qed.

(** C4 (amended).  For a model built from [cfg] whose first branch enters
    stage 3 without a transition layer, and an input batch
    [batch, 3, height, width] with [height], [width] > 4 on which [forward]
    returns, the pose heatmap has the shape
    [batch, NUM_JOINTS, H', W'] where [H'], [W'] are what the final
    convolution (kernel [FINAL_CONV_KERNEL], stride 1, padding 1 for a kernel
    of 3 and 0 otherwise) makes of ceil(height / 4), ceil(width / 4); for the
    kernels 1 and 3 this is [batch, NUM_JOINTS, ceil(height/4), ceil(width/4)]. *)
Theorem TransActionH_forward_heatmap_shape (training : bool)
  (get_max_preds : Shape -> res (list (list vec) * list (list R)))
  (cfg : Cfg) (model : TransActionH Shape) (bs h w : nat) (y c : Shape) :
  TransActionH_init training cfg = Ok model ->
  transition2 model !! 0 = Some None ->
  4 < h -> 4 < w ->
  TransActionH_forward (shape_ops get_max_preds) model [bs; 3; h; w] = Ok (y, c) ->
  let k := FINAL_CONV_KERNEL cfg in
  let p := if k =? 3 then 1 else 0 in
  y = [bs; NUM_JOINTS cfg; conv_out (ceil_div_pow2 h 2) k 1 p;
       conv_out (ceil_div_pow2 w 2) k 1 p]
  /\ (k = 1 \/ k = 3 ->
      y = [bs; NUM_JOINTS cfg; ceil_div_pow2 h 2; ceil_div_pow2 w 2]).
Proof.
  intros Hinit Hfirst Hh Hw Hfwd k p.
  apply forward_Ok in Hfwd
    as (y_list & flat & s & angles & r & q & Hback & Henc & Hpose & _).
  pose proof (backbone_features cfg model bs h w y_list Hinit Hfirst Hh Hw Hback) as [_ H0].
  destruct (TransActionH_init_Ok cfg model Hinit)
    as (l1 & ts1 & st2 & ts2 & st3 & c0 & _ & _ & _ & _ & _ & _ & _ & _ & _ & _
        & Hreduce & Hfinal).
  unfold encoder_input in Henc. rewrite Hreduce in Henc.
  apply bind_Ok in Henc as (y0 & Hy0 & Henc). apply getitem_Ok in Hy0.
  destruct (H0 y0 Hy0) as [c' ->].
  apply bind_Ok in Henc as (x & Hx & Henc). rewrite Layer_forward_Conv2d in Hx.
  apply conv2d_forward_Ok in Hx as (? & ? & ? & [= <- <- <- <-] & _ & ? & ? & ->).
  rewrite !(conv_out_same _ 1 0) in Henc by done.
  apply bind_Ok in Henc as (s' & Hs' & Henc). simpl in Hs'. injection Hs' as <-.
  apply bind_Ok in Henc as (flat1 & _ & Henc).
  apply bind_Ok in Henc as (flat2 & _ & Henc). injection Henc as <- <-.
  unfold pose_head, unflatten in Hpose. rewrite Hfinal in Hpose.
  apply bind_Ok in Hpose as (e & _ & Hpose).
  apply bind_Ok in Hpose as (v & Hv & Hpose).
  apply bind_Ok in Hv as (e' & _ & Hv). simpl in Hv. unfold shape_view in Hv.
  destruct (_ =? _) in Hv; [|discriminate]. injection Hv as <-.
  rewrite Layer_forward_Conv2d in Hpose. fold k in Hpose. fold p in Hpose.
  apply conv2d_forward_Ok in Hpose as (? & ? & ? & [= <- <- <-] & _ & Hkh & Hkw & ->).
  split; [reflexivity|].
  intros [Hk | Hk]; subst p; rewrite Hk in *; simpl in Hkh, Hkw |- *.
  - by rewrite !(conv_out_same _ 1 0) by (done || lia).
  - by rewrite !(conv_out_same _ 3 1) by (done || lia).
Qed.

(** ** Running the model built from a configuration *)

(** [forward] returns when its shape-level parts do and [get_max_preds]
    finds at least 17 joints per batch element. *)
Lemma model_forward_Ok {training : bool}
  (get_max_preds : Shape -> res (list (list vec) * list (list R)))
  (cfg : Cfg) (x y c : Shape) (y_list : list Shape) (flat : Shape)
  (s : nat * nat * nat * nat) (preds : list (list vec)) (maxvals : list (list R))
  (r q : Shape) :
  (model ← TransActionH_init training cfg; backbone model x) = Ok y_list ->
  (model ← TransActionH_init training cfg;
   encoder_input (shape_ops get_max_preds) model y_list) = Ok (flat, s) ->
  (model ← TransActionH_init training cfg;
   pose_head (shape_ops get_max_preds) model flat s) = Ok y ->
  get_max_preds y = Ok (preds, maxvals) ->
  length preds <= length maxvals ->
  Forall (fun preds_b => 17 <= length preds_b) preds ->
  Forall (fun maxvals_b => 17 <= length maxvals_b) maxvals ->
  (model ← TransActionH_init training cfg;
   transformer_action_head (shape_ops get_max_preds) model flat s) = Ok r ->
  (model ← TransActionH_init training cfg;
   concat_head (shape_ops get_max_preds) model y_list) = Ok c ->
  (model ← TransActionH_init training cfg;
   action_skeleton_branch model [length preds; 78 * 77 / 2]) = Ok q ->
  model_forward training get_max_preds cfg x = Ok (y, c).
Proof.
  unfold model_forward.
  destruct (TransActionH_init training cfg) as [model|e]; [|discriminate].
  rewrite !bind_Ok_l.
  intros Hback Henc Hpose Hgmp Hlen Hp Hm Hact Hcat Hskel.
  destruct (get_pose_vectors_total preds maxvals Hlen Hp Hm) as (angles & Ha & Hl & _).
  apply forward_Ok. exists y_list, flat, s, angles, r, q.
  repeat (split; [assumption|]). split; [|split; [assumption|split; [assumption|]]].
  - change (get_max_preds y ≫= (fun pm => get_pose_vectors pm.1 pm.2) = Ok angles).
    rewrite Hgmp. exact Ha.
  - change (action_skeleton_branch model [length angles; 78 * 77 / 2] = Ok q).
    by rewrite Hl.
Qed.

Lemma example_get_max_preds_Ok (bs J h w : nat) :
  17 <= J ->
  exists preds maxvals,
    example_get_max_preds [bs; J; h; w] = Ok (preds, maxvals)
    /\ length preds = bs /\ length preds <= length maxvals
    /\ Forall (fun preds_b => 17 <= length preds_b) preds
    /\ Forall (fun maxvals_b => 17 <= length maxvals_b) maxvals.
Proof.
  intros HJ. eexists _, _. split; [reflexivity|].
  rewrite !length_replicate. repeat split; [lia| |];
    apply Forall_replicate; by rewrite length_replicate.
Qed.

(** Runs the shape-level parts of [forward] and leaves the real-valued
    skeleton branch to [get_pose_vectors_total]. *)
Ltac run_model_forward :=
  lazymatch goal with
  | |- model_forward ?training example_get_max_preds ?cfg ?x = Ok (?y, ?c) =>
      let ops := constr:(shape_ops example_get_max_preds) in
      let yl := eval vm_compute in (model ← TransActionH_init training cfg; backbone model x) in
      lazymatch yl with
      | Ok ?y_list =>
          let fs := eval vm_compute in
            (model ← TransActionH_init training cfg; encoder_input ops model y_list) in
          lazymatch fs with
          | Ok (?flat, ?s) =>
              let rr := eval vm_compute in
                (model ← TransActionH_init training cfg;
                 transformer_action_head ops model flat s) in
              lazymatch rr with
              | Ok ?r =>
                  lazymatch y with
                  | [?bs; ?J; ?h; ?w] =>
                      destruct (example_get_max_preds_Ok bs J h w)
                        as (preds & maxvals & Hgmp & Hbs & Hlen & Hp & Hm); [lia|];
                      apply (model_forward_Ok example_get_max_preds cfg x y c y_list flat s
                               preds maxvals r c);
                      [vm_compute; reflexivity | vm_compute; reflexivity
                      | vm_compute; reflexivity | exact Hgmp | exact Hlen | exact Hp
                      | exact Hm | vm_compute; reflexivity | vm_compute; reflexivity
                      | rewrite Hbs; vm_compute; reflexivity]
                  end
              end
          end
      end
  end.

(** The network of the example configuration on a batch of two 256x192
    images. *)
Lemma model_forward_example {training : bool} :
  model_forward training example_get_max_preds (example_cfg (192, 256) "sine" 1)
    [2; 3; 256; 192]
  = Ok ([2; 17; 64; 48], [2; 40]).
Proof. destruct training; run_model_forward. Qed.

(** C4 (counterexample).  With IMAGE_SIZE = (192, 256): on a batch of 254x190
    images the heatmap is 64x48, not 254/4 x 190/4; with a final convolution
    of kernel 5 the heatmap of a 256x192 batch is 60x44; and on a batch of
    128x96 images [forward] raises in the encoder, whose sine position
    embedding has the length of a 64x48 map.  This holds in training mode
    and in evaluation mode. *)
Lemma TransActionH_forward_heatmap_not_quarter :
  Forall (fun training =>
            (model_forward training example_get_max_preds (example_cfg (192, 256) "sine" 1)
               [2; 3; 254; 190]
             = Ok ([2; 17; 64; 48], [2; 40])
             /\ 254 / 4 = 63 /\ 190 / 4 = 47)
            /\ model_forward training example_get_max_preds (example_cfg (192, 256) "sine" 5)
                 [2; 3; 256; 192]
               = Ok ([2; 17; 60; 44], [2; 40])
            /\ model_forward training example_get_max_preds (example_cfg (192, 256) "sine" 1)
                 [2; 3; 128; 96]
               = Raise RuntimeError)
         [true; false].
Proof.
  apply List.Forall_cons; [|apply List.Forall_cons; [|apply List.Forall_nil]];
    (split; [split; [run_model_forward | split; reflexivity]|];
     split; [run_model_forward | vm_compute; reflexivity]).
Qed.

Lemma TransActionH_forward_heatmap_shape_witness :
  exists model,
    TransActionH_init true (example_cfg (192, 256) "sine" 1) = Ok model
    /\ TransActionH_forward (shape_ops example_get_max_preds) model [2; 3; 256; 192]
       = Ok ([2; 17; 64; 48], [2; 40])
    /\ [2; 17; 64; 48] = [2; 17; ceil_div_pow2 256 2; ceil_div_pow2 192 2].
Proof.
  pose proof (model_forward_example (training := true)) as Hfwd.
  unfold model_forward in Hfwd.
  assert (Hfirst : (model ← TransActionH_init true (example_cfg (192, 256) "sine" 1);
                    Ok (transition2 model !! 0)) = Ok (Some None))
    by (vm_compute; reflexivity).
  destruct (TransActionH_init true (example_cfg (192, 256) "sine" 1)) as [model|e] eqn:Hinit;
    [|discriminate].
  rewrite bind_Ok_l in Hfwd. rewrite bind_Ok_l in Hfirst. injection Hfirst as Hfirst.
  exists model. split; [reflexivity|]. split; [exact Hfwd|].
  apply (TransActionH_forward_heatmap_shape true example_get_max_preds
           (example_cfg (192, 256) "sine" 1) model 2 256 192 _ [2; 40]
           Hinit Hfirst);
    [lia | lia | exact Hfwd | by left].
Defined.

(** ** A module maps a resolution pyramid to a resolution pyramid *)

Lemma shape_add_same (x : Shape) : shape_add x x = Ok x.
Proof.
  unfold shape_add, broadcast. rewrite broadcast_rev_refl. simpl.
  by rewrite rev_involutive.
Qed.

Lemma setitem_fits {A} (l : list A) (i : nat) (v : A) :
  i < length l -> setitem l i v = Ok (<[i := v]> l).
Proof. intros H. by apply setitem_Ok. Qed.

Lemma getitem_fits {A} (l : list A) (i : nat) (a : A) :
  l !! i = Some a -> getitem l i = Ok a.
Proof. apply getitem_Ok. Qed.

Lemma pow2_pos (k : nat) : 1 <= 2 ^ k.
Proof. pose proof (Nat.pow_nonzero 2 k). lia. Qed.

Lemma level_pos (nb i a : nat) : 1 <= a -> 1 <= level nb i a.
Proof. intros H. unfold level. pose proof (pow2_pos (nb - 1 - i)). nia. Qed.

(** Upsampling branch [j] by [2 ^ (j - i)] gives the size of branch [i]. *)
Lemma level_up (nb i j a : nat) :
  i < j -> j < nb -> level nb j a * 2 ^ (j - i) = level nb i a.
Proof.
  intros Hij Hj. unfold level.
  replace (nb - 1 - i) with (nb - 1 - j + (j - i)) by lia.
  rewrite Nat.pow_add_r. lia.
Qed.

(** [i - j] convolutions of stride 2 take the size of branch [j] to that of
    branch [i]. *)
Lemma level_down (nb i j a : nat) :
  j < i -> i < nb -> ceil_div_pow2 (level nb j a) (i - j) = level nb i a.
Proof.
  intros Hji Hi. unfold level, ceil_div_pow2.
  replace (nb - 1 - j) with (nb - 1 - i + (i - j)) by lia.
  rewrite Nat.pow_add_r.
  pose proof (pow2_pos (i - j)) as Hp.
  replace (2 ^ (nb - 1 - i) * 2 ^ (i - j) * a + 2 ^ (i - j) - 1)
    with (2 ^ (nb - 1 - i) * a * 2 ^ (i - j) + (2 ^ (i - j) - 1)) by lia.
  rewrite Nat.div_add_l by lia. rewrite Nat.div_small by lia. lia.
Qed.

Lemma pyramid_lookup (n : nat) (chans : list nat) (a b i c : nat) :
  chans !! i = Some c ->
  pyramid n chans a b !! i
  = Some [n; c; level (length chans) i a; level (length chans) i b].
Proof. intros H. unfold pyramid. by rewrite list_lookup_imap, H. Qed.

Lemma getitem_pyramid (n : nat) (chans : list nat) (a b i c : nat) :
  chans !! i = Some c ->
  @getitem Shape (pyramid n chans a b) i
  = Ok [n; c; level (length chans) i a; level (length chans) i b].
Proof. intros H. apply getitem_Ok. by apply pyramid_lookup. Qed.

Lemma length_pyramid (n : nat) (chans : list nat) (a b : nat) :
  length (pyramid n chans a b) = length chans.
Proof. unfold pyramid. apply length_imap. Qed.

Lemma expected_fuse_layers_lookup (fusion : bool) (chans : list nat) (i j c_i c_j : nat) :
  chans !! i = Some c_i -> chans !! j = Some c_j ->
  exists row, expected_fuse_layers fusion chans !! i = Some row
              /\ row !! j = Some (expected_fuse_entry fusion c_i c_j i j).
Proof.
  intros Hi Hj. unfold expected_fuse_layers. eexists. split.
  - rewrite list_lookup_imap, Hi. reflexivity.
  - by rewrite list_lookup_imap, Hj.
Qed.

(** The loop [x[i] = self.branches[i](x[i])] replaces the entries one after
    the other. *)
Lemma branch_loop {training : bool} (bl : list Layer) (k : nat) (xs ys : list Shape) :
  length xs = length ys -> k <= length xs ->
  (forall i x, i < k -> xs !! i = Some x ->
     exists b y, bl !! i = Some b /\ ys !! i = Some y /\ Layer_forward training b x = Ok y) ->
  foldM (fun x i => b ← getitem bl i; xi ← getitem x i;
                    y ← Layer_forward training b xi; setitem x i y)
        xs (seq 0 k)
  = Ok (take k ys ++ drop k xs).
Proof.
  intros Hlen. induction k as [|k IH]; intros Hk Hstep.
  - simpl. by rewrite drop_0.
  - rewrite seq_S, foldM_app, IH; [|lia|intros; apply Hstep; [lia|done]].
    rewrite bind_Ok_l. simpl.
    destruct (lookup_lt_is_Some_2 xs k) as [x Hx]; [lia|].
    destruct (Hstep k x) as (b & y & Hb & Hy & Hf); [lia|done|].
    rewrite (getitem_fits _ _ _ Hb), bind_Ok_l.
    assert (Hxk : (take k ys ++ drop k xs) !! k = Some x).
    { rewrite lookup_app_r by (rewrite length_take; lia).
      rewrite length_take, lookup_drop.
      replace (k + (k - k `min` length ys)) with k by lia. done. }
    rewrite (getitem_fits _ _ _ Hxk), bind_Ok_l, Hf, bind_Ok_l.
    rewrite setitem_fits by (rewrite length_app, length_take, length_drop; lia).
    f_equal.
    rewrite (take_S_r ys k y Hy).
    rewrite insert_app_r_alt by (rewrite length_take; lia).
    rewrite length_take. replace (k - k `min` length ys) with 0 by lia.
    rewrite (drop_S xs x k Hx). simpl. by rewrite <- app_assoc.
Qed.

Section Pyramid.
Context {training : bool}.
Variable m : HighResolutionModule.
Variables cin cs : list nat.
Variables n a b : nat.
Hypothesis Hnb : num_branches m = len cs.
Hypothesis Hnot1 : length cs <> 1.
Hypothesis Hcin : length cin = length cs.
Hypothesis Hbranches :
  forall i c_in, cin !! i = Some c_in ->
    exists l c_out, branches m !! i = Some l /\ cs !! i = Some c_out
                    /\ branch_ok training l c_in c_out.
Hypothesis Hfuse : fuse_layers m = Some (expected_fuse_layers (fusion m) cs).
Hypothesis Ha : 1 <= a.
Hypothesis Hb : 1 <= b.
Hypothesis Hbatch : batch_ok training n.

Lemma branches_forward_pyramid :
  foldM (fun x i => l ← getitem (branches m) i; xi ← getitem x i;
                    y ← Layer_forward training l xi; setitem x i y)
        (pyramid n cin a b) (range (num_branches m))
  = Ok (pyramid n cs a b).
Proof.
  rewrite Hnb, range_len.
  rewrite (branch_loop (branches m) (length cs) (pyramid n cin a b) (pyramid n cs a b)).
  - rewrite take_ge by (rewrite length_pyramid; lia).
    rewrite drop_ge by (rewrite length_pyramid; lia).
    by rewrite app_nil_r.
  - by rewrite !length_pyramid.
  - rewrite length_pyramid. lia.
  - intros i x Hi Hx.
    destruct (lookup_lt_is_Some_2 cin i) as [c_in Hc]; [lia|].
    destruct (Hbranches i c_in Hc) as (l & c_out & Hl & Hco & Hok).
    rewrite (pyramid_lookup _ _ _ _ _ _ Hc) in Hx. injection Hx as <-.
    exists l, [n; c_out; level (length cs) i a; level (length cs) i b].
    split; [done|]. split.
    + by apply pyramid_lookup.
    + rewrite Hcin. apply Hok; [done|by apply level_pos..].
Qed.

(** The fused output of row [i], when the row is fused. *)
Lemma fuse_row_pyramid (i c_i : nat) :
  cs !! i = Some c_i -> fusion m = true \/ i = 0 ->
  fuse_row (Layer_forward training) shape_add m (expected_fuse_layers (fusion m) cs)
    (pyramid n cs a b) i
  = Ok [n; c_i; level (length cs) i a; level (length cs) i b].
Proof.
  intros Hi Hfused. unfold fuse_row.
  assert (Hlt : i < length cs) by by eapply lookup_lt_Some.
  assert (Hentry : forall j c_j, cs !! j = Some c_j -> j <> i ->
            exists row l,
              expected_fuse_layers (fusion m) cs !! i = Some row
              /\ row !! j = Some (Some l)
              /\ Layer_forward training l [n; c_j; level (length cs) j a; level (length cs) j b]
                 = Ok [n; c_i; level (length cs) i a; level (length cs) i b]).
  { intros j c_j Hj Hne.
    assert (j < length cs) by by eapply lookup_lt_Some.
    destruct (expected_fuse_layers_lookup (fusion m) cs i j c_i c_j Hi Hj) as (row & Hrow & He).
    unfold expected_fuse_entry in He.
    assert (negb (fusion m) && negb (i =? 0) = false) as Hf.
    { destruct Hfused as [-> | ->]; [done | by rewrite andb_false_r]. }
    rewrite Hf in He.
    destruct (Nat.ltb_spec i j).
    - eexists row, _. split; [done|]. split; [done|].
      rewrite upsample_path_forward by (done || apply level_pos; done).
      by rewrite !level_up.
    - destruct (Nat.eqb_spec j i); [done|].
      eexists row, _. split; [done|]. split; [done|].
      rewrite downsample_path_forward by (done || lia || apply level_pos; done).
      by rewrite !level_down by lia. }
  assert (Hinit : (if i =? 0 then getitem (pyramid n cs a b) 0
                   else row ← getitem (expected_fuse_layers (fusion m) cs) i;
                        f ← getitem row 0; x0 ← getitem (pyramid n cs a b) 0;
                        call_entry (Layer_forward training) f x0)
                  = Ok [n; c_i; level (length cs) i a; level (length cs) i b]).
  { destruct (Nat.eqb_spec i 0) as [->|Hne].
    - by apply getitem_pyramid.
    - destruct (lookup_lt_is_Some_2 cs 0) as [c_0 H0]; [lia|].
      destruct (Hentry 0 c_0 H0) as (row & l & Hrow & Hl & Hfwd); [lia|].
      rewrite (getitem_fits _ _ _ Hrow), bind_Ok_l, (getitem_fits _ _ _ Hl), bind_Ok_l.
      rewrite (getitem_pyramid n cs a b 0 c_0 H0), bind_Ok_l.
      exact Hfwd. }
  rewrite Hinit, bind_Ok_l.
  match goal with |- context [foldM ?f ?s ?l] =>
    destruct (foldM_invariant
                (fun y => y = [n; c_i; level (length cs) i a; level (length cs) i b])
                f l s) as (y & Hy & ->)
  end.
  - reflexivity.
  - intros y j Hj ->. unfold range_from in Hj. apply elem_of_seq in Hj.
    rewrite Hnb in Hj. unfold len in Hj. rewrite Nat2Z.id in Hj.
    destruct (lookup_lt_is_Some_2 cs j) as [c_j Hcj]; [lia|].
    eexists. split; [|reflexivity].
    destruct (Nat.eqb_spec i j) as [->|Hne].
    + rewrite (getitem_pyramid n cs a b j c_j Hcj), bind_Ok_l.
      assert (c_j = c_i) as -> by congruence. apply shape_add_same.
    + destruct (Hentry j c_j Hcj) as (row & l & Hrow & Hl & Hfwd); [lia|].
      rewrite (getitem_fits _ _ _ Hrow), bind_Ok_l, (getitem_fits _ _ _ Hl), bind_Ok_l.
      rewrite (getitem_pyramid n cs a b j c_j Hcj), bind_Ok_l.
      simpl call_entry. rewrite Hfwd, bind_Ok_l. apply shape_add_same.
  - etransitivity; [apply (f_equal (fun r => r ≫= _)); exact Hy|]. reflexivity.
Qed.

(** [HighResolutionModule.forward] on a pyramid. *)
Lemma HighResolutionModule_forward_pyramid :
  HighResolutionModule_forward (Layer_forward training) shape_add m (pyramid n cin a b)
  = Ok (pyramid n cs a b).
Proof.
  unfold HighResolutionModule_forward.
  destruct (Z.eqb_spec (num_branches m) 1) as [H1|_].
  { rewrite Hnb in H1. unfold len in H1. lia. }
  rewrite branches_forward_pyramid, bind_Ok_l, Hfuse.
  assert (Hlen : length (expected_fuse_layers (fusion m) cs) = length cs).
  { unfold expected_fuse_layers. apply length_imap. }
  rewrite Hlen.
  assert (Hmap : forall f : nat -> res Shape,
            (forall i c_i, cs !! i = Some c_i ->
               f i = Ok [n; c_i; level (length cs) i a; level (length cs) i b]) ->
            mapM f (seq 0 (length cs)) = Ok (pyramid n cs a b)).
  { intros f Hf.
    rewrite (mapM_Ok_map f
               (fun i => [n; default 0 (cs !! i); level (length cs) i a;
                          level (length cs) i b])).
    - f_equal. apply list_eq. intros i. rewrite lookup_map. unfold pyramid.
      rewrite list_lookup_imap.
      destruct (cs !! i) as [c_i|] eqn:Hi.
      + rewrite lookup_seq_lt by by eapply lookup_lt_Some. simpl. by rewrite Hi.
      + rewrite lookup_ge_None_2; [done|]. rewrite length_seq. by apply lookup_ge_None.
    - intros i Hi. apply elem_of_seq in Hi.
      destruct (lookup_lt_is_Some_2 cs i) as [c_i Hc]; [lia|].
      rewrite Hc. simpl. by apply Hf. }
  destruct (fusion m) eqn:Hfus.
  - apply Hmap. intros i c_i Hi. rewrite <- Hfus. apply fuse_row_pyramid; [done|by left].
  - apply Hmap. intros i c_i Hi. destruct (Nat.eqb_spec i 0) as [->|Hne].
    + rewrite <- Hfus. apply fuse_row_pyramid; [done|by right].
    + by apply getitem_pyramid.
Qed.

End Pyramid.

(** ** Residual branches and stages on a pyramid *)

Lemma Layer_forward_BasicBlock {training : bool} (inplanes planes stride : nat)
  (ds : option Layer) (x : Shape) :
  Layer_forward training (ResBlock BasicBlock inplanes planes stride ds) x
  = (out ← conv2d_forward inplanes planes 3 stride 1 x;
     out ← batchnorm2d_forward training planes out;
     out ← conv2d_forward planes planes 3 1 1 out;
     out ← batchnorm2d_forward training planes out;
     residual ← match ds with
                | Some d => Layer_forward training d x
                | None => Ok x
                end;
     shape_iadd out residual).
Proof. reflexivity. Qed.

Lemma Layer_forward_Bottleneck {training : bool} (inplanes planes stride : nat)
  (ds : option Layer) (x : Shape) :
  Layer_forward training (ResBlock Bottleneck inplanes planes stride ds) x
  = (out ← conv2d_forward inplanes planes 1 1 0 x;
     out ← batchnorm2d_forward training planes out;
     out ← conv2d_forward planes planes 3 stride 1 out;
     out ← batchnorm2d_forward training planes out;
     out ← conv2d_forward planes (planes * 4) 1 1 0 out;
     out ← batchnorm2d_forward training (planes * 4) out;
     residual ← match ds with
                | Some d => Layer_forward training d x
                | None => Ok x
                end;
     shape_iadd out residual).
Proof. reflexivity. Qed.

Lemma shape_iadd_same (x : Shape) : shape_iadd x x = Ok x.
Proof.
  unfold shape_iadd. change (broadcast x x) with (shape_add x x).
  rewrite shape_add_same, bind_Ok_l. by destruct (decide (x = x)).
Qed.

Lemma conv_1x1_forward (c_in c_out n h w : nat) :
  1 <= h -> 1 <= w ->
  conv2d_forward c_in c_out 1 1 0 [n; c_in; h; w] = Ok [n; c_out; h; w].
Proof.
  intros Hh Hw. rewrite conv2d_forward_fits by lia.
  by rewrite !(conv_out_same _ 1 0) by lia.
Qed.

Lemma conv_3x3_forward (c_in c_out n h w : nat) :
  1 <= h -> 1 <= w ->
  conv2d_forward c_in c_out 3 1 1 [n; c_in; h; w] = Ok [n; c_out; h; w].
Proof.
  intros Hh Hw. rewrite conv2d_forward_fits by lia.
  by rewrite !(conv_out_same _ 3 1) by lia.
Qed.

(** A residual block of stride 1, with the [downsample] that the
    constructors give it, keeps the size. *)
Lemma ResBlock_branch_ok {training : bool} (block : Block) (inplanes planes : nat)
  (ds : option Layer) :
  (ds = None /\ inplanes = planes * expansion block)
  \/ ds = Some (Sequential [Conv2d inplanes (planes * expansion block) 1 1 0;
                            BatchNorm2d (planes * expansion block)]) ->
  branch_ok training (ResBlock block inplanes planes 1 ds) inplanes (planes * expansion block).
Proof.
  intros Hds n h w Hbatch Hh Hw.
  assert (Hres : forall d,
            ds = Some d ->
            Layer_forward training d [n; inplanes; h; w]
            = Ok [n; planes * expansion block; h; w]).
  { intros d Hd. destruct Hds as [[Hn _] | Hs]; [congruence|].
    assert (d = Sequential [Conv2d inplanes (planes * expansion block) 1 1 0;
                            BatchNorm2d (planes * expansion block)]) as -> by congruence.
    rewrite Layer_forward_Sequential_cons, Layer_forward_Conv2d, conv_1x1_forward by done.
    rewrite bind_Ok_l, Layer_forward_Sequential_cons, Layer_forward_BatchNorm2d.
    by rewrite batchnorm2d_forward_fits. }
  assert (Hnone : ds = None -> inplanes = planes * expansion block).
  { intros Hd. destruct Hds as [[_ Hn] | Hs]; [done | congruence]. }
  destruct block.
  - rewrite Layer_forward_BasicBlock. simpl expansion in *. rewrite Nat.mul_1_r in *.
    rewrite conv_3x3_forward, bind_Ok_l, batchnorm2d_forward_fits, bind_Ok_l by done.
    rewrite conv_3x3_forward, bind_Ok_l, batchnorm2d_forward_fits, bind_Ok_l by done.
    destruct ds as [d|].
    + rewrite (Hres d eq_refl), bind_Ok_l. apply shape_iadd_same.
    + rewrite bind_Ok_l, (Hnone eq_refl). apply shape_iadd_same.
  - rewrite Layer_forward_Bottleneck. simpl expansion in *.
    rewrite conv_1x1_forward, bind_Ok_l, batchnorm2d_forward_fits, bind_Ok_l by done.
    rewrite conv_3x3_forward, bind_Ok_l, batchnorm2d_forward_fits, bind_Ok_l by done.
    rewrite conv_1x1_forward, bind_Ok_l, batchnorm2d_forward_fits, bind_Ok_l by done.
    destruct ds as [d|].
    + rewrite (Hres d eq_refl), bind_Ok_l. apply shape_iadd_same.
    + rewrite bind_Ok_l, (Hnone eq_refl). apply shape_iadd_same.
Qed.

Lemma branch_ok_nil {training : bool} (c : nat) : branch_ok training (Sequential []) c c.
Proof. by intros n h w _ _ _. Qed.

Lemma branch_ok_cons {training : bool} (l : Layer) (ls : list Layer) (c c' c'' : nat) :
  branch_ok training l c c' -> branch_ok training (Sequential ls) c' c'' ->
  branch_ok training (Sequential (l :: ls)) c c''.
Proof.
  intros Hl Hls n h w Hbatch Hh Hw.
  rewrite Layer_forward_Sequential_cons, Hl, bind_Ok_l by done. by apply Hls.
Qed.

Lemma branch_ok_replicate {training : bool} (l : Layer) (k c : nat) :
  branch_ok training l c c -> branch_ok training (Sequential (replicate k l)) c c.
Proof.
  intros Hl. induction k as [|k IH]; [apply branch_ok_nil|].
  simpl. by eapply branch_ok_cons.
Qed.

Lemma basic_module_pyramid {training : bool} (chans : list nat) (fusion : bool) :
  length chans <> 1 -> pyramid_module training (basic_module chans fusion) chans chans.
Proof.
  intros Hlen. unfold pyramid_module.
  split; [reflexivity|]. split; [exact Hlen|]. split; [reflexivity|]. split; [|reflexivity].
  intros i c Hi. simpl. rewrite lookup_map, Hi. simpl.
  eexists _, c. split; [reflexivity|]. split; [done|].
  apply (branch_ok_replicate (ResBlock BasicBlock c c 1 None) 4 c).
  pose proof (ResBlock_branch_ok (training := training) BasicBlock c c None) as Hb.
  simpl expansion in Hb. rewrite Nat.mul_1_r in Hb. apply Hb. by left.
Qed.

Lemma stage_forward_pyramid {training : bool} (modules : list HighResolutionModule)
  (cs : list nat) (n a b : nat) :
  Forall (fun m => pyramid_module training m cs cs) modules -> 1 <= a -> 1 <= b ->
  batch_ok training n ->
  stage_forward training modules (pyramid n cs a b) = Ok (pyramid n cs a b).
Proof.
  intros Hm Ha Hb Hbatch. unfold stage_forward.
  induction Hm as [|m ms (H1 & H2 & H3 & H4 & H5) _ IH]; [done|].
  rewrite foldM_cons.
  rewrite (HighResolutionModule_forward_pyramid m cs cs n a b) by done.
  exact IH.
Qed.

(** ** The network of the example configuration *)

Lemma example_make_position_embedding (w0 h0 : nat) (pos : string) :
  pos ∈ ["none"; "learnable"; "sine"] ->
  _make_position_embedding w0 h0 96 pos = Ok (example_pos_embedding (w0, h0) pos).
Proof.
  intros Hpos. unfold example_pos_embedding.
  assert (pos = "none" \/ pos = "learnable" \/ pos = "sine") as [-> | [-> | ->]].
  { rewrite !elem_of_cons in Hpos. destruct Hpos as [?|[?|[?|Hnil]]]; auto.
    by apply elem_of_nil in Hnil. }
  - reflexivity.
  - reflexivity.
  - unfold _make_position_embedding. simpl negb. cbv iota.
    change (String.eqb "sine" "none") with false.
    change (String.eqb "sine" "learnable") with false. cbv iota zeta.
    change 96 with (4 * 24) at 1.
    rewrite _make_sine_position_embedding_mod4. reflexivity.
Qed.

Lemma example_init {training : bool} (w0 h0 k : nat) (pos : string) :
  pos ∈ ["none"; "learnable"; "sine"] ->
  TransActionH_init training (example_cfg (w0, h0) pos k)
  = Ok (example_network training (w0, h0) pos (example_pos_embedding (w0, h0) pos) k).
Proof.
  intros Hpos. unfold TransActionH_init.
  cbn -[_make_position_embedding _make_stage _make_transition_layer _make_layer Layer_forward].
  rewrite (example_make_position_embedding w0 h0 pos Hpos).
  reflexivity.
Qed.

(** ** Running the example network on image sizes that fit the pyramid *)

Lemma example_layer1_ok {training : bool} :
  branch_ok training (_make_layer 64 Bottleneck 64 4 1).1 64 256.
Proof.
  change (_make_layer 64 Bottleneck 64 4 1).1
    with (Sequential
            (ResBlock Bottleneck 64 64 1
               (Some (Sequential [Conv2d 64 (64 * expansion Bottleneck) 1 1 0;
                                  BatchNorm2d (64 * expansion Bottleneck)]))
             :: replicate 3 (ResBlock Bottleneck (64 * expansion Bottleneck) 64 1 None))).
  eapply branch_ok_cons.
  - apply (ResBlock_branch_ok Bottleneck 64 64). by right.
  - apply branch_ok_replicate.
    apply (ResBlock_branch_ok Bottleneck (64 * expansion Bottleneck) 64 None). by left.
Qed.

Lemma ceil_div_pow2_nonzero (size k m : nat) : ceil_div_pow2 size k = m -> 1 <= m -> 1 <= size.
Proof.
  intros H Hm. destruct size; [|lia]. unfold ceil_div_pow2 in H.
  pose proof (pow2_pos k). rewrite Nat.div_small in H by lia. lia.
Qed.

Lemma conv_out_3_2_1_even (m : nat) : 1 <= m -> conv_out (2 * m) 3 2 1 = m.
Proof.
  intros H. rewrite conv_out_3_2_1 by lia.
  replace (2 * m + 1) with (1 + m * 2) by lia.
  rewrite Nat.div_add by lia. reflexivity.
Qed.

Lemma conv_out_pos (size k s p : nat) : 1 <= conv_out size k s p.
Proof. unfold conv_out. lia. Qed.

(** The stem: two convolutions of stride 2. *)
Lemma example_stem {training : bool} {A} (K : Shape -> res A) (bs h w a b : nat) :
  batch_ok training bs ->
  1 <= a -> 1 <= b -> ceil_div_pow2 h 2 = 4 * a -> ceil_div_pow2 w 2 = 4 * b ->
  (x ← Layer_forward training (Conv2d 3 64 3 2 1) [bs; 3; h; w];
   x ← Layer_forward training (BatchNorm2d 64) x;
   x ← Layer_forward training ReLU x;
   x ← Layer_forward training (Conv2d 64 64 3 2 1) x;
   x ← Layer_forward training (BatchNorm2d 64) x;
   x ← Layer_forward training ReLU x;
   K x)
  = K [bs; 64; 4 * a; 4 * b].
Proof.
  intros Hbatch Ha Hb Hh Hw.
  assert (1 <= h) by (eapply ceil_div_pow2_nonzero; [exact Hh | lia]).
  assert (1 <= w) by (eapply ceil_div_pow2_nonzero; [exact Hw | lia]).
  rewrite Layer_forward_Conv2d, conv2d_forward_fits, bind_Ok_l by lia.
  rewrite Layer_forward_BatchNorm2d, batchnorm2d_forward_fits, bind_Ok_l by done.
  change (Layer_forward training ReLU ?x) with (Ok x). rewrite bind_Ok_l.
  pose proof (conv_out_pos h 3 2 1). pose proof (conv_out_pos w 3 2 1).
  rewrite Layer_forward_Conv2d, conv2d_forward_fits, bind_Ok_l by lia.
  rewrite Layer_forward_BatchNorm2d, batchnorm2d_forward_fits, !bind_Ok_l by done.
  by rewrite !ceil_div_pow2_stem, Hh, Hw by lia.
Qed.

Lemma half_up_even (m : nat) : (2 * m + 1) / 2 = m.
Proof.
  replace (2 * m + 1) with (1 + m * 2) by lia. rewrite Nat.div_add by lia. reflexivity.
Qed.

Lemma conv_bn_relu_forward {training : bool} (c_in c_out n h w : nat) :
  batch_ok training n -> 1 <= h -> 1 <= w ->
  Layer_forward training (Sequential [Conv2d c_in c_out 3 1 1; BatchNorm2d c_out; ReLU])
    [n; c_in; h; w]
  = Ok [n; c_out; h; w].
Proof.
  intros Hbatch Hh Hw.
  rewrite Layer_forward_Sequential_cons, Layer_forward_Conv2d, conv_3x3_forward by done.
  rewrite bind_Ok_l, Layer_forward_Sequential_cons, Layer_forward_BatchNorm2d.
  by rewrite batchnorm2d_forward_fits.
Qed.

(** A transition to a new branch: one convolution of stride 2. *)
Lemma new_branch_forward {training : bool} (c_in c_out n h w : nat) :
  batch_ok training n -> 1 <= h -> 1 <= w ->
  Layer_forward training
    (Sequential [Sequential [Conv2d c_in c_out 3 2 1; BatchNorm2d c_out; ReLU]])
    [n; c_in; 2 * h; 2 * w]
  = Ok [n; c_out; h; w].
Proof.
  intros Hbatch Hh Hw.
  rewrite Layer_forward_Sequential_cons, stride2_block_forward by (done || lia || auto).
  by rewrite !half_up_even.
Qed.

Lemma pyramid_2 (n c0 c1 a b : nat) :
  pyramid n [c0; c1] a b = [[n; c0; 2 * a; 2 * b]; [n; c1; a; b]].
Proof.
  cbv [pyramid level imap compose length Nat.sub].
  change (2 ^ 1) with 2. change (2 ^ 0) with 1.
  by rewrite !Nat.mul_1_l.
Qed.

Lemma pyramid_3 (n c0 c1 c2 a b : nat) :
  pyramid n [c0; c1; c2] a b
  = [[n; c0; 4 * a; 4 * b]; [n; c1; 2 * a; 2 * b]; [n; c2; a; b]].
Proof.
  cbv [pyramid level imap compose length Nat.sub].
  change (2 ^ 2) with 4. change (2 ^ 1) with 2. change (2 ^ 0) with 1.
  by rewrite !Nat.mul_1_l.
Qed.

Lemma example_transition1 {training : bool} (isz : nat * nat) (pos : string)
  (pe : option Shape) (k bs a b : nat) :
  batch_ok training bs -> 1 <= a -> 1 <= b ->
  transition1_forward (example_network training isz pos pe k) [bs; 256; 4 * a; 4 * b]
  = Ok (pyramid bs [48; 96] (2 * a) (2 * b)).
Proof.
  intros Hbatch Ha Hb. unfold transition1_forward.
  cbn [example_network transition1 stage2_cfg].
  change (range (NUM_BRANCHES (STAGE2 (example_cfg isz pos k)))) with [0; 1].
  cbn [mapM getitem lookup list_lookup map option_map mbind res_bind].
  rewrite conv_bn_relu_forward by (done || lia).
  replace (4 * a) with (2 * (2 * a)) by lia. replace (4 * b) with (2 * (2 * b)) by lia.
  rewrite new_branch_forward by (done || lia).
  rewrite pyramid_2.
  replace (2 * (2 * a)) with (4 * a) by lia.
  replace (2 * (2 * b)) with (4 * b) by lia. reflexivity.
Qed.

Lemma example_transition2 {training : bool} (isz : nat * nat) (pos : string)
  (pe : option Shape) (k bs a b : nat) :
  batch_ok training bs -> 1 <= a -> 1 <= b ->
  transition2_forward (example_network training isz pos pe k)
    (pyramid bs [48; 96] (2 * a) (2 * b))
  = Ok (pyramid bs [48; 96; 192] a b).
Proof.
  intros Hbatch Ha Hb. unfold transition2_forward.
  cbn [example_network transition2 stage3_cfg].
  change (range (NUM_BRANCHES (STAGE3 (example_cfg isz pos k)))) with [0; 1; 2].
  rewrite pyramid_2, pyramid_3.
  cbn [mapM getitem getlast last lookup list_lookup map option_map mbind res_bind].
  rewrite new_branch_forward by (done || lia). cbn [mbind res_bind].
  replace (2 * (2 * a)) with (4 * a) by lia.
  replace (2 * (2 * b)) with (4 * b) by lia. reflexivity.
Qed.

(** The three feature maps that leave stage 3. *)
Lemma example_backbone {training : bool} (isz : nat * nat) (pos : string)
  (pe : option Shape) (k bs h w a b : nat) :
  batch_ok training bs ->
  1 <= a -> 1 <= b -> ceil_div_pow2 h 2 = 4 * a -> ceil_div_pow2 w 2 = 4 * b ->
  backbone (example_network training isz pos pe k) [bs; 3; h; w]
  = Ok (pyramid bs [48; 96; 192] a b).
Proof.
  intros Hbatch Ha Hb Hh Hw. unfold backbone.
  cbn [example_network conv1 bn1 conv2 bn2 relu layer1 stage2 stage3].
  rewrite (example_stem _ bs h w a b) by done.
  rewrite example_layer1_ok, bind_Ok_l by (done || lia).
  rewrite example_transition1, bind_Ok_l by done.
  rewrite stage_forward_pyramid, bind_Ok_l;
    [|repeat (constructor; [by apply basic_module_pyramid|]); constructor|lia|lia|done].
  rewrite example_transition2, bind_Ok_l by done.
  apply stage_forward_pyramid; [|done|done|done]. cbn [replicate app].
  repeat (constructor; [by apply basic_module_pyramid|]); constructor.
Qed.

(** ** The heads of the example network *)

Lemma maxpool2d_forward_fits (k s p n c h w : nat) :
  s <> 0 -> p <= k / 2 -> k <= h + 2 * p -> k <= w + 2 * p ->
  maxpool2d_forward k s p [n; c; h; w]
  = Ok [n; c; conv_out h k s p; conv_out w k s p].
Proof.
  intros Hs Hp Hh Hw. unfold maxpool2d_forward.
  destruct (Nat.eqb_spec s 0); [done|].
  destruct (Nat.ltb_spec (k / 2) p); [lia|].
  destruct (Nat.ltb_spec (h + 2 * p) k); [lia|].
  destruct (Nat.ltb_spec (w + 2 * p) k); [lia|]. reflexivity.
Qed.

(** A pooled head ends in [AdaptiveAvgPool2d((1, 1))]. *)
Lemma example_pooled_head_forward {training : bool} (conv : Layer) (c n h w h' w' : nat) :
  batch_ok training n ->
  Layer_forward training conv [n; c; h; w] = Ok [n; 192; h'; w'] -> 1 <= h' -> 1 <= w' ->
  Layer_forward training (example_pooled_head conv) [n; c; h; w] = Ok [n; 192; 1; 1].
Proof.
  intros Hbatch Hconv Hh Hw. unfold example_pooled_head.
  rewrite Layer_forward_Sequential_cons, Hconv, bind_Ok_l.
  rewrite Layer_forward_Sequential_cons, Layer_forward_BatchNorm2d.
  rewrite batchnorm2d_forward_fits, bind_Ok_l by done.
  rewrite Layer_forward_Sequential_cons.
  change (Layer_forward training ReLU ?x) with (Ok x). rewrite bind_Ok_l.
  rewrite Layer_forward_Sequential_cons.
  change (Layer_forward training (MaxPool2d 3 2 1) ?x) with (maxpool2d_forward 3 2 1 x).
  rewrite maxpool2d_forward_fits by (simpl; lia). reflexivity.
Qed.

Lemma example_pooled_head_1x1 {training : bool} (n h w : nat) :
  batch_ok training n -> 1 <= h -> 1 <= w ->
  Layer_forward training (example_pooled_head (Conv2d 96 192 1 1 0)) [n; 96; h; w]
  = Ok [n; 192; 1; 1].
Proof.
  intros Hbatch Hh Hw.
  apply (example_pooled_head_forward _ 96 n h w h w); [done| |done|done].
  rewrite Layer_forward_Conv2d. by apply conv_1x1_forward.
Qed.

Lemma example_pooled_head_3x3 {training : bool} (n h w : nat) :
  batch_ok training n -> 1 <= h -> 1 <= w ->
  Layer_forward training (example_pooled_head (Conv2d 192 192 3 2 1)) [n; 192; h; w]
  = Ok [n; 192; 1; 1].
Proof.
  intros Hbatch Hh Hw.
  apply (example_pooled_head_forward _ 192 n h w (conv_out h 3 2 1) (conv_out w 3 2 1));
    [done| |apply conv_out_pos..].
  rewrite Layer_forward_Conv2d. apply conv2d_forward_fits; lia.
Qed.

(** ** The encoders of the example network *)

Lemma shape_add_pos (L n d : nat) : shape_add [L; n; d] [L; 1; d] = Ok [L; n; d].
Proof.
  unfold shape_add, broadcast. cbn [rev app broadcast_rev mbind res_bind].
  rewrite !Nat.eqb_refl. cbn [mbind res_bind].
  destruct (Nat.eqb_spec n 1) as [->|_]; reflexivity.
Qed.

Lemma example_encoder_layer_forward (L n : nat) (pos : option Shape) :
  pos = None \/ pos = Some [L; 1; 96] ->
  TransformerEncoderLayer_forward shape_add example_encoder_layer [L; n; 96] None None pos
  = Ok (Out [L; n; 96]).
Proof.
  intros Hpos. unfold TransformerEncoderLayer_forward, forward_post.
  cbn [example_encoder_layer normalize_before return_atten_map self_attn linear1 linear2
       dropout dropout1 dropout2 norm1 norm2 activation].
  assert (with_pos_embed shape_add [L; n; 96] pos = Ok [L; n; 96]) as ->.
  { destruct Hpos as [-> | ->]; [reflexivity | apply shape_add_pos]. }
  rewrite bind_Ok_l.
  unfold multihead_attention_forward. rewrite !Nat.eqb_refl.
  cbn [andb mbind res_bind]. rewrite shape_add_same, bind_Ok_l.
  change (layernorm_forward 96 [L; n; 96]) with (Ok [L; n; 96]). rewrite bind_Ok_l.
  change (linear_forward 96 192 [L; n; 96]) with (Ok [L; n; 192]). rewrite bind_Ok_l.
  change (linear_forward 192 96 [L; n; 192]) with (Ok [L; n; 96]). rewrite bind_Ok_l.
  rewrite shape_add_same. reflexivity.
Qed.

Lemma example_encoder_step (L n : nat) (pos : option Shape) (maps : list Shape) :
  pos = None \/ pos = Some [L; 1; 96] ->
  encoder_step shape_add
    (TransformerEncoder_init example_encoder_layer 4 None false false) None None
    ([L; n; 96], maps, pos) example_encoder_layer
  = Ok ([L; n; 96], maps, pos).
Proof.
  intros Hpos. unfold encoder_step.
  rewrite example_encoder_layer_forward by done. reflexivity.
Qed.

Lemma example_encoder_call (L n : nat) (pos : option Shape) :
  pos = None \/ pos = Some [L; 1; 96] ->
  encoder_call shape_add (TransformerEncoder_init example_encoder_layer 4 None false false)
    [L; n; 96] pos
  = Ok [L; n; 96].
Proof.
  intros Hpos. unfold encoder_call, TransformerEncoder_forward.
  change (layers (TransformerEncoder_init example_encoder_layer 4 None false false))
    with [example_encoder_layer; example_encoder_layer; example_encoder_layer;
          example_encoder_layer].
  do 4 (rewrite foldM_cons, example_encoder_step, bind_Ok_l by done).
  reflexivity.
Qed.

(** ** [forward] on the example network *)

Section ExampleForward.
Context {training : bool}.
Variable get_max_preds : Shape -> res (list (list vec) * list (list R)).
Variables (isz : nat * nat) (pos : string) (pe : option Shape) (k : nat).
Variables bs a b : nat.
Hypothesis Ha : 1 <= a.
Hypothesis Hb : 1 <= b.
Hypothesis Hbatch : batch_ok training bs.

Local Abbreviation ops := (shape_ops get_max_preds).
Local Abbreviation net := (example_network training isz pos pe k).
(** The length of the flattened feature map of size 4a x 4b. *)
Local Abbreviation L := (numel [4 * a; 4 * b]).

Lemma example_encoder_input :
  encoder_input ops net (pyramid bs [48; 96; 192] a b)
  = Ok ([L; bs; 96], (bs, 96, 4 * a, 4 * b)).
Proof.
  unfold encoder_input. rewrite pyramid_3.
  cbn [getitem lookup list_lookup mbind res_bind example_network reduce].
  rewrite Layer_forward_Conv2d, conv_1x1_forward, bind_Ok_l by lia.
  reflexivity.
Qed.

Lemma example_unflatten (x : Shape) :
  x = [L; bs; 96] ->
  unflatten ops (bs, 96, 4 * a, 4 * b) x = Ok [bs; 96; 4 * a; 4 * b].
Proof.
  intros ->. unfold unflatten.
  change (permute ops [1; 2; 0] [L; bs; 96]) with (Ok [bs; 96; L]).
  rewrite bind_Ok_l. change (view ops) with shape_view. unfold shape_view.
  assert (numel [bs; 96; 4 * a; 4 * b] = numel [bs; 96; L]) as ->.
  { unfold numel. cbn [foldr]. lia. }
  by rewrite Nat.eqb_refl.
Qed.

Hypothesis Hpe : pe = None \/ pe = Some [L; 1; 96].
Hypothesis Hk : k = 1 \/ k = 3.

Lemma example_pose_head :
  pose_head ops net [L; bs; 96] (bs, 96, 4 * a, 4 * b) = Ok [bs; 17; 4 * a; 4 * b].
Proof.
  unfold pose_head.
  cbn [example_network global_encoder pos_embedding final_layer].
  rewrite example_encoder_call, bind_Ok_l by done.
  rewrite example_unflatten, bind_Ok_l by done.
  rewrite Layer_forward_Conv2d.
  destruct Hk as [-> | ->]; [apply conv_1x1_forward | apply conv_3x3_forward]; lia.
Qed.

Lemma example_transformer_action_head :
  transformer_action_head ops net [L; bs; 96] (bs, 96, 4 * a, 4 * b) = Ok [bs; 40].
Proof.
  unfold transformer_action_head.
  cbn [example_network global_encoder_action pos_embedding action_encoder_branch_part1
       action_encoder_branch_part2].
  rewrite example_encoder_call, bind_Ok_l by done.
  rewrite example_unflatten, bind_Ok_l by done.
  rewrite example_pooled_head_1x1, bind_Ok_l by (done || lia).
  reflexivity.
Qed.

Lemma example_concat_head :
  concat_head ops net (pyramid bs [48; 96; 192] a b) = Ok [bs; 40].
Proof.
  unfold concat_head. rewrite pyramid_3.
  cbn [getitem lookup list_lookup mbind res_bind example_network
       action_hrnet_features_branch_96 action_hrnet_features_branch_192
       action_hrnet_features_branch_concat].
  rewrite example_pooled_head_1x1, bind_Ok_l by (done || lia).
  change (flatten ops 1 [bs; 192; 1; 1]) with (Ok [bs; 192]). rewrite bind_Ok_l.
  rewrite example_pooled_head_3x3, bind_Ok_l by (done || lia).
  change (flatten ops 1 [bs; 192; 1; 1]) with (Ok [bs; 192]). rewrite bind_Ok_l.
  change (cat ops) with shape_cat. unfold shape_cat.
  cbn [getitem lookup list_lookup mbind res_bind].
  destruct (decide _) as [_|Hne]; [|done].
  reflexivity.
Qed.

Lemma example_skeleton (angles : list (list R)) :
  action_skeleton_branch net (from_numpy ops angles) = Ok [length angles; 40].
Proof. reflexivity. Qed.

End ExampleForward.

(** For the example configuration (two and three branches of 48, 96 and 192
    channels, 96-dimensional encoders, 17 joints) with a final convolution of
    kernel 1 or 3: in evaluation mode on every batch, and in training mode
    on every batch of at least two images, when the quarter size of the
    images, rounded up, is a multiple of 4 in both directions and, with a
    position embedding, has the area of the quarter of [IMAGE_SIZE],
    [forward] returns, and the pose heatmap has the shape
    [batch, 17, ceil(height / 4), ceil(width / 4)]; [get_max_preds] is
    assumed to find at least 17 joints per batch element. *)
Theorem example_forward_returns (training : bool)
  (get_max_preds : Shape -> res (list (list vec) * list (list R)))
  (w0 h0 : nat) (pos : string) (k bs h w a b : nat)
  (preds : list (list vec)) (maxvals : list (list R)) :
  training = false \/ 2 <= bs ->
  pos ∈ ["none"; "learnable"; "sine"] ->
  k = 1 \/ k = 3 ->
  1 <= a -> 1 <= b ->
  ceil_div_pow2 h 2 = 4 * a -> ceil_div_pow2 w 2 = 4 * b ->
  pos = "none" \/ (h0 / 4) * (w0 / 4) = (4 * a) * (4 * b) ->
  get_max_preds [bs; 17; 4 * a; 4 * b] = Ok (preds, maxvals) ->
  length preds <= length maxvals ->
  Forall (fun preds_b => 17 <= length preds_b) preds ->
  Forall (fun maxvals_b => 17 <= length maxvals_b) maxvals ->
  model_forward training get_max_preds (example_cfg (w0, h0) pos k) [bs; 3; h; w]
  = Ok ([bs; 17; ceil_div_pow2 h 2; ceil_div_pow2 w 2], [bs; 40]).
Proof.
  intros Hbatch Hpos Hk Ha Hb Hh Hw Hlen Hgmp Hpm Hp Hm.
  unfold model_forward. rewrite example_init, bind_Ok_l by done.
  rewrite Hh, Hw.
  assert (Hpe : example_pos_embedding (w0, h0) pos = None
                \/ example_pos_embedding (w0, h0) pos = Some [numel [4 * a; 4 * b]; 1; 96]).
  { unfold example_pos_embedding. destruct Hlen as [-> | Hlen]; [by left|].
    destruct (String.eqb pos "none"); [by left|]. right.
    cbn [fst snd numel foldr]. rewrite Hlen. do 2 f_equal. lia. }
  destruct (get_pose_vectors_total preds maxvals Hpm Hp Hm) as (angles & Hangles & _).
  apply forward_Ok.
  exists (pyramid bs [48; 96; 192] a b), [numel [4 * a; 4 * b]; bs; 96],
    (bs, 96, 4 * a, 4 * b), angles, [bs; 40], [length angles; 40].
  split; [by apply example_backbone|].
  split; [by apply example_encoder_input|].
  split; [by apply example_pose_head|].
  split.
  { change (get_max_preds [bs; 17; 4 * a; 4 * b]
            ≫= (fun pm => get_pose_vectors pm.1 pm.2) = Ok angles).
    by rewrite Hgmp. }
  split; [by apply example_transformer_action_head|].
  split; [by apply example_concat_head|].
  apply example_skeleton.
Qed.

Lemma example_forward_returns_witness :
  model_forward true example_get_max_preds (example_cfg (192, 256) "sine" 1) [7; 3; 254; 190]
  = Ok ([7; 17; ceil_div_pow2 254 2; ceil_div_pow2 190 2], [7; 40])
  /\ ceil_div_pow2 254 2 = 64 /\ ceil_div_pow2 190 2 = 48.
Proof.
  split; [|split; reflexivity].
  destruct (example_get_max_preds_Ok 7 17 (4 * 16) (4 * 12))
    as (preds & maxvals & Hgmp & _ & Hlen & Hp & Hm); [lia|].
  apply (example_forward_returns true example_get_max_preds 192 256 "sine" 1 7 254 190 16 12
           preds maxvals).
  - right. lia.
  - rewrite !elem_of_cons. auto.
  - by left.
  - lia.
  - lia.
  - reflexivity.
  - reflexivity.
  - right. reflexivity.
  - exact Hgmp.
  - exact Hlen.
  - exact Hp.
  - exact Hm.
Defined.

(** ** A module of stage 3 keeps the resolution pyramid *)

(** The module that the constructor builds for three branches of 48, 96 and
    192 channels maps feature maps of the sizes (4a, 4b), (2a, 2b), (a, b)
    to feature maps of the same sizes, with or without fusion (in
    evaluation mode, and in training mode on at least two images): the
    branches that it adds differ in resolution by the powers of two that its
    upsampling and strided convolutions undo. *)
Theorem HighResolutionModule_forward_keeps_pyramid (training fusion : bool) (n a b : nat)
  (m : HighResolutionModule) :
  HighResolutionModule_init 3 BasicBlock [4; 4; 4] [48; 96; 192] [48; 96; 192] "SUM" true fusion
  = Ok m ->
  training = false \/ 2 <= n ->
  1 <= a -> 1 <= b ->
  HighResolutionModule_forward (Layer_forward training) shape_add m
    [[n; 48; 4 * a; 4 * b]; [n; 96; 2 * a; 2 * b]; [n; 192; a; b]]
  = Ok [[n; 48; 4 * a; 4 * b]; [n; 96; 2 * a; 2 * b]; [n; 192; a; b]].
Proof.
  intros Hinit Hbatch Ha Hb.
  assert (m = basic_module [48; 96; 192] fusion) as ->.
  { destruct fusion; vm_compute in Hinit; by injection Hinit as <-. }
  rewrite <- pyramid_3.
  destruct (basic_module_pyramid (training := training) [48; 96; 192] fusion)
    as (H1 & H2 & H3 & H4 & H5);
    [simpl; lia|].
  by apply HighResolutionModule_forward_pyramid.
Qed.

Lemma HighResolutionModule_forward_keeps_pyramid_witness :
  exists m,
    HighResolutionModule_init 3 BasicBlock [4; 4; 4] [48; 96; 192] [48; 96; 192] "SUM" true false
    = Ok m
    /\ HighResolutionModule_forward (Layer_forward true) shape_add m
         [[2; 48; 4 * 16; 4 * 12]; [2; 96; 2 * 16; 2 * 12]; [2; 192; 16; 12]]
       = Ok [[2; 48; 4 * 16; 4 * 12]; [2; 96; 2 * 16; 2 * 12]; [2; 192; 16; 12]].
Proof.
  destruct (HighResolutionModule_init 3 BasicBlock [4; 4; 4] [48; 96; 192] [48; 96; 192]
              "SUM" true false) as [m|e] eqn:Hinit; [|by vm_compute in Hinit].
  exists m. split; [reflexivity|].
  apply (HighResolutionModule_forward_keeps_pyramid true false 2 16 12 m Hinit);
    [right|..]; lia.
Defined.

(** ** The shape of the cosines that [get_pose_vectors] returns *)

(** For [preds] of shape (bs, 17, 2) and [maxvals] of shape (bs, 17, 1),
    [get_pose_vectors] returns an array of shape (bs, 3003). *)
Theorem get_pose_vectors_shape (preds : list (list vec)) (maxvals : list (list R)) :
  length preds = length maxvals ->
  Forall (fun preds_b => length preds_b = 17) preds ->
  Forall (fun maxvals_b => length maxvals_b = 17) maxvals ->
  exists angles,
    get_pose_vectors preds maxvals = Ok angles
    /\ length angles = length preds
    /\ Forall (fun angles_b => length angles_b = 3003) angles.
Proof.
  intros Hlen Hp Hm. apply get_pose_vectors_total.
  - lia.
  - eapply Forall_impl; [exact Hp|]. intros ? ->. lia.
  - eapply Forall_impl; [exact Hm|]. intros ? ->. lia.
Qed.

Lemma get_pose_vectors_shape_witness :
  exists angles,
    get_pose_vectors [bug_preds] [bug_maxvals] = Ok angles
    /\ length angles = 1
    /\ Forall (fun angles_b => length angles_b = 3003) angles.
Proof.
  apply (get_pose_vectors_shape [bug_preds] [bug_maxvals]).
  - reflexivity.
  - repeat constructor.
  - repeat constructor.
Defined.

(** ** What [forward] requires of the configuration *)

(** What a successful call of [TransActionH.__init__] has built. *)
Lemma TransActionH_init_built {training : bool} (cfg : Cfg) (model : TransActionH Shape) :
  TransActionH_init training cfg = Ok model ->
  exists chans2 chans3 tl1 ms2 pre2 tl2 ms3 pre3 c0 pe layer layer_action,
    stage_channels (STAGE2 cfg) = Ok chans2
    /\ stage_channels (STAGE3 cfg) = Ok chans3
    /\ _make_transition_layer [256] chans2 = Ok tl1
    /\ _make_stage (STAGE2 cfg) chans2 true true = Ok (ms2, pre2)
    /\ _make_transition_layer pre2 chans3 = Ok tl2
    /\ _make_stage (STAGE3 cfg) chans3 true false = Ok (ms3, pre3)
    /\ getitem pre3 0 = Ok c0
    /\ _make_position_embedding (IMAGE_SIZE cfg).1 (IMAGE_SIZE cfg).2 (DIM_MODEL cfg)
         (POS_EMBEDDING cfg) = Ok pe
    /\ TransformerEncoderLayer_init (DIM_MODEL cfg) (N_HEAD cfg) (DIM_FEEDFORWARD cfg)
         false false = Ok layer
    /\ TransformerEncoderLayer_init (DIM_MODEL_ACTION cfg) (N_HEAD_ACTION cfg)
         (DIM_FEEDFORWARD_ACTION cfg) false false = Ok layer_action
    /\ model
       = {| a1 := LOSS_A1 cfg;
            a2 := LOSS_A2 cfg;
            a3 := LOSS_A3 cfg;
            conv1 := Layer_forward training (Conv2d 3 64 3 2 1);
            bn1 := Layer_forward training (BatchNorm2d 64);
            conv2 := Layer_forward training (Conv2d 64 64 3 2 1);
            bn2 := Layer_forward training (BatchNorm2d 64);
            relu := Layer_forward training ReLU;
            layer1 := Layer_forward training (_make_layer 64 Bottleneck 64 4 1).1;
            stage2_cfg := STAGE2 cfg;
            transition1 := map (option_map (Layer_forward training)) tl1;
            stage2 := stage_forward training ms2;
            stage3_cfg := STAGE3 cfg;
            transition2 := map (option_map (Layer_forward training)) tl2;
            stage3 := stage_forward training ms3;
            reduce := Layer_forward training (Conv2d c0 (DIM_MODEL cfg) 1 1 0);
            pos_embedding := pe;
            global_encoder :=
              encoder_call shape_add
                (TransformerEncoder_init layer (ENCODER_LAYERS cfg) None false false);
            global_encoder_action :=
              encoder_call shape_add
                (TransformerEncoder_init layer_action (ENCODER_LAYERS_ACTION cfg) None
                   false false);
            final_layer :=
              Layer_forward training
                (Conv2d (DIM_MODEL cfg) (NUM_JOINTS cfg) (FINAL_CONV_KERNEL cfg) 1
                        (if FINAL_CONV_KERNEL cfg =? 3 then 1 else 0));
            action_encoder_branch_part1 :=
              Layer_forward training
                (Sequential [Conv2d (DIM_MODEL cfg) (DIM_MODEL cfg * 2) 1 1 0; BatchNorm2d 192;
                             ReLU; MaxPool2d 3 2 1; AdaptiveAvgPool2d 1 1]);
            action_encoder_branch_part2 :=
              Layer_forward training
                (Sequential [Dropout; Linear (DIM_MODEL cfg * 2) (NUM_CLASSES cfg)]);
            action_hrnet_features_branch_96 :=
              Layer_forward training
                (Sequential [Conv2d 96 192 1 1 0; BatchNorm2d 192; ReLU; MaxPool2d 3 2 1;
                             AdaptiveAvgPool2d 1 1]);
            action_hrnet_features_branch_192 :=
              Layer_forward training
                (Sequential [Conv2d 192 192 3 2 1; BatchNorm2d 192; ReLU; MaxPool2d 3 2 1;
                             AdaptiveAvgPool2d 1 1]);
            action_hrnet_features_branch_concat :=
              Layer_forward training
                (Sequential [Linear (DIM_MODEL cfg * 4) 200; Dropout;
                             Linear 200 (NUM_CLASSES cfg)]);
            action_skeleton_branch :=
              Layer_forward training (Sequential [Linear 3003 (NUM_CLASSES cfg)]);
            pretrained_layers := PRETRAINED_LAYERS cfg |}.
Proof.
  unfold TransActionH_init, stage_channels. intros H.
  destruct (_make_layer 64 Bottleneck 64 4 1) as [l1 inpl] eqn:Hl1.
  apply bind_Ok in H as (block2 & Hb2 & H).
  apply bind_Ok in H as (tl1 & Htl1 & H).
  apply bind_Ok in H as ([ms2 pre2] & Hst2 & H).
  apply bind_Ok in H as (block3 & Hb3 & H).
  apply bind_Ok in H as (tl2 & Htl2 & H).
  apply bind_Ok in H as ([ms3 pre3] & Hst3 & H).
  destruct (IMAGE_SIZE cfg) as [w h].
  apply bind_Ok in H as (c0 & Hc0 & H).
  apply bind_Ok in H as (pos & Hpos & H).
  apply bind_Ok in H as (enc & Henc & H).
  apply bind_Ok in H as (enc_action & Henc_action & H).
  injection H as <-.
  rewrite Hb2, Hb3. cbn [mbind res_bind fst snd].
  eexists _, _, tl1, ms2, pre2, tl2, ms3, pre3, c0, pos, enc, enc_action.
  repeat (split; [first [reflexivity | eassumption]|]). reflexivity.
Qed.

(** The heads that the constructor builds around the encoders. *)
Lemma TransActionH_init_heads {training : bool} (cfg : Cfg) (model : TransActionH Shape) :
  TransActionH_init training cfg = Ok model ->
  exists c0 layer_action,
    reduce model = Layer_forward training (Conv2d c0 (DIM_MODEL cfg) 1 1 0)
    /\ TransformerEncoderLayer_init (DIM_MODEL_ACTION cfg) (N_HEAD_ACTION cfg)
         (DIM_FEEDFORWARD_ACTION cfg) false false = Ok layer_action
    /\ global_encoder_action model
       = encoder_call shape_add
           (TransformerEncoder_init layer_action (ENCODER_LAYERS_ACTION cfg) None false false)
    /\ action_encoder_branch_part1 model
       = Layer_forward training
           (Sequential [Conv2d (DIM_MODEL cfg) (DIM_MODEL cfg * 2) 1 1 0;
                        BatchNorm2d 192; ReLU; MaxPool2d 3 2 1; AdaptiveAvgPool2d 1 1])
    /\ action_hrnet_features_branch_96 model
       = Layer_forward training
           (Sequential [Conv2d 96 192 1 1 0; BatchNorm2d 192; ReLU;
                        MaxPool2d 3 2 1; AdaptiveAvgPool2d 1 1])
    /\ action_hrnet_features_branch_192 model
       = Layer_forward training
           (Sequential [Conv2d 192 192 3 2 1; BatchNorm2d 192; ReLU;
                        MaxPool2d 3 2 1; AdaptiveAvgPool2d 1 1]).
Proof.
  intros Hinit.
  destruct (TransActionH_init_built cfg model Hinit)
    as (? & ? & ? & ? & ? & ? & ? & ? & c0 & ? & ? & layer_action
        & _ & _ & _ & _ & _ & _ & _ & _ & _ & Hlayer_action & ->).
  exists c0, layer_action. repeat split; done.
Qed.

Lemma multihead_attention_forward_Ok (embed_dim : nat) (q k v : Shape) (r : Shape * Shape) :
  multihead_attention_forward embed_dim q k v None None = Ok r ->
  exists sv nv, v = [sv; nv; embed_dim].
Proof.
  unfold multihead_attention_forward.
  destruct q as [|lq [|nq [|eq [|]]]]; try discriminate.
  destruct k as [|sk [|nk [|ek [|]]]]; try discriminate.
  destruct v as [|sv [|nv [|ev [|]]]]; try discriminate.
  destruct (Nat.eqb_spec ev embed_dim) as [->|]; [eauto|].
  rewrite !andb_false_r. simpl. rewrite ?andb_false_r. discriminate.
Qed.

Lemma TransformerEncoderLayer_init_Ok (d_model nhead dim_feedforward : nat)
  (nb ram : bool) (layer : TransformerEncoderLayer Shape) :
  TransformerEncoderLayer_init d_model nhead dim_feedforward nb ram = Ok layer ->
  nhead <> 0 /\ d_model mod nhead = 0
  /\ layer = {| self_attn := multihead_attention_forward d_model;
                linear1 := linear_forward d_model dim_feedforward;
                dropout := Ok;
                linear2 := linear_forward dim_feedforward d_model;
                norm1 := layernorm_forward d_model;
                norm2 := layernorm_forward d_model;
                dropout1 := Ok;
                dropout2 := Ok;
                activation := Ok;
                normalize_before := nb;
                return_atten_map := ram |}.
Proof.
  unfold TransformerEncoderLayer_init.
  destruct (Nat.eqb_spec d_model 0); [discriminate|].
  destruct (Nat.eqb_spec nhead 0); [discriminate|]. cbn [orb].
  destruct (Nat.eqb_spec (d_model mod nhead) 0); [|discriminate].
  by intros [= <-].
Qed.

(** The first layer of an encoder receives the input of the encoder as the
    value of its self-attention. *)
Lemma encoder_call_first_layer (d nhead ff num_layers : nat)
  (layer : TransformerEncoderLayer Shape) (src r : Shape) (pos : option Shape) :
  TransformerEncoderLayer_init d nhead ff false false = Ok layer ->
  1 <= num_layers ->
  encoder_call shape_add (TransformerEncoder_init layer num_layers None false false) src pos
  = Ok r ->
  exists sv nv, src = [sv; nv; d].
Proof.
  intros Hinit Hn Hcall. apply TransformerEncoderLayer_init_Ok in Hinit as (_ & _ & ->).
  unfold encoder_call, TransformerEncoder_forward in Hcall.
  apply bind_Ok in Hcall as (st & Hst & _).
  apply bind_Ok in Hst as (st' & Hloop & _).
  destruct num_layers as [|k]; [lia|].
  cbn [TransformerEncoder_init layers _get_clones replicate] in Hloop.
  rewrite foldM_cons in Hloop. apply bind_Ok in Hloop as (st1 & Hstep & _).
  unfold encoder_step in Hstep. apply bind_Ok in Hstep as (out & Hlayer & _).
  unfold TransformerEncoderLayer_forward in Hlayer. cbn [normalize_before] in Hlayer.
  unfold forward_post in Hlayer.
  apply bind_Ok in Hlayer as (q & _ & Hlayer).
  apply bind_Ok in Hlayer as (att & Hatt & _).
  cbn [self_attn] in Hatt.
  by apply multihead_attention_forward_Ok in Hatt.
Qed.

(** The channel counts that the heads hard-code: [forward] returns only for
    a model dimension of 96 (the [BatchNorm2d(192)] that follows the
    convolution to [d_model * 2] channels), only when the second and third
    feature maps of stage 3 have 96 and 192 channels, and, when the action
    encoder has a layer, only for an action model dimension of 96.  This
    holds in training mode and in evaluation mode. *)
Theorem TransActionH_forward_requires (training : bool)
  (get_max_preds : Shape -> res (list (list vec) * list (list R)))
  (cfg : Cfg) (model : TransActionH Shape) (x y c : Shape) :
  TransActionH_init training cfg = Ok model ->
  TransActionH_forward (shape_ops get_max_preds) model x = Ok (y, c) ->
  DIM_MODEL cfg = 96
  /\ (1 <= ENCODER_LAYERS_ACTION cfg -> DIM_MODEL_ACTION cfg = 96)
  /\ exists y_list n1 h1 w1 n2 h2 w2,
       backbone model x = Ok y_list
       /\ y_list !! 1 = Some [n1; 96; h1; w1]
       /\ y_list !! 2 = Some [n2; 192; h2; w2].
Proof.
  intros Hinit Hfwd.
  destruct (TransActionH_init_heads cfg model Hinit)
    as (c0 & layer_action & Hreduce & Hlayer & Henc_action & Hpart1 & H96 & H192).
  apply forward_Ok in Hfwd
    as (y_list & flat & s & angles & r & q & Hback & Henc & _ & _ & Hact & Hcat & _).
  (* the projected feature map *)
  unfold encoder_input in Henc. rewrite Hreduce in Henc.
  apply bind_Ok in Henc as (y0 & _ & Henc).
  apply bind_Ok in Henc as (x0 & Hx0 & Henc). rewrite Layer_forward_Conv2d in Hx0.
  apply conv2d_forward_Ok in Hx0 as (n & h & w & -> & _ & _ & _ & ->).
  apply bind_Ok in Henc as (s' & Hs' & Henc). simpl in Hs'. injection Hs' as <-.
  apply bind_Ok in Henc as (f1 & Hf1 & Henc).
  apply bind_Ok in Henc as (f2 & Hf2 & Henc). injection Henc as <- <-.
  cbn in Hf1. injection Hf1 as <-. cbn in Hf2. injection Hf2 as <-.
  (* the transformer action head *)
  unfold transformer_action_head, unflatten in Hact. rewrite Henc_action, Hpart1 in Hact.
  apply bind_Ok in Hact as (r1 & Hr1 & Hact).
  apply bind_Ok in Hact as (r2 & Hr2 & Hact).
  apply bind_Ok in Hr2 as (r2' & _ & Hr2). cbn in Hr2. unfold shape_view in Hr2.
  destruct (_ =? _) in Hr2; [|discriminate]. injection Hr2 as <-.
  apply bind_Ok in Hact as (r3 & Hr3 & _).
  rewrite Layer_forward_Sequential_cons in Hr3.
  apply bind_Ok in Hr3 as (o1 & Ho1 & Hr3). rewrite Layer_forward_Conv2d in Ho1.
  apply conv2d_forward_Ok in Ho1 as (? & ? & ? & _ & _ & _ & _ & ->).
  rewrite Layer_forward_Sequential_cons in Hr3.
  apply bind_Ok in Hr3 as (o2 & Ho2 & _). rewrite Layer_forward_BatchNorm2d in Ho2.
  apply batchnorm2d_forward_Ok in Ho2 as [_ (? & ? & ? & [= _ Hd _ _])].
  assert (Hdim : DIM_MODEL cfg = 96) by lia.
  split; [exact Hdim|]. split.
  { intros Hlayers.
    destruct (encoder_call_first_layer _ _ _ _ _ _ _ _ Hlayer Hlayers Hr1)
      as (sv & nv & [= _ _ Heq]). lia. }
  (* the pooled branches *)
  unfold concat_head in Hcat. rewrite H96, H192 in Hcat.
  apply bind_Ok in Hcat as (y1 & Hy1 & Hcat). apply getitem_Ok in Hy1.
  apply bind_Ok in Hcat as (z & Hz & Hcat).
  rewrite Layer_forward_Sequential_cons in Hz.
  apply bind_Ok in Hz as (z1 & Hz1 & _). rewrite Layer_forward_Conv2d in Hz1.
  apply conv2d_forward_Ok in Hz1 as (n1 & h1 & w1 & -> & _).
  apply bind_Ok in Hcat as (z' & _ & Hcat).
  apply bind_Ok in Hcat as (y2 & Hy2 & Hcat). apply getitem_Ok in Hy2.
  apply bind_Ok in Hcat as (t & Ht & _).
  rewrite Layer_forward_Sequential_cons in Ht.
  apply bind_Ok in Ht as (t1 & Ht1 & _). rewrite Layer_forward_Conv2d in Ht1.
  apply conv2d_forward_Ok in Ht1 as (n2 & h2 & w2 & -> & _).
  exists y_list, n1, h1, w1, n2, h2, w2. done.
Qed.

Lemma TransActionH_forward_requires_witness :
  DIM_MODEL (example_cfg (192, 256) "sine" 1) = 96
  /\ (1 <= ENCODER_LAYERS_ACTION (example_cfg (192, 256) "sine" 1) ->
      DIM_MODEL_ACTION (example_cfg (192, 256) "sine" 1) = 96)
  /\ exists y_list n1 h1 w1 n2 h2 w2,
       backbone (example_network true (192, 256) "sine"
                   (example_pos_embedding (192, 256) "sine") 1) [2; 3; 256; 192]
       = Ok y_list
       /\ y_list !! 1 = Some [n1; 96; h1; w1]
       /\ y_list !! 2 = Some [n2; 192; h2; w2].
Proof.
  pose proof (model_forward_example (training := true)) as Hfwd.
  unfold model_forward in Hfwd.
  assert (Hinit : TransActionH_init true (example_cfg (192, 256) "sine" 1)
                  = Ok (example_network true (192, 256) "sine"
                          (example_pos_embedding (192, 256) "sine") 1)).
  { apply example_init. rewrite !elem_of_cons. auto. }
  rewrite Hinit, bind_Ok_l in Hfwd.
  exact (TransActionH_forward_requires true example_get_max_preds _ _ _ _ _ Hinit Hfwd).
Defined.

(** ** [HighResolutionModule]: from the constructor to the forward pass *)

Lemma map_const_seq {A} (x : A) (a k : nat) : map (fun _ => x) (seq a k) = replicate k x.
Proof. revert a. induction k as [|k IH]; intros a; simpl; [done|]. by rewrite IH. Qed.

(** A loop over [range]: an invariant indexed by the loop counter. *)
Lemma foldM_seq_invariant {S} (P : nat -> S -> Prop) (f : S -> nat -> res S)
  (k n : nat) (s : S) :
  P k s ->
  (forall i s, k <= i < k + n -> P i s -> exists s', f s i = Ok s' /\ P (Datatypes.S i) s') ->
  exists s', foldM f s (seq k n) = Ok s' /\ P (k + n) s'.
Proof.
  revert k s. induction n as [|n IH]; intros k s Hs Hstep.
  - exists s. rewrite Nat.add_0_r. done.
  - simpl. destruct (Hstep k s) as (s1 & -> & Hs1); [lia | done |]. simpl.
    destruct (IH (Datatypes.S k) s1) as (s' & Hs' & HP); [done | |].
    + intros i s2 Hi. apply Hstep. lia.
    + exists s'. split; [done|]. by replace (k + Datatypes.S n) with (Datatypes.S k + n) by lia.
Qed.

(** A branch built by [_make_one_branch] with stride 1 keeps the size of its
    input and changes the channels to [num_channels[i] * block.expansion]. *)
Lemma _make_one_branch_spec {training : bool} (inch : list nat) (i : nat) (block : Block)
  (num_blocks num_channels : list nat) (c_in ch k : nat) :
  inch !! i = Some c_in -> num_channels !! i = Some ch -> num_blocks !! i = Some k ->
  exists l, _make_one_branch inch i block num_blocks num_channels 1
            = Ok (l, <[i := ch * expansion block]> inch)
            /\ branch_ok training l c_in (ch * expansion block).
Proof.
  intros Hi Hc Hk. unfold _make_one_branch.
  rewrite (getitem_fits _ _ _ Hi), bind_Ok_l, (getitem_fits _ _ _ Hc), bind_Ok_l.
  rewrite setitem_fits by by eapply lookup_lt_Some.
  rewrite bind_Ok_l, (getitem_fits _ _ _ Hk), bind_Ok_l.
  eexists. split; [reflexivity|].
  rewrite map_const_seq.
  eapply branch_ok_cons.
  - apply ResBlock_branch_ok. simpl.
    destruct (Nat.eqb_spec c_in (ch * expansion block)); simpl; auto.
  - apply branch_ok_replicate. apply ResBlock_branch_ok. by left.
Qed.

Lemma _make_branches_spec {training : bool} (inch : list nat) (nb : Z) (block : Block)
  (num_blocks num_channels : list nat) :
  nb = len inch -> nb = len num_blocks -> nb = len num_channels ->
  exists bs,
    _make_branches inch nb block num_blocks num_channels
    = Ok (bs, map (fun c => c * expansion block) num_channels)
    /\ forall i c_in, inch !! i = Some c_in ->
         exists l c_out, bs !! i = Some l
                         /\ map (fun c => c * expansion block) num_channels !! i = Some c_out
                         /\ branch_ok training l c_in c_out.
Proof.
  intros Hi Hb Hc. unfold _make_branches.
  set (outs := map (fun c => c * expansion block) num_channels).
  assert (Hlen : length outs = length inch).
  { unfold outs. rewrite length_map. unfold len in *. lia. }
  destruct (foldM_seq_invariant
              (fun k (st : list Layer * list nat) =>
                 length st.1 = k /\ length st.2 = length inch
                 /\ (forall j, st.2 !! j = if j <? k then outs !! j else inch !! j)
                 /\ (forall j c_in, j < k -> inch !! j = Some c_in ->
                       exists l c_out, st.1 !! j = Some l /\ outs !! j = Some c_out
                                       /\ branch_ok training l c_in c_out))
              (fun '(branches, inch) i =>
                 '(b, inch) ← _make_one_branch inch i block num_blocks num_channels 1;
                 Ok (branches ++ [b], inch))
              0 (Z.to_nat nb) ([], inch)) as ([bs inch'] & H & Hbs & Hl' & Hinch & Hok).
  - split; [done|]. split; [done|]. split; [done|]. intros; lia.
  - intros i [bs0 inch0] Hin (Hbs0 & Hl0 & Hinch0 & Hok0). simpl in *.
    unfold len in *.
    destruct (lookup_lt_is_Some_2 inch i) as [c_in Hci]; [lia|].
    destruct (lookup_lt_is_Some_2 num_channels i) as [ch Hch]; [lia|].
    destruct (lookup_lt_is_Some_2 num_blocks i) as [k Hk]; [lia|].
    assert (Hci0 : inch0 !! i = Some c_in).
    { rewrite Hinch0. destruct (Nat.ltb_spec i i); [lia | done]. }
    destruct (_make_one_branch_spec (training := training) inch0 i block num_blocks
                num_channels c_in ch k Hci0 Hch Hk)
      as (l & -> & Hl).
    rewrite bind_Ok_l. eexists. split; [reflexivity|]. simpl.
    assert (Hout : outs !! i = Some (ch * expansion block)).
    { unfold outs. by rewrite lookup_map, Hch. }
    split; [rewrite length_app; simpl; lia|].
    split; [by rewrite length_insert|]. split.
    + intros j. destruct (decide (j = i)) as [->|Hne].
      * rewrite list_lookup_insert_eq by lia.
        destruct (Nat.ltb_spec i (S i)); [done | lia].
      * rewrite list_lookup_insert_ne by done. rewrite Hinch0.
        destruct (Nat.ltb_spec j i), (Nat.ltb_spec j (S i)); done || lia.
    + intros j c_j Hj Hcj. destruct (decide (j = i)) as [->|Hne].
      * exists l, (ch * expansion block).
        rewrite lookup_app_r by lia. rewrite Hbs0, Nat.sub_diag.
        assert (c_j = c_in) as -> by congruence. done.
      * destruct (Hok0 j c_j) as (l' & c' & ? & ? & ?); [lia | done |].
        exists l', c'. rewrite lookup_app_l by lia. done.
  - simpl in *. unfold range.
    assert (inch' = outs) as ->.
    { apply list_eq. intros j. rewrite Hinch.
      destruct (Nat.ltb_spec j (Z.to_nat nb)); [done|].
      rewrite !lookup_ge_None_2; [done | unfold len in *; lia | unfold len in *; lia]. }
    exists bs. split; [exact H|].
    intros i c_in Hci. apply (Hok i c_in); [|done].
    apply lookup_lt_Some in Hci. unfold len in *. lia.
Qed.

(** The fuse layers that [_make_fuse_layers] builds, as a whole: the first
    row alone without [multi_scale_output]. *)
Lemma _make_fuse_layers_expected (nb : Z) (chans : list nat) (mso fusion : bool) :
  nb = len chans -> nb <> 1%Z -> (mso = false -> nb <> 0%Z) ->
  _make_fuse_layers nb chans mso fusion
  = Ok (Some (take (if mso then length chans else 1) (expected_fuse_layers fusion chans))).
Proof.
  intros Hn H1 H0. unfold _make_fuse_layers.
  destruct (Z.eqb_spec nb 1) as [|_]; [done|].
  set (k := if mso then length chans else 1).
  assert (Hk : k <= length chans).
  { unfold k. destruct mso; [lia|]. specialize (H0 eq_refl). unfold len in *. lia. }
  assert (Hrange : range (if mso then nb else 1) = seq 0 k).
  { unfold k, range. destruct mso; [|done]. rewrite Hn. unfold len. by rewrite Nat2Z.id. }
  rewrite Hrange, Hn, range_len.
  rewrite (mapM_Ok_map _
             (fun i => map (fun j => expected_fuse_entry true (default 0 (chans !! i))
                                       (default 0 (chans !! j)) i j)
                           (seq 0 (length chans)))).
  2:{ intros i Hi. apply elem_of_seq in Hi.
      destruct (lookup_lt_is_Some_2 chans i) as [c_i Hci]; [lia|]. rewrite Hci. simpl.
      apply mapM_Ok_map. intros j Hj. apply elem_of_seq in Hj.
      destruct (lookup_lt_is_Some_2 chans j) as [c_j Hcj]; [lia|]. rewrite Hcj. simpl.
      by apply make_fuse_entry_spec. }
  rewrite bind_Ok_l. do 2 f_equal.
  assert (Hrows : forall fus i,
            i < k ->
            map (fun j => expected_fuse_entry fus (default 0 (chans !! i))
                            (default 0 (chans !! j)) i j) (seq 0 (length chans))
            = default [] (expected_fuse_layers fus chans !! i)).
  { intros fus i Hi.
    destruct (lookup_lt_is_Some_2 chans i) as [c_i Hci]; [lia|].
    unfold expected_fuse_layers. rewrite list_lookup_imap, Hci. simpl.
    apply list_eq. intros j. rewrite lookup_map, list_lookup_imap.
    destruct (chans !! j) as [c_j|] eqn:Hcj.
    - rewrite lookup_seq_lt by by eapply lookup_lt_Some. simpl. by rewrite Hcj.
    - rewrite lookup_ge_None_2; [done|]. rewrite length_seq. by apply lookup_ge_None. }
  assert (Hlen : length (expected_fuse_layers fusion chans) = length chans).
  { unfold expected_fuse_layers. apply length_imap. }
  apply list_eq. intros i.
  destruct (decide (i < k)) as [Hi|Hi].
  2:{ rewrite (lookup_ge_None_2 (take _ _)) by (rewrite length_take; lia).
      apply lookup_ge_None_2.
      destruct fusion; simpl; unfold clear_unfused;
        rewrite ?length_imap, length_map, length_seq; lia. }
  rewrite lookup_take_lt by done.
  destruct (lookup_lt_is_Some_2 (expected_fuse_layers fusion chans) i) as [row Hrow]; [lia|].
  rewrite Hrow.
  destruct fusion; simpl.
  - rewrite lookup_map, lookup_seq_lt by done. simpl.
    rewrite (Hrows true) by done. by rewrite Hrow.
  - unfold clear_unfused. rewrite list_lookup_imap, lookup_map, lookup_seq_lt by done.
    simpl. f_equal. rewrite (Hrows true) by done.
    destruct (lookup_lt_is_Some_2 chans i) as [c_i Hci]; [lia|].
    unfold expected_fuse_layers in *. rewrite list_lookup_imap, Hci in *. simpl in *.
    injection Hrow as <-.
    destruct (Nat.eqb_spec i 0) as [->|Hne].
    + done.
    + apply list_eq. intros j. rewrite lookup_map, !list_lookup_imap.
      destruct (chans !! j); simpl; [|done].
      unfold expected_fuse_entry. simpl.
      destruct (Nat.eqb_spec i 0); [lia | done].
Qed.

Lemma fuse_row_ext {T} (apply : Layer -> T -> res T) (add : T -> T -> res T)
  (m : HighResolutionModule) (fl fl' : list (list (option Layer))) (x : list T) (i : nat) :
  fl !! i = fl' !! i -> fuse_row apply add m fl x i = fuse_row apply add m fl' x i.
Proof. intros H. unfold fuse_row, getitem. by rewrite H. Qed.

(** [forward] on a pyramid, for a module that holds the first [k] rows of
    the fuse layers. *)
Lemma HighResolutionModule_forward_rows {training : bool} (m : HighResolutionModule)
  (cin cs : list nat) (n a b k : nat) :
  num_branches m = len cs -> length cs <> 1 -> length cin = length cs ->
  (forall i c_in, cin !! i = Some c_in ->
     exists l c_out, branches m !! i = Some l /\ cs !! i = Some c_out
                     /\ branch_ok training l c_in c_out) ->
  fuse_layers m = Some (take k (expected_fuse_layers (fusion m) cs)) ->
  1 <= a -> 1 <= b -> batch_ok training n ->
  HighResolutionModule_forward (Layer_forward training) shape_add m (pyramid n cin a b)
  = Ok (take k (pyramid n cs a b)).
Proof.
  intros Hnb Hnot1 Hcin Hbranches Hfuse Ha Hb Hbatch.
  unfold HighResolutionModule_forward.
  destruct (Z.eqb_spec (num_branches m) 1) as [H1|_].
  { rewrite Hnb in H1. unfold len in H1. lia. }
  rewrite (branches_forward_pyramid m cin cs n a b) by done.
  rewrite bind_Ok_l, Hfuse.
  assert (Hlen : length (expected_fuse_layers (fusion m) cs) = length cs).
  { unfold expected_fuse_layers. apply length_imap. }
  rewrite length_take, Hlen.
  assert (Hmap : forall f : nat -> res Shape,
            (forall i c_i, i < k -> cs !! i = Some c_i ->
               f i = Ok [n; c_i; level (length cs) i a; level (length cs) i b]) ->
            mapM f (seq 0 (k `min` length cs)) = Ok (take k (pyramid n cs a b))).
  { intros f Hf.
    rewrite (mapM_Ok_map f
               (fun i => [n; default 0 (cs !! i); level (length cs) i a;
                          level (length cs) i b])).
    - f_equal. apply list_eq. intros i. rewrite lookup_map.
      destruct (decide (i < k `min` length cs)) as [Hi|Hi].
      + rewrite lookup_seq_lt by done. rewrite lookup_take_lt by lia.
        destruct (lookup_lt_is_Some_2 cs i) as [c_i Hc]; [lia|].
        rewrite (pyramid_lookup _ _ _ _ _ _ Hc). simpl. by rewrite Hc.
      + rewrite lookup_ge_None_2 by (rewrite length_seq; lia). simpl. symmetry.
        apply lookup_ge_None_2. rewrite length_take, length_pyramid. lia.
    - intros i Hi. apply elem_of_seq in Hi.
      destruct (lookup_lt_is_Some_2 cs i) as [c_i Hc]; [lia|].
      rewrite Hc. simpl. apply Hf; [lia | done]. }
  assert (Hrow : forall i c_i, i < k -> cs !! i = Some c_i -> fusion m = true \/ i = 0 ->
            fuse_row (Layer_forward training) shape_add m
              (take k (expected_fuse_layers (fusion m) cs)) (pyramid n cs a b) i
            = Ok [n; c_i; level (length cs) i a; level (length cs) i b]).
  { intros i c_i Hi Hc Hfused.
    rewrite (fuse_row_ext _ _ _ _ (expected_fuse_layers (fusion m) cs))
      by (by apply lookup_take_lt).
    by apply (fuse_row_pyramid m cin cs n a b). }
  destruct (fusion m) eqn:Hfus.
  - apply Hmap. intros i c_i Hi Hc. apply Hrow; auto.
  - apply Hmap. intros i c_i Hi Hc. destruct (Nat.eqb_spec i 0) as [->|Hne].
    + apply Hrow; auto.
    + by apply getitem_pyramid.
Qed.

(** With a single branch [forward] applies the branch to [x[0]]. *)
Lemma HighResolutionModule_forward_single {training : bool} (m : HighResolutionModule)
  (l : Layer) (c_in c_out n a b : nat) :
  num_branches m = 1%Z -> branches m !! 0 = Some l -> branch_ok training l c_in c_out ->
  1 <= a -> 1 <= b -> batch_ok training n ->
  HighResolutionModule_forward (Layer_forward training) shape_add m (pyramid n [c_in] a b)
  = Ok (pyramid n [c_out] a b).
Proof.
  intros Hnb Hl Hok Ha Hb Hbatch. unfold HighResolutionModule_forward. rewrite Hnb. simpl.
  rewrite (getitem_fits _ _ _ Hl), bind_Ok_l.
  unfold level. simpl. rewrite Hok by (done || lia). reflexivity.
Qed.

(** What a successful constructor call has built. *)
Lemma HighResolutionModule_init_Ok {training : bool} (num_branches : Z) (block : Block)
  (num_blocks num_inchannels num_channels : list nat) (fuse_method : string)
  (multi_scale_output with_fusion : bool) (m : HighResolutionModule) :
  HighResolutionModule_init num_branches block num_blocks num_inchannels num_channels
    fuse_method multi_scale_output with_fusion = Ok m ->
  let outs := map (fun c => c * expansion block) num_channels in
  num_branches = len num_inchannels /\ num_branches = len num_channels
  /\ exists bs fl,
       m = {| num_inchannels := outs; fuse_method := fuse_method;
              num_branches := num_branches; multi_scale_output := multi_scale_output;
              fusion := with_fusion; branches := bs; fuse_layers := fl |}
       /\ _make_fuse_layers num_branches outs multi_scale_output with_fusion = Ok fl
       /\ forall i c_in, num_inchannels !! i = Some c_in ->
            exists l c_out, bs !! i = Some l /\ outs !! i = Some c_out
                            /\ branch_ok training l c_in c_out.
Proof.
  intros Hinit outs. unfold HighResolutionModule_init in Hinit.
  apply bind_Ok in Hinit as ([] & Hcheck & Hinit).
  apply _check_branches_Ok in Hcheck as (Hblocks & Hchans & Hinch).
  destruct (_make_branches_spec (training := training) num_inchannels num_branches block
              num_blocks num_channels)
    as (bs & Hbs & Hok); [done..|].
  rewrite Hbs, bind_Ok_l in Hinit. fold outs in Hinit, Hok.
  apply bind_Ok in Hinit as (fl & Hfl & [= <-]).
  split; [done|]. split; [done|]. by exists bs, fl.
Qed.

Lemma HighResolutionModule_forward_of_init {training : bool} (num_branches : Z) (block : Block)
  (num_blocks num_inchannels num_channels : list nat) (fuse_method : string)
  (multi_scale_output with_fusion : bool) (m : HighResolutionModule) (n a b : nat) :
  HighResolutionModule_init num_branches block num_blocks num_inchannels num_channels
    fuse_method multi_scale_output with_fusion = Ok m ->
  (multi_scale_output = false -> num_branches <> 0%Z) -> 1 <= a -> 1 <= b ->
  batch_ok training n ->
  let outs := map (fun c => c * expansion block) num_channels in
  HighResolutionModule_forward (Layer_forward training) shape_add m
    (pyramid n num_inchannels a b)
  = Ok (if multi_scale_output then pyramid n outs a b else take 1 (pyramid n outs a b)).
Proof.
  intros Hinit H0 Ha Hb Hbatch outs.
  destruct (HighResolutionModule_init_Ok (training := training) _ _ _ _ _ _ _ _ _ Hinit)
    as (Hinch & Hchans & bs & fl & -> & Hfl & Hok).
  fold outs in Hfl, Hok.
  assert (Hlen : length outs = length num_inchannels).
  { unfold outs. rewrite length_map. unfold len in *. lia. }
  destruct (Z.eqb_spec num_branches 1) as [H1|H1].
  - (* one branch *)
    assert (Hone : length num_inchannels = 1) by (unfold len in *; lia).
    clearbody outs.
    destruct num_inchannels as [|c_in [|? ?]]; [done | | simpl in Hone; lia].
    destruct outs as [|c_out [|? ?]]; [simpl in Hlen; lia | | simpl in Hlen; lia].
    destruct (Hok 0 c_in eq_refl) as (l & c' & Hl & Hc' & Hbranch).
    injection Hc' as <-.
    rewrite (HighResolutionModule_forward_single _ l c_in c_out) by done.
    by destruct multi_scale_output.
  - (* several branches *)
    rewrite (_make_fuse_layers_expected num_branches outs multi_scale_output with_fusion)
      in Hfl; [|unfold len in *; lia|done|done].
    injection Hfl as <-.
    match goal with
    | |- HighResolutionModule_forward _ _ ?m0 _ = _ => set (m := m0)
    end.
    assert (Hfwd : HighResolutionModule_forward (Layer_forward training) shape_add m
                     (pyramid n num_inchannels a b)
                   = Ok (take (if multi_scale_output then length outs else 1)
                           (pyramid n outs a b))).
    { apply HighResolutionModule_forward_rows; try done.
      - unfold m, len in *. simpl. lia.
      - unfold len in *. lia. }
    rewrite Hfwd. destruct multi_scale_output; [|done].
    by rewrite take_ge by (rewrite length_pyramid; lia).
Qed.

(** A module as the constructor builds it maps a resolution pyramid with the
    channels [num_inchannels] to a resolution pyramid with the channels
    [num_channels[i] * block.expansion]: for any number of branches, either
    block class, any numbers of blocks and with or without fusion.  Without
    [multi_scale_output] only the highest-resolution map is returned.  This
    holds for every batch in evaluation mode and for the batches of at least
    two images in training mode, where batch normalisation refuses a feature
    map with one value per channel. *)
Theorem HighResolutionModule_forward_pyramid_of_init (training : bool) (num_branches : Z)
  (block : Block) (num_blocks num_inchannels num_channels : list nat)
  (fuse_method : string) (multi_scale_output with_fusion : bool)
  (m : HighResolutionModule) (n a b : nat) :
  HighResolutionModule_init num_branches block num_blocks num_inchannels num_channels
    fuse_method multi_scale_output with_fusion = Ok m ->
  (multi_scale_output = false -> num_branches <> 0%Z) -> 1 <= a -> 1 <= b ->
  training = false \/ 2 <= n ->
  let outs := map (fun c => c * expansion block) num_channels in
  get_num_inchannels m = outs
  /\ HighResolutionModule_forward (Layer_forward training) shape_add m
       (pyramid n num_inchannels a b)
     = Ok (if multi_scale_output then pyramid n outs a b else take 1 (pyramid n outs a b)).
Proof.
  intros Hinit H0 Ha Hb Hbatch outs. split.
  - destruct (HighResolutionModule_init_Ok (training := training) _ _ _ _ _ _ _ _ _ Hinit)
      as (_ & _ & bs & fl & -> & _).
    reflexivity.
  - by apply (HighResolutionModule_forward_of_init num_branches block num_blocks
                num_inchannels num_channels fuse_method multi_scale_output with_fusion).
Qed.

Lemma HighResolutionModule_forward_pyramid_of_init_witness :
  exists m,
    HighResolutionModule_init 2 Bottleneck [1; 3] [16; 8] [4; 8] "SUM" false true = Ok m
    /\ get_num_inchannels m = [16; 32]
    /\ HighResolutionModule_forward (Layer_forward true) shape_add m (pyramid 2 [16; 8] 5 7)
       = Ok (take 1 (pyramid 2 [16; 32] 5 7)).
Proof.
  destruct (HighResolutionModule_init 2 Bottleneck [1; 3] [16; 8] [4; 8] "SUM" false true)
    as [m|e] eqn:Hinit; [|by vm_compute in Hinit].
  exists m. split; [reflexivity|].
  apply (HighResolutionModule_forward_pyramid_of_init true 2 Bottleneck [1; 3] [16; 8]
           [4; 8] "SUM" false true m 2 5 7 Hinit); [lia..|right; lia].
Defined.

(** ** [_make_stage]: the modules of a stage and their forward pass *)

Lemma stage_forward_app {training : bool} (ms1 ms2 : list HighResolutionModule)
  (x : list Shape) :
  stage_forward training (ms1 ++ ms2) x
  = stage_forward training ms1 x ≫= stage_forward training ms2.
Proof. unfold stage_forward. apply foldM_app. Qed.

(** The first [k] iterations of the loop of [_make_stage]. *)
Lemma _make_stage_loop {training : bool} (layer_config : StageCfg) (block : Block)
  (num_inchannels : list nat) (with_fusion : bool) (n a b k : nat)
  (ms : list HighResolutionModule) (oc : list nat) :
  batch_ok training n -> 1 <= a -> 1 <= b ->
  foldM (fun '(modules, num_inchannels) i =>
           let reset_fusion :=
             if negb with_fusion && (i =? NUM_MODULES layer_config - 1) then false else true in
           reset_multi_scale_output ← Ok true;
           m ← HighResolutionModule_init (NUM_BRANCHES layer_config) block
                 (NUM_BLOCKS layer_config) num_inchannels (NUM_CHANNELS layer_config)
                 (FUSE_METHOD layer_config) reset_multi_scale_output reset_fusion;
           Ok (modules ++ [m], get_num_inchannels m))
        ([], num_inchannels) (seq 0 k) = Ok (ms, oc) ->
  length ms = k
  /\ (forall i m, ms !! i = Some m ->
        fusion m = with_fusion || negb (i =? NUM_MODULES layer_config - 1))
  /\ oc = (if k =? 0 then num_inchannels
           else map (fun c => c * expansion block) (NUM_CHANNELS layer_config))
  /\ stage_forward training ms (pyramid n num_inchannels a b) = Ok (pyramid n oc a b).
Proof.
  intros Hbatch Ha Hb. revert ms oc. induction k as [|k IH]; intros ms oc Hfold.
  - injection Hfold as <- <-. repeat split; try done.
  - rewrite seq_S, foldM_app in Hfold.
    apply bind_Ok in Hfold as ([ms0 oc0] & Hfold0 & Hstep).
    destruct (IH ms0 oc0 Hfold0) as (Hlen0 & Hfus0 & Hoc0 & Hfwd0).
    cbn [foldM Nat.add] in Hstep. apply bind_Ok in Hstep as ([ms1 oc1] & Hstep & [= <- <-]).
    rewrite bind_Ok_l in Hstep. apply bind_Ok in Hstep as (m & Hm & [= <- <-]).
    pose proof (HighResolutionModule_forward_of_init (training := training)
                  _ _ _ _ _ _ _ _ m n a b Hm) as Hfwd.
    cbv zeta in Hfwd. specialize (Hfwd ltac:(done) Ha Hb Hbatch).
    destruct (HighResolutionModule_init_Ok (training := training) _ _ _ _ _ _ _ _ _ Hm)
      as (_ & _ & bs & fl & -> & _).
    split; [rewrite length_app; simpl; lia|]. split; [|split].
    + intros i m' Hi. apply lookup_app_Some in Hi as [Hi | [Hge Hi]].
      * by apply Hfus0.
      * rewrite Hlen0 in *. destruct (i - k) eqn:E; simpl in Hi; [|done].
        injection Hi as <-. replace i with k by lia. simpl.
        by destruct with_fusion, (k =? NUM_MODULES layer_config - 1).
    + reflexivity.
    + rewrite stage_forward_app, Hfwd0, bind_Ok_l.
      unfold stage_forward. rewrite foldM_cons, Hfwd. reflexivity.
Qed.

(** What a successful call of [_make_stage] has built. *)
Lemma _make_stage_Ok {training : bool} (layer_config : StageCfg) (num_inchannels : list nat)
  (multi_scale_output with_fusion : bool) (modules : list HighResolutionModule)
  (out_channels : list nat) (n a b : nat) :
  _make_stage layer_config num_inchannels multi_scale_output with_fusion
  = Ok (modules, out_channels) ->
  1 <= a -> 1 <= b -> batch_ok training n ->
  length modules = NUM_MODULES layer_config
  /\ (forall i m, modules !! i = Some m ->
        fusion m = with_fusion || negb (i =? NUM_MODULES layer_config - 1))
  /\ (exists block,
        blocks_dict (BLOCK layer_config) = Ok block
        /\ out_channels
           = if NUM_MODULES layer_config =? 0 then num_inchannels
             else map (fun c => c * expansion block) (NUM_CHANNELS layer_config))
  /\ stage_forward training modules (pyramid n num_inchannels a b)
     = Ok (pyramid n out_channels a b).
Proof.
  intros Hstage Ha Hb Hbatch. unfold _make_stage in Hstage.
  apply bind_Ok in Hstage as (block & Hblock & Hloop).
  destruct multi_scale_output.
  - destruct (_make_stage_loop layer_config block num_inchannels with_fusion n a b
                (NUM_MODULES layer_config) modules out_channels Hbatch Ha Hb Hloop)
      as (H1 & H2 & H3 & H4).
    split; [done|]. split; [done|]. split; [|done].
    exists block. split; [done|]. exact H3.
  - destruct (NUM_MODULES layer_config) as [|k]; [|discriminate].
    injection Hloop as <- <-. repeat split; try done.
    exists block. done.
Qed.

(** A stage with a module checks its configuration against the channels it
    receives. *)
Lemma _make_stage_branches (layer_config : StageCfg) (num_inchannels : list nat)
  (multi_scale_output with_fusion : bool) (r : list HighResolutionModule * list nat) :
  _make_stage layer_config num_inchannels multi_scale_output with_fusion = Ok r ->
  1 <= NUM_MODULES layer_config ->
  NUM_BRANCHES layer_config = len num_inchannels
  /\ NUM_BRANCHES layer_config = len (NUM_CHANNELS layer_config).
Proof.
  intros Hstage Hn. unfold _make_stage in Hstage.
  apply bind_Ok in Hstage as (block & Hblock & Hloop).
  destruct (NUM_MODULES layer_config) as [|k]; [lia|].
  cbn [seq] in Hloop. rewrite foldM_cons in Hloop.
  apply bind_Ok in Hloop as ([ms oc] & Hstep & _).
  apply bind_Ok in Hstep as (flag & _ & Hstep).
  apply bind_Ok in Hstep as (m & Hm & _).
  by destruct (HighResolutionModule_init_Ok (training := false) _ _ _ _ _ _ _ _ _ Hm)
    as (? & ? & _).
Qed.

(** A stage as [_make_stage] builds it: [NUM_MODULES] modules, the last one
    without fusion unless [fusion] is requested; the stage maps a resolution
    pyramid with the channels [num_inchannels] to a resolution pyramid with
    the returned channels, which are [NUM_CHANNELS[i] * block.expansion]
    when the stage has a module.  The forward pass is that of evaluation
    mode on any batch and of training mode on a batch of at least two
    images. *)
Theorem _make_stage_forward_pyramid (training : bool) (layer_config : StageCfg)
  (num_inchannels : list nat) (multi_scale_output with_fusion : bool)
  (modules : list HighResolutionModule) (out_channels : list nat) (n a b : nat) :
  _make_stage layer_config num_inchannels multi_scale_output with_fusion
  = Ok (modules, out_channels) ->
  1 <= a -> 1 <= b ->
  training = false \/ 2 <= n ->
  length modules = NUM_MODULES layer_config
  /\ (forall i m, modules !! i = Some m ->
        fusion m = with_fusion || negb (i =? NUM_MODULES layer_config - 1))
  /\ (exists block,
        blocks_dict (BLOCK layer_config) = Ok block
        /\ out_channels
           = if NUM_MODULES layer_config =? 0 then num_inchannels
             else map (fun c => c * expansion block) (NUM_CHANNELS layer_config))
  /\ stage_forward training modules (pyramid n num_inchannels a b)
     = Ok (pyramid n out_channels a b).
Proof.
  intros Hstage Ha Hb Hbatch.
  destruct (_make_stage_Ok layer_config num_inchannels multi_scale_output with_fusion
              modules out_channels n a b Hstage Ha Hb Hbatch)
    as (Hlen & Hfusion & Hout & Hfwd).
  split; [exact Hlen|]. split; [exact Hfusion|]. split; [exact Hout | exact Hfwd].
Qed.

Lemma _make_stage_forward_pyramid_witness :
  exists modules,
    _make_stage {| NUM_MODULES := 2; NUM_BRANCHES := 2; BLOCK := "BOTTLENECK";
                   NUM_BLOCKS := [1; 2]; NUM_CHANNELS := [4; 8]; FUSE_METHOD := "SUM" |}
                [16; 8] true false
    = Ok (modules, [16; 32])
    /\ length modules = 2
    /\ (fusion <$> modules) = [true; false]
    /\ stage_forward true modules (pyramid 2 [16; 8] 5 7) = Ok (pyramid 2 [16; 32] 5 7).
Proof.
  set (cfg := {| NUM_MODULES := 2; NUM_BRANCHES := 2; BLOCK := "BOTTLENECK";
                 NUM_BLOCKS := [1; 2]; NUM_CHANNELS := [4; 8]; FUSE_METHOD := "SUM" |}).
  destruct (_make_stage cfg [16; 8] true false) as [[modules oc]|e] eqn:Hstage;
    [|by vm_compute in Hstage].
  assert (Hoc : oc = [16; 32]).
  { vm_compute in Hstage. by injection Hstage as _ <-. }
  subst oc. exists modules.
  destruct (_make_stage_forward_pyramid true cfg [16; 8] true false modules [16; 32] 2 5 7
              Hstage)
    as (Hlen & Hfus & _ & Hfwd); [lia | lia | right; lia |].
  split; [reflexivity|]. split; [exact Hlen|]. split; [|exact Hfwd].
  destruct modules as [|m0 [|m1 [|? ?]]]; try discriminate.
  simpl. by rewrite (Hfus 0 m0 eq_refl), (Hfus 1 m1 eq_refl).
Defined.

(** Without [multi_scale_output] the loop of [_make_stage] reads
    [reset_multi_scale_output] before any assignment to it. *)
Theorem _make_stage_without_multi_scale_output (layer_config : StageCfg)
  (num_inchannels : list nat) (with_fusion : bool) (block : Block) :
  blocks_dict (BLOCK layer_config) = Ok block ->
  1 <= NUM_MODULES layer_config ->
  _make_stage layer_config num_inchannels false with_fusion = Raise UnboundLocalError.
Proof.
  intros Hblock Hn. unfold _make_stage. rewrite Hblock, bind_Ok_l.
  destruct (NUM_MODULES layer_config) as [|k]; [lia|]. reflexivity.
Qed.

Lemma _make_stage_without_multi_scale_output_witness :
  _make_stage toy_stage [1; 1; 1] false true = Raise UnboundLocalError.
Proof.
  apply (_make_stage_without_multi_scale_output toy_stage [1; 1; 1] true BasicBlock);
    [reflexivity | simpl; lia].
Defined.

(** ** [_make_layer] *)

Lemma conv_out_3_1 (h stride : nat) : 1 <= h -> conv_out h 3 stride 1 = (h - 1) / stride + 1.
Proof. intros Hh. unfold conv_out. do 2 f_equal. lia. Qed.

Lemma conv_out_1_0 (h stride : nat) : conv_out h 1 stride 0 = (h - 1) / stride + 1.
Proof. unfold conv_out. do 2 f_equal. lia. Qed.

(** The first block of a layer: a residual block of any stride, with the
    [downsample] that [_make_layer] gives it. *)
Lemma ResBlock_forward_strided {training : bool} (block : Block) (inplanes planes stride : nat)
  (ds : option Layer) (n h w : nat) :
  batch_ok training n -> 1 <= stride -> 1 <= h -> 1 <= w ->
  (ds = None /\ stride = 1 /\ inplanes = planes * expansion block)
  \/ ds = Some (Sequential [Conv2d inplanes (planes * expansion block) 1 stride 0;
                            BatchNorm2d (planes * expansion block)]) ->
  Layer_forward training (ResBlock block inplanes planes stride ds) [n; inplanes; h; w]
  = Ok [n; planes * expansion block; (h - 1) / stride + 1; (w - 1) / stride + 1].
Proof.
  intros Hbatch Hs Hh Hw [(-> & -> & Hin) | ->].
  - rewrite (ResBlock_branch_ok block inplanes planes None) by auto.
    by rewrite !Nat.div_1_r, !Nat.sub_add.
  - assert (Hres : Layer_forward training
                     (Sequential [Conv2d inplanes (planes * expansion block) 1 stride 0;
                                  BatchNorm2d (planes * expansion block)]) [n; inplanes; h; w]
                   = Ok [n; planes * expansion block; (h - 1) / stride + 1;
                         (w - 1) / stride + 1]).
    { rewrite Layer_forward_Sequential_cons, Layer_forward_Conv2d.
      rewrite conv2d_forward_fits by lia. rewrite !conv_out_1_0, bind_Ok_l.
      rewrite Layer_forward_Sequential_cons, Layer_forward_BatchNorm2d.
      by rewrite batchnorm2d_forward_fits. }
    destruct block.
    + rewrite Layer_forward_BasicBlock, Hres. simpl expansion. rewrite Nat.mul_1_r.
      rewrite conv2d_forward_fits by lia. rewrite !conv_out_3_1 by done.
      rewrite bind_Ok_l, batchnorm2d_forward_fits, bind_Ok_l by done.
      rewrite conv_3x3_forward by lia.
      rewrite bind_Ok_l, batchnorm2d_forward_fits, !bind_Ok_l by done.
      apply shape_iadd_same.
    + rewrite Layer_forward_Bottleneck, Hres. simpl expansion.
      rewrite conv_1x1_forward, bind_Ok_l, batchnorm2d_forward_fits, bind_Ok_l by done.
      rewrite conv2d_forward_fits by lia. rewrite !conv_out_3_1 by done.
      rewrite bind_Ok_l, batchnorm2d_forward_fits, bind_Ok_l by done.
      rewrite conv_1x1_forward by lia.
      rewrite bind_Ok_l, batchnorm2d_forward_fits, !bind_Ok_l by done.
      apply shape_iadd_same.
Qed.

(** The layer that [_make_layer(block, planes, blocks, stride)] builds maps
    an input with [self.inplanes] channels to [planes * block.expansion]
    channels and divides the spatial sizes by the stride (rounding up), for
    either block class and any number of blocks (on every batch in
    evaluation mode, on the batches of at least two images in training
    mode); the constructor leaves [planes * block.expansion] in
    [self.inplanes]. *)
Theorem _make_layer_forward (training : bool) (self_inplanes : nat) (block : Block)
  (planes blocks stride n h w : nat) :
  training = false \/ 2 <= n ->
  1 <= stride -> 1 <= h -> 1 <= w ->
  Layer_forward training (_make_layer self_inplanes block planes blocks stride).1
    [n; self_inplanes; h; w]
  = Ok [n; planes * expansion block; (h - 1) / stride + 1; (w - 1) / stride + 1]
  /\ (_make_layer self_inplanes block planes blocks stride).2 = planes * expansion block.
Proof.
  intros Hbatch Hs Hh Hw. split; [|reflexivity].
  unfold _make_layer. cbn [fst]. rewrite map_const_seq.
  rewrite Layer_forward_Sequential_cons.
  rewrite ResBlock_forward_strided; try done.
  - rewrite bind_Ok_l.
    apply (branch_ok_replicate (ResBlock block (planes * expansion block) planes 1 None));
      [|done|lia..].
    apply ResBlock_branch_ok. by left.
  - destruct (Nat.eqb_spec stride 1) as [->|]; simpl; [|by right].
    destruct (Nat.eqb_spec self_inplanes (planes * expansion block)); simpl; auto.
Qed.

Lemma _make_layer_forward_witness :
  Layer_forward true (_make_layer 64 Bottleneck 32 3 2).1 [2; 64; 17; 9] = Ok [2; 128; 9; 5]
  /\ (_make_layer 64 Bottleneck 32 3 2).2 = 128.
Proof. apply (_make_layer_forward true 64 Bottleneck 32 3 2 2 17 9); [right|..]; lia. Defined.

(** In training mode, the mode of a freshly built network, the same layer
    refuses a single image whose feature map shrinks to one value per
    channel: the first batch normalisation that sees the 1 x 1 map raises
    [ValueError]. *)
Theorem _make_layer_training_one_value (self_inplanes : nat) (block : Block)
  (planes blocks stride h w : nat) :
  1 <= stride -> 1 <= h -> 1 <= w ->
  (h - 1) / stride = 0 -> (w - 1) / stride = 0 ->
  Layer_forward true (_make_layer self_inplanes block planes blocks stride).1
    [1; self_inplanes; h; w]
  = Raise (ValueError "Expected more than 1 value per channel when training").
Proof.
  intros Hs Hh Hw Hho Hwo.
  unfold _make_layer. cbn [fst]. rewrite Layer_forward_Sequential_cons.
  assert (Hone : batchnorm2d_forward true planes [1; planes; 1; 1]
                 = Raise (ValueError "Expected more than 1 value per channel when training"))
    by reflexivity.
  destruct block.
  - rewrite Layer_forward_BasicBlock.
    rewrite conv2d_forward_fits by lia. rewrite !conv_out_3_1, Hho, Hwo by done.
    rewrite bind_Ok_l. cbn [Nat.add]. rewrite Hone. reflexivity.
  - rewrite Layer_forward_Bottleneck.
    rewrite conv_1x1_forward, bind_Ok_l by done.
    assert (Hbn : batchnorm2d_forward true planes [1; planes; h; w]
                  = if 1 * h * w =? 1
                    then Raise (ValueError
                                  "Expected more than 1 value per channel when training")
                    else Ok [1; planes; h; w]).
    { unfold batchnorm2d_forward. by rewrite Nat.eqb_refl. }
    rewrite Hbn. destruct (1 * h * w =? 1); [reflexivity|].
    rewrite bind_Ok_l.
    rewrite conv2d_forward_fits by lia. rewrite !conv_out_3_1, Hho, Hwo by done.
    rewrite bind_Ok_l. cbn [Nat.add]. rewrite Hone. reflexivity.
Qed.

Lemma _make_layer_training_one_value_witness :
  Layer_forward true (_make_layer 64 Bottleneck 32 3 2).1 [1; 64; 2; 2]
  = Raise (ValueError "Expected more than 1 value per channel when training")
  /\ Layer_forward false (_make_layer 64 Bottleneck 32 3 2).1 [1; 64; 2; 2]
     = Ok [1; 128; 1; 1].
Proof.
  split; [|reflexivity].
  apply (_make_layer_training_one_value 64 Bottleneck 32 3 2 2 2); try lia; reflexivity.
Defined.

(** ** [_make_transition_layer] and the transitions of [forward] *)

(** The chain of stride-2 convolutions that starts a new branch. *)
Lemma new_branch_chain_forward {training : bool} (c_last c_cur k n h w : nat) :
  batch_ok training n -> 1 <= h -> 1 <= w ->
  Layer_forward training
    (Sequential (replicate k (Sequential [Conv2d c_last c_last 3 2 1; BatchNorm2d c_last; ReLU])
                 ++ [Sequential [Conv2d c_last c_cur 3 2 1; BatchNorm2d c_cur; ReLU]]))
    [n; c_last; h; w]
  = Ok [n; c_cur; ceil_div_pow2 h (S k); ceil_div_pow2 w (S k)].
Proof.
  intros Hbatch Hh Hw.
  rewrite Layer_forward_Sequential_app, stride2_chain_forward, bind_Ok_l by done.
  rewrite Layer_forward_Sequential_cons, stride2_block_forward;
    [|done|by apply ceil_div_pow2_pos..|by right].
  rewrite bind_Ok_l, !ceil_div_pow2_S. reflexivity.
Qed.

Lemma getlast_fits {A} (l : list A) (a : A) : last l = Some a -> getlast l = Ok a.
Proof. intros H. unfold getlast. by rewrite H. Qed.

(** The entry of [transition_layers] for the branch [i]. *)
Lemma _make_transition_layer_lookup (pre cur : list nat) (tl : list (option Layer))
  (i c_cur : nat) :
  _make_transition_layer pre cur = Ok tl -> cur !! i = Some c_cur ->
  match pre !! i with
  | Some c_pre =>
      tl !! i = Some (if c_cur =? c_pre then None
                      else Some (Sequential [Conv2d c_pre c_cur 3 1 1; BatchNorm2d c_cur; ReLU]))
  | None =>
      exists c_last,
        last pre = Some c_last
        /\ tl !! i
           = Some (Some (Sequential
                (replicate (i - length pre)
                   (Sequential [Conv2d c_last c_last 3 2 1; BatchNorm2d c_last; ReLU])
                 ++ [Sequential [Conv2d c_last c_cur 3 2 1; BatchNorm2d c_cur; ReLU]])))
  end.
Proof.
  intros Htl Hc. unfold _make_transition_layer in Htl.
  assert (Hi : seq 0 (length cur) !! i = Some i).
  { apply lookup_seq. split; [done|]. by eapply lookup_lt_Some. }
  destruct (mapM_lookup _ _ _ _ _ Htl Hi) as (e & He & ->). clear Htl Hi.
  cbv beta in He.
  destruct (pre !! i) as [c_pre|] eqn:Hp.
  - assert (i < length pre) by by eapply lookup_lt_Some.
    destruct (Nat.ltb_spec i (length pre)); [|lia].
    rewrite (getitem_fits _ _ _ Hc), bind_Ok_l, (getitem_fits _ _ _ Hp), bind_Ok_l in He.
    destruct (c_cur =? c_pre); simpl in He; by injection He as <-.
  - apply lookup_ge_None in Hp.
    destruct (Nat.ltb_spec i (length pre)); [lia|].
    apply bind_Ok in He as (conv3x3s & Hconvs & [= <-]).
    replace (i + 1 - length pre) with (S (i - length pre)) in Hconvs by lia.
    rewrite seq_S in Hconvs. cbn [Nat.add] in Hconvs.
    assert (Hj : (seq 0 (i - length pre) ++ [i - length pre]) !! (i - length pre)
                 = Some (i - length pre)).
    { rewrite lookup_app_r by (rewrite length_seq; lia).
      by rewrite length_seq, Nat.sub_diag. }
    destruct (mapM_lookup _ _ _ _ _ Hconvs Hj) as (e & He & _).
    apply bind_Ok in He as (c_last & Hlast & _).
    unfold getlast in Hlast. destruct (last pre) as [c|] eqn:Hl; [|discriminate].
    injection Hlast as ->. exists c_last. split; [done|]. do 3 f_equal.
    rewrite (mapM_Ok_map _
               (fun j => Sequential [Conv2d c_last (if j =? i - length pre then c_cur
                                                     else c_last) 3 2 1;
                                     BatchNorm2d (if j =? i - length pre then c_cur
                                                  else c_last);
                                     ReLU])) in Hconvs.
    2:{ intros j _. rewrite (getlast_fits _ _ Hl), bind_Ok_l.
        destruct (j =? i - length pre); [|done].
        by rewrite (getitem_fits _ _ _ Hc). }
    injection Hconvs as <-. rewrite map_app. simpl. rewrite Nat.eqb_refl. f_equal.
    apply list_eq. intros t. rewrite lookup_map.
    destruct (decide (t < i - length pre)) as [Ht|Ht].
    + rewrite lookup_seq_lt by done. simpl.
      destruct (Nat.eqb_spec t (i - length pre)); [lia|].
      symmetry. by apply lookup_replicate.
    + rewrite lookup_ge_None_2 by (rewrite length_seq; lia). simpl.
      symmetry. apply lookup_ge_None_2. rewrite length_replicate. lia.
Qed.

Lemma _make_transition_layer_total (pre cur : list nat) :
  pre <> [] \/ cur = [] -> exists tl, _make_transition_layer pre cur = Ok tl.
Proof.
  intros Hpre. unfold _make_transition_layer. apply mapM_total. intros i Hi.
  apply elem_of_seq in Hi.
  destruct (lookup_lt_is_Some_2 cur i) as [c_cur Hc]; [lia|].
  destruct (Nat.ltb_spec i (length pre)).
  - destruct (lookup_lt_is_Some_2 pre i) as [c_pre Hp]; [lia|].
    rewrite (getitem_fits _ _ _ Hc), bind_Ok_l, (getitem_fits _ _ _ Hp), bind_Ok_l.
    destruct (negb _); eauto.
  - destruct (last pre) as [c_last|] eqn:Hl.
    2:{ apply last_None in Hl. destruct Hpre as [? | ->]; [done | simpl in *; lia]. }
    destruct (mapM_total
                (fun j =>
                   inchannels ← getlast pre;
                   outchannels ← (if j =? i - length pre then getitem cur i
                                  else Ok inchannels);
                   Ok (Sequential [Conv2d inchannels outchannels 3 2 1;
                                   BatchNorm2d outchannels; ReLU]))
                (seq 0 (i + 1 - length pre))) as [convs ->]; [|simpl; eauto].
    intros j _. rewrite (getlast_fits _ _ Hl), bind_Ok_l.
    destruct (j =? i - length pre); [|simpl; eauto].
    rewrite (getitem_fits _ _ _ Hc). simpl. eauto.
Qed.

(** [_make_transition_layer]: one entry per branch of the current stage.  A
    branch that the previous stage has keeps its feature map when the
    channels agree ([None]) and gets a 3x3 convolution to the new channels
    otherwise; a new branch [i] gets [i + 1 - len(pre)] convolutions of
    stride 2 from the channels of the last previous branch, which halve the
    spatial sizes (rounding up) that many times.  Without a previous branch
    the constructor fails on [num_channels_pre_layer[-1]].  The layers are
    run in evaluation mode on any batch, and in training mode on a batch of
    at least two images. *)
Theorem _make_transition_layer_spec (num_channels_pre_layer num_channels_cur_layer : list nat) :
  num_channels_cur_layer <> [] ->
  (num_channels_pre_layer = [] ->
   _make_transition_layer num_channels_pre_layer num_channels_cur_layer = Raise IndexError)
  /\ (num_channels_pre_layer <> [] ->
      exists transition_layers c_last,
        _make_transition_layer num_channels_pre_layer num_channels_cur_layer
        = Ok transition_layers
        /\ last num_channels_pre_layer = Some c_last
        /\ length transition_layers = length num_channels_cur_layer
        /\ forall i c_cur, num_channels_cur_layer !! i = Some c_cur ->
             (forall c_pre, num_channels_pre_layer !! i = Some c_pre ->
                (c_cur = c_pre -> transition_layers !! i = Some None)
                /\ (c_cur <> c_pre ->
                    exists l, transition_layers !! i = Some (Some l)
                              /\ forall training, branch_ok training l c_pre c_cur))
             /\ (length num_channels_pre_layer <= i ->
                 exists l, transition_layers !! i = Some (Some l)
                   /\ forall training n h w,
                        training = false \/ 2 <= n -> 1 <= h -> 1 <= w ->
                        Layer_forward training l [n; c_last; h; w]
                        = Ok [n; c_cur;
                              ceil_div_pow2 h (i + 1 - length num_channels_pre_layer);
                              ceil_div_pow2 w (i + 1 - length num_channels_pre_layer)])).
Proof.
  intros Hcur. split.
  - intros ->. destruct num_channels_cur_layer as [|c cur]; [done|]. reflexivity.
  - intros Hpre.
    destruct (_make_transition_layer_total num_channels_pre_layer num_channels_cur_layer)
      as [tl Htl]; [by left|].
    destruct (last num_channels_pre_layer) as [c_last|] eqn:Hl;
      [|by apply last_None in Hl].
    exists tl, c_last. split; [done|]. split; [done|]. split.
    { unfold _make_transition_layer in Htl. apply mapM_length in Htl.
      by rewrite Htl, length_seq. }
    intros i c_cur Hc.
    pose proof (_make_transition_layer_lookup _ _ _ i c_cur Htl Hc) as Hentry.
    split.
    + intros c_pre Hp. rewrite Hp in Hentry. split.
      * intros ->. by rewrite Nat.eqb_refl in Hentry.
      * intros Hne. destruct (Nat.eqb_spec c_cur c_pre) as [|_]; [done|].
        eexists. split; [done|]. intros training n h w Hbatch Hh Hw.
        by apply conv_bn_relu_forward.
    + intros Hi. rewrite (lookup_ge_None_2 _ _ Hi) in Hentry.
      destruct Hentry as (c & Hc' & Hentry).
      assert (c = c_last) as -> by congruence.
      eexists. split; [done|]. intros training n h w Hbatch Hh Hw.
      rewrite new_branch_chain_forward by done.
      by replace (S (i - length num_channels_pre_layer))
        with (i + 1 - length num_channels_pre_layer) by lia.
Qed.

Lemma _make_transition_layer_spec_witness :
  exists transition_layers l,
    _make_transition_layer [48; 96] [48; 64; 192; 384] = Ok transition_layers
    /\ length transition_layers = 4
    /\ transition_layers !! 0 = Some None
    /\ transition_layers !! 3 = Some (Some l)
    /\ Layer_forward true l [2; 96; 16; 12] = Ok [2; 384; 4; 3].
Proof.
  destruct (_make_transition_layer_spec [48; 96] [48; 64; 192; 384]) as [_ Hspec]; [done|].
  destruct Hspec as (tl & c_last & Htl & Hlast & Hlen & Hentry); [done|].
  injection Hlast as <-.
  destruct (Hentry 0 48 eq_refl) as [H0 _].
  destruct (H0 48 eq_refl) as [H0' _].
  destruct (Hentry 3 384 eq_refl) as [_ H3].
  destruct H3 as (l & Hl & Hfwd); [simpl; lia|].
  exists tl, l. split; [done|]. split; [done|]. split; [by apply H0'|]. split; [done|].
  apply (Hfwd true 2 16 12); [right|..]; lia.
Defined.

(** ** The transitions of [forward] on a resolution pyramid *)

Lemma mapM_pyramid (f : nat -> res Shape) (n : nat) (cs : list nat) (a b : nat) :
  (forall i c_i, cs !! i = Some c_i ->
     f i = Ok [n; c_i; level (length cs) i a; level (length cs) i b]) ->
  mapM f (seq 0 (length cs)) = Ok (pyramid n cs a b).
Proof.
  intros Hf.
  rewrite (mapM_Ok_map f
             (fun i => [n; default 0 (cs !! i); level (length cs) i a;
                        level (length cs) i b])).
  - f_equal. apply list_eq. intros i. rewrite lookup_map. unfold pyramid.
    rewrite list_lookup_imap.
    destruct (cs !! i) as [c_i|] eqn:Hi.
    + rewrite lookup_seq_lt by by eapply lookup_lt_Some. simpl. by rewrite Hi.
    + rewrite lookup_ge_None_2; [done|]. rewrite length_seq. by apply lookup_ge_None.
  - intros i Hi. apply elem_of_seq in Hi.
    destruct (lookup_lt_is_Some_2 cs i) as [c_i Hc]; [lia|].
    rewrite Hc. simpl. by apply Hf.
Qed.

Lemma level_scale (p k i a : nat) : i < p -> level p i (2 ^ k * a) = level (p + k) i a.
Proof.
  intros Hi. unfold level.
  replace (p + k - 1 - i) with (p - 1 - i + k) by lia.
  rewrite Nat.pow_add_r. lia.
Qed.

Lemma level_last (p a : nat) : 1 <= p -> level p (p - 1) a = a.
Proof. intros Hp. unfold level. replace (p - 1 - (p - 1)) with 0 by lia. simpl. lia. Qed.

Lemma getlast_pyramid (n : nat) (cs : list nat) (a b c_last : nat) :
  last cs = Some c_last -> @getlast Shape (pyramid n cs a b) = Ok [n; c_last; a; b].
Proof.
  intros Hl. apply getlast_fits. rewrite last_lookup, length_pyramid.
  rewrite last_lookup in Hl.
  rewrite (pyramid_lookup _ _ _ _ _ _ Hl).
  assert (1 <= length cs).
  { apply lookup_lt_Some in Hl. lia. }
  replace (pred (length cs)) with (length cs - 1) by lia.
  by rewrite !level_last.
Qed.

Lemma getitem_map_option {A B} (f : A -> B) (l : list (option A)) (i : nat) (e : option A) :
  l !! i = Some e -> getitem (map (option_map f) l) i = Ok (option_map f e).
Proof. intros H. apply getitem_fits. by rewrite lookup_map, H. Qed.

(** The loop before stage 2: every branch starts from the output of
    [layer1]. *)
Lemma transition1_forward_pyramid {training : bool} (self : TransActionH Shape) (c : nat)
  (cur : list nat) (tl : list (option Layer)) (n a b : nat) :
  _make_transition_layer [c] cur = Ok tl ->
  transition1 self = map (option_map (Layer_forward training)) tl ->
  NUM_BRANCHES (stage2_cfg self) = len cur ->
  1 <= a -> 1 <= b -> batch_ok training n ->
  transition1_forward self [n; c; level (length cur) 0 a; level (length cur) 0 b]
  = Ok (pyramid n cur a b).
Proof.
  intros Htl Ht Hnb Ha Hb Hbatch. unfold transition1_forward.
  rewrite Hnb, range_len, Ht. apply mapM_pyramid. intros i c_i Hi.
  assert (Hlt : i < length cur) by by eapply lookup_lt_Some.
  pose proof (_make_transition_layer_lookup _ _ _ i c_i Htl Hi) as Hentry.
  destruct i as [|i].
  - simpl in Hentry. rewrite (getitem_map_option _ _ _ _ Hentry), bind_Ok_l.
    destruct (Nat.eqb_spec c_i c) as [->|Hne]; cbn [option_map]; [done|].
    apply conv_bn_relu_forward; [done|by apply level_pos..].
  - simpl in Hentry. destruct Hentry as (c_last & [= <-] & Hentry).
    rewrite (getitem_map_option _ _ _ _ Hentry), bind_Ok_l. cbn [option_map].
    rewrite new_branch_chain_forward by (done || by apply level_pos).
    replace (S (i - 0)) with (S i - 0) by lia.
    by rewrite !level_down by lia.
Qed.

(** The loop before stage 3: the branches whose channels do not change keep
    their feature maps; the other entries of [transition2] are applied to
    the last feature map of stage 2. *)
Lemma transition2_forward_pyramid {training : bool} (self : TransActionH Shape)
  (pre cur : list nat) (tl : list (option Layer)) (n a b : nat) :
  _make_transition_layer pre cur = Ok tl ->
  transition2 self = map (option_map (Layer_forward training)) tl ->
  NUM_BRANCHES (stage3_cfg self) = len cur ->
  pre <> [] -> length pre <= length cur ->
  (forall i, i + 1 < length pre -> cur !! i = pre !! i) ->
  1 <= a -> 1 <= b -> batch_ok training n ->
  transition2_forward self
    (pyramid n pre (2 ^ (length cur - length pre) * a) (2 ^ (length cur - length pre) * b))
  = Ok (pyramid n cur a b).
Proof.
  intros Htl Ht Hnb Hpre Hlen Hsame Ha Hb Hbatch. unfold transition2_forward.
  rewrite Hnb, range_len, Ht.
  set (k := length cur - length pre).
  assert (Hp : 1 <= length pre) by (destruct pre; [done | simpl; lia]).
  destruct (last pre) as [c_last|] eqn:Hlast; [|by apply last_None in Hlast].
  assert (HA : 1 <= 2 ^ k * a) by (pose proof (pow2_pos k); nia).
  assert (HB : 1 <= 2 ^ k * b) by (pose proof (pow2_pos k); nia).
  assert (Hlast_level : forall x, level (length cur) (length pre - 1) x = 2 ^ k * x).
  { intros x. unfold level, k. do 2 f_equal. lia. }
  apply mapM_pyramid. intros i c_i Hi.
  assert (Hlt : i < length cur) by by eapply lookup_lt_Some.
  pose proof (_make_transition_layer_lookup _ _ _ i c_i Htl Hi) as Hentry.
  destruct (pre !! i) as [c_pre|] eqn:Hpi.
  - assert (Hip : i < length pre) by by eapply lookup_lt_Some.
    rewrite (getitem_map_option _ _ _ _ Hentry), bind_Ok_l.
    assert (Hlev : forall x, level (length pre) i (2 ^ k * x) = level (length cur) i x).
    { intros x. rewrite level_scale by done. f_equal. unfold k. lia. }
    destruct (Nat.eqb_spec c_i c_pre) as [->|Hne]; cbn [option_map].
    + rewrite (getitem_pyramid _ _ _ _ _ _ Hpi). by rewrite !Hlev.
    + assert (i = length pre - 1) as ->.
      { destruct (decide (i + 1 < length pre)) as [Hi'|]; [|lia].
        specialize (Hsame i Hi'). congruence. }
      rewrite (getlast_pyramid _ _ _ _ _ Hlast), bind_Ok_l.
      assert (c_pre = c_last) as ->.
      { rewrite last_lookup in Hlast.
        replace (pred (length pre)) with (length pre - 1) in Hlast by lia. congruence. }
      rewrite conv_bn_relu_forward by done. by rewrite !Hlast_level.
  - apply lookup_ge_None in Hpi.
    destruct Hentry as (c & Hc & Hentry). assert (c = c_last) as -> by congruence.
    rewrite (getitem_map_option _ _ _ _ Hentry), bind_Ok_l. cbn [option_map].
    rewrite (getlast_pyramid _ _ _ _ _ Hlast), bind_Ok_l.
    rewrite new_branch_chain_forward by done.
    rewrite <- !Hlast_level.
    replace (S (i - length pre)) with (i - (length pre - 1)) by lia.
    by rewrite !level_down by lia.
Qed.

(** ** The backbone of a network built by the constructor *)

(** The stem on any image: two convolutions of stride 2. *)
Lemma stem_forward {training : bool} {A} (K : Shape -> res A) (bs h w : nat) :
  batch_ok training bs -> 1 <= h -> 1 <= w ->
  (x ← Layer_forward training (Conv2d 3 64 3 2 1) [bs; 3; h; w];
   x ← Layer_forward training (BatchNorm2d 64) x;
   x ← Layer_forward training ReLU x;
   x ← Layer_forward training (Conv2d 64 64 3 2 1) x;
   x ← Layer_forward training (BatchNorm2d 64) x;
   x ← Layer_forward training ReLU x;
   K x)
  = K [bs; 64; ceil_div_pow2 h 2; ceil_div_pow2 w 2].
Proof.
  intros Hbatch Hh Hw.
  rewrite Layer_forward_Conv2d, conv2d_forward_fits, bind_Ok_l by lia.
  rewrite Layer_forward_BatchNorm2d, batchnorm2d_forward_fits, bind_Ok_l by done.
  change (Layer_forward training ReLU ?x) with (Ok x). rewrite bind_Ok_l.
  pose proof (conv_out_pos h 3 2 1). pose proof (conv_out_pos w 3 2 1).
  rewrite Layer_forward_Conv2d, conv2d_forward_fits, bind_Ok_l by lia.
  rewrite Layer_forward_BatchNorm2d, batchnorm2d_forward_fits, !bind_Ok_l by done.
  by rewrite !ceil_div_pow2_stem by lia.
Qed.

(** The backbone that the constructor has built. *)
Lemma TransActionH_init_backbone {training : bool} (cfg : Cfg) (model : TransActionH Shape) :
  TransActionH_init training cfg = Ok model ->
  exists chans2 chans3 tl1 ms2 pre2 tl2 ms3 pre3 c0,
    stage_channels (STAGE2 cfg) = Ok chans2
    /\ stage_channels (STAGE3 cfg) = Ok chans3
    /\ _make_transition_layer [256] chans2 = Ok tl1
    /\ _make_stage (STAGE2 cfg) chans2 true true = Ok (ms2, pre2)
    /\ _make_transition_layer pre2 chans3 = Ok tl2
    /\ _make_stage (STAGE3 cfg) chans3 true false = Ok (ms3, pre3)
    /\ getitem pre3 0 = Ok c0
    /\ conv1 model = Layer_forward training (Conv2d 3 64 3 2 1)
    /\ bn1 model = Layer_forward training (BatchNorm2d 64)
    /\ conv2 model = Layer_forward training (Conv2d 64 64 3 2 1)
    /\ bn2 model = Layer_forward training (BatchNorm2d 64)
    /\ relu model = Layer_forward training ReLU
    /\ layer1 model = Layer_forward training (_make_layer 64 Bottleneck 64 4 1).1
    /\ stage2_cfg model = STAGE2 cfg
    /\ transition1 model = map (option_map (Layer_forward training)) tl1
    /\ stage2 model = stage_forward training ms2
    /\ stage3_cfg model = STAGE3 cfg
    /\ transition2 model = map (option_map (Layer_forward training)) tl2
    /\ stage3 model = stage_forward training ms3
    /\ reduce model = Layer_forward training (Conv2d c0 (DIM_MODEL cfg) 1 1 0).
Proof.
  intros Hinit.
  destruct (TransActionH_init_built cfg model Hinit)
    as (chans2 & chans3 & tl1 & ms2 & pre2 & tl2 & ms3 & pre3 & c0 & ? & ? & ?
        & Hc2 & Hc3 & Htl1 & Hst2 & Htl2 & Hst3 & Hc0 & _ & _ & _ & ->).
  exists chans2, chans3, tl1, ms2, pre2, tl2, ms3, pre3, c0. repeat split; done.
Qed.

Lemma stage_channels_Ok (layer_config : StageCfg) (chans : list nat) :
  stage_channels layer_config = Ok chans ->
  exists block, blocks_dict (BLOCK layer_config) = Ok block
                /\ chans = map (fun c => c * expansion block) (NUM_CHANNELS layer_config).
Proof.
  unfold stage_channels. intros H. apply bind_Ok in H as (block & Hb & [= <-]). eauto.
Qed.

(** The channels that a stage of [TransActionH] returns are the ones it
    receives. *)
Lemma _make_stage_same_channels {training : bool} (layer_config : StageCfg) (chans : list nat)
  (multi_scale_output with_fusion : bool) (ms : list HighResolutionModule) (oc : list nat)
  (n a b : nat) :
  stage_channels layer_config = Ok chans ->
  _make_stage layer_config chans multi_scale_output with_fusion = Ok (ms, oc) ->
  1 <= a -> 1 <= b -> batch_ok training n ->
  oc = chans /\ stage_forward training ms (pyramid n chans a b) = Ok (pyramid n chans a b).
Proof.
  intros Hc Hst Ha Hb Hbatch.
  destruct (_make_stage_Ok _ _ _ _ _ _ n a b Hst Ha Hb Hbatch)
    as (_ & _ & (block & Hb1 & Hoc) & Hfwd).
  destruct (stage_channels_Ok _ _ Hc) as (block' & Hb2 & ->).
  assert (block' = block) as -> by congruence.
  assert (oc = map (fun c => c * expansion block) (NUM_CHANNELS layer_config)) as ->.
  { by destruct (NUM_MODULES layer_config =? 0). }
  done.
Qed.

Lemma backbone_of_init {training : bool} (cfg : Cfg) (model : TransActionH Shape)
  (chans2 chans3 : list nat) (n h w a b : nat) :
  TransActionH_init training cfg = Ok model ->
  stage_channels (STAGE2 cfg) = Ok chans2 ->
  stage_channels (STAGE3 cfg) = Ok chans3 ->
  1 <= NUM_MODULES (STAGE2 cfg) -> 1 <= NUM_MODULES (STAGE3 cfg) ->
  chans2 <> [] -> length chans2 <= length chans3 ->
  (forall i, i + 1 < length chans2 -> chans3 !! i = chans2 !! i) ->
  1 <= a -> 1 <= b ->
  ceil_div_pow2 h 2 = 2 ^ (length chans3 - 1) * a ->
  ceil_div_pow2 w 2 = 2 ^ (length chans3 - 1) * b ->
  batch_ok training n ->
  backbone model [n; 3; h; w] = Ok (pyramid n chans3 a b).
Proof.
  intros Hinit Hc2 Hc3 Hm2 Hm3 Hne Hlen Hsame Ha Hb Hh Hw Hbatch.
  destruct (TransActionH_init_backbone cfg model Hinit)
    as (chans2' & chans3' & tl1 & ms2 & pre2 & tl2 & ms3 & pre3 & c0
        & Hc2' & Hc3' & Htl1 & Hst2 & Htl2 & Hst3 & _
        & Hconv1 & Hbn1 & Hconv2 & Hbn2 & Hrelu & Hlayer1 & Hcfg2 & Ht1 & Hs2
        & Hcfg3 & Ht2 & Hs3 & _).
  assert (chans2' = chans2) as -> by congruence.
  assert (chans3' = chans3) as -> by congruence.
  set (k := length chans3 - length chans2).
  assert (HA : 1 <= 2 ^ k * a) by (pose proof (pow2_pos k); nia).
  assert (HB : 1 <= 2 ^ k * b) by (pose proof (pow2_pos k); nia).
  assert (Hp : 1 <= length chans2) by (destruct chans2; [done | simpl; lia]).
  destruct (_make_stage_same_channels _ _ _ _ _ _ n (2 ^ k * a) (2 ^ k * b)
              Hc2 Hst2 HA HB Hbatch)
    as (-> & Hfwd2).
  destruct (_make_stage_same_channels _ _ _ _ _ _ n a b Hc3 Hst3 Ha Hb Hbatch)
    as (-> & Hfwd3).
  destruct (_make_stage_branches _ _ _ _ _ Hst2 Hm2) as (Hnb2 & _).
  destruct (_make_stage_branches _ _ _ _ _ Hst3 Hm3) as (Hnb3 & _).
  assert (Hsize : forall x, 2 ^ (length chans3 - 1) * x = level (length chans2) 0 (2 ^ k * x)).
  { intros x. unfold level, k. rewrite Nat.mul_assoc, <- Nat.pow_add_r. do 2 f_equal. lia. }
  assert (1 <= h).
  { eapply ceil_div_pow2_nonzero; [exact Hh|]. pose proof (pow2_pos (length chans3 - 1)). nia. }
  assert (1 <= w).
  { eapply ceil_div_pow2_nonzero; [exact Hw|]. pose proof (pow2_pos (length chans3 - 1)). nia. }
  unfold backbone. rewrite Hconv1, Hbn1, Hconv2, Hbn2, Hrelu, Hlayer1, Hs2, Hs3.
  rewrite (stem_forward _ n h w) by done.
  rewrite Hh, Hw, !Hsize.
  rewrite example_layer1_ok, bind_Ok_l by (done || by apply level_pos).
  rewrite (transition1_forward_pyramid (training := training) model 256 chans2 tl1), bind_Ok_l;
    [|done|done|by rewrite Hcfg2|done|done|done].
  rewrite Hfwd2, bind_Ok_l.
  rewrite (transition2_forward_pyramid (training := training) model chans2 chans3 tl2),
    bind_Ok_l;
    [|done|done|by rewrite Hcfg3|done..].
  exact Hfwd3.
Qed.

(** The backbone of a network that the constructor has built, for any
    configuration whose stages have at least one module: when stage 3 keeps
    the channels of the branches of stage 2 (but possibly the last) and the
    quarter of the image size is [2 ^ (branches - 1)] times [a] by [b], the
    feature maps that leave stage 3 form the resolution pyramid with the
    channels of stage 3 whose coarsest map is [a] by [b].  This holds on
    every batch in evaluation mode and on the batches of at least two images
    in training mode. *)
Theorem backbone_pyramid (training : bool) (cfg : Cfg) (model : TransActionH Shape)
  (chans2 chans3 : list nat) (n h w a b : nat) :
  TransActionH_init training cfg = Ok model ->
  stage_channels (STAGE2 cfg) = Ok chans2 ->
  stage_channels (STAGE3 cfg) = Ok chans3 ->
  1 <= NUM_MODULES (STAGE2 cfg) -> 1 <= NUM_MODULES (STAGE3 cfg) ->
  chans2 <> [] -> length chans2 <= length chans3 ->
  (forall i, i + 1 < length chans2 -> chans3 !! i = chans2 !! i) ->
  1 <= a -> 1 <= b ->
  ceil_div_pow2 h 2 = 2 ^ (length chans3 - 1) * a ->
  ceil_div_pow2 w 2 = 2 ^ (length chans3 - 1) * b ->
  training = false \/ 2 <= n ->
  backbone model [n; 3; h; w] = Ok (pyramid n chans3 a b)
  /\ length (pyramid n chans3 a b) = Z.to_nat (NUM_BRANCHES (STAGE3 cfg))
  /\ pyramid n chans3 a b !! 0
     = Some [n; default 0 (chans3 !! 0); ceil_div_pow2 h 2; ceil_div_pow2 w 2].
Proof.
  intros Hinit Hc2 Hc3 Hm2 Hm3 Hne Hlen Hsame Ha Hb Hh Hw Hbatch.
  split; [by apply (backbone_of_init (training := training) cfg model chans2 chans3)|].
  destruct (TransActionH_init_backbone cfg model Hinit)
    as (? & chans3' & ? & ? & ? & ? & ms3 & pre3 & ? & _ & Hc3' & _ & _ & _ & Hst3 & _).
  assert (chans3' = chans3) as -> by congruence.
  destruct (_make_stage_branches _ _ _ _ _ Hst3 Hm3) as (Hnb3 & _).
  split.
  - rewrite length_pyramid, Hnb3. unfold len. by rewrite Nat2Z.id.
  - destruct chans3 as [|c0 cs] eqn:E; [destruct chans2; [done | simpl in Hlen; lia]|].
    rewrite <- E. rewrite (pyramid_lookup n chans3 a b 0 c0) by by rewrite E.
    rewrite Hh, Hw, E. unfold level. cbn [lookup list_lookup default length].
    by rewrite !Nat.sub_0_r.
Qed.

Lemma backbone_pyramid_witness :
  exists model,
    TransActionH_init true four_branch_cfg = Ok model
    /\ backbone model [2; 3; 256; 192] = Ok (pyramid 2 [32; 96; 192; 384] 8 6)
    /\ pyramid 2 [32; 96; 192; 384] 8 6 !! 0 = Some [2; 32; 64; 48].
Proof.
  destruct (TransActionH_init true four_branch_cfg) as [model|e] eqn:Hinit;
    [|by vm_compute in Hinit].
  exists model. split; [reflexivity|].
  destruct (backbone_pyramid true four_branch_cfg model [32; 64] [32; 96; 192; 384]
              2 256 192 8 6 Hinit) as (Hback & _ & H0); try done; try (simpl; lia).
  intros [|i] Hi; [done | simpl in Hi; lia].
Defined.

(** ** The transformer encoder on shapes *)

Lemma linear_forward_last (i o L n : nat) : linear_forward i o [L; n; i] = Ok [L; n; o].
Proof. unfold linear_forward. cbn [rev app]. by rewrite Nat.eqb_refl. Qed.

Lemma layernorm_forward_last (d L n : nat) : layernorm_forward d [L; n; d] = Ok [L; n; d].
Proof. unfold layernorm_forward. cbn [rev app]. by rewrite Nat.eqb_refl. Qed.

Lemma with_pos_embed_fits (L n d : nat) (pos : option Shape) :
  pos_fits L n d pos -> with_pos_embed shape_add [L; n; d] pos = Ok [L; n; d].
Proof.
  intros [-> | [-> | ->]]; [reflexivity | apply shape_add_pos | apply shape_add_same].
Qed.

Lemma multihead_attention_forward_self (d L n : nat) :
  multihead_attention_forward d [L; n; d] [L; n; d] [L; n; d] None None
  = Ok ([L; n; d], [n; L; L]).
Proof. unfold multihead_attention_forward. by rewrite !Nat.eqb_refl. Qed.

(** A layer keeps the shape (L, N, E), in the post-norm and in the pre-norm
    form; its attention map has the shape (N, L, L). *)
Lemma TransformerEncoderLayer_forward_shape (d nhead ff : nat) (nb ram : bool)
  (layer : TransformerEncoderLayer Shape) (L n : nat) (pos : option Shape) :
  TransformerEncoderLayer_init d nhead ff nb ram = Ok layer ->
  pos_fits L n d pos ->
  TransformerEncoderLayer_forward shape_add layer [L; n; d] None None pos
  = Ok (if ram then OutMap [L; n; d] [n; L; L] else Out [L; n; d]).
Proof.
  intros Hinit Hpos. apply TransformerEncoderLayer_init_Ok in Hinit as (_ & _ & ->).
  unfold TransformerEncoderLayer_forward.
  cbn [normalize_before]. destruct nb.
  - unfold forward_pre.
    cbn [return_atten_map self_attn linear1 linear2 dropout dropout1 dropout2 norm1 norm2
         activation].
    rewrite layernorm_forward_last, bind_Ok_l.
    rewrite with_pos_embed_fits, bind_Ok_l by done.
    rewrite multihead_attention_forward_self, bind_Ok_l.
    cbn [mbind res_bind]. rewrite shape_add_same, bind_Ok_l.
    rewrite layernorm_forward_last, bind_Ok_l, linear_forward_last, bind_Ok_l.
    cbn [mbind res_bind]. rewrite linear_forward_last, bind_Ok_l.
    cbn [mbind res_bind]. rewrite shape_add_same, bind_Ok_l. by destruct ram.
  - unfold forward_post.
    cbn [return_atten_map self_attn linear1 linear2 dropout dropout1 dropout2 norm1 norm2
         activation].
    rewrite with_pos_embed_fits, bind_Ok_l by done.
    rewrite multihead_attention_forward_self, bind_Ok_l.
    cbn [mbind res_bind]. rewrite shape_add_same, bind_Ok_l.
    rewrite layernorm_forward_last, bind_Ok_l, linear_forward_last, bind_Ok_l.
    cbn [mbind res_bind]. rewrite linear_forward_last, bind_Ok_l.
    cbn [mbind res_bind]. rewrite shape_add_same, bind_Ok_l.
    rewrite layernorm_forward_last, bind_Ok_l. by destruct ram.
Qed.

Lemma encoder_step_shape (d nhead ff : nat) (nb ram pe_begin : bool)
  (layer : TransformerEncoderLayer Shape) (self : TransformerEncoder Shape)
  (L n : nat) (pos : option Shape) (maps : list Shape) :
  TransformerEncoderLayer_init d nhead ff nb ram = Ok layer ->
  pe_only_at_begin self = pe_begin -> encoder_return_atten_map self = ram ->
  pos_fits L n d pos ->
  encoder_step shape_add self None None ([L; n; d], maps, pos) layer
  = Ok ([L; n; d], (if ram then maps ++ [[n; L; L]] else maps),
        if pe_begin then None else pos).
Proof.
  intros Hinit Hpe Hram Hpos. unfold encoder_step.
  rewrite (TransformerEncoderLayer_forward_shape d nhead ff nb ram layer L n pos) by done.
  rewrite bind_Ok_l, Hpe, Hram. by destruct ram.
Qed.

(** The loop of [TransformerEncoder.forward] over [k] copies of a layer. *)
Lemma encoder_loop_shape (d nhead ff : nat) (nb ram pe_begin : bool)
  (layer : TransformerEncoderLayer Shape) (self : TransformerEncoder Shape)
  (L n k : nat) (pos : option Shape) (maps : list Shape) :
  TransformerEncoderLayer_init d nhead ff nb ram = Ok layer ->
  pe_only_at_begin self = pe_begin -> encoder_return_atten_map self = ram ->
  pos_fits L n d pos ->
  foldM (encoder_step shape_add self None None) ([L; n; d], maps, pos) (replicate k layer)
  = Ok ([L; n; d],
        maps ++ (if ram then replicate k [n; L; L] else []),
        if pe_begin && (0 <? k) then None else pos).
Proof.
  intros Hinit Hpe Hram. revert pos maps.
  induction k as [|k IH]; intros pos maps Hpos.
  - simpl. rewrite andb_false_r. destruct ram; by rewrite app_nil_r.
  - cbn [replicate]. rewrite foldM_cons.
    rewrite (encoder_step_shape d nhead ff nb ram pe_begin layer self L n pos maps) by done.
    rewrite bind_Ok_l.
    assert (Hpos' : pos_fits L n d (if pe_begin then None else pos)).
    { destruct pe_begin; [by left | done]. }
    rewrite (IH _ _ Hpos'). f_equal. f_equal; [f_equal|].
    + destruct ram; [|done]. by rewrite <- app_assoc.
    + destruct pe_begin; simpl; [by destruct (0 <? k) | done].
Qed.

(** The encoders of the network: the output has the shape of the input. *)
Lemma encoder_call_shape (d nhead ff k L n : nat) (layer : TransformerEncoderLayer Shape)
  (pos : option Shape) :
  TransformerEncoderLayer_init d nhead ff false false = Ok layer ->
  pos_fits L n d pos ->
  encoder_call shape_add (TransformerEncoder_init layer k None false false) [L; n; d] pos
  = Ok [L; n; d].
Proof.
  intros Hinit Hpos. unfold encoder_call, TransformerEncoder_forward.
  cbn [layers TransformerEncoder_init _get_clones].
  rewrite (encoder_loop_shape d nhead ff false false false layer _ L n k pos []) by done.
  reflexivity.
Qed.

(** An encoder of [num_layers] copies of a layer built for the dimension
    [d_model] keeps the shape (L, N, [d_model]) of its input, whatever the
    number of layers and of heads, in post-norm and pre-norm form, with or
    without a final [LayerNorm], with the position embedding in every layer
    or in the first one only; with [return_atten_map] (and at least one
    layer, [torch.stack] needs a map) it also collects one attention map of
    shape (N, L, L) per layer. *)
Theorem TransformerEncoder_forward_shape (d_model nhead dim_feedforward num_layers : nat)
  (normalize_before' return_atten_map' pe_only_at_begin' : bool)
  (norm : option (Shape -> res Shape)) (layer : TransformerEncoderLayer Shape)
  (L n : nat) (pos : option Shape) :
  TransformerEncoderLayer_init d_model nhead dim_feedforward normalize_before'
    return_atten_map' = Ok layer ->
  norm = None \/ norm = Some (layernorm_forward d_model) ->
  pos_fits L n d_model pos ->
  (return_atten_map' = true -> 1 <= num_layers) ->
  TransformerEncoder_forward shape_add
    (TransformerEncoder_init layer num_layers norm pe_only_at_begin' return_atten_map')
    [L; n; d_model] None None pos
  = Ok ([L; n; d_model],
        if return_atten_map' then Some (replicate num_layers [n; L; L]) else None).
Proof.
  intros Hinit Hnorm Hpos Hlayers. unfold TransformerEncoder_forward.
  cbn [layers TransformerEncoder_init _get_clones encoder_norm encoder_return_atten_map].
  rewrite (encoder_loop_shape d_model nhead dim_feedforward normalize_before'
             return_atten_map' pe_only_at_begin' layer _ L n num_layers pos []) by done.
  rewrite bind_Ok_l. cbv beta iota.
  destruct Hnorm as [-> | ->]; rewrite ?layernorm_forward_last, bind_Ok_l;
    (destruct return_atten_map'; [|done]);
    (destruct num_layers as [|k]; [specialize (Hlayers eq_refl); lia | done]).
Qed.

Lemma TransformerEncoder_forward_shape_witness :
  exists layer,
    TransformerEncoderLayer_init 64 8 128 true true = Ok layer
    /\ TransformerEncoder_forward shape_add
         (TransformerEncoder_init layer 3 (Some (layernorm_forward 64)) true true)
         [12; 2; 64] None None (Some [12; 1; 64])
       = Ok ([12; 2; 64], Some [[2; 12; 12]; [2; 12; 12]; [2; 12; 12]]).
Proof.
  eexists. split; [reflexivity|].
  apply (TransformerEncoder_forward_shape 64 8 128 3 true true true
           (Some (layernorm_forward 64)) _ 12 2 (Some [12; 1; 64]));
    [reflexivity | by right | by right; left | lia].
Defined.

(** ** [forward] on a network built by the constructor *)

Lemma encoder_call_no_layers {T} (add : T -> T -> res T) (layer : TransformerEncoderLayer T)
  (x : T) (pos : option T) :
  encoder_call add (TransformerEncoder_init layer 0 None false false) x pos = Ok x.
Proof. reflexivity. Qed.

Lemma _make_position_embedding_fits (w0 h0 : nat) (pos : string) (pe : option Shape)
  (L n : nat) :
  _make_position_embedding w0 h0 96 pos = Ok pe ->
  pos = "none" \/ (h0 / 4) * (w0 / 4) = L ->
  pos_fits L n 96 pe.
Proof.
  intros Hpe Harea.
  assert (Hin : pos ∈ ["none"; "learnable"; "sine"]).
  { unfold _make_position_embedding in Hpe.
    destruct (bool_decide (pos ∈ ["none"; "learnable"; "sine"])) eqn:E; [|discriminate].
    by apply bool_decide_eq_true in E. }
  rewrite (example_make_position_embedding w0 h0 pos Hin) in Hpe. injection Hpe as <-.
  unfold example_pos_embedding. destruct Harea as [-> | <-]; [by left|].
  destruct (String.eqb pos "none"); [by left | by right; left].
Qed.

(** For every configuration that the constructor accepts, whose stages have
    a module, whose stage 3 keeps the channels of the branches of stage 2
    (but possibly the last) and has 96 and 192 channels in its second and
    third branch, with a model dimension of 96 (for the action encoder too,
    unless it has no layer) and a final convolution of kernel 1 or 3: in
    evaluation mode on every batch, and in training mode on every batch of
    at least two images, when the quarter size of the images, rounded up, is
    [2 ^ (branches - 1)] times a positive size and, with a position
    embedding, has the area of the quarter of [IMAGE_SIZE], [forward]
    returns heatmaps of shape (batch, [NUM_JOINTS], ceil(height / 4),
    ceil(width / 4)) and action scores of shape (batch, [NUM_CLASSES]);
    [get_max_preds] is assumed to find at least 17 joints per batch
    element. *)
Theorem TransActionH_forward_returns (training : bool)
  (get_max_preds : Shape -> res (list (list vec) * list (list R)))
  (cfg : Cfg) (model : TransActionH Shape) (chans2 chans3 : list nat)
  (n h w a b : nat) (preds : list (list vec)) (maxvals : list (list R)) :
  TransActionH_init training cfg = Ok model ->
  training = false \/ 2 <= n ->
  stage_channels (STAGE2 cfg) = Ok chans2 ->
  stage_channels (STAGE3 cfg) = Ok chans3 ->
  1 <= NUM_MODULES (STAGE2 cfg) -> 1 <= NUM_MODULES (STAGE3 cfg) ->
  chans2 <> [] -> length chans2 <= length chans3 ->
  (forall i, i + 1 < length chans2 -> chans3 !! i = chans2 !! i) ->
  chans3 !! 1 = Some 96 -> chans3 !! 2 = Some 192 ->
  DIM_MODEL cfg = 96 ->
  DIM_MODEL_ACTION cfg = 96 \/ ENCODER_LAYERS_ACTION cfg = 0 ->
  FINAL_CONV_KERNEL cfg = 1 \/ FINAL_CONV_KERNEL cfg = 3 ->
  1 <= a -> 1 <= b ->
  ceil_div_pow2 h 2 = 2 ^ (length chans3 - 1) * a ->
  ceil_div_pow2 w 2 = 2 ^ (length chans3 - 1) * b ->
  POS_EMBEDDING cfg = "none"
  \/ ((IMAGE_SIZE cfg).2 / 4) * ((IMAGE_SIZE cfg).1 / 4)
     = ceil_div_pow2 h 2 * ceil_div_pow2 w 2 ->
  get_max_preds [n; NUM_JOINTS cfg; ceil_div_pow2 h 2; ceil_div_pow2 w 2]
  = Ok (preds, maxvals) ->
  length preds <= length maxvals ->
  Forall (fun preds_b => 17 <= length preds_b) preds ->
  Forall (fun maxvals_b => 17 <= length maxvals_b) maxvals ->
  TransActionH_forward (shape_ops get_max_preds) model [n; 3; h; w]
  = Ok ([n; NUM_JOINTS cfg; ceil_div_pow2 h 2; ceil_div_pow2 w 2], [n; NUM_CLASSES cfg]).
Proof.
  intros Hinit Hbatch Hc2 Hc3 Hm2 Hm3 Hne Hlen Hsame H96 H192 Hd Hda Hk Ha Hb Hh Hw Harea
    Hgmp Hpm Hp Hm.
  pose proof (backbone_of_init cfg model chans2 chans3 n h w a b Hinit Hc2 Hc3 Hm2 Hm3 Hne
                Hlen Hsame Ha Hb Hh Hw Hbatch) as Hback.
  destruct (TransActionH_init_built cfg model Hinit)
    as (chans2' & chans3' & tl1 & ms2 & pre2 & tl2 & ms3 & pre3 & c0 & pe & layer
        & layer_action & _ & Hc3' & _ & _ & _ & Hst3 & Hc0 & Hpe & Hlayer & Hlayer_action
        & Hmodel).
  assert (chans3' = chans3) as -> by congruence.
  destruct (_make_stage_same_channels _ _ _ _ _ _ n a b Hc3 Hst3 Ha Hb Hbatch)
    as (-> & _).
  apply getitem_Ok in Hc0.
  set (H4 := ceil_div_pow2 h 2) in *. set (W4 := ceil_div_pow2 w 2) in *.
  assert (HH4 : 1 <= H4) by (pose proof (pow2_pos (length chans3 - 1)); nia).
  assert (HW4 : 1 <= W4) by (pose proof (pow2_pos (length chans3 - 1)); nia).
  assert (Hy0 : @getitem Shape (pyramid n chans3 a b) 0 = Ok [n; c0; H4; W4]).
  { rewrite (getitem_pyramid _ _ _ _ _ _ Hc0), Hh, Hw. unfold level.
    by rewrite !Nat.sub_0_r. }
  rewrite Hd in *.
  assert (Hpos : pos_fits (H4 * (W4 * 1)) n 96 pe).
  { apply (_make_position_embedding_fits _ _ _ _ _ _ Hpe).
    destruct Harea as [? | Harea]; [by left | right]. rewrite Harea. lia. }
  assert (Hunflatten : unflatten (shape_ops get_max_preds) (n, 96, H4, W4)
                         [H4 * (W4 * 1); n; 96] = Ok [n; 96; H4; W4]).
  { unfold unflatten.
    change (permute (shape_ops get_max_preds) [1; 2; 0] [H4 * (W4 * 1); n; 96])
      with (Ok [n; 96; H4 * (W4 * 1)]).
    rewrite bind_Ok_l. change (view (shape_ops get_max_preds)) with shape_view.
    unfold shape_view.
    assert (numel [n; 96; H4; W4] = numel [n; 96; H4 * (W4 * 1)]) as ->.
    { unfold numel. cbn [foldr]. lia. }
    by rewrite Nat.eqb_refl. }
  destruct (get_pose_vectors_total preds maxvals Hpm Hp Hm) as (angles & Hangles & _).
  apply forward_Ok.
  exists (pyramid n chans3 a b), [H4 * (W4 * 1); n; 96], (n, 96, H4, W4), angles,
    [n; NUM_CLASSES cfg], [length angles; NUM_CLASSES cfg].
  split; [exact Hback|]. clear Hback. subst model.
  split; [|split; [|split; [|split; [|split]]]].
  - (* the input of the encoders *)
    unfold encoder_input. rewrite Hy0, bind_Ok_l. cbn [reduce].
    rewrite Layer_forward_Conv2d, conv_1x1_forward, bind_Ok_l by done.
    reflexivity.
  - (* the pose head *)
    unfold pose_head. cbn [global_encoder pos_embedding final_layer].
    rewrite (encoder_call_shape 96 (N_HEAD cfg) (DIM_FEEDFORWARD cfg)) by done.
    rewrite bind_Ok_l, Hunflatten, bind_Ok_l, Layer_forward_Conv2d.
    destruct Hk as [-> | ->]; [by apply conv_1x1_forward | by apply conv_3x3_forward].
  - change (get_max_preds [n; NUM_JOINTS cfg; H4; W4]
            ≫= (fun pm => get_pose_vectors pm.1 pm.2) = Ok angles).
    by rewrite Hgmp.
  - (* the transformer action head *)
    unfold transformer_action_head.
    cbn [global_encoder_action pos_embedding action_encoder_branch_part1
         action_encoder_branch_part2].
    assert (Henc : encoder_call shape_add
                     (TransformerEncoder_init layer_action (ENCODER_LAYERS_ACTION cfg) None
                        false false) [H4 * (W4 * 1); n; 96] pe
                   = Ok [H4 * (W4 * 1); n; 96]).
    { destruct Hda as [Hda | ->]; [|apply encoder_call_no_layers].
      rewrite Hda in Hlayer_action.
      by apply (encoder_call_shape 96 (N_HEAD_ACTION cfg) (DIM_FEEDFORWARD_ACTION cfg)). }
    rewrite Henc, bind_Ok_l, Hunflatten, bind_Ok_l.
    change (Sequential [Conv2d 96 (96 * 2) 1 1 0; BatchNorm2d 192; ReLU; MaxPool2d 3 2 1;
                        AdaptiveAvgPool2d 1 1])
      with (example_pooled_head (Conv2d 96 192 1 1 0)).
    rewrite example_pooled_head_1x1, bind_Ok_l by done.
    reflexivity.
  - (* the pooled branches *)
    unfold concat_head.
    cbn [action_hrnet_features_branch_96 action_hrnet_features_branch_192
         action_hrnet_features_branch_concat].
    rewrite (getitem_pyramid _ _ _ _ _ _ H96), bind_Ok_l.
    rewrite (getitem_pyramid _ _ _ _ _ _ H192).
    change (Sequential [Conv2d 96 192 1 1 0; BatchNorm2d 192; ReLU; MaxPool2d 3 2 1;
                        AdaptiveAvgPool2d 1 1])
      with (example_pooled_head (Conv2d 96 192 1 1 0)).
    change (Sequential [Conv2d 192 192 3 2 1; BatchNorm2d 192; ReLU; MaxPool2d 3 2 1;
                        AdaptiveAvgPool2d 1 1])
      with (example_pooled_head (Conv2d 192 192 3 2 1)).
    rewrite example_pooled_head_1x1, bind_Ok_l by (done || by apply level_pos).
    change (flatten (shape_ops get_max_preds) 1 [n; 192; 1; 1]) with (Ok [n; 192]).
    rewrite !bind_Ok_l.
    rewrite example_pooled_head_3x3, bind_Ok_l by (done || by apply level_pos).
    change (flatten (shape_ops get_max_preds) 1 [n; 192; 1; 1]) with (Ok [n; 192]).
    rewrite bind_Ok_l.
    change (cat (shape_ops get_max_preds)) with shape_cat. unfold shape_cat.
    cbn [getitem lookup list_lookup mbind res_bind].
    destruct (decide _) as [_|Hne']; [|done].
    reflexivity.
  - reflexivity.
Qed.

Lemma TransActionH_forward_returns_witness :
  exists model,
    TransActionH_init true four_branch_cfg = Ok model
    /\ TransActionH_forward (shape_ops example_get_max_preds) model [2; 3; 256; 192]
       = Ok ([2; 17; 64; 48], [2; 11]).
Proof.
  destruct (TransActionH_init true four_branch_cfg) as [model|e] eqn:Hinit;
    [|by vm_compute in Hinit].
  exists model. split; [reflexivity|].
  destruct (example_get_max_preds_Ok 2 17 64 48)
    as (preds & maxvals & Hgmp & _ & Hlen & Hp & Hm); [lia|].
  apply (TransActionH_forward_returns true example_get_max_preds four_branch_cfg model
           [32; 64] [32; 96; 192; 384] 2 256 192 8 6 preds maxvals);
    try done; try (simpl; lia).
  intros [|i] Hi; [done | simpl in Hi; lia].
Defined.

(** ** [get_pose_vectors] without a confident joint *)

Lemma elem_of_enumerate {A} (l : list A) (n : nat) (a : A) :
  (n, a) ∈ enumerate l -> a ∈ l.
Proof. unfold enumerate. apply elem_of_zip_r. Qed.

Lemma elem_of_removelast {A} (l : list A) (a : A) : a ∈ removelast l -> a ∈ l.
Proof.
  destruct l as [|x l] using rev_ind; [done|].
  rewrite removelast_last. intros H. apply elem_of_app. by left.
Qed.

Lemma elem_of_drop {A} (l : list A) (k : nat) (a : A) : a ∈ drop k l -> a ∈ l.
Proof. intros H. rewrite <- (take_drop k l). apply elem_of_app. by right. Qed.

Lemma Rgeb_true_inv (x y : R) : Rgeb x y = true -> (x >= y)%R.
Proof. unfold Rgeb. by destruct (Rge_dec x y). Qed.

Lemma Reqb_false_inv (x y : R) : Reqb x y = false -> x <> y.
Proof. unfold Reqb. by destruct (Req_dec_T x y). Qed.

(** A property of the zero vector and of every vector that an iteration
    stores holds for all of [vectors[batch]]. *)
Lemma limb_vectors_Forall (P : vec -> Prop) (preds_b : list vec) (maxvals_b : list R)
  (vectors : list vec) :
  P (0%R, 0%R) ->
  (forall p q c, c ∈ maxvals_b -> (c >= 0.4)%R -> norm (vsub p q) <> 0%R ->
     P (vdiv (vsub p q) (norm (vsub p q)))) ->
  limb_vectors preds_b maxvals_b = Ok vectors ->
  Forall P vectors.
Proof.
  intros H0 Hstore Hrun. rewrite limb_vectors_run_pairs in Hrun.
  apply bind_Ok in Hrun as (st & Hrun & [= <-]).
  unfold run_pairs in Hrun.
  eapply (foldM_preserves (fun st : Z * list vec => Forall P st.2)); [| |exact Hrun].
  - cbn [snd]. by apply Forall_replicate.
  - intros [idx vs] [[n i] j] [idx' vs'] _ Hvs Hstep. simpl in *.
    unfold limb_step in Hstep. simpl in Hstep.
    apply bind_Ok in Hstep as (mn & Hmn & Hstep). apply getitem_Ok in Hmn.
    destruct (Rgeb mn 0.4) eqn:Hge; [|by injection Hstep as <- <-].
    apply bind_Ok in Hstep as (mj & _ & Hstep).
    destruct (Rgeb mj 0.4); [|by injection Hstep as <- <-].
    apply bind_Ok in Hstep as (p_i & _ & Hstep).
    apply bind_Ok in Hstep as (p_j & _ & Hstep).
    destruct (Reqb (norm (vsub p_i p_j)) 0) eqn:Hz; simpl in Hstep;
      [by injection Hstep as <- <-|].
    apply bind_Ok in Hstep as (vs1 & Hset & [= <- <-]).
    apply setitem_Ok in Hset as [_ ->].
    apply Forall_insert; [done|].
    apply (Hstore p_i p_j mn).
    + by eapply list_elem_of_lookup_2.
    + by apply Rgeb_true_inv.
    + by apply Reqb_false_inv.
Qed.

(** A property of 0 and of the inner product of any two stored vectors
    holds for all of [angles[batch]]. *)
Lemma limb_angles_Forall (P : vec -> Prop) (Q : R -> Prop) (vectors_b : list vec)
  (angles : list R) :
  Forall P vectors_b -> Q 0%R ->
  (forall v1 v2, P v1 -> P v2 -> Q (inner v1 v2)) ->
  limb_angles vectors_b = Ok angles ->
  Forall Q angles.
Proof.
  intros HP H0 Hinner Hrun. unfold limb_angles in Hrun.
  apply bind_Ok in Hrun as (st & Hrun & [= <-]).
  rewrite Forall_forall in HP.
  eapply (foldM_preserves (fun st : Z * list R => Forall Q st.2)); [| |exact Hrun].
  - cbn [snd]. by apply Forall_replicate.
  - intros st1 [n v1] st2 Hin1 Hst1 Hstep.
    apply elem_of_enumerate, elem_of_removelast in Hin1.
    eapply (foldM_preserves (fun st : Z * list R => Forall Q st.2)); [exact Hst1| |exact Hstep].
    intros [idx a1] [m v2] [idx' a2] Hin2 Ha1 Hstep2. simpl in *.
    apply elem_of_enumerate, elem_of_drop in Hin2.
    apply bind_Ok in Hstep2 as (a3 & Hset & [= <- <-]).
    apply setitem_Ok in Hset as [_ ->].
    apply Forall_insert; [done|]. apply Hinner; by apply HP.
Qed.

Lemma get_pose_vectors_Forall (P : vec -> Prop) (Q : R -> Prop)
  (preds : list (list vec)) (maxvals : list (list R)) (angles : list (list R)) :
  P (0%R, 0%R) ->
  (forall maxvals_b p q c, maxvals_b ∈ maxvals -> c ∈ maxvals_b -> (c >= 0.4)%R ->
     norm (vsub p q) <> 0%R -> P (vdiv (vsub p q) (norm (vsub p q)))) ->
  Q 0%R ->
  (forall v1 v2, P v1 -> P v2 -> Q (inner v1 v2)) ->
  get_pose_vectors preds maxvals = Ok angles ->
  Forall (Forall Q) angles.
Proof.
  intros HP0 Hstore HQ0 Hinner Hrun. unfold get_pose_vectors in Hrun.
  eapply mapM_Forall; [|exact Hrun].
  intros batch angles_b _ Hb. cbv beta in Hb.
  apply bind_Ok in Hb as (preds_b & _ & Hb).
  apply bind_Ok in Hb as (maxvals_b & Hmb & Hb).
  apply bind_Ok in Hb as (vectors_b & Hv & Hb).
  apply getitem_Ok in Hmb.
  apply (limb_angles_Forall P Q vectors_b); try done.
  apply (limb_vectors_Forall P preds_b maxvals_b); try done.
  intros p q c Hc. apply (Hstore maxvals_b); [|done]. by eapply list_elem_of_lookup_2.
Qed.

Lemma Forall_eq_replicate {A} (x : A) (l : list A) :
  Forall (fun y => y = x) l -> l = replicate (length l) x.
Proof. induction 1 as [|y l -> _ IH]; simpl; [done|]. by rewrite <- IH. Qed.

(** When no confidence of a batch reaches the threshold 0.4, no limb vector
    is stored and every returned value is 0. *)
Theorem get_pose_vectors_no_confident_joint (preds : list (list vec))
  (maxvals : list (list R)) :
  length preds <= length maxvals ->
  Forall (fun preds_b => 17 <= length preds_b) preds ->
  Forall (fun maxvals_b => 17 <= length maxvals_b) maxvals ->
  Forall (Forall (fun c => (c < 0.4)%R)) maxvals ->
  get_pose_vectors preds maxvals = Ok (replicate (length preds) (replicate 3003 0%R)).
Proof.
  intros Hlen Hp Hm Hlow.
  destruct (get_pose_vectors_total preds maxvals Hlen Hp Hm) as (angles & Hrun & Hl & Hl').
  rewrite Hrun. f_equal.
  assert (Hzero : Forall (Forall (fun x => x = 0%R)) angles).
  { apply (get_pose_vectors_Forall (fun v => v = (0%R, 0%R)) (fun x => x = 0%R)
             preds maxvals angles); try done.
    - intros maxvals_b p q c Hmb Hc Hge _.
      rewrite Forall_forall in Hlow. specialize (Hlow maxvals_b Hmb).
      rewrite Forall_forall in Hlow. specialize (Hlow c Hc). lra.
    - intros v1 v2 -> ->. unfold inner. simpl. lra. }
  rewrite <- Hl.
  assert (Hrows : Forall (fun row => row = replicate 3003 0%R) angles).
  { rewrite Forall_forall in Hzero, Hl'. apply Forall_forall. intros row Hrow.
    rewrite <- (Hl' row Hrow). apply Forall_eq_replicate. by apply Hzero. }
  by apply Forall_eq_replicate.
Qed.

Lemma get_pose_vectors_no_confident_joint_witness :
  get_pose_vectors [bug_preds] [replicate 17 0%R] = Ok [replicate 3003 0%R].
Proof.
  apply (get_pose_vectors_no_confident_joint [bug_preds] [replicate 17 0%R]).
  - simpl. lia.
  - repeat constructor.
  - repeat constructor.
  - constructor; [|constructor]. apply Forall_replicate. lra.
Defined.

(** ** [init_weights]: which parameters are loaded *)

Section InitWeightsLoad.
Context {W : Type} {W_shape : TensorShape W}.
Implicit Types (fs : gmap string (list (string * W))) (self : Model W).

(** The test of the loop over the checkpoint, for a non-empty
    [pretrained_layers]. *)
Lemma is_pretrained_layer_first self (first name : string) :
  model_pretrained_layers self !! 0 = Some first ->
  is_pretrained_layer self name
  = Ok (bool_decide (split_head name ∈ model_pretrained_layers self)
        && bool_decide (is_Some (model_state_dict self !! name))
        || String.eqb first "*").
Proof.
  intros Hfirst. unfold is_pretrained_layer.
  destruct (_ && _); [done|].
  by rewrite (getitem_fits _ _ _ Hfirst).
Qed.

(** The dictionary [existing_state_dict] after the loop over a checkpoint
    without repeated names. *)
Lemma existing_state_dict_spec self (first : string) (ckpt : list (string * W))
  (acc : gmap string W) :
  model_pretrained_layers self !! 0 = Some first ->
  NoDup (ckpt.*1) ->
  exists e,
    foldM (fun (existing_state_dict : gmap string W) '(name, m) =>
             keep ← is_pretrained_layer self name;
             Ok (if keep : bool then <[name := m]> existing_state_dict
                 else existing_state_dict))
          acc ckpt = Ok e
    /\ forall name,
         e !! name
         = match (list_to_map ckpt : gmap string W) !! name with
           | Some w =>
               if bool_decide (split_head name ∈ model_pretrained_layers self)
                  && bool_decide (is_Some (model_state_dict self !! name))
                  || String.eqb first "*"
               then Some w else acc !! name
           | None => acc !! name
           end.
Proof.
  intros Hfirst. revert acc. induction ckpt as [|[k v] ckpt IH]; intros acc Hnd.
  - exists acc. split; [done|]. intros name. by rewrite list_to_map_nil, lookup_empty.
  - apply NoDup_cons in Hnd as [Hk Hnd]. rewrite foldM_cons.
    rewrite (is_pretrained_layer_first self first k Hfirst), bind_Ok_l.
    set (keep := fun name => bool_decide (split_head name ∈ model_pretrained_layers self)
                             && bool_decide (is_Some (model_state_dict self !! name))
                             || String.eqb first "*").
    destruct (IH (if keep k then <[k := v]> acc else acc) Hnd) as (e & He & Hlookup).
    exists e. split; [exact He|]. intros name. rewrite Hlookup.
    rewrite list_to_map_cons. fold (keep name).
    assert (Hnone : (list_to_map ckpt : gmap string W) !! k = None).
    { by apply not_elem_of_list_to_map. }
    destruct (decide (name = k)) as [->|Hne].
    + rewrite lookup_insert_eq, Hnone.
      destruct (keep k); [by rewrite lookup_insert_eq | done].
    + rewrite lookup_insert_ne by done.
      destruct (list_to_map ckpt !! name); [destruct (keep name); [done|]|];
        destruct (keep k); by rewrite ?lookup_insert_ne.
Qed.

(** [init_weights] on an existing checkpoint whose loaded tensors have the
    shapes of the parameters they replace: a parameter of the model is
    replaced by the checkpoint's tensor of the same name when
    [pretrained_layers] starts with ['*'] or lists the first component of the
    name, and keeps its initialised value otherwise; no parameter is added
    or removed. *)
Theorem init_weights_load fs (init : gmap string W -> gmap string W) self
  (pretrained first : string) (ckpt : list (string * W)) :
  pretrained <> EmptyString ->
  fs !! pretrained = Some ckpt ->
  NoDup (ckpt.*1) ->
  model_pretrained_layers self !! 0 = Some first ->
  (forall name input_param param,
     (list_to_map ckpt : gmap string W) !! name = Some input_param ->
     init (model_state_dict self) !! name = Some param ->
     split_head name ∈ model_pretrained_layers self \/ first = "*" ->
     tensor_shape input_param = tensor_shape param) ->
  exists m,
    init_weights fs init self pretrained = Ok m
    /\ model_pretrained_layers m = model_pretrained_layers self
    /\ forall name,
         model_state_dict m !! name
         = match init (model_state_dict self) !! name with
           | Some w0 =>
               Some (if bool_decide (split_head name ∈ model_pretrained_layers self)
                        || String.eqb first "*"
                     then default w0 ((list_to_map ckpt : gmap string W) !! name)
                     else w0)
           | None => None
           end.
Proof.
  intros Hne Hfile Hnd Hfirst Hfits. unfold init_weights.
  assert (isfile fs pretrained = true) as ->.
  { unfold isfile. destruct (String.eqb_spec pretrained EmptyString); [done|].
    simpl. apply bool_decide_eq_true. by rewrite Hfile. }
  rewrite Hfile. change (default [] (Some ckpt)) with ckpt. cbv zeta.
  destruct (existing_state_dict_spec (initialised init self) first ckpt ∅ Hfirst Hnd)
    as (e & He & Hlookup).
  unfold initialised in He. rewrite He, bind_Ok_l.
  rewrite load_state_dict_fits.
  2:{ intros name input_param param Hin Hp. cbn [model_state_dict] in Hp.
      rewrite Hlookup in Hin. cbn [initialised model_state_dict model_pretrained_layers] in Hin.
      rewrite lookup_empty, Hp in Hin.
      rewrite (bool_decide_eq_true_2 (is_Some (Some param))) in Hin by by eexists.
      rewrite andb_true_r in Hin.
      destruct (list_to_map ckpt !! name) as [w|] eqn:Hw; [|done].
      destruct (bool_decide (split_head name ∈ model_pretrained_layers self)) eqn:Hl.
      - injection Hin as <-. apply (Hfits name w param Hw Hp). left.
        by apply bool_decide_eq_true in Hl.
      - destruct (String.eqb_spec first "*") as [->|]; [|done].
        injection Hin as <-. apply (Hfits name w param Hw Hp). by right. }
  eexists. split; [reflexivity|]. split; [reflexivity|].
  intros name. cbn [model_state_dict].
  rewrite map_lookup_imap.
  destruct (init (model_state_dict self) !! name) as [w0|] eqn:Hw0; [|done].
  cbn [mbind option_bind]. f_equal. rewrite Hlookup. cbn [initialised model_state_dict
    model_pretrained_layers]. rewrite Hw0, lookup_empty.
  rewrite (bool_decide_eq_true_2 (is_Some (Some w0))) by by eexists.
  rewrite andb_true_r.
  destruct (list_to_map ckpt !! name); [|by destruct (_ || _)].
  by destruct (_ || _).
Qed.


End InitWeightsLoad.

Lemma init_weights_load_witness :
  exists m,
    init_weights {[ "w.pth" := [("conv1.weight", 1); ("stage2.bias", 2); ("head.w", 3)] ]}
      (fun state => state)
      {| model_pretrained_layers := ["conv1"; "layer1"];
         model_state_dict := {[ "conv1.weight" := 0; "stage2.bias" := 0 ]} |} "w.pth"
    = Ok m
    /\ model_state_dict m !! "conv1.weight" = Some 1
    /\ model_state_dict m !! "stage2.bias" = Some 0
    /\ model_state_dict m !! "head.w" = None.
Proof.
  destruct (init_weights_load
              ({[ "w.pth" := [("conv1.weight", 1); ("stage2.bias", 2); ("head.w", 3)] ]}
                 : gmap string (list (string * nat)))
              (fun state => state)
              {| model_pretrained_layers := ["conv1"; "layer1"];
                 model_state_dict := {[ "conv1.weight" := 0; "stage2.bias" := 0 ]} |}
              "w.pth" "conv1" [("conv1.weight", 1); ("stage2.bias", 2); ("head.w", 3)])
    as (m & Hm & _ & Hlookup).
  - discriminate.
  - reflexivity.
  - by apply (bool_decide_unpack _).
  - reflexivity.
  - reflexivity.
  - exists m. split; [exact Hm|]. rewrite !Hlookup. repeat split; reflexivity.
Defined.



(** ** The validation loops *)


Lemma accuracy_classification_batch (scores : ndarray2) (target : list Z) :
  0 < ncols scores -> 0 < length (rows scores) -> length (rows scores) = length target ->
  accuracy_classification scores target
  = Ok (finite (inject_Z (Z.of_nat (correct_rows scores target))
                / inject_Z (Z.of_nat (length (rows scores))))).
Proof.
  intros Hc Hr Hlen. unfold accuracy_classification, np_argmax_axis1.
  rewrite Hlen, Nat.eqb_refl. simpl.
  destruct (Nat.eqb_spec (ncols scores) 0) as [|_]; [lia|]. simpl.
  rewrite count_equal_correct_rows. unfold np_true_divide.
  destruct (Z.eqb_spec (Z.of_nat (length target)) 0) as [|_]; [lia|]. done.
Qed.

Lemma update_total (self : AverageMeter) (v n : Q) : exists m, update self v n = Ok m.
Proof. destruct (update_Ok self v n) as (m & Hm & _). eauto. Qed.

(** On a tensor the two validation loops do the same. *)
Lemma validate_transaction_step_tensor (PRINT_FREQ : Z) (criterion : ndarray2 -> list Z -> Q)
  (st : LoopState) (i : nat) (b : Batch) (scores : ndarray2) :
  model_output b = OutputTensor scores ->
  validate_transaction_step PRINT_FREQ criterion st (i, b)
  = validate_resnet_step PRINT_FREQ criterion st (i, b).
Proof.
  intros Hout. unfold validate_transaction_step, validate_resnet_step.
  rewrite Hout. reflexivity.
Qed.








Lemma validate_transaction_step_list (PRINT_FREQ : Z) (criterion : ndarray2 -> list Z -> Q)
  (st : LoopState) (i : nat) (b : Batch) (outputs : list ndarray2) :
  model_output b = OutputList outputs -> outputs <> [] -> output1 st = None ->
  validate_transaction_step PRINT_FREQ criterion st (i, b) = Raise UnboundLocalError.
Proof.
  intros Hout Hne Hunbound. unfold validate_transaction_step. rewrite Hout, Hunbound.
  destruct (last outputs) as [output|] eqn:Hlast; [|by apply last_None in Hlast].
  by rewrite (getlast_fits _ _ Hlast).
Qed.

(** With a model that returns a non-empty list in the first batch,
    [validate_transaction] reads [output1] before any assignment to it,
    where [validate_resnet] evaluates the last element of the list. *)
Theorem validate_transaction_list_output (PRINT_FREQ : Z)
  (criterion : ndarray2 -> list Z -> Q) (b : Batch) (val_loader : list Batch)
  (outputs : list ndarray2) (writer_dict : option WriterDict) (start : Q) :
  model_output b = OutputList outputs -> outputs <> [] ->
  validate_transaction PRINT_FREQ criterion (b :: val_loader) writer_dict start
  = Raise UnboundLocalError.
Proof.
  intros Hout Hne. unfold validate_transaction, enumerate.
  cbn [length seq zip zip_with]. rewrite foldM_cons.
  by rewrite (validate_transaction_step_list _ _ _ _ _ outputs).
Qed.




Lemma validate_transaction_list_output_witness :
  validate_transaction 2 (fun _ _ => 0%Q)
    (example_batch (OutputList [example_scores]) [1; 0; 0]%Z 0
     :: example_loader (OutputTensor example_scores)) None 0
  = Raise UnboundLocalError.
Proof.
  by apply (validate_transaction_list_output 2 (fun _ _ => 0%Q) _ _ [example_scores]).
Defined.

Lemma validate_resnet_step_print_freq_zero (criterion : ndarray2 -> list Z -> Q)
  (st : LoopState) (i : nat) (b : Batch) (scores : ndarray2) :
  classified b scores ->
  validate_resnet_step 0 criterion st (i, b) = Raise ZeroDivisionError.
Proof.
  intros (Hout & Hcols & Hrows & Htarget & Hn).
  unfold validate_resnet_step. rewrite Hout, bind_Ok_l.
  destruct (update_total (losses st) (criterion scores (target b))
              (inject_Z (Z.of_nat (input_size0 b)))) as [losses' ->].
  rewrite bind_Ok_l.
  rewrite accuracy_classification_batch by lia. rewrite bind_Ok_l.
  destruct (update_total (batch_time st) (t_batch b - end_ st) 1) as [batch_time' ->].
  reflexivity.
Qed.

(** With [PRINT_FREQ = 0] the validation functions fail in the first batch,
    after the model has been evaluated on it: [i % config.PRINT_FREQ]
    divides by zero. *)
Theorem validate_print_freq_zero (criterion : ndarray2 -> list Z -> Q) (b : Batch)
  (val_loader : list Batch) (scores : ndarray2) (writer_dict : option WriterDict)
  (start : Q) :
  classified b scores ->
  validate_resnet 0 criterion (b :: val_loader) writer_dict start = Raise ZeroDivisionError
  /\ (model_output b = OutputTensor scores ->
      validate_transaction 0 criterion (b :: val_loader) writer_dict start
      = Raise ZeroDivisionError).
Proof.
  intros Hb. split.
  - unfold validate_resnet, enumerate. cbn [length seq zip zip_with]. rewrite foldM_cons.
    by rewrite (validate_resnet_step_print_freq_zero _ _ _ _ scores).
  - intros Hout. unfold validate_transaction, enumerate.
    cbn [length seq zip zip_with]. rewrite foldM_cons.
    rewrite (validate_transaction_step_tensor _ _ _ _ _ scores) by done.
    by rewrite (validate_resnet_step_print_freq_zero _ _ _ _ scores).
Qed.

Lemma validate_print_freq_zero_witness :
  validate_resnet 0 (fun _ _ => 0%Q) (example_loader (OutputTensor example_scores)) None 0
  = Raise ZeroDivisionError
  /\ validate_transaction 0 (fun _ _ => 0%Q) (example_loader (OutputTensor example_scores))
       None 0
     = Raise ZeroDivisionError.
Proof.
  destruct (validate_print_freq_zero (fun _ _ => 0%Q)
              (example_batch (OutputTensor example_scores) [1; 2; 0]%Z 0)
              [example_batch (OutputTensor example_scores) [1; 0; 0]%Z 1]
              example_scores None 0) as [Hresnet Htransaction].
  - unfold classified. simpl. (split; [done|]); repeat split; lia.
  - split; [exact Hresnet | by apply Htransaction].
Defined.

(** ** The training loop *)

Lemma truediv_nonzero (a b : Q) : ~ (b == 0)%Q -> truediv a b = Ok (a / b)%Q.
Proof.
  intros Hb. unfold truediv. destruct (Qeq_bool b 0) eqn:E; [|done].
  by apply Qeq_bool_iff in E.
Qed.

Lemma update_val (self : AverageMeter) (v n : Q) (m : AverageMeter) :
  update self v n = Ok m -> val m = v.
Proof.
  intros H. destruct (update_Ok self v n) as (m' & Hm' & Hv & _). congruence.
Qed.

(** One iteration on a tensor that classifies the batch, with a clock that
    has advanced. *)
Lemma train_transaction_step_classified (PRINT_FREQ : Z)
  (criterion : ndarray2 -> list Z -> Q) (ts : TrainState) (i : nat) (b : Batch)
  (scores : ndarray2) :
  PRINT_FREQ <> 0%Z ->
  model_output b = OutputTensor scores -> classified b scores ->
  ~ (t_batch b - end_ (locals ts) == 0)%Q ->
  let logged := (Z.of_nat i mod PRINT_FREQ =? 0)%Z in
  exists ts',
    train_transaction_step PRINT_FREQ criterion ts (i, b) = Ok ts'
    /\ optimizer_steps ts' = optimizer_steps ts + 1
    /\ end_ (locals ts') = t_end b
    /\ train_global_steps (train_writer ts')
       = (train_global_steps (train_writer ts) + (if logged then 1 else 0))%Z
    /\ valid_global_steps (train_writer ts') = valid_global_steps (train_writer ts)
    /\ length (writer (train_writer ts'))
       = length (writer (train_writer ts)) + (if logged then 2 else 0)
    /\ (info (locals ts')).*1.*1.*1
       = (info (locals ts)).*1.*1.*1 ++ (if logged then [i] else []).
Proof.
  intros HPF Hout (_ & Hcols & Hrows & Htarget & Hn) Hclock logged.
  unfold train_transaction_step.
  destruct (update_total (data_time (locals ts)) (t_data b - end_ (locals ts)) 1)
    as [data_time' ->].
  rewrite bind_Ok_l, Hout, bind_Ok_l.
  destruct (update_total (losses (locals ts)) (criterion scores (target b))
              (inject_Z (Z.of_nat (input_size0 b)))) as [losses' ->].
  rewrite bind_Ok_l. cbn [read_local]. rewrite bind_Ok_l.
  rewrite accuracy_classification_batch by lia. rewrite bind_Ok_l.
  destruct (update_total (batch_time (locals ts)) (t_batch b - end_ (locals ts)) 1)
    as [batch_time' Hbt].
  rewrite Hbt, bind_Ok_l. unfold py_mod.
  destruct (Z.eqb_spec PRINT_FREQ 0) as [|_]; [done|]. rewrite bind_Ok_l.
  fold logged. destruct logged.
  - rewrite truediv_nonzero by by rewrite (update_val _ _ _ _ Hbt).
    rewrite bind_Ok_l. eexists. split; [reflexivity|].
    cbn [optimizer_steps locals end_ train_writer train_global_steps valid_global_steps
         writer info].
    rewrite length_app, !fmap_app. repeat split; reflexivity.
  - eexists. split; [reflexivity|].
    cbn [optimizer_steps locals end_ train_writer train_global_steps valid_global_steps
         writer info].
    rewrite Z.add_0_r, Nat.add_0_r, app_nil_r. repeat split; reflexivity.
Qed.

Lemma train_transaction_loop (PRINT_FREQ : Z) (criterion : ndarray2 -> list Z -> Q)
  (loader : list Batch) (k : nat) (ts : TrainState) :
  PRINT_FREQ <> 0%Z ->
  Forall (fun b => exists scores,
            model_output b = OutputTensor scores /\ classified b scores) loader ->
  clock_advances (end_ (locals ts)) loader ->
  let logged := filter (fun i => (Z.of_nat i mod PRINT_FREQ = 0)%Z) (seq k (length loader)) in
  exists ts',
    foldM (train_transaction_step PRINT_FREQ criterion) ts (zip (seq k (length loader)) loader)
    = Ok ts'
    /\ optimizer_steps ts' = optimizer_steps ts + length loader
    /\ train_global_steps (train_writer ts')
       = (train_global_steps (train_writer ts) + Z.of_nat (length logged))%Z
    /\ valid_global_steps (train_writer ts') = valid_global_steps (train_writer ts)
    /\ length (writer (train_writer ts'))
       = length (writer (train_writer ts)) + 2 * length logged
    /\ (info (locals ts')).*1.*1.*1 = (info (locals ts)).*1.*1.*1 ++ logged.
Proof.
  intros HPF Hall. revert k ts.
  induction Hall as [|b loader (scores & Hout & Hb) _ IH]; intros k ts Hclock logged.
  - exists ts. subst logged. simpl. rewrite Nat.add_0_r, Z.add_0_r, app_nil_r. done.
  - destruct Hclock as [Hnow Hlater].
    destruct (train_transaction_step_classified PRINT_FREQ criterion ts k b scores HPF Hout
                Hb Hnow) as (ts1 & Hstep & Hopt & Hend & Hgs & Hvs & Hw & Hinfo).
    rewrite <- Hend in Hlater.
    destruct (IH (S k) ts1 Hlater) as (ts' & Hrun & Hopt' & Hgs' & Hvs' & Hw' & Hinfo').
    exists ts'. cbn [length seq zip zip_with]. rewrite foldM_cons, Hstep, bind_Ok_l.
    split; [exact Hrun|].
    subst logged. cbn [length seq]. rewrite filter_cons.
    rewrite Hopt', Hopt, Hgs', Hgs, Hvs', Hvs, Hw', Hw, Hinfo', Hinfo.
    destruct (Z.eqb_spec (Z.of_nat k mod PRINT_FREQ) 0);
      destruct (decide (Z.of_nat k mod PRINT_FREQ = 0)%Z); try done.
    + cbn [length]. rewrite <- app_assoc. repeat split; try done; lia.
    + rewrite app_nil_r. repeat split; try done; lia.
Qed.

(** [train_transaction] on a model that returns a tensor in every batch,
    with a clock that advances between the end of a batch and the end of
    the next: it returns after one [optimizer.step()] per batch, has logged
    at the batches [i] with [i % PRINT_FREQ == 0], has sent two scalars to
    the writer for each of them and has advanced [train_global_steps] by
    their number. *)
Theorem train_transaction_steps (PRINT_FREQ : Z) (criterion : ndarray2 -> list Z -> Q)
  (train_loader : list Batch) (writer_dict : WriterDict) (start : Q) :
  PRINT_FREQ <> 0%Z ->
  Forall (fun b => exists scores,
            model_output b = OutputTensor scores /\ classified b scores) train_loader ->
  clock_advances start train_loader ->
  exists ts,
    train_transaction PRINT_FREQ criterion train_loader writer_dict start = Ok ts
    /\ optimizer_steps ts = length train_loader
    /\ (info (locals ts)).*1.*1.*1 = logged_batches PRINT_FREQ (length train_loader)
    /\ train_global_steps (train_writer ts)
       = (train_global_steps writer_dict
          + Z.of_nat (length (logged_batches PRINT_FREQ (length train_loader))))%Z
    /\ valid_global_steps (train_writer ts) = valid_global_steps writer_dict
    /\ length (writer (train_writer ts))
       = length (writer writer_dict)
         + 2 * length (logged_batches PRINT_FREQ (length train_loader)).
Proof.
  intros HPF Hall Hclock.
  destruct (train_transaction_loop PRINT_FREQ criterion train_loader 0
              {| locals := loop_start start; train_writer := writer_dict;
                 optimizer_steps := 0 |} HPF Hall Hclock)
    as (ts & Hrun & Hopt & Hgs & Hvs & Hw & Hinfo).
  exists ts. split; [exact Hrun|]. split; [exact Hopt|].
  split; [exact Hinfo|]. split; [exact Hgs|]. split; [exact Hvs | exact Hw].
Qed.

Lemma train_transaction_steps_witness :
  exists ts,
    train_transaction 2 (fun _ _ => 0%Q) (example_loader (OutputTensor example_scores))
      example_writer_dict 0 = Ok ts
    /\ optimizer_steps ts = 2
    /\ (info (locals ts)).*1.*1.*1 = [0]
    /\ train_global_steps (train_writer ts) = 5%Z
    /\ length (writer (train_writer ts)) = 2.
Proof.
  destruct (train_transaction_steps 2 (fun _ _ => 0%Q)
              (example_loader (OutputTensor example_scores)) example_writer_dict 0)
    as (ts & Hrun & Hopt & Hinfo & Hgs & _ & Hw).
  - lia.
  - unfold example_loader.
    repeat constructor; exists example_scores; unfold classified; simpl;
      (split; [done|]); (split; [done|]); repeat split; lia.
  - simpl. split; [|split]; done.
  - exists ts. repeat split; done.
Defined.

(** When the clock has not advanced at the first batch, the message of
    [train_transaction] divides by [batch_time.val = 0]. *)
Theorem train_transaction_clock_stands_still (PRINT_FREQ : Z)
  (criterion : ndarray2 -> list Z -> Q) (b : Batch) (train_loader : list Batch)
  (scores : ndarray2) (writer_dict : WriterDict) (start : Q) :
  PRINT_FREQ <> 0%Z ->
  model_output b = OutputTensor scores -> classified b scores ->
  (t_batch b == start)%Q ->
  train_transaction PRINT_FREQ criterion (b :: train_loader) writer_dict start
  = Raise ZeroDivisionError.
Proof.
  intros HPF Hout (_ & Hcols & Hrows & Htarget & Hn) Hclock.
  unfold train_transaction, enumerate. cbn [length seq zip zip_with]. rewrite foldM_cons.
  assert (Hstep : train_transaction_step PRINT_FREQ criterion
                    {| locals := loop_start start; train_writer := writer_dict;
                       optimizer_steps := 0 |} (0, b) = Raise ZeroDivisionError);
    [|by rewrite Hstep].
  unfold train_transaction_step. cbn [locals].
  destruct (update_total (data_time (loop_start start)) (t_data b - end_ (loop_start start)) 1)
    as [data_time' ->].
  rewrite bind_Ok_l, Hout, bind_Ok_l.
  destruct (update_total (losses (loop_start start)) (criterion scores (target b))
              (inject_Z (Z.of_nat (input_size0 b)))) as [losses' ->].
  rewrite bind_Ok_l. cbn [read_local]. rewrite bind_Ok_l.
  rewrite accuracy_classification_batch by lia. rewrite bind_Ok_l.
  destruct (update_total (batch_time (loop_start start))
              (t_batch b - end_ (loop_start start)) 1) as [batch_time' Hbt].
  rewrite Hbt, bind_Ok_l. unfold py_mod.
  destruct (Z.eqb_spec PRINT_FREQ 0) as [|_]; [done|]. rewrite bind_Ok_l.
  change (Z.of_nat 0 mod PRINT_FREQ)%Z with (0 mod PRINT_FREQ)%Z.
  rewrite Z.mod_0_l by done. cbn [Z.eqb].
  unfold truediv. rewrite (update_val _ _ _ _ Hbt).
  assert (Qeq_bool (t_batch b - end_ (loop_start start)) 0 = true) as ->.
  { apply Qeq_bool_iff. cbn [loop_start end_]. rewrite Hclock. ring. }
  reflexivity.
Qed.

Lemma train_transaction_clock_stands_still_witness :
  train_transaction 2 (fun _ _ => 0%Q) (example_loader (OutputTensor example_scores))
    example_writer_dict 1
  = Raise ZeroDivisionError.
Proof.
  apply (train_transaction_clock_stands_still 2 (fun _ _ => 0%Q) _ _ example_scores).
  - lia.
  - reflexivity.
  - unfold classified. simpl. (split; [done|]); repeat split; lia.
  - reflexivity.
Defined.

(** ** [_print_name_value]: a well-formed table *)

Lemma count_char_app (c : ascii) (s1 s2 : string) :
  count_char c (s1 +:+ s2) = count_char c s1 + count_char c s2.
Proof. induction s1 as [|c' s1 IH]; simpl; [done|]. rewrite IH. lia. Qed.

Lemma count_char_substring_0 (c : ascii) (n : nat) (s : string) :
  count_char c (substring 0 n s) <= count_char c s.
Proof.
  revert n. induction s as [|c' s IH]; intros [|n]; simpl; try lia.
  specialize (IH n). lia.
Qed.

Lemma count_char_str_repeat (c : ascii) (s : string) (n : nat) :
  count_char c (str_repeat s n) = n * count_char c s.
Proof. induction n as [|n IH]; simpl; [done|]. rewrite count_char_app, IH. lia. Qed.

(** The cells ["| " + text], joined by spaces: one bar per cell. *)
Lemma count_char_cells {A} (text : A -> string) (l : list A) :
  Forall (fun a => count_char "|" (text a) = 0) l ->
  count_char "|" (String.concat " " (map (fun a => "| " +:+ text a) l)) = length l.
Proof.
  induction 1 as [|a l Ha Hl IH]; [done|].
  destruct l as [|a' l].
  - cbn [map String.concat length]. by rewrite count_char_app, Ha.
  - cbn [map length] in *.
    change (String.concat " " (?x :: ?y :: ?ys))
      with (x +:+ " " +:+ String.concat " " (y :: ys)).
    by rewrite !count_char_app, Ha, IH.
Qed.

Lemma length_substring_0 (n : nat) (s : string) : String.length (substring 0 n s) <= n.
Proof.
  revert n. induction s as [|c s IH]; intros [|n]; simpl; try lia.
  specialize (IH n). lia.
Qed.

Lemma length_substring_0_fits (n : nat) (s : string) :
  n <= String.length s -> String.length (substring 0 n s) = n.
Proof.
  revert n. induction s as [|c s IH]; intros [|n]; simpl; try lia.
  intros Hn. rewrite IH; lia.
Qed.

Lemma length_string_app (s1 s2 : string) :
  String.length (s1 +:+ s2) = String.length s1 + String.length s2.
Proof. induction s1 as [|c s1 IH]; simpl; [done|]. by rewrite IH. Qed.

(** [_print_name_value] logs a table of [len(name_value) + 1] columns: when
    neither the names, nor the formatted values, nor the architecture name
    contain a bar, each of the three lines has [len(name_value) + 2] bars.
    The third line shows the architecture name [shown] before the formatted
    values: a name of at most 15 characters as it is, a longer one as its
    first 8 characters followed by three dots (11 characters). *)
Theorem _print_name_value_table {V} (format_value : V -> string)
  (name_value : list (string * V)) (full_arch_name : string) :
  Forall (fun name => count_char "|" name = 0) (name_value.*1) ->
  Forall (fun value => count_char "|" (format_value value) = 0) (name_value.*2) ->
  count_char "|" full_arch_name = 0 ->
  exists header rule shown,
    let row :=
      "| " +:+ shown +:+ " "
      +:+ String.concat " " (map (fun value => "| " +:+ format_value value) (name_value.*2))
      +:+ " |" in
    _print_name_value format_value name_value full_arch_name = [header; rule; row]
    /\ count_char "|" header = length name_value + 2
    /\ count_char "|" rule = length name_value + 2
    /\ count_char "|" row = length name_value + 2
    /\ (String.length full_arch_name <= 15 -> shown = full_arch_name)
    /\ (15 < String.length full_arch_name ->
        shown = substring 0 8 full_arch_name +:+ "..." /\ String.length shown = 11)
    /\ String.length shown <= 15.
Proof.
  intros Hnames Hvalues Harch. unfold _print_name_value.
  eexists _, _, _. cbv zeta. split; [reflexivity|].
  assert (Hshown : count_char "|"
                     (if 15 <? String.length full_arch_name
                      then substring 0 8 full_arch_name +:+ "..."
                      else full_arch_name) = 0).
  { destruct (15 <? String.length full_arch_name); [|done].
    rewrite count_char_app. pose proof (count_char_substring_0 "|" 8 full_arch_name).
    simpl. lia. }
  split; [|split; [|split; [|split; [|split]]]].
  - rewrite !count_char_app, (count_char_cells (fun name => name)) by done.
    rewrite length_fmap. simpl. lia.
  - rewrite count_char_app, count_char_str_repeat. simpl. lia.
  - rewrite !count_char_app, Hshown, (count_char_cells format_value) by done.
    rewrite length_fmap. simpl. lia.
  - intros Hshort. destruct (Nat.ltb_spec 15 (String.length full_arch_name)); [lia | done].
  - intros Hlong. destruct (Nat.ltb_spec 15 (String.length full_arch_name)); [|lia].
    split; [done|]. rewrite length_string_app, length_substring_0_fits by lia. done.
  - destruct (Nat.ltb_spec 15 (String.length full_arch_name)); [|done].
    rewrite length_string_app. pose proof (length_substring_0 8 full_arch_name).
    simpl. lia.
Qed.

Lemma _print_name_value_table_witness :
  _print_name_value (fun v : nat => pretty v +:+ ".000") [("AP", 71); ("AR", 76)]
    "pose_transaction_h"
  = ["| Arch | AP | AR |"; "|---|---|---|"; "| pose_tra... | 71.000 | 76.000 |"].
Proof.
  destruct (_print_name_value_table (fun v : nat => pretty v +:+ ".000")
              [("AP", 71); ("AR", 76)]
              "pose_transaction_h") as (header & rule & shown & Hrun & _).
  - repeat constructor.
  - repeat constructor.
  - reflexivity.
  - reflexivity.
Defined.

(** ** [accuracy_classification] depends on the order of the scores only *)

Lemma argmax_from_map (f : Q -> Q) (row : list Q) (best_i i : nat) (best : Q) :
  order_preserving f ->
  argmax_from best_i (f best) i (map f row) = argmax_from best_i best i row.
Proof.
  intros Hf. revert best_i i best. induction row as [|x row IH]; intros best_i i best.
  - reflexivity.
  - simpl. destruct (Qlt_le_dec (f best) (f x)) as [Hlt | Hle];
      destruct (Qlt_le_dec best x) as [Hlt' | Hle']; try apply IH.
    + apply Hf in Hlt. exfalso. by apply (Qlt_not_le _ _ Hlt).
    + apply Hf in Hlt'. exfalso. by apply (Qlt_not_le _ _ Hlt').
Qed.

Lemma argmax_row_map (f : Q -> Q) (row : list Q) :
  order_preserving f -> argmax_row (map f row) = argmax_row row.
Proof. intros Hf. destruct row as [|x row]; [done|]. simpl. by apply argmax_from_map. Qed.

Lemma argmax_rows_order (rs rs' : list (list Q)) :
  Forall2 (fun row row' => exists f, order_preserving f /\ row' = map f row) rs rs' ->
  map argmax_row rs' = map argmax_row rs.
Proof.
  induction 1 as [|row row' rs rs' (f & Hf & ->) _ IH]; [done|].
  simpl. by rewrite argmax_row_map, IH.
Qed.

(** Applying to every row of scores a function that keeps the order of the
    scores (a different one for each row, as softmax does) changes neither
    the predicted classes nor the accuracy, nor the error raised. *)
Theorem accuracy_classification_order (output output' : ndarray2) (target : list Z) :
  ncols output' = ncols output ->
  Forall2 (fun row row' => exists f, order_preserving f /\ row' = map f row)
          (rows output) (rows output') ->
  np_argmax_axis1 output' = np_argmax_axis1 output
  /\ accuracy_classification output' target = accuracy_classification output target.
Proof.
  intros Hcols Hrows.
  assert (Hlen : length (rows output') = length (rows output)).
  { symmetry. by eapply Forall2_length. }
  assert (Hargmax : map argmax_row (rows output') = map argmax_row (rows output))
    by by apply argmax_rows_order.
  assert (Hpred : np_argmax_axis1 output' = np_argmax_axis1 output).
  { unfold np_argmax_axis1. by rewrite Hcols, Hargmax. }
  split; [exact Hpred|].
  unfold accuracy_classification. by rewrite Hlen, Hpred.
Qed.

Lemma accuracy_classification_order_witness :
  accuracy_classification
    {| ncols := 3; rows := [[2; 10; 4]; [(3 # 2) + 7; 1 + 7; 0 + 7]; [0; 0; 0]]%Q |}
    [1; 2; 0]%Z
  = accuracy_classification example_scores [1; 2; 0]%Z.
Proof.
  apply (accuracy_classification_order example_scores
           {| ncols := 3; rows := [[2; 10; 4]; [(3 # 2) + 7; 1 + 7; 0 + 7]; [0; 0; 0]]%Q |}
           [1; 2; 0]%Z); [reflexivity|].
  unfold example_scores. cbn [rows]. repeat constructor.
  - exists (fun x => 2 * x)%Q. split; [|reflexivity].
    intros x y. split; intros H.
    + apply Qmult_lt_l; done.
    + by apply Qmult_lt_l in H.
  - exists (fun x => x + 7)%Q. split; [|reflexivity].
    intros x y. split; intros H.
    + by apply Qplus_lt_l.
    + by apply Qplus_lt_l in H.
  - exists (fun x => x). split; [|reflexivity]. intros x y. done.
Defined.
